(** * unity3d-package-syncer: a shallow embedding of [bin/sync.js]

    The script reconciles the packages declared in a project's
    [package.json] with the directory [Assets/Plugins/Packages] of a
    Unity project, in three phases (install, remove redundant, prune
    empty scopes).  The development below embeds

    - the string and path primitives the script uses ([String.includes],
      [String.startsWith], [path.join], [path.resolve], POSIX flavour),
    - a tree model of the file system together with the primitives of
      [fs-extra] and [extfs] the script calls,
    - the script itself, written in a state-and-exception monad that also
      records which guarded or mutating primitive was invoked on which
      path,

    and then states and proves the properties of the reconciliation. *)

From Stdlib Require Import String Ascii List Bool Arith Lia.
#[local] Set Warnings "-register-all".
Import ListNotations.
Local Open Scope list_scope.
Local Open Scope string_scope.

(* ================================================================== *)
(** * JavaScript strings *)
(* ================================================================== *)

Module Js.

(** [s.startsWith(pre)] *)
Fixpoint startsWith (s pre : string) {struct pre} : bool :=
  match pre with
  | EmptyString => true
  | String a pre' =>
      match s with
      | EmptyString => false
      | String b s' => Ascii.eqb a b && startsWith s' pre'
      end
  end.

(** [s.includes(sub)]: [sub] occurs in [s] as a contiguous substring. *)
Fixpoint includes (s sub : string) : bool :=
  startsWith s sub
  || match s with
     | EmptyString => false
     | String _ s' => includes s' sub
     end.

(** [a.includes(x)] on an array of strings. *)
Definition array_includes (a : list string) (x : string) : bool :=
  existsb (String.eqb x) a.

(** Last character of a string, if any. *)
Fixpoint last_char (s : string) : option ascii :=
  match s with
  | EmptyString => None
  | String c EmptyString => Some c
  | String _ s' => last_char s'
  end.

(** [s.split("/")] *)
Fixpoint split (s : string) : list string :=
  match s with
  | EmptyString => [""]
  | String c s' =>
      if Ascii.eqb c "/" then "" :: split s'
      else match split s' with
           | [] => [String c ""]
           | h :: t => String c h :: t
           end
  end.

Definition nonempty (s : string) : bool := negb (s =? "").

End Js.

(* ================================================================== *)
(** * Node's [path] module (POSIX) *)
(* ================================================================== *)

Module Path.

(** One round of [normalizeString]: [res] holds the segments kept so
    far, most recent first. Empty segments and ["."] are dropped,
    [".."] removes the previous segment when there is one to remove
    and is kept only when the path may climb above its root. *)
Definition step (allowAboveRoot : bool) (res : list string) (seg : string)
  : list string :=
  if seg =? "" then res
  else if seg =? "." then res
  else if seg =? ".." then
    match res with
    | top :: rest =>
        if top =? ".." then (if allowAboveRoot then ".." :: res else res)
        else rest
    | [] => if allowAboveRoot then [".."] else []
    end
  else seg :: res.

Definition normalizeString (path : string) (allowAboveRoot : bool) : string :=
  String.concat "/" (rev (fold_left (step allowAboveRoot) (Js.split path) [])).

Definition isAbsolute (path : string) : bool := Js.startsWith path "/".

Definition trailingSeparator (path : string) : bool :=
  match Js.last_char path with
  | Some c => Ascii.eqb c "/"
  | None => false
  end.

(** [path.normalize] *)
Definition normalize (path : string) : string :=
  if path =? "" then "."
  else
    let p := normalizeString path (negb (isAbsolute path)) in
    if p =? "" then
      (if isAbsolute path then "/"
       else if trailingSeparator path then "./" else ".")
    else
      let p := if trailingSeparator path then p ++ "/" else p in
      if isAbsolute path then "/" ++ p else p.

(** [path.join(...args)]: the non-empty arguments glued with ["/"],
    then normalised. *)
Definition join (args : list string) : string :=
  match filter Js.nonempty args with
  | [] => "."
  | l => normalize (String.concat "/" l)
  end.

(** The right-to-left scan of [path.resolve]: [rargs] is the argument
    list reversed; the scan stops at the first absolute argument and
    falls back on the working directory. *)
Fixpoint resolve_scan (cwd : string) (rargs : list string) (acc : string)
  : string * bool :=
  match rargs with
  | [] =>
      if cwd =? "" then (acc, false)
      else (cwd ++ "/" ++ acc, isAbsolute cwd)
  | a :: rest =>
      if a =? "" then resolve_scan cwd rest acc
      else if isAbsolute a then (a ++ "/" ++ acc, true)
      else resolve_scan cwd rest (a ++ "/" ++ acc)
  end.

(** [path.resolve(...args)], with [process.cwd()] made explicit. *)
Definition resolve (cwd : string) (args : list string) : string :=
  let '(resolvedPath, resolvedAbsolute) := resolve_scan cwd (rev args) "" in
  let p := normalizeString resolvedPath (negb resolvedAbsolute) in
  if resolvedAbsolute then "/" ++ p
  else if p =? "" then "." else p.

(** How the operating system reads a path handed to a system call:
    the names between the separators. *)
Definition components (p : string) : list string :=
  filter Js.nonempty (Js.split p).

(** A name that can label a directory entry. *)
Definition no_slash (s : string) : bool := negb (Js.includes s "/").

Definition valid_name (s : string) : bool :=
  Js.nonempty s && negb (s =? ".") && negb (s =? "..") && no_slash s.

(** The absolute path whose components are [l]. *)
Definition absolute (l : list string) : string := "/" ++ String.concat "/" l.

End Path.

(* ================================================================== *)
(** * The file system *)
(* ================================================================== *)

(** What the script reads out of a [package.json]: the fields it looks
    at, each possibly absent. [dependencies] lists the keys in the order
    [Object.keys] enumerates them, with the version ranges the script
    never inspects. *)
Record config := mkConfig {
  version : option string;
  keywords : option (list string);
  dependencies : option (list (string * string))
}.

(** A regular file holds either a JSON document or anything else. *)
Inductive content :=
| Json (c : config)
| Text (s : string).

(** A tree of directories and regular files (symbolic links are not
    modelled). A directory lists its entries in the order [readdir]
    reports them. *)
Inductive node :=
| File (d : content)
| Dir (es : list (string * node)).

Module Fs.

Definition is_dir (n : node) : bool :=
  match n with Dir _ => true | File _ => false end.

Definition is_file (n : node) : bool :=
  match n with File _ => true | Dir _ => false end.

(** The entry called [k], if there is one. *)
Fixpoint entry (k : string) (es : list (string * node)) : option node :=
  match es with
  | [] => None
  | (k', n) :: es' => if k' =? k then Some n else entry k es'
  end.

(** Replace the entry called [k], or add it at the end. *)
Fixpoint set_entry (k : string) (v : node) (es : list (string * node))
  : list (string * node) :=
  match es with
  | [] => [(k, v)]
  | (k', n) :: es' =>
      if k' =? k then (k', v) :: es' else (k', n) :: set_entry k v es'
  end.

Definition del_entry (k : string) (es : list (string * node))
  : list (string * node) :=
  filter (fun e => negb (fst e =? k)) es.

(** The node a path leads to. *)
Fixpoint lookup (n : node) (p : list string) : option node :=
  match p with
  | [] => Some n
  | k :: p' =>
      match n with
      | File _ => None
      | Dir es =>
          match entry k es with
          | Some c => lookup c p'
          | None => None
          end
      end
  end.

(** Put [v] at [p], creating the missing directories on the way
    ([mkdir -p]); fails when the way leads through a regular file. *)
Fixpoint write (p : list string) (v : node) (n : node) : option node :=
  match p with
  | [] => Some v
  | k :: p' =>
      match n with
      | File _ => None
      | Dir es =>
          match write p' v (match entry k es with
                            | Some c => c
                            | None => Dir []
                            end) with
          | Some c' => Some (Dir (set_entry k c' es))
          | None => None
          end
      end
  end.

(** Remove whatever [p] leads to, if anything ([rm -rf]); the root
    itself stays. *)
Fixpoint remove (p : list string) (n : node) : node :=
  match p with
  | [] => n
  | k :: p' =>
      match n with
      | File _ => n
      | Dir es =>
          match p' with
          | [] => Dir (del_entry k es)
          | _ :: _ =>
              match entry k es with
              | Some c => Dir (set_entry k (remove p' c) es)
              | None => n
              end
          end
      end
  end.

(** Copying the entries [es] one after the other over the entries
    [ds] of the destination, each with [copy_node]. *)
Definition copy_entries (copy_node : node -> option node -> option node) :=
  fix go (es ds : list (string * node)) : option (list (string * node)) :=
    match es with
    | [] => Some ds
    | (k, c) :: es' =>
        match copy_node c (entry k ds) with
        | Some c' => go es' (set_entry k c' ds)
        | None => None
        end
    end.

(** Recursive copy of [src] over what is at the destination ([dst],
    if anything): a file replaces a file, a directory is merged into a
    directory entry by entry, and a file and a directory never replace
    one another. *)
Fixpoint copy (src : node) (dst : option node) : option node :=
  match src with
  | File d =>
      match dst with
      | Some (Dir _) => None
      | _ => Some (File d)
      end
  | Dir es =>
      match dst with
      | Some (File _) => None
      | _ =>
          option_map Dir
            (copy_entries copy es
               (match dst with Some (Dir ds) => ds | _ => [] end))
      end
  end.

(** [a] is an initial segment of [b]. *)
Fixpoint is_prefix (a b : list string) : bool :=
  match a, b with
  | [], _ => true
  | x :: a', y :: b' => (x =? y) && is_prefix a' b'
  | _ :: _, [] => false
  end.

Definition names (es : list (string * node)) : list string := map fst es.

Fixpoint nodupb (l : list string) : bool :=
  match l with
  | [] => true
  | x :: l' => negb (existsb (String.eqb x) l') && nodupb l'
  end.

(** A well-formed tree: in every directory the entries have distinct
    names, none of them empty, ["."], [".."] or containing a separator. *)
Fixpoint wf (n : node) : bool :=
  match n with
  | File _ => true
  | Dir es =>
      nodupb (names es)
      && forallb Path.valid_name (names es)
      && forallb (fun e => wf (snd e)) es
  end.

End Fs.

(** Induction on trees, with the hypothesis for every entry of a
    directory. *)
Fixpoint node_rect' (P : node -> Prop)
    (HF : forall d, P (File d))
    (HD : forall es, Forall (fun e => P (snd e)) es -> P (Dir es))
    (n : node) {struct n} : P n :=
  match n with
  | File d => HF d
  | Dir es =>
      HD es ((fix go (es : list (string * node))
                : Forall (fun e => P (snd e)) es :=
                match es with
                | [] => Forall_nil _
                | e :: es' => Forall_cons e (node_rect' P HF HD (snd e)) (go es')
                end) es)
  end.

(* ================================================================== *)
(** * Effects: state, exceptions and the record of operations *)
(* ================================================================== *)

(** The operations the safety guard is about, and the guard itself. *)
Inductive event :=
| Validate (p : string)          (* validateProjectPackageDirectory(p) *)
| EmptyDir (p : string)          (* fs.emptyDirSync(p) *)
| Copy (src dst : string)        (* fs.copySync(src, dst) *)
| Remove (p : string)            (* fs.removeSync(p) *)
| Unlink (p : string)            (* fs.unlinkSync(p) *)
| IsEmpty (p : string).          (* extfs.isEmptySync(p) *)

(** The two ways the script dies: the guard's [Error], and an exception
    of a file-system primitive. *)
Inductive error :=
| UnsafePath (p : string)
| IOError (op : string) (p : string).

(** The world: the file system and the operations invoked so far, the
    most recent first. *)
Record world := mkWorld { tree : node; log : list event }.

(** A computation either returns in a new world or throws; of a run
    that threw only the record of operations is kept (the model does not
    say which tree a failed run leaves behind). *)
Inductive outcome (A : Type) :=
| Done (a : A) (w : world)
| Thrown (e : error) (l : list event).
Arguments Done {A} a w.
Arguments Thrown {A} e l.

Definition M (A : Type) : Type := world -> outcome A.

Definition ret {A} (a : A) : M A := fun w => Done a w.

Definition bind {A B} (m : M A) (k : A -> M B) : M B :=
  fun w => match m w with
           | Done a w' => k a w'
           | Thrown e l => Thrown e l
           end.

Definition throw {A} (e : error) : M A := fun w => Thrown e (log w).

Definition record (e : event) : M unit :=
  fun w => Done tt (mkWorld (tree w) (e :: log w)).

Declare Scope sync_scope.
Delimit Scope sync_scope with sync.
Notation "x <- m ;; k" := (bind m (fun x => k))
  (at level 100, m at next level, right associativity) : sync_scope.
Notation "m ;; k" := (bind m (fun _ => k))
  (at level 100, right associativity) : sync_scope.
Local Open Scope sync_scope.

(** [for (let x of xs) body] *)
Fixpoint for_of {A} (xs : list A) (body : A -> M unit) : M unit :=
  match xs with
  | [] => ret tt
  | x :: xs' => body x ;; for_of xs' body
  end.

(** [xs.forEach(f)]: [f] receives the element and its index. *)
Fixpoint forEach_from {A} (i : nat) (xs : list A) (f : A -> nat -> M unit)
  : M unit :=
  match xs with
  | [] => ret tt
  | x :: xs' => f x i ;; forEach_from (S i) xs' f
  end.

Definition forEach {A} (xs : list A) (f : A -> nat -> M unit) : M unit :=
  forEach_from 0 xs f.

(** [xs.map(f)] for a callback with effects. *)
Fixpoint mapM {A B} (f : A -> M B) (xs : list A) : M (list B) :=
  match xs with
  | [] => ret []
  | x :: xs' => y <- f x ;; ys <- mapM f xs' ;; ret (y :: ys)
  end.

(** [xs.filter(f)] for a callback with effects. *)
Fixpoint filterM {A} (f : A -> M bool) (xs : list A) : M (list A) :=
  match xs with
  | [] => ret []
  | x :: xs' =>
      b <- f x ;; ys <- filterM f xs' ;; ret (if b then x :: ys else ys)
  end.

(* ================================================================== *)
(** * The primitives of [fs-extra] and [extfs] *)
(* ================================================================== *)

(** The primitives follow the documented contracts of the libraries.
    Every path the script hands to them comes out of [path.join] or
    [path.resolve], so it is read by its components alone. *)

Definition at_path (w : world) (p : string) : option node :=
  Fs.lookup (tree w) (Path.components p).

Definition set_tree (t : node) : M unit :=
  fun w => Done tt (mkWorld t (log w)).

(** [fs.existsSync] *)
Definition existsSync (p : string) : M bool :=
  fun w => Done (match at_path w p with Some _ => true | None => false end) w.

(** [fs.readJsonSync]: throws unless [p] is a regular file holding JSON. *)
Definition readJsonSync (p : string) : M config :=
  fun w => match at_path w p with
           | Some (File (Json c)) => Done c w
           | _ => Thrown (IOError "readJson" p) (log w)
           end.

(** [fs.readdirSync]: throws unless [p] is a directory. *)
Definition readdirSync (p : string) : M (list string) :=
  fun w => match at_path w p with
           | Some (Dir es) => Done (Fs.names es) w
           | _ => Thrown (IOError "readdir" p) (log w)
           end.

(** [fs.statSync(p).isDirectory()]: throws when nothing is at [p]. *)
Definition statSync_isDirectory (p : string) : M bool :=
  fun w => match at_path w p with
           | Some n => Done (Fs.is_dir n) w
           | None => Thrown (IOError "stat" p) (log w)
           end.

(** [fs.emptyDirSync]: an existing directory loses its contents, a
    missing one is created together with its missing parents; throws
    when [dir] or something on the way to it is a regular file. *)
Definition emptyDirSync (dir : string) : M unit :=
  record (EmptyDir dir) ;;
  fun w => match at_path w dir with
           | Some (File _) => Thrown (IOError "emptyDir" dir) (log w)
           | _ =>
               match Fs.write (Path.components dir) (Dir []) (tree w) with
               | Some t => set_tree t w
               | None => Thrown (IOError "emptyDir" dir) (log w)
               end
           end.

(** [fs.copySync]: recursive, overwriting copy; the parents of the
    destination are created when missing. Throws when the source is
    missing, when the destination is the source or lies inside it, and
    when a file would replace a directory or a directory a file. *)
Definition copySync (src dest : string) : M unit :=
  record (Copy src dest) ;;
  fun w => match at_path w src with
           | None => Thrown (IOError "copy" src) (log w)
           | Some n =>
               if Fs.is_prefix (Path.components src) (Path.components dest)
               then Thrown (IOError "copy" dest) (log w)
               else
                 match Fs.copy n (at_path w dest) with
                 | None => Thrown (IOError "copy" dest) (log w)
                 | Some n' =>
                     match Fs.write (Path.components dest) n' (tree w) with
                     | Some t => set_tree t w
                     | None => Thrown (IOError "copy" dest) (log w)
                     end
                 end
           end.

(** [fs.removeSync]: removes a file or a whole directory, silently
    does nothing when there is nothing at [p]; the root cannot be
    removed. *)
Definition removeSync (p : string) : M unit :=
  record (Remove p) ;;
  fun w => match Path.components p with
           | [] => Thrown (IOError "remove" p) (log w)
           | cs => set_tree (Fs.remove cs (tree w)) w
           end.

(** [fs.unlinkSync]: removes a regular file, throws on anything else. *)
Definition unlinkSync (p : string) : M unit :=
  record (Unlink p) ;;
  fun w => match at_path w p with
           | Some (File _) => set_tree (Fs.remove (Path.components p) (tree w)) w
           | _ => Thrown (IOError "unlink" p) (log w)
           end.

(** [extfs.isEmptySync]: true for a path that does not exist, for a
    directory without entries and for a file of length zero. *)
Definition isEmptySync (p : string) : M bool :=
  record (IsEmpty p) ;;
  fun w => Done (match at_path w p with
                 | None => true
                 | Some (Dir es) => match es with [] => true | _ => false end
                 | Some (File (Text s)) => s =? ""
                 | Some (File (Json _)) => false
                 end) w.

(* ================================================================== *)
(** * The script *)
(* ================================================================== *)

(** The second argument [copyIfExistsSync] is called with: a string
    when the script calls it itself, the index when [forEach] does. *)
Inductive jsarg :=
| JsString (s : string)
| JsNumber (n : nat).

Definition option_eqb (a b : option string) : bool :=
  match a, b with
  | Some x, Some y => x =? y
  | None, None => true
  | _, _ => false
  end.

Definition PROJECT_RELATIVE_PACKAGES_PATH : string :=
  Path.join ["Assets"; "Plugins"; "Packages"].

Definition specialKeyword : string := "unity3d-package".
Definition extraFiles : list string := ["package.json"; "README.md"; "LICENSE"].

Section Script.

(** [process.cwd()] *)
Variable cwd : string.

Definition projectRootDir : string := cwd.
Definition projectConfigPath : string :=
  Path.join [projectRootDir; "package.json"].
Definition projectPackagesDir : string :=
  Path.join [projectRootDir; PROJECT_RELATIVE_PACKAGES_PATH].

(** ** Helper functions *)

Definition validateProjectPackageDirectory (packageDir : string) : M unit :=
  record (Validate packageDir) ;;
  if negb (Js.includes packageDir PROJECT_RELATIVE_PACKAGES_PATH)
  then throw (UnsafePath packageDir)
  else ret tt.

Definition getDirectories (srcpath : string) : M (list string) :=
  files <- readdirSync srcpath ;;
  filterM (fun file => statSync_isDirectory (Path.join [srcpath; file])) files.

(** [flatMap] concatenates what the callback returns; the callback of
    [getProjectPackageListing] returns an array for a scope directory
    and a single string, which [concat] appends as it is, otherwise. *)
Definition getProjectPackageListing : M (list string) :=
  dirs <- getDirectories projectPackagesDir ;;
  parts <- mapM (fun packageDirectory =>
             if Js.startsWith packageDirectory "@"
             then
               scoped <- getDirectories
                           (Path.join [projectPackagesDir; packageDirectory]) ;;
               ret (map (fun scopedPackageName =>
                           packageDirectory ++ "/" ++ scopedPackageName)
                        scoped)
             else ret [packageDirectory]) dirs ;;
  ret (List.concat parts).

Definition getProjectPackageScopes : M (list string) :=
  dirs <- getDirectories projectPackagesDir ;;
  ret (filter (fun packageDirectory => Js.startsWith packageDirectory "@") dirs).

(** ** Phase 1 - copy packages into the project's packages directory *)

Definition copyIfExistsSync (dependencyDir assetsTargetPath : string)
    (sourceRelativeFileName : string) (targetRelativeFileName : jsarg)
  : M unit :=
  let sourcePath := Path.join [dependencyDir; sourceRelativeFileName] in
  ex <- existsSync sourcePath ;;
  if ex then
    let targetRelativeFileName :=
      match targetRelativeFileName with
      | JsString s => s
      | JsNumber _ => sourceRelativeFileName
      end in
    let targetPath := Path.join [assetsTargetPath; targetRelativeFileName] in
    copySync sourcePath targetPath
  else ret tt.

(** The statements after the version gate: the installation proper. *)
Definition installPackage (dependencyDir assetsTargetPath : string) : M unit :=
  emptyDirSync assetsTargetPath ;;
  copyIfExistsSync dependencyDir assetsTargetPath "assets" (JsString "") ;;
  forEach extraFiles
    (fun f i => copyIfExistsSync dependencyDir assetsTargetPath f (JsNumber i)).

(** One round of the loop of phase 1; [ret tt] where the script says
    [continue]. *)
Definition phase1_step (dependencyName : string) : M unit :=
  let dependencyDir := Path.join [projectRootDir; "node_modules"; dependencyName] in
  let dependencyConfigPath := Path.join [dependencyDir; "package.json"] in
  dependencyConfig <- readJsonSync dependencyConfigPath ;;
  let dependencyKeywords :=
    match keywords dependencyConfig with Some k => k | None => [] end in
  if negb (Js.array_includes dependencyKeywords specialKeyword) then ret tt
  else
    let assetsTargetPath := Path.resolve cwd [projectPackagesDir; dependencyName] in
    validateProjectPackageDirectory assetsTargetPath ;;
    let assetsTargetConfigPath := Path.join [assetsTargetPath; "package.json"] in
    ex <- existsSync assetsTargetConfigPath ;;
    same <- (if ex then
               assetsTargetConfig <- readJsonSync assetsTargetConfigPath ;;
               ret (option_eqb (version dependencyConfig)
                               (version assetsTargetConfig))
             else ret false) ;;
    if same then ret tt
    else installPackage dependencyDir assetsTargetPath.

Definition phase1 (projectDependencies : list (string * string)) : M unit :=
  for_of (map fst projectDependencies) phase1_step.

(** ** Phase 2 - remove redundant packages *)

Definition phase2_step (redundantPackageName : string) : M unit :=
  let redundantPackageDir :=
    Path.resolve cwd [projectPackagesDir; redundantPackageName] in
  let redundantPackageMetaPath :=
    Path.resolve cwd [projectPackagesDir; redundantPackageName ++ ".meta"] in
  validateProjectPackageDirectory redundantPackageDir ;;
  ex <- existsSync redundantPackageDir ;;
  (if ex then removeSync redundantPackageDir else ret tt) ;;
  ex' <- existsSync redundantPackageMetaPath ;;
  (if ex' then unlinkSync redundantPackageMetaPath else ret tt).

Definition redundant (projectDependencyNames projectPackageListing : list string)
  : list string :=
  filter (fun packageName =>
            negb (Js.array_includes projectDependencyNames packageName))
         projectPackageListing.

Definition phase2 (projectDependencyNames : list string) : M unit :=
  projectPackageListing <- getProjectPackageListing ;;
  let projectRedundantPackageNames :=
    redundant projectDependencyNames projectPackageListing in
  for_of projectRedundantPackageNames phase2_step.

(** ** Phase 3 - remove empty scope directories *)

Definition phase3_step (projectPackageScope : string) : M unit :=
  let projectPackageScopeDir :=
    Path.resolve cwd [projectPackagesDir; projectPackageScope] in
  let projectPackageScopeMeta :=
    Path.resolve cwd [projectPackagesDir; projectPackageScope ++ ".meta"] in
  validateProjectPackageDirectory projectPackageScopeDir ;;
  empty <- isEmptySync projectPackageScopeDir ;;
  if empty then
    removeSync projectPackageScopeDir ;;
    ex <- existsSync projectPackageScopeMeta ;;
    if ex then unlinkSync projectPackageScopeMeta else ret tt
  else ret tt.

Definition phase3 : M unit :=
  scopes <- getProjectPackageScopes ;;
  for_of scopes phase3_step.

(** ** The whole script *)

Definition sync : M unit :=
  projectConfig <- readJsonSync projectConfigPath ;;
  let projectDependencies :=
    match dependencies projectConfig with Some d => d | None => [] end in
  let projectDependencyNames := map fst projectDependencies in
  phase1 projectDependencies ;;
  phase2 projectDependencyNames ;;
  phase3.

End Script.

(** A run from scratch: the tree the script finds, nothing recorded. *)
Definition run (cwd : string) (t : node) : outcome unit :=
  sync cwd (mkWorld t []).

(* ================================================================== *)
(** * Vocabulary of the statements *)
(* ================================================================== *)

(** [r] is the relative path made of the names [rs]. *)
Definition relpath (r : string) (rs : list string) : Prop :=
  r = String.concat "/" rs /\ rs <> [] /\ Forall (fun s => Path.valid_name s = true) rs.

Definition valid_names (l : list string) : Prop :=
  Forall (fun s => Path.valid_name s = true) l.

(** Two paths neither of which leads through the other. *)
Definition apart (p q : list string) : Prop :=
  Fs.is_prefix p q = false /\ Fs.is_prefix q p = false.

(** What a run has recorded, whether it returned or threw. *)
Definition log_of {A} (o : outcome A) : list event :=
  match o with
  | Done _ w => log w
  | Thrown _ l => l
  end.

(** Hoare triples for the monad: from a world satisfying [P], the
    computation returns in a world satisfying [Q], or throws with a
    record satisfying [E]. *)
Definition triple {A} (P : world -> Prop) (m : M A)
    (Q : A -> world -> Prop) (E : error -> list event -> Prop) : Prop :=
  forall w, P w ->
    match m w with
    | Done a w' => Q a w'
    | Thrown e l => E e l
    end.

(** ** The safety guard *)

(** The path a delete operation or an emptiness check is applied to. *)
Definition deletion_or_emptiness (e : event) : option string :=
  match e with
  | EmptyDir p | Remove p | Unlink p | IsEmpty p => Some p
  | Validate _ | Copy _ _ => None
  end.

(** The same, restricted to the operations on directories. *)
Definition directory_operation (e : event) : option string :=
  match e with
  | EmptyDir p | Remove p | IsEmpty p => Some p
  | Validate _ | Copy _ _ | Unlink _ => None
  end.

(** The test of the guard. *)
Definition safe (p : string) : bool :=
  Js.includes p PROJECT_RELATIVE_PACKAGES_PATH.

(** In the record [l], [e] was invoked when [older] had been. *)
Definition happened (l : list event) (e : event) (older : list event) : Prop :=
  exists newer, l = (newer ++ e :: older)%list.

(** Every operation selected by [sel] was preceded by a call of the
    guard on the very same path, and that path passes the test. *)
Definition guard_precedes (sel : event -> option string) (l : list event)
  : Prop :=
  forall e older p,
    happened l e older -> sel e = Some p ->
    In (Validate p) older /\ safe p = true.

(** A call of the guard on a path that fails the test is the last thing
    the run does: it throws there. *)
Definition guard_aborts (o : outcome unit) : Prop :=
  forall older p,
    happened (log_of o) (Validate p) older -> safe p = false ->
    o = Thrown (UnsafePath p) (Validate p :: older).

(** A sidecar file is unlinked only after the guard has passed on the
    directory it accompanies. *)
Definition sidecar_follows_guard (cwd : string) (l : list event) : Prop :=
  forall older p,
    happened l (Unlink p) older ->
    exists name,
      p = Path.resolve cwd [projectPackagesDir cwd; name ++ ".meta"]
      /\ In (Validate (Path.resolve cwd [projectPackagesDir cwd; name])) older
      /\ safe (Path.resolve cwd [projectPackagesDir cwd; name]) = true.

(** Records the script can produce while it keeps running: the guard
    passed wherever it was called, directory operations come after the
    guard on their path, unlinked sidecars after the guard on their
    directory. *)
Inductive ok_log (cwd : string) : list event -> Prop :=
| ok_nil : ok_log cwd []
| ok_validate p l :
    safe p = true -> ok_log cwd l -> ok_log cwd (Validate p :: l)
| ok_copy s d l : ok_log cwd l -> ok_log cwd (Copy s d :: l)
| ok_directory e p l :
    directory_operation e = Some p -> In (Validate p) l ->
    ok_log cwd l -> ok_log cwd (e :: l)
| ok_unlink name l :
    In (Validate (Path.resolve cwd [projectPackagesDir cwd; name])) l ->
    ok_log cwd l ->
    ok_log cwd (Unlink (Path.resolve cwd [projectPackagesDir cwd; name ++ ".meta"]) :: l).

(** Records of a run that threw: as above, or the guard has just failed. *)
Definition ok_thrown (cwd : string) (e : error) (l : list event) : Prop :=
  ok_log cwd l
  \/ exists p l', l = Validate p :: l' /\ safe p = false
                  /\ e = UnsafePath p /\ ok_log cwd l'.

Definition ok_outcome (cwd : string) (o : outcome unit) : Prop :=
  match o with
  | Done _ w => ok_log cwd (log w)
  | Thrown e l => ok_thrown cwd e l
  end.

(** ** The layout of a project *)

(** The components of the packages directory and of the directory of a
    dependency, for a project whose root has the components [cs]. *)
Definition packagesPath (cs : list string) : list string :=
  (cs ++ ["Assets"; "Plugins"; "Packages"])%list.

Definition modulePath (cs ns : list string) : list string :=
  (cs ++ "node_modules" :: ns)%list.

(** The names installed packages go by: a plain name, or a scope -
    a name that starts with ["@"] - followed by a name. With each name
    come the components of its directory and of its sidecar below the
    packages directory. *)
Inductive package_name : string -> list string -> list string -> Prop :=
| plain_name x :
    Path.valid_name x = true -> Js.startsWith x "@" = false ->
    package_name x [x] [x ++ ".meta"]
| scoped_name s c :
    Path.valid_name s = true -> Js.startsWith s "@" = true ->
    Path.valid_name c = true ->
    package_name (s ++ "/" ++ c) [s; c] [s; c ++ ".meta"].

(** ** Phase 1 *)

(** The marker keyword is among the keywords of a package. *)
Definition has_marker (c : config) : bool :=
  Js.array_includes (match keywords c with Some k => k | None => [] end)
                    specialKeyword.

(** Where a dependency comes from and where it goes, as [phase1_step]
    computes them. *)
Definition dependencyDir (cwd name : string) : string :=
  Path.join [projectRootDir cwd; "node_modules"; name].

Definition assetsTargetPath (cwd name : string) : string :=
  Path.resolve cwd [projectPackagesDir cwd; name].

Definition metadataPath (dir : string) : string :=
  Path.join [dir; "package.json"].

(** The world once the guard has passed on [p]. *)
Definition validated (p : string) (w : world) : world :=
  mkWorld (tree w) (Validate p :: log w).

(** No regular file on the way along [p], the end included. *)
Fixpoint no_file_on_way (n : node) (p : list string) : bool :=
  match n with
  | File _ => false
  | Dir es =>
      match p with
      | [] => true
      | k :: p' =>
          match Fs.entry k es with
          | Some c => no_file_on_way c p'
          | None => true
          end
      end
  end.

(** The copies that follow the clearing of the destination. *)
Definition copyPackageFiles (dependencyDir assetsTargetPath : string) : M unit :=
  copyIfExistsSync dependencyDir assetsTargetPath "assets" (JsString "") ;;
  forEach extraFiles
    (fun f i => copyIfExistsSync dependencyDir assetsTargetPath f (JsNumber i)).

(** ** Phase 2 and phase 3 *)

(** The names of the entries of a directory that are directories. *)
Definition subdirectories (es : list (string * node)) : list string :=
  map fst (filter (fun e => Fs.is_dir (snd e)) es).

(** The installed packages, read off the entries [es] of the packages
    directory: a subdirectory whose name does not start with ["@"] is a
    package of that name; every subdirectory [c] of a subdirectory [s]
    whose name starts with ["@"] is a package named [s/c]; what is not a
    directory is no package. *)
Definition installed_entries (es : list (string * node)) : list string :=
  flat_map (fun e =>
              match snd e with
              | File _ => []
              | Dir cs =>
                  if Js.startsWith (fst e) "@"
                  then map (fun c => fst e ++ "/" ++ c) (subdirectories cs)
                  else [fst e]
              end) es.

(** The scope directories among the entries [es] of the packages
    directory. *)
Definition scope_directories (es : list (string * node)) : list string :=
  filter (fun k => Js.startsWith k "@") (subdirectories es).

(** The version gate of phase 1 would let the package with components
    [ns] pass: if its source carries the marker, the metadata at its
    destination shows the version of the source. *)
Definition up_to_date (cs : list string) (t : node) (ns : list string) : Prop :=
  forall cfg,
    Fs.lookup t (modulePath cs ns ++ ["package.json"]) = Some (File (Json cfg)) ->
    has_marker cfg = true ->
    exists tcfg,
      Fs.lookup t (packagesPath cs ++ ns ++ ["package.json"])
      = Some (File (Json tcfg))
      /\ version tcfg = version cfg.

(** Events that neither copy nor delete: calls of the guard and
    emptiness checks. *)
Definition harmless (e : event) : Prop :=
  match e with
  | Validate _ | IsEmpty _ => True
  | EmptyDir _ | Copy _ _ | Remove _ | Unlink _ => False
  end.

(** What removals below the packages directory of the project at [cs]
    cannot undo: the tree stays well formed, nothing appears and nothing
    changes its kind, the outside is as it was, and the packages
    directory remains a directory. *)
Definition keeps (cs : list string) (t t' : node) : Prop :=
  (Fs.wf t = true -> Fs.wf t' = true)
  /\ (forall q x, Fs.lookup t' q = Some x ->
        exists y, Fs.lookup t q = Some y /\ Fs.is_dir y = Fs.is_dir x)
  /\ (forall q, apart (packagesPath cs) q -> Fs.lookup t' q = Fs.lookup t q)
  /\ (forall es, Fs.lookup t (packagesPath cs) = Some (Dir es) ->
        exists es', Fs.lookup t' (packagesPath cs) = Some (Dir es')).

(** The names a manifest declares, in the order of [Object.keys]. *)
Definition declared_names (c : config) : list string :=
  map fst (match dependencies c with Some d => d | None => [] end).

(** Nothing is left to do in the project at [cs] whose manifest is [c]:
    every declared package passes the version gate, every installed
    package is declared, and no scope directory is empty. *)
Definition settled (cs : list string) (c : config) (t : node) : Prop :=
  Fs.lookup t (cs ++ ["package.json"]) = Some (File (Json c))
  /\ (forall name ns ms, In name (declared_names c) -> package_name name ns ms ->
        up_to_date cs t ns)
  /\ exists es,
       Fs.lookup t (packagesPath cs) = Some (Dir es)
       /\ redundant (declared_names c) (installed_entries es) = []
       /\ forall s, In s (scope_directories es) ->
            Fs.lookup t (packagesPath cs ++ [s]) <> Some (Dir []).

(** Nothing at [p], or a regular file. *)
Definition not_a_directory (t : node) (p : list string) : Prop :=
  forall es, Fs.lookup t p <> Some (Dir es).

(** Something is at [p]. *)
Definition present (w : world) (p : string) : bool :=
  match at_path w p with Some _ => true | None => false end.

(** [w'] differs from [w] at most below [p]. *)
Definition same_outside (p : list string) (w w' : world) : Prop :=
  forall q, apart p q -> Fs.lookup (tree w') q = Fs.lookup (tree w) q.

(** What an installation records when nothing stops it, in the order
    of the events: the clearing of the destination, the copy of the
    [assets] directory into the destination itself, the copies of the
    extra files under their own names - each copy only for a source
    that is present in [w]. *)
Definition installation_events (dep tgt : string) (w : world) : list event :=
  (EmptyDir tgt
   :: (if present w (Path.join [dep; "assets"])
       then [Copy (Path.join [dep; "assets"]) (Path.join [tgt; ""])]
       else [])
   ++ flat_map (fun f =>
                  if present w (Path.join [dep; f])
                  then [Copy (Path.join [dep; f]) (Path.join [tgt; f])]
                  else [])
               extraFiles)%list.

(** Computations that only read: they return in the world they started
    in and, when they throw, leave the record as it was. *)
Definition reads {A} (m : M A) : Prop :=
  forall w, match m w with
            | Done _ w' => w' = w
            | Thrown _ l => l = log w
            end.

(** Computations that only add to the record, whether they return or
    throw. *)
Definition grows {A} (m : M A) : Prop :=
  forall w, exists newer, log_of (m w) = (newer ++ log w)%list.

(** The loop of [installPackage] over the extra files [fs], counting
    from [i]. *)
Definition copy_extras (dep tgt : string) (fs : list string) (i : nat) : M unit :=
  forEach_from i fs (fun f j => copyIfExistsSync dep tgt f (JsNumber j)).

(** The copies of the extra files [fs] that are present in [w]. *)
Definition extras_events (dep tgt : string) (fs : list string) (w : world)
  : list event :=
  flat_map (fun f =>
              if present w (Path.join [dep; f])
              then [Copy (Path.join [dep; f]) (Path.join [tgt; f])]
              else []) fs.

(** What a round of phase 2 for the package with components [ns] and
    sidecar [ms] does to the tree of the project at [cs]. *)
Definition dropped (cs ns ms : list string) (t : node) : node :=
  Fs.remove (packagesPath cs ++ ms) (Fs.remove (packagesPath cs ++ ns) t).

(** [q] is neither inside the directory [ns] nor on the way to it,
    and not on the way to the sidecar [ms]. *)
Definition untouched_by (cs ns ms q : list string) : Prop :=
  apart (packagesPath cs ++ ns) q
  /\ Fs.is_prefix q (packagesPath cs ++ ms) = false.

(** Records in which every copy goes to a guarded destination: to
    [path.join] of an absolute path that passed the guard before and of
    the empty string or the name of an extra file. *)
Inductive copy_guarded : list event -> Prop :=
| cg_nil : copy_guarded []
| cg_copy s ls f l :
    valid_names ls -> safe (Path.absolute ls) = true ->
    In (Validate (Path.absolute ls)) l -> In f ("" :: extraFiles) ->
    copy_guarded l ->
    copy_guarded (Copy s (Path.join [Path.absolute ls; f]) :: l)
| cg_other e l :
    (forall s d, e <> Copy s d) -> copy_guarded l -> copy_guarded (e :: l).

(** The version gate of phase 1 would not let the package with
    components [ns] pass, its source showing the metadata [c]: no
    metadata is installed, or metadata of another version. *)
Definition stale (cs : list string) (t : node) (ns : list string) (c : config)
  : Prop :=
  Fs.lookup t (packagesPath cs ++ ns ++ ["package.json"]) = None
  \/ exists tcfg,
       Fs.lookup t (packagesPath cs ++ ns ++ ["package.json"])
       = Some (File (Json tcfg))
       /\ version tcfg <> version c.

(** The destination of the package with components [ns] in [t'] holds
    what its source in [t] provides: every extra file that the source has
    as a regular file, and under every other name what the [assets]
    directory of the source has under that name (nothing, when it has
    nothing). *)
Definition mirrors (cs : list string) (t t' : node) (ns : list string) : Prop :=
  (forall f d, In f extraFiles ->
     Fs.lookup t (modulePath cs ns ++ [f]) = Some (File d) ->
     Fs.lookup t' (packagesPath cs ++ ns ++ [f]) = Some (File d))
  /\ (forall k q,
        ~ In k extraFiles \/ Fs.lookup t (modulePath cs ns ++ [k]) = None ->
        Fs.lookup t' (packagesPath cs ++ ns ++ k :: q)
        = Fs.lookup t (modulePath cs ns ++ "assets" :: k :: q)).

(** The errors of the file-system primitives, as opposed to the error
    of the guard. *)
Definition io_failure (e : error) : Prop :=
  match e with
  | IOError _ _ => True
  | UnsafePath _ => False
  end.

(* ================================================================== *)
(** * Example projects *)
(* ================================================================== *)

Module Examples.

Definition package (v : string) (kw : option (list string)) : node :=
  File (Json (mkConfig (Some v) kw None)).

Definition unity (v : string) : node :=
  package v (Some ["unity3d"; "unity3d-package"]).

Definition text (s : string) : node := File (Text s).

Definition manifest (deps : list (string * string)) : node :=
  File (Json (mkConfig (Some "1.0.0") None (Some deps))).

(** A project rooted at [/proj] with the given manifest, installed
    node packages and contents of [Assets/Plugins/Packages]. *)
Definition project (m : node) (modules packages : list (string * node)) : node :=
  Dir [("proj",
        Dir [("package.json", m);
             ("node_modules", Dir modules);
             ("Assets", Dir [("Plugins", Dir [("Packages", Dir packages)])])])].

(** A declared package whose name leads out of the packages
    directory: it is found at [/proj/outside] and would be installed
    at [/proj/Assets/Plugins/outside]. With [installed] one chooses
    what is already there. *)
Definition escaping (installed : list (string * node)) : node :=
  Dir [("proj",
        Dir [("package.json", manifest [("../outside", "^1.0.0")]);
             ("node_modules", Dir []);
             ("outside", Dir [("package.json", unity "1.0.0");
                              ("assets", Dir [("a.cs", text "a")])]);
             ("Assets", Dir [("Plugins", Dir installed)])])].

(** A declared package [alpha] at version 1.0.0, installed at the
    version given (or not installed at all). *)
Definition alpha_source : node :=
  Dir [("package.json", unity "1.0.0");
       ("assets", Dir [("a.cs", text "a"); ("Editor", Dir [("e.cs", text "e")])]);
       ("README.md", text "read me")].

Definition alpha_project (installed : list (string * node)) : node :=
  project (manifest [("alpha", "^1.0.0")]) [("alpha", alpha_source)] installed.

Definition alpha_installed (v : string) : list (string * node) :=
  [("alpha", Dir [("package.json", unity v); ("stale.cs", text "old")])].

(** The project of [alpha] where [Assets] is a regular file. *)
Definition alpha_blocked : node :=
  Dir [("proj",
        Dir [("package.json", manifest [("alpha", "^1.0.0")]);
             ("node_modules", Dir [("alpha", alpha_source)]);
             ("Assets", text "not a directory")])].

(** The project of [alpha] without any [Assets] directory yet. *)
Definition alpha_fresh : node :=
  Dir [("proj",
        Dir [("package.json", manifest [("alpha", "^1.0.0")]);
             ("node_modules", Dir [("alpha", alpha_source)])])].

(** Where [alpha] comes from and where it goes. *)
Definition alpha_from : list string := ["proj"; "node_modules"; "alpha"].
Definition alpha_to : list string :=
  ["proj"; "Assets"; "Plugins"; "Packages"; "alpha"].

(** The world in which [alpha] is installed at 0.9.0, and the world
    its installation leaves. *)
Definition alpha_stale : world :=
  mkWorld (alpha_project (alpha_installed "0.9.0")) [].

Definition alpha_replaced : world :=
  match installPackage (Path.absolute alpha_from) (Path.absolute alpha_to)
          alpha_stale with
  | Done _ w' => w'
  | Thrown _ _ => alpha_stale
  end.

(** Three installed packages with their sidecars. *)
Definition installed_ABC : list (string * node) :=
  [("A", Dir [("a.cs", text "a")]); ("A.meta", text "meta a");
   ("B", Dir [("b.cs", text "b")]); ("B.meta", text "meta b");
   ("C", Dir [("c.cs", text "c")]); ("C.meta", text "meta c")].

Definition project_ABC : node :=
  project (manifest [("A", "^1.0.0"); ("C", "^1.0.0")]) [] installed_ABC.

(** Plain and scoped packages, a stray file, an empty scope. *)
Definition installed_mixed : list (string * node) :=
  [("plain", Dir [("p.cs", text "p")]); ("plain.meta", text "meta");
   ("@org", Dir [("foo", Dir [("f.cs", text "f")]); ("foo.meta", text "meta");
                 ("bar", Dir []); ("notes.txt", text "notes")]);
   ("@org.meta", text "meta");
   ("readme.txt", text "read me");
   ("@empty", Dir []); ("@empty.meta", text "meta")].

Definition project_mixed (deps : list (string * string)) : node :=
  project (manifest deps) [] installed_mixed.

(** One scoped package and one plain package, with their sidecars. *)
Definition installed_scoped : list (string * node) :=
  [("@org", Dir [("foo", Dir [("f.cs", text "f")]); ("foo.meta", text "meta")]);
   ("@org.meta", text "meta");
   ("plain", Dir [("p.cs", text "p")]); ("plain.meta", text "meta")].

Definition project_scoped (deps : list (string * string)) : node :=
  project (manifest deps) [] installed_scoped.

(** The tree a run of phase 2 leaves, if it returns. *)
Definition after_phase2 (declared : list string) (t : node) : option node :=
  match phase2 (Path.absolute ["proj"]) declared (mkWorld t []) with
  | Done _ w' => Some (tree w')
  | Thrown _ _ => None
  end.

(** The packages directory of a project rooted at [/proj]. *)
Definition packages : list string := packagesPath ["proj"].

(** Nothing declared; one stale package [B] with its sidecar. *)
Definition stale_B : node :=
  project (manifest []) []
    [("B", Dir [("b.cs", text "b")]); ("B.meta", text "meta")].

(** A project where every phase has something to do: [alpha] is
    installed at an older version, [lodash] is no package for the
    project, and the scope [@org] holds one package nobody declares. *)
Definition busy_project : node :=
  project (manifest [("alpha", "^1.0.0"); ("lodash", "^4.0.0")])
    [("alpha", alpha_source);
     ("lodash", Dir [("package.json", package "4.0.0" None)])]
    (alpha_installed "0.9.0"
     ++ [("@org", Dir [("old", Dir [("o.cs", text "o")]); ("old.meta", text "meta")]);
         ("@org.meta", text "meta")]).

Definition busy_manifest : config :=
  mkConfig (Some "1.0.0") None (Some [("alpha", "^1.0.0"); ("lodash", "^4.0.0")]).

(** The world a run on [t] leaves, if it returns. *)
Definition after_run (t : node) : world :=
  match run (Path.absolute ["proj"]) t with
  | Done _ w' => w'
  | Thrown _ _ => mkWorld t []
  end.

(** The busy project with [alpha] installed at the version of its
    source already, a stale file beside its metadata. *)
Definition current_project : node :=
  project (manifest [("alpha", "^1.0.0"); ("lodash", "^4.0.0")])
    [("alpha", alpha_source);
     ("lodash", Dir [("package.json", package "4.0.0" None)])]
    (alpha_installed "1.0.0"
     ++ [("@org", Dir [("old", Dir [("o.cs", text "o")]); ("old.meta", text "meta")]);
         ("@org.meta", text "meta")]).

(** The world phases 2 and 3 leave, one after the other, if they
    return. *)
Definition after_removal (declared : list string) (t : node) : world :=
  match (phase2 (Path.absolute ["proj"]) declared ;;
         phase3 (Path.absolute ["proj"])) (mkWorld t []) with
  | Done _ w' => w'
  | Thrown _ _ => mkWorld t []
  end.

(** The busy project with a sidecar beside the stale [alpha]. *)
Definition sidecar_project : node :=
  project (manifest [("alpha", "^1.0.0"); ("lodash", "^4.0.0")])
    [("alpha", alpha_source);
     ("lodash", Dir [("package.json", package "4.0.0" None)])]
    (alpha_installed "0.9.0"
     ++ [("alpha.meta", text "guid: 1f");
         ("@org", Dir [("old", Dir [("o.cs", text "o")]); ("old.meta", text "meta")]);
         ("@org.meta", text "meta")]).

(** A manifest that declares [alpha] and, after it, a dependency
    under the empty name: that one is read from [node_modules] itself
    and has the packages directory for its destination. *)
Definition nameless_project : node :=
  project (manifest [("alpha", "^1.0.0"); ("", "^1.0.0")])
    [("alpha", alpha_source); ("package.json", unity "2.0.0")]
    [].

(** A declared package named [../PackagesOld]: it is read from
    [/proj/PackagesOld] and goes to [/proj/Assets/Plugins/PackagesOld],
    a directory beside the packages directory that holds files of
    its own. *)
Definition sibling_project : node :=
  Dir [("proj",
        Dir [("package.json", manifest [("../PackagesOld", "^1.0.0")]);
             ("node_modules", Dir []);
             ("PackagesOld", Dir [("package.json", unity "1.0.0");
                                  ("assets", Dir [("a.cs", text "a")])]);
             ("Assets",
              Dir [("Plugins",
                    Dir [("Packages", Dir []);
                         ("PackagesOld",
                          Dir [("mine.cs", text "kept by hand");
                               ("Art", Dir [("logo.png", text "png")])])])])])].

(** The world the round of phase 1 for [name] leaves on [t], if it
    returns. *)
Definition after_round (name : string) (t : node) : world :=
  match phase1_step (Path.absolute ["proj"]) name (mkWorld t []) with
  | Done _ w' => w'
  | Thrown _ _ => mkWorld t []
  end.

End Examples.

(* ================================================================== *)
(** * Facts about strings and paths *)
(* ================================================================== *)

Section StringFacts.

Lemma string_app_assoc (a b c : string) : (a ++ b) ++ c = a ++ (b ++ c).
Proof. induction a; simpl; congruence. Qed.

Lemma string_app_nil_r (a : string) : a ++ "" = a.
Proof. induction a; simpl; congruence. Qed.

Lemma startsWith_app (s t : string) : Js.startsWith (s ++ t) s = true.
Proof.
  induction s as [|c s IH]; simpl; [reflexivity|].
  now rewrite Ascii.eqb_refl.
Qed.

Lemma includes_app (a sub b : string) :
  Js.includes (a ++ sub ++ b) sub = true.
Proof.
  induction a as [|c a IH].
  - change ("" ++ sub ++ b) with (sub ++ b).
    destruct (sub ++ b) eqn:E; simpl.
    + destruct sub; [reflexivity | discriminate].
    + rewrite <- E, startsWith_app. reflexivity.
  - simpl. rewrite IH. apply orb_true_r.
Qed.

Lemma split_not_nil (s : string) : Js.split s <> [].
Proof.
  induction s as [|c s IH]; simpl; [discriminate|].
  destruct (Ascii.eqb c "/"); [discriminate|].
  destruct (Js.split s); [contradiction | discriminate].
Qed.

Lemma split_app_slash (a b : string) :
  Js.split (a ++ "/" ++ b) = (Js.split a ++ Js.split b)%list.
Proof.
  induction a as [|c a IH]; simpl; [reflexivity|].
  destruct (Ascii.eqb c "/"); [simpl in IH; rewrite IH; reflexivity|].
  simpl in IH. rewrite IH.
  destruct (Js.split a) eqn:E; [exfalso; exact (split_not_nil _ E)|].
  reflexivity.
Qed.

Lemma no_slash_cons (c : ascii) (s : string) :
  Path.no_slash (String c s) = negb (Ascii.eqb c "/") && Path.no_slash s.
Proof.
  unfold Path.no_slash.
  change (Js.includes (String c s) "/")
    with (Js.startsWith (String c s) "/" || Js.includes s "/").
  change (Js.startsWith (String c s) "/")
    with (Ascii.eqb "/" c && true).
  rewrite andb_true_r, (Ascii.eqb_sym "/" c).
  destruct (Ascii.eqb c "/"); reflexivity.
Qed.

Lemma split_no_slash (s : string) :
  Path.no_slash s = true -> Js.split s = [s].
Proof.
  induction s as [|c s IH]; [reflexivity|].
  rewrite no_slash_cons. intros [Hc Hs]%andb_prop.
  simpl. apply negb_true_iff in Hc. rewrite Hc, (IH Hs). reflexivity.
Qed.

Lemma split_all_no_slash (s x : string) :
  In x (Js.split s) -> Path.no_slash x = true.
Proof.
  revert x. induction s as [|c s IH]; simpl; intros x Hx.
  - destruct Hx as [<-|[]]. reflexivity.
  - destruct (Ascii.eqb c "/") eqn:Ec.
    + destruct Hx as [<-|Hx]; [reflexivity | auto].
    + destruct (Js.split s) as [|h t] eqn:E.
      * destruct Hx as [<-|[]]. rewrite no_slash_cons, Ec. reflexivity.
      * destruct Hx as [<-|Hx].
        -- rewrite no_slash_cons, Ec. simpl. apply IH. now left.
        -- apply IH. now right.
Qed.

Lemma last_char_app (a b : string) :
  b <> "" -> Js.last_char (a ++ b) = Js.last_char b.
Proof.
  intros Hb. induction a as [|c a IH]; [reflexivity|].
  simpl. destruct (a ++ b) eqn:E; [|exact IH].
  destruct a; simpl in E; [congruence | discriminate].
Qed.

Lemma no_slash_last_char (s : string) :
  Path.no_slash s = true -> Path.trailingSeparator s = false.
Proof.
  unfold Path.trailingSeparator.
  induction s as [|c s IH]; [reflexivity|].
  rewrite no_slash_cons. intros [Hc Hs]%andb_prop.
  simpl. destruct s; [now apply negb_true_iff in Hc | auto].
Qed.

Lemma concat_cons2 (sep x y : string) (l : list string) :
  String.concat sep (x :: y :: l) = x ++ sep ++ String.concat sep (y :: l).
Proof. reflexivity. Qed.

Lemma concat_app (sep : string) (a b : list string) :
  a <> [] -> b <> [] ->
  String.concat sep (a ++ b)
  = String.concat sep a ++ sep ++ String.concat sep b.
Proof.
  intros Ha Hb. induction a as [|x a IH]; [contradiction|].
  destruct a as [|y a].
  - destruct b; [contradiction | reflexivity].
  - change ((x :: y :: a) ++ b)%list with (x :: y :: (a ++ b))%list.
    rewrite !concat_cons2.
    change (y :: (a ++ b))%list with ((y :: a) ++ b)%list.
    rewrite IH by discriminate. now rewrite !string_app_assoc.
Qed.

End StringFacts.

Section PathFacts.

Lemma valid_name_inv (s : string) :
  Path.valid_name s = true ->
  s <> "" /\ s <> "." /\ s <> ".." /\ Path.no_slash s = true.
Proof.
  unfold Path.valid_name, Js.nonempty.
  intros H. repeat (apply andb_prop in H; destruct H as [H ?]).
  repeat split; try assumption;
    intros ->; discriminate.
Qed.

Lemma components_app_slash (a b : string) :
  Path.components (a ++ "/" ++ b)
  = (Path.components a ++ Path.components b)%list.
Proof. unfold Path.components. now rewrite split_app_slash, filter_app. Qed.

Lemma components_valid (s : string) :
  Path.valid_name s = true -> Path.components s = [s].
Proof.
  intros H. destruct (valid_name_inv _ H) as (Hne & _ & _ & Hns).
  unfold Path.components. rewrite (split_no_slash _ Hns). simpl.
  unfold Js.nonempty. destruct (String.eqb_spec s ""); [contradiction|reflexivity].
Qed.

Lemma components_concat (l : list string) :
  valid_names l -> Path.components (String.concat "/" l) = l.
Proof.
  induction 1 as [|x l Hx Hl IH]; [reflexivity|].
  destruct l as [|y l].
  - simpl. now apply components_valid.
  - rewrite concat_cons2, components_app_slash, IH, (components_valid _ Hx).
    reflexivity.
Qed.

Lemma components_absolute (l : list string) :
  valid_names l -> Path.components (Path.absolute l) = l.
Proof.
  intros H. unfold Path.absolute.
  change ("/" ++ String.concat "/" l) with ("" ++ "/" ++ String.concat "/" l).
  rewrite components_app_slash, (components_concat _ H). reflexivity.
Qed.

Lemma components_all_no_slash (p x : string) :
  In x (Path.components p) -> x <> "" /\ Path.no_slash x = true.
Proof.
  unfold Path.components. rewrite filter_In. intros [Hin Hne]. split.
  - intros ->. discriminate.
  - eapply split_all_no_slash; eauto.
Qed.

Lemma step_valid (b : bool) (acc : list string) (s : string) :
  Path.valid_name s = true -> Path.step b acc s = s :: acc.
Proof.
  intros H. destruct (valid_name_inv _ H) as (H1 & H2 & H3 & _).
  unfold Path.step.
  destruct (String.eqb_spec s ""); [contradiction|].
  destruct (String.eqb_spec s "."); [contradiction|].
  destruct (String.eqb_spec s ".."); [contradiction|]. reflexivity.
Qed.

Lemma fold_step_clean (b : bool) (l acc : list string) :
  (forall s, In s l -> s = "" \/ Path.valid_name s = true) ->
  fold_left (Path.step b) l acc = (rev (filter Js.nonempty l) ++ acc)%list.
Proof.
  revert acc. induction l as [|s l IH]; intros acc H; [reflexivity|].
  simpl. destruct (H s (or_introl eq_refl)) as [->|Hs].
  - simpl. apply IH. intros; apply H; now right.
  - rewrite (step_valid _ _ _ Hs).
    destruct (valid_name_inv _ Hs) as (Hne & _).
    unfold Js.nonempty at 1.
    destruct (String.eqb_spec s ""); [contradiction|]. simpl.
    rewrite IH by (intros; apply H; now right).
    now rewrite <- app_assoc.
Qed.

(** On a path without ["."] and [".."] normalisation only drops the
    empty segments. *)
Lemma normalizeString_clean (p : string) (b : bool) :
  valid_names (Path.components p) ->
  Path.normalizeString p b = String.concat "/" (Path.components p).
Proof.
  intros H. unfold Path.normalizeString.
  rewrite fold_step_clean.
  - rewrite app_nil_r, rev_involutive. reflexivity.
  - intros s Hs. destruct (String.eqb_spec s "") as [->|Hne]; [now left|right].
    unfold valid_names in H. rewrite Forall_forall in H. apply H.
    unfold Path.components. rewrite filter_In. split; [assumption|].
    unfold Js.nonempty. destruct (String.eqb_spec s ""); [contradiction|reflexivity].
Qed.

Lemma concat_valid_nonempty (l : list string) :
  l <> [] -> valid_names l ->
  exists c s, String.concat "/" l = String c s /\ Ascii.eqb c "/" = false.
Proof.
  intros Hl H. destruct H as [|x l Hx Hl']; [contradiction|].
  destruct (valid_name_inv _ Hx) as (Hne & _ & _ & Hns).
  destruct x as [|c x]; [contradiction|].
  rewrite no_slash_cons in Hns. apply andb_prop in Hns as [Hc _].
  apply negb_true_iff in Hc.
  destruct l; simpl; eauto.
Qed.

Lemma trailing_app (a b : string) :
  b <> "" -> Path.trailingSeparator (a ++ b) = Path.trailingSeparator b.
Proof. intros. unfold Path.trailingSeparator. now rewrite last_char_app. Qed.

Lemma trailing_concat (l : list string) :
  l <> [] -> valid_names l ->
  Path.trailingSeparator (String.concat "/" l) = false.
Proof.
  intros Hl H. induction H as [|x l Hx H IH]; [contradiction|].
  destruct l as [|y l].
  - simpl. apply no_slash_last_char. now destruct (valid_name_inv _ Hx) as (_&_&_&?).
  - rewrite concat_cons2.
    destruct (concat_valid_nonempty (y :: l)) as (c & s & E & _);
      [discriminate | assumption |].
    rewrite trailing_app by (rewrite E; discriminate).
    rewrite (trailing_app "/" (String.concat "/" (y :: l)))
      by (rewrite E; discriminate).
    apply IH. discriminate.
Qed.

Lemma relpath_facts (r : string) (rs : list string) :
  relpath r rs ->
  Js.nonempty r = true /\ Path.isAbsolute r = false
  /\ Path.components r = rs /\ Path.trailingSeparator r = false.
Proof.
  intros (-> & Hne & Hv).
  destruct (concat_valid_nonempty rs Hne Hv) as (c & s & E & Hc).
  repeat split.
  - rewrite E. reflexivity.
  - rewrite E. unfold Path.isAbsolute.
    change (Js.startsWith (String c s) "/") with (Ascii.eqb "/" c && true).
    rewrite Ascii.eqb_sym, Hc. reflexivity.
  - now apply components_concat.
  - now apply trailing_concat.
Qed.

Lemma relpath_name (x : string) :
  Path.valid_name x = true -> relpath x [x].
Proof. intros H. repeat split; [discriminate | repeat constructor; assumption]. Qed.

Lemma relpath_app (r1 r2 : string) (rs1 rs2 : list string) :
  relpath r1 rs1 -> relpath r2 rs2 ->
  relpath (r1 ++ "/" ++ r2) (rs1 ++ rs2)%list.
Proof.
  intros (-> & N1 & V1) (-> & N2 & V2). repeat split.
  - now rewrite concat_app.
  - destruct rs1; [contradiction | discriminate].
  - apply Forall_app; split; assumption.
Qed.

Lemma absolute_is_absolute (l : list string) (s : string) :
  Path.isAbsolute (Path.absolute l ++ s) = true.
Proof. reflexivity. Qed.

Lemma normalize_absolute_gen (p : string) :
  Path.isAbsolute p = true ->
  valid_names (Path.components p) ->
  Path.trailingSeparator p = false \/ Path.components p = [] ->
  Path.normalize p = Path.absolute (Path.components p).
Proof.
  intros Ha Hv Ht. unfold Path.normalize.
  destruct (String.eqb_spec p "") as [->|_]; [discriminate|].
  rewrite Ha, (normalizeString_clean _ _ Hv).
  destruct (Path.components p) as [|x l] eqn:E.
  - reflexivity.
  - destruct (concat_valid_nonempty (x :: l)) as (c & s & E' & _);
      [discriminate | assumption |].
    rewrite E'. simpl (_ =? _).
    destruct Ht as [->|?]; [|discriminate].
    unfold Path.absolute. now rewrite E'.
Qed.

Lemma normalize_absolute (l : list string) :
  valid_names l -> Path.normalize (Path.absolute l) = Path.absolute l.
Proof.
  intros H.
  rewrite normalize_absolute_gen; rewrite ?components_absolute; auto.
  destruct l as [|x l]; [now right | left].
  unfold Path.absolute. rewrite trailing_app.
  - apply trailing_concat; [discriminate | assumption].
  - destruct (concat_valid_nonempty (x :: l)) as (c & s & E & _);
      [discriminate | assumption | rewrite E; discriminate].
Qed.

Lemma absolute_slash_facts (l : list string) (r : string) (rs : list string) :
  valid_names l -> relpath r rs ->
  Path.components (Path.absolute l ++ "/" ++ r) = (l ++ rs)%list
  /\ Path.trailingSeparator (Path.absolute l ++ "/" ++ r) = false.
Proof.
  intros Hl Hr. destruct (relpath_facts _ _ Hr) as (Hne & _ & Hc & Ht). split.
  - now rewrite components_app_slash, components_absolute, Hc.
  - rewrite trailing_app.
    + rewrite (trailing_app "/" r); [assumption|].
      intros ->. discriminate.
    + discriminate.
Qed.

(** [path.join] of an absolute path and a clean relative one. *)
Lemma join_absolute (l : list string) (r : string) (rs : list string) :
  valid_names l -> relpath r rs ->
  Path.join [Path.absolute l; r] = Path.absolute (l ++ rs).
Proof.
  intros Hl Hr. destruct (relpath_facts _ _ Hr) as (Hne & _ & _ & _).
  destruct (absolute_slash_facts l r rs Hl Hr) as (Hc & Ht).
  unfold Path.join. simpl filter. rewrite Hne.
  change (String.concat "/" [Path.absolute l; r])
    with (Path.absolute l ++ "/" ++ r).
  rewrite normalize_absolute_gen; rewrite ?Hc; auto.
  apply Forall_app. split; [assumption | apply Hr].
Qed.

Lemma join_absolute_empty (l : list string) :
  valid_names l -> Path.join [Path.absolute l; ""] = Path.absolute l.
Proof. intros H. unfold Path.join. simpl. now apply normalize_absolute. Qed.

(** [path.resolve] of an absolute path and a clean relative one. *)
Lemma resolve_absolute (cwd : string) (l : list string) (r : string)
    (rs : list string) :
  valid_names l -> relpath r rs ->
  Path.resolve cwd [Path.absolute l; r] = Path.absolute (l ++ rs).
Proof.
  intros Hl Hr. destruct (relpath_facts _ _ Hr) as (Hne & Hna & Hc & _).
  unfold Path.resolve. simpl rev.
  unfold Js.nonempty in Hne. apply negb_true_iff in Hne.
  unfold Path.resolve_scan. rewrite Hne, Hna.
  change (Path.absolute l =? "") with false. cbv iota.
  change (Path.isAbsolute (Path.absolute l)) with true. cbv iota.
  simpl negb. rewrite normalizeString_clean.
  - rewrite !components_app_slash, components_absolute, Hc by assumption.
    change (Path.components "") with (@nil string).
    now rewrite !app_nil_r.
  - rewrite !components_app_slash, components_absolute, Hc by assumption.
    change (Path.components "") with (@nil string). rewrite !app_nil_r.
    apply Forall_app. split; [assumption | apply Hr].
Qed.

(** Whatever its arguments, [path.resolve] returns an absolute path
    without [".."], ["."] or empty segments, provided the working
    directory is absolute. *)
Lemma step_false_valid (res : list string) (seg : string) :
  valid_names res -> Path.no_slash seg = true ->
  valid_names (Path.step false res seg).
Proof.
  intros Hres Hseg. unfold Path.step.
  destruct (String.eqb_spec seg ""); [assumption|].
  destruct (String.eqb_spec seg "."); [assumption|].
  destruct (String.eqb_spec seg "..").
  - destruct Hres as [|top rest Htop Hrest]; [constructor|].
    destruct (top =? ".."); [now constructor | assumption].
  - constructor; [|assumption].
    unfold Path.valid_name, Js.nonempty.
    destruct (String.eqb_spec seg ""); [contradiction|].
    destruct (String.eqb_spec seg "."); [contradiction|].
    destruct (String.eqb_spec seg ".."); [contradiction|].
    now rewrite Hseg.
Qed.

Lemma fold_step_false_valid (l acc : list string) :
  valid_names acc -> (forall s, In s l -> Path.no_slash s = true) ->
  valid_names (fold_left (Path.step false) l acc).
Proof.
  revert acc. induction l as [|s l IH]; intros acc Hacc Hl; [assumption|].
  simpl. apply IH.
  - apply step_false_valid; [assumption | apply Hl; now left].
  - intros; apply Hl; now right.
Qed.

Lemma normalizeString_false (p : string) :
  exists l, valid_names l /\ Path.normalizeString p false = String.concat "/" l.
Proof.
  unfold Path.normalizeString. eexists. split; [|reflexivity].
  apply Forall_rev. apply fold_step_false_valid; [constructor|].
  intros s Hs. eapply split_all_no_slash; eassumption.
Qed.

Lemma resolve_scan_absolute (cwd : string) (rargs : list string) (acc : string) :
  Path.isAbsolute cwd = true -> snd (Path.resolve_scan cwd rargs acc) = true.
Proof.
  intros Hc. revert acc. induction rargs as [|a rest IH]; intros acc; simpl.
  - destruct (String.eqb_spec cwd "") as [->|_]; [discriminate | exact Hc].
  - destruct (a =? ""); [apply IH|].
    destruct (Path.isAbsolute a); [reflexivity | apply IH].
Qed.

Lemma resolve_is_absolute (cwd : string) (args : list string) :
  Path.isAbsolute cwd = true ->
  exists l, valid_names l /\ Path.resolve cwd args = Path.absolute l.
Proof.
  intros Hc. unfold Path.resolve.
  pose proof (resolve_scan_absolute cwd (rev args) "" Hc) as H.
  destruct (Path.resolve_scan cwd (rev args) "") as [p b]. simpl in H. subst b.
  simpl negb. destruct (normalizeString_false p) as (l & Hl & ->).
  exists l. split; [assumption | reflexivity].
Qed.

End PathFacts.

(** The path functions are never unfolded by simplification: their
    behaviour is used through the lemmas above. *)
Arguments Path.join : simpl never.
Arguments Path.resolve : simpl never.
Arguments Path.normalize : simpl never.
Arguments Path.components : simpl never.
Arguments Js.includes : simpl never.
Arguments Js.split : simpl never.
Arguments Js.startsWith : simpl never.


(* ================================================================== *)
(** * Facts about the file-system tree *)
(* ================================================================== *)

Section TreeFacts.

(** ** Directory entries *)

Lemma entry_set_same k v es : Fs.entry k (Fs.set_entry k v es) = Some v.
Proof.
  induction es as [|[k' n] es IH]; simpl.
  - now rewrite String.eqb_refl.
  - destruct (String.eqb_spec k' k) as [->|N]; simpl.
    + now rewrite String.eqb_refl.
    + destruct (String.eqb_spec k' k); [contradiction | exact IH].
Qed.

Lemma entry_set_other k k' v es :
  k <> k' -> Fs.entry k' (Fs.set_entry k v es) = Fs.entry k' es.
Proof.
  intros N. induction es as [|[k0 n] es IH]; simpl.
  - destruct (String.eqb_spec k k'); [contradiction | reflexivity].
  - destruct (String.eqb_spec k0 k) as [->|N0]; simpl.
    + destruct (String.eqb_spec k k'); [contradiction | reflexivity].
    + destruct (String.eqb_spec k0 k'); [reflexivity | exact IH].
Qed.

Lemma entry_del_same k es : Fs.entry k (Fs.del_entry k es) = None.
Proof.
  induction es as [|[k' n] es IH]; simpl; [reflexivity|].
  destruct (String.eqb_spec k' k) as [->|N]; simpl; [exact IH|].
  destruct (String.eqb_spec k' k); [contradiction | exact IH].
Qed.

Lemma entry_del_other k k' es :
  k <> k' -> Fs.entry k' (Fs.del_entry k es) = Fs.entry k' es.
Proof.
  intros N. induction es as [|[k0 n] es IH]; simpl; [reflexivity|].
  destruct (String.eqb_spec k0 k) as [->|N0]; simpl.
  - destruct (String.eqb_spec k k'); [contradiction | exact IH].
  - destruct (String.eqb_spec k0 k'); [reflexivity | exact IH].
Qed.

Lemma entry_in_names k es :
  In k (Fs.names es) <-> exists n, Fs.entry k es = Some n.
Proof.
  induction es as [|[k' n] es IH]; simpl.
  - split; [contradiction | intros [? ?]; discriminate].
  - destruct (String.eqb_spec k' k) as [->|N].
    + split; eauto.
    + rewrite <- IH. split; [intros [?|?]; [contradiction | assumption] | auto].
Qed.

Lemma entry_none_names k es :
  Fs.entry k es = None <-> ~ In k (Fs.names es).
Proof.
  rewrite entry_in_names. split.
  - intros E [n H]. congruence.
  - intros H. destruct (Fs.entry k es) eqn:E; [exfalso; eauto | reflexivity].
Qed.

Lemma entry_In k n es : Fs.entry k es = Some n -> In (k, n) es.
Proof.
  induction es as [|[k' n'] es IH]; simpl; [discriminate|].
  destruct (String.eqb_spec k' k) as [->|N].
  - intros [= ->]. now left.
  - auto.
Qed.

Lemma names_set_entry k v es :
  Fs.names (Fs.set_entry k v es)
  = if existsb (String.eqb k) (Fs.names es) then Fs.names es
    else (Fs.names es ++ [k])%list.
Proof.
  induction es as [|[k' n] es IH]; simpl; [reflexivity|].
  rewrite (String.eqb_sym k k').
  destruct (String.eqb_spec k' k) as [->|N]; simpl; [reflexivity|].
  rewrite IH. destruct (existsb _ _); reflexivity.
Qed.

Lemma names_del_entry k es :
  Fs.names (Fs.del_entry k es)
  = filter (fun x => negb (x =? k)) (Fs.names es).
Proof.
  induction es as [|[k' n] es IH]; simpl; [reflexivity|].
  destruct (k' =? k); simpl; now rewrite IH.
Qed.

(** ** Lookup along a path *)

Lemma lookup_app n p q :
  Fs.lookup n (p ++ q)
  = match Fs.lookup n p with
    | Some m => Fs.lookup m q
    | None => None
    end.
Proof.
  revert n. induction p as [|k p IH]; intros n; simpl; [reflexivity|].
  destruct n as [d|es]; [reflexivity|].
  destruct (Fs.entry k es); [apply IH | reflexivity].
Qed.

Lemma lookup_file_below d k p : Fs.lookup (File d) (k :: p) = None.
Proof. reflexivity. Qed.

Lemma lookup_empty_below k p : Fs.lookup (Dir []) (k :: p) = None.
Proof. reflexivity. Qed.

(** Whatever lies on the way to an existing node is a directory. *)
Lemma lookup_through_dir n p k q x :
  Fs.lookup n (p ++ k :: q) = Some x ->
  exists es, Fs.lookup n p = Some (Dir es) /\ In k (Fs.names es).
Proof.
  rewrite lookup_app. destruct (Fs.lookup n p) as [[d|es]|]; try discriminate.
  simpl. destruct (Fs.entry k es) eqn:E; [|discriminate].
  intros _. exists es. split; [reflexivity|].
  apply entry_in_names. eauto.
Qed.

Lemma is_prefix_app p q : Fs.is_prefix p (p ++ q) = true.
Proof.
  induction p as [|k p IH]; simpl; [reflexivity|].
  now rewrite String.eqb_refl.
Qed.

Lemma is_prefix_spec p q :
  Fs.is_prefix p q = true <-> exists r, q = (p ++ r)%list.
Proof.
  revert q. induction p as [|k p IH]; intros q; simpl.
  - split; eauto.
  - destruct q as [|k' q].
    + split; [discriminate | intros [r H]; discriminate].
    + destruct (String.eqb_spec k k') as [->|N]; simpl.
      * rewrite IH. split; intros [r H]; exists r; [now subst | now inversion H].
      * split; [discriminate | intros [r H]; inversion H; congruence].
Qed.

Lemma apart_sym p q : apart p q -> apart q p.
Proof. intros [? ?]; split; assumption. Qed.

Lemma apart_cons_same k p q : apart (k :: p) (k :: q) -> apart p q.
Proof. unfold apart. simpl. rewrite String.eqb_refl. auto. Qed.

Lemma apart_not_nil_l p q : apart p q -> p <> [].
Proof. intros [H _] ->. discriminate. Qed.

Lemma apart_not_nil_r p q : apart p q -> q <> [].
Proof. intros [_ H] ->. discriminate. Qed.

Lemma apart_app_same r p q : apart p q -> apart (r ++ p) (r ++ q).
Proof.
  induction r as [|k r IH]; [auto|].
  intros H. destruct (IH H) as [H1 H2]. split; simpl;
    rewrite String.eqb_refl; assumption.
Qed.

Lemma apart_heads k k' p q : k <> k' -> apart (k :: p) (k' :: q).
Proof.
  intros N. split; simpl.
  - destruct (String.eqb_spec k k'); [contradiction | reflexivity].
  - destruct (String.eqb_spec k' k); [congruence | reflexivity].
Qed.

(** Extending two separated paths keeps them separated. *)
Lemma apart_extend p q r s : apart p q -> apart (p ++ r) (q ++ s).
Proof.
  revert q. induction p as [|k p IH]; intros q H.
  - exfalso. now apply (apart_not_nil_l _ _ H).
  - destruct q as [|k' q]; [exfalso; now apply (apart_not_nil_r _ _ H)|].
    destruct (String.eqb_spec k k') as [->|N].
    + apply apart_cons_same in H. specialize (IH _ H).
      destruct IH as [H1 H2]. split; simpl; rewrite String.eqb_refl; assumption.
    + now apply apart_heads.
Qed.

(** ** [write] *)

Lemma lookup_write_same p v n n' :
  Fs.write p v n = Some n' -> Fs.lookup n' p = Some v.
Proof.
  revert n n'. induction p as [|k p IH]; intros n n'; simpl.
  - now intros [= ->].
  - destruct n as [d|es]; [discriminate|].
    destruct (Fs.write p v _) as [c'|] eqn:E; [|discriminate].
    intros [= <-]. rewrite entry_set_same. eauto.
Qed.

Lemma lookup_write_below p q v n n' :
  Fs.write p v n = Some n' -> Fs.lookup n' (p ++ q) = Fs.lookup v q.
Proof. intros H. now rewrite lookup_app, (lookup_write_same _ _ _ _ H). Qed.

Lemma lookup_write_apart p q v n n' :
  Fs.write p v n = Some n' -> apart p q -> Fs.lookup n' q = Fs.lookup n q.
Proof.
  revert n n' q. induction p as [|k p IH]; intros n n' q Hw Ha.
  - exfalso. now apply (apart_not_nil_l _ _ Ha).
  - destruct q as [|k' q]; [exfalso; now apply (apart_not_nil_r _ _ Ha)|].
    simpl in Hw. destruct n as [d|es]; [discriminate|].
    destruct (Fs.write p v _) as [c'|] eqn:E; [|discriminate].
    injection Hw as <-. simpl.
    destruct (String.eqb_spec k k') as [->|N].
    + rewrite entry_set_same. apply apart_cons_same in Ha.
      rewrite (IH _ _ _ E Ha).
      destruct (Fs.entry k' es); [reflexivity|].
      destruct q; [exfalso; now apply (apart_not_nil_r _ _ Ha) | reflexivity].
    + now rewrite entry_set_other.
Qed.

(** Writing below a directory that exists always succeeds. *)
Lemma write_succeeds_in_dir p k v n es :
  Fs.lookup n p = Some (Dir es) ->
  exists n', Fs.write (p ++ [k]) v n = Some n'.
Proof.
  revert n. induction p as [|k0 p IH]; intros n; simpl.
  - intros [= ->]. eauto.
  - destruct n as [d|es0]; [discriminate|].
    destruct (Fs.entry k0 es0) as [c|]; [|discriminate].
    intros H. destruct (IH _ H) as [n' ->]. eauto.
Qed.

Lemma write_succeeds_at p v n x :
  Fs.lookup n p = Some x -> exists n', Fs.write p v n = Some n'.
Proof.
  revert n. induction p as [|k p IH]; intros n; simpl.
  - eauto.
  - destruct n as [d|es]; [discriminate|].
    destruct (Fs.entry k es) as [c|]; [|discriminate].
    intros H. destruct (IH _ H) as [n' ->]. eauto.
Qed.

(** ** [remove] *)

Lemma lookup_remove_below p q n :
  p <> [] -> Fs.lookup (Fs.remove p n) (p ++ q) = None.
Proof.
  revert n. induction p as [|k p IH]; intros n Hp; [contradiction|].
  simpl. destruct n as [d|es]; [reflexivity|].
  destruct p as [|k' p].
  - simpl. now rewrite entry_del_same.
  - destruct (Fs.entry k es) as [c|] eqn:E.
    + simpl Fs.lookup at 1. rewrite entry_set_same.
      apply IH. discriminate.
    + simpl. now rewrite E.
Qed.

Lemma lookup_remove_same p n :
  p <> [] -> Fs.lookup (Fs.remove p n) p = None.
Proof.
  intros H. rewrite <- (app_nil_r p) at 2. now apply lookup_remove_below.
Qed.

Lemma lookup_remove_apart p q n :
  apart p q -> Fs.lookup (Fs.remove p n) q = Fs.lookup n q.
Proof.
  revert n q. induction p as [|k p IH]; intros n q Ha.
  - exfalso. now apply (apart_not_nil_l _ _ Ha).
  - destruct q as [|k' q]; [exfalso; now apply (apart_not_nil_r _ _ Ha)|].
    simpl. destruct n as [d|es]; [reflexivity|].
    destruct (String.eqb_spec k k') as [->|N].
    + apply apart_cons_same in Ha.
      destruct p as [|k0 p]; [exfalso; now apply (apart_not_nil_l _ _ Ha)|].
      destruct (Fs.entry k' es) as [c|] eqn:E.
      * simpl Fs.lookup at 1. rewrite entry_set_same. now apply IH.
      * simpl. now rewrite E.
    + destruct p as [|k0 p].
      * simpl. now rewrite entry_del_other.
      * destruct (Fs.entry k es) as [c|] eqn:E; [|reflexivity].
        simpl. now rewrite entry_set_other.
Qed.

(** Removal never turns a directory into a file or brings anything
    into existence. *)
Lemma lookup_remove_kind p q n x :
  Fs.lookup (Fs.remove p n) q = Some x ->
  exists y, Fs.lookup n q = Some y /\ Fs.is_dir y = Fs.is_dir x.
Proof.
  revert n q x. induction p as [|k p IH]; intros n q x; simpl.
  - eauto.
  - destruct n as [d|es]; [eauto|].
    destruct p as [|k0 p].
    + destruct q as [|k' q]; simpl.
      * intros [= <-]. eauto.
      * destruct (String.eqb_spec k k') as [->|N].
        -- now rewrite entry_del_same.
        -- rewrite entry_del_other by assumption. eauto.
    + destruct (Fs.entry k es) as [c|] eqn:E; [|eauto].
      destruct q as [|k' q]; simpl.
      * intros [= <-]. eauto.
      * destruct (String.eqb_spec k k') as [->|N].
        -- rewrite entry_set_same, E. apply IH.
        -- rewrite entry_set_other by assumption. eauto.
Qed.

End TreeFacts.

(* ================================================================== *)
(** * Well-formed trees *)
(* ================================================================== *)

Section WellFormed.

Lemma nodupb_NoDup l : Fs.nodupb l = true <-> NoDup l.
Proof.
  induction l as [|x l IH]; simpl.
  - split; [constructor | reflexivity].
  - rewrite andb_true_iff, negb_true_iff, IH. split.
    + intros [Hx Hl]. constructor; [|assumption].
      intros Hin. assert (existsb (String.eqb x) l = true); [|congruence].
      apply existsb_exists. exists x. split; [assumption | apply String.eqb_refl].
    + inversion 1 as [|? ? Hx Hl]; subst. split; [|assumption].
      destruct (existsb (String.eqb x) l) eqn:E; [|reflexivity].
      apply existsb_exists in E as (y & Hy & Exy).
      apply String.eqb_eq in Exy. subst y. contradiction.
Qed.

Lemma existsb_eqb_In x l : existsb (String.eqb x) l = true <-> In x l.
Proof.
  rewrite existsb_exists. split.
  - intros (y & Hy & E). apply String.eqb_eq in E. now subst.
  - intros H. exists x. split; [assumption | apply String.eqb_refl].
Qed.

Lemma wf_dir es :
  Fs.wf (Dir es) = true <->
  NoDup (Fs.names es) /\ valid_names (Fs.names es)
  /\ Forall (fun e => Fs.wf (snd e) = true) es.
Proof.
  simpl. rewrite !andb_true_iff, nodupb_NoDup, !forallb_forall.
  unfold valid_names. rewrite !Forall_forall. tauto.
Qed.

Lemma wf_entry k es c :
  Fs.wf (Dir es) = true -> Fs.entry k es = Some c ->
  Fs.wf c = true /\ Path.valid_name k = true.
Proof.
  rewrite wf_dir. intros (_ & Hv & Hw) E. apply entry_In in E. split.
  - rewrite Forall_forall in Hw. exact (Hw _ E).
  - unfold valid_names in Hv. rewrite Forall_forall in Hv. apply Hv.
    apply in_map_iff. now exists (k, c).
Qed.

Lemma wf_lookup n p m :
  Fs.wf n = true -> Fs.lookup n p = Some m -> Fs.wf m = true.
Proof.
  revert n. induction p as [|k p IH]; intros n Hn; simpl.
  - now intros [= <-].
  - destruct n as [d|es]; [discriminate|].
    destruct (Fs.entry k es) as [c|] eqn:E; [|discriminate].
    apply IH. now destruct (wf_entry _ _ _ Hn E).
Qed.

(** The names along a path that leads somewhere are valid. *)
Lemma wf_lookup_names n p m :
  Fs.wf n = true -> Fs.lookup n p = Some m -> valid_names p.
Proof.
  revert n. induction p as [|k p IH]; intros n Hn; simpl.
  - constructor.
  - destruct n as [d|es]; [discriminate|].
    destruct (Fs.entry k es) as [c|] eqn:E; [|discriminate].
    destruct (wf_entry _ _ _ Hn E) as [Hc Hk]. intros Hl.
  constructor; [assumption | exact (IH _ Hc Hl)].
Qed.

Lemma In_set_entry k v es e :
  In e (Fs.set_entry k v es) -> e = (k, v) \/ In e es.
Proof.
  induction es as [|[k' n] es IH]; simpl.
  - intros [<-|[]]. now left.
  - destruct (String.eqb_spec k' k) as [->|N]; simpl.
    + intros [<-|H]; auto.
    + intros [<-|H]; auto. destruct (IH H); auto.
Qed.

Lemma wf_set_entry k v es :
  Fs.wf (Dir es) = true -> Fs.wf v = true -> Path.valid_name k = true ->
  Fs.wf (Dir (Fs.set_entry k v es)) = true.
Proof.
  rewrite !wf_dir. intros (Hn & Hv & Hw) Hwv Hk.
  rewrite names_set_entry.
  destruct (existsb (String.eqb k) (Fs.names es)) eqn:E.
  - repeat split; try assumption.
    rewrite Forall_forall in *. intros e He.
    destruct (In_set_entry _ _ _ _ He) as [->|H]; auto.
  - assert (~ In k (Fs.names es)).
    { rewrite <- existsb_eqb_In. congruence. }
    repeat split.
    + apply NoDup_app; [assumption | repeat constructor; auto |].
      intros x Hx [<-|[]]. contradiction.
    + apply Forall_app. split; [assumption | repeat constructor; assumption].
    + rewrite Forall_forall in *. intros e He.
      destruct (In_set_entry _ _ _ _ He) as [->|H']; auto.
Qed.

Lemma wf_del_entry k es :
  Fs.wf (Dir es) = true -> Fs.wf (Dir (Fs.del_entry k es)) = true.
Proof.
  rewrite !wf_dir. intros (Hn & Hv & Hw). rewrite names_del_entry.
  repeat split.
  - now apply NoDup_filter.
  - unfold valid_names in *. rewrite Forall_forall in *.
    intros x Hx. apply filter_In in Hx as [Hx _]. auto.
  - rewrite Forall_forall in *. intros e He.
    apply filter_In in He as [He _]. auto.
Qed.

Lemma wf_write p v n n' :
  Fs.wf n = true -> Fs.wf v = true -> valid_names p ->
  Fs.write p v n = Some n' -> Fs.wf n' = true.
Proof.
  revert n n'. induction p as [|k p IH]; intros n n' Hn Hv Hp; simpl.
  - now intros [= <-].
  - destruct n as [d|es]; [discriminate|].
    inversion Hp as [|? ? Hk Hp']; subst.
    destruct (Fs.write p v _) as [c'|] eqn:E; [|discriminate].
    intros [= <-]. apply wf_set_entry; [assumption | | assumption].
    eapply IH; [| assumption | exact Hp' | exact E].
    destruct (Fs.entry k es) as [c|] eqn:Ec; [|reflexivity].
    now destruct (wf_entry _ _ _ Hn Ec).
Qed.

Lemma wf_remove p n : Fs.wf n = true -> Fs.wf (Fs.remove p n) = true.
Proof.
  revert n. induction p as [|k p IH]; intros n Hn; simpl; [assumption|].
  destruct n as [d|es]; [assumption|].
  destruct p as [|k' p]; [now apply wf_del_entry|].
  destruct (Fs.entry k es) as [c|] eqn:E; [|assumption].
  destruct (wf_entry _ _ _ Hn E).
  apply wf_set_entry; auto.
Qed.

(** ** Copies *)

Lemma set_entry_fresh k v es :
  ~ In k (Fs.names es) -> Fs.set_entry k v es = (es ++ [(k, v)])%list.
Proof.
  induction es as [|[k' n] es IH]; simpl; [reflexivity|].
  intros H. destruct (String.eqb_spec k' k) as [->|N].
  - exfalso. apply H. now left.
  - rewrite IH; [reflexivity | tauto].
Qed.

Lemma copy_entries_fresh es :
  Forall (fun e => Fs.wf (snd e) = true -> Fs.copy (snd e) None = Some (snd e)) es ->
  forall ds,
    Forall (fun e => Fs.wf (snd e) = true) es ->
    NoDup (Fs.names ds ++ Fs.names es) ->
    Fs.copy_entries Fs.copy es ds = Some (ds ++ es)%list.
Proof.
  induction 1 as [|[k c] es Hc Hes IH]; intros ds Hw Hn; simpl.
  - now rewrite app_nil_r.
  - inversion Hw as [|? ? Hwc Hwes]; subst. simpl in *.
    assert (Hk : ~ In k (Fs.names ds)).
    { intros Hin. apply NoDup_remove_2 in Hn. apply Hn.
      apply in_or_app. now left. }
    apply entry_none_names in Hk as Ek. rewrite Ek, (Hc Hwc).
    rewrite set_entry_fresh by assumption.
    rewrite IH; [now rewrite <- app_assoc | assumption |].
    unfold Fs.names. rewrite map_app. simpl. now rewrite <- app_assoc.
Qed.

(** Copied to a place where nothing is, a well-formed tree is
    reproduced as it is. *)
Lemma copy_fresh n : Fs.wf n = true -> Fs.copy n None = Some n.
Proof.
  induction n as [d|es IH] using node_rect'; intros Hn; [reflexivity|].
  simpl. apply wf_dir in Hn as (Hnd & _ & Hw).
  rewrite (copy_entries_fresh es IH []); [reflexivity | assumption | assumption].
Qed.

Lemma copy_into_empty n n' :
  Fs.wf n = true -> Fs.copy n (Some (Dir [])) = Some n' ->
  n' = n /\ Fs.is_dir n = true.
Proof.
  intros Hn. destruct n as [d|es]; [discriminate|].
  change (Fs.copy (Dir es) (Some (Dir []))) with (Fs.copy (Dir es) None).
  rewrite (copy_fresh _ Hn). intros [= <-]. now split.
Qed.

Lemma copy_file d dst n' :
  Fs.copy (File d) dst = Some n' -> n' = File d.
Proof. simpl. destruct dst as [[?|?]|]; congruence. Qed.

Lemma wf_copy_entries es :
  Forall (fun e => forall dst r,
              Fs.wf (snd e) = true ->
              (forall d, dst = Some d -> Fs.wf d = true) ->
              Fs.copy (snd e) dst = Some r -> Fs.wf r = true) es ->
  forall ds rs,
    Fs.wf (Dir es) = true -> Fs.wf (Dir ds) = true ->
    Fs.copy_entries Fs.copy es ds = Some rs -> Fs.wf (Dir rs) = true.
Proof.
  induction 1 as [|[k c] es Hc Hes IH]; intros ds rs Hwe Hwd; simpl.
  - now intros [= <-].
  - destruct (Fs.copy c (Fs.entry k ds)) as [c'|] eqn:E; [|discriminate].
    apply wf_dir in Hwe as (Hn & Hv & Hw).
    inversion Hn; inversion Hv; inversion Hw; subst. simpl in *.
    apply IH.
    + apply wf_dir. repeat split; assumption.
    + apply wf_set_entry; [assumption | | assumption].
      eapply Hc; [assumption | | exact E].
      intros d Hd. now destruct (wf_entry _ _ _ Hwd Hd).
Qed.

Lemma wf_copy n :
  forall dst r,
    Fs.wf n = true -> (forall d, dst = Some d -> Fs.wf d = true) ->
    Fs.copy n dst = Some r -> Fs.wf r = true.
Proof.
  induction n as [d|es IH] using node_rect'; intros dst r Hn Hd.
  - intros H. apply copy_file in H. now subst.
  - simpl. destruct dst as [[d|ds]|]; try discriminate.
    + destruct (Fs.copy_entries Fs.copy es ds) as [rs|] eqn:E; [|discriminate].
      intros [= <-].
      apply (wf_copy_entries es IH ds rs Hn (Hd _ eq_refl) E).
    + destruct (Fs.copy_entries Fs.copy es []) as [rs|] eqn:E; [|discriminate].
      intros [= <-].
      apply (wf_copy_entries es IH [] rs Hn eq_refl E).
Qed.

End WellFormed.

(* ================================================================== *)
(** * Reasoning about computations *)
(* ================================================================== *)

(** Case analysis on the innermost scrutinee of the goal. *)
Ltac break_match :=
  match goal with
  | |- context [match ?x with _ => _ end] =>
      lazymatch x with
      | context [match _ with _ => _ end] => fail
      | _ => destruct x eqn:?
      end
  end.

Section Hoare.

Lemma triple_ret {A} (P : world -> Prop) (a : A) Q E :
  (forall w, P w -> Q a w) -> triple P (ret a) Q E.
Proof. intros H w Hw. simpl. auto. Qed.

Lemma triple_bind {A B} (P : world -> Prop) (m : M A) (k : A -> M B) Q R E :
  triple P m Q E -> (forall a, triple (Q a) (k a) R E) ->
  triple P (bind m k) R E.
Proof.
  intros Hm Hk w Hw. unfold bind. specialize (Hm w Hw).
  destruct (m w) as [a w'|e l]; [apply Hk; assumption | assumption].
Qed.

Lemma triple_weaken {A} (P P' : world -> Prop) (m : M A) (Q Q' : A -> world -> Prop)
    (E E' : error -> list event -> Prop) :
  triple P' m Q' E' ->
  (forall w, P w -> P' w) -> (forall a w, Q' a w -> Q a w) ->
  (forall e l, E' e l -> E e l) ->
  triple P m Q E.
Proof.
  intros H HP HQ HE w Hw. specialize (H w (HP w Hw)).
  destruct (m w); auto.
Qed.

Lemma triple_for_of {A} (I : world -> Prop) (xs : list A) (body : A -> M unit) E :
  (forall x, In x xs -> triple I (body x) (fun _ => I) E) ->
  triple I (for_of xs body) (fun _ => I) E.
Proof.
  induction xs as [|x xs IH]; intros H.
  - apply triple_ret. auto.
  - simpl. eapply triple_bind.
    + apply H. now left.
    + intros ?. apply IH. intros; apply H; now right.
Qed.

Lemma triple_forEach_from {A} (I : world -> Prop) (i : nat) (xs : list A)
    (f : A -> nat -> M unit) E :
  (forall x j, In x xs -> triple I (f x j) (fun _ => I) E) ->
  triple I (forEach_from i xs f) (fun _ => I) E.
Proof.
  revert i. induction xs as [|x xs IH]; intros i H.
  - apply triple_ret. auto.
  - simpl. eapply triple_bind.
    + apply H. now left.
    + intros ?. apply IH. intros; apply H; now right.
Qed.

Lemma triple_mapM {A B} (I : world -> Prop) (f : A -> M B) (xs : list A) E :
  (forall x, In x xs -> triple I (f x) (fun _ => I) E) ->
  triple I (mapM f xs) (fun _ => I) E.
Proof.
  induction xs as [|x xs IH]; intros H.
  - apply triple_ret. auto.
  - simpl. eapply triple_bind; [apply H; now left|].
    intros y. eapply triple_bind; [apply IH; intros; apply H; now right|].
    intros ys. apply triple_ret. auto.
Qed.

Lemma triple_filterM {A} (I : world -> Prop) (f : A -> M bool) (xs : list A) E :
  (forall x, In x xs -> triple I (f x) (fun _ => I) E) ->
  triple I (filterM f xs) (fun _ => I) E.
Proof.
  induction xs as [|x xs IH]; intros H.
  - apply triple_ret. auto.
  - simpl. eapply triple_bind; [apply H; now left|].
    intros y. eapply triple_bind; [apply IH; intros; apply H; now right|].
    intros ys. apply triple_ret. auto.
Qed.

End Hoare.

Section Reads.

Lemma reads_ret {A} (a : A) : reads (ret a).
Proof. intros w. reflexivity. Qed.

Lemma reads_bind {A B} (m : M A) (k : A -> M B) :
  reads m -> (forall a, reads (k a)) -> reads (bind m k).
Proof.
  intros Hm Hk w. unfold bind. specialize (Hm w).
  destruct (m w) as [a w'|e l]; [subst; apply Hk | assumption].
Qed.

Lemma reads_existsSync p : reads (existsSync p).
Proof. intros w. reflexivity. Qed.

Lemma reads_readJsonSync p : reads (readJsonSync p).
Proof.
  intros w. unfold readJsonSync.
  destruct (at_path w p) as [[[c|s]|es]|]; reflexivity.
Qed.

Lemma reads_readdirSync p : reads (readdirSync p).
Proof.
  intros w. unfold readdirSync.
  destruct (at_path w p) as [[d|es]|]; reflexivity.
Qed.

Lemma reads_stat p : reads (statSync_isDirectory p).
Proof.
  intros w. unfold statSync_isDirectory.
  destruct (at_path w p); reflexivity.
Qed.

Lemma reads_mapM {A B} (f : A -> M B) xs :
  (forall x, reads (f x)) -> reads (mapM f xs).
Proof.
  intros H. induction xs as [|x xs IH]; simpl; [apply reads_ret|].
  apply reads_bind; [apply H|]. intros y.
  apply reads_bind; [apply IH|]. intros ys. apply reads_ret.
Qed.

Lemma reads_filterM {A} (f : A -> M bool) xs :
  (forall x, reads (f x)) -> reads (filterM f xs).
Proof.
  intros H. induction xs as [|x xs IH]; simpl; [apply reads_ret|].
  apply reads_bind; [apply H|]. intros y.
  apply reads_bind; [apply IH|]. intros ys. apply reads_ret.
Qed.

Lemma reads_getDirectories p : reads (getDirectories p).
Proof.
  unfold getDirectories. apply reads_bind; [apply reads_readdirSync|].
  intros files. apply reads_filterM. intros x. apply reads_stat.
Qed.

Lemma reads_getProjectPackageListing cwd : reads (getProjectPackageListing cwd).
Proof.
  unfold getProjectPackageListing.
  apply reads_bind; [apply reads_getDirectories|]. intros dirs.
  apply reads_bind; [|intros; apply reads_ret].
  apply reads_mapM. intros d. destruct (Js.startsWith d "@").
  - apply reads_bind; [apply reads_getDirectories | intros; apply reads_ret].
  - apply reads_ret.
Qed.

Lemma reads_getProjectPackageScopes cwd : reads (getProjectPackageScopes cwd).
Proof.
  unfold getProjectPackageScopes.
  apply reads_bind; [apply reads_getDirectories | intros; apply reads_ret].
Qed.

(** A reading computation keeps every property of the world, and of
    the record when it throws. *)
Lemma triple_reads {A} (m : M A) (P : world -> Prop) E :
  reads m -> (forall w e, P w -> E e (log w)) ->
  triple P m (fun _ => P) E.
Proof.
  intros Hm HE w Hw. specialize (Hm w).
  destruct (m w) as [a w'|e l]; subst; auto.
Qed.

End Reads.

(* ================================================================== *)
(** * The safety guard *)
(* ================================================================== *)

Section Guard.

Variable cwd : string.

Let ok (w : world) : Prop := ok_log cwd (log w).

Lemma ok_log_validate_safe l p :
  ok_log cwd l -> In (Validate p) l -> safe p = true.
Proof.
  induction 1 as [|q l Hq Hl IH|s d l Hl IH|e q l He Hin Hl IH|name l Hin Hl IH];
    simpl; intros Hp.
  - contradiction.
  - destruct Hp as [[= ->]|Hp]; auto.
  - destruct Hp as [[=]|Hp]; auto.
  - destruct Hp as [->|Hp]; [discriminate | auto].
  - destruct Hp as [[=]|Hp]; auto.
Qed.

Lemma ok_thrown_of_ok e l : ok_log cwd l -> ok_thrown cwd e l.
Proof. now left. Qed.

Ltac run_step :=
  unfold bind, record, throw, ret, set_tree, existsSync; cbn.

Lemma validate_ok p :
  triple ok (validateProjectPackageDirectory p)
    (fun _ w => ok w /\ In (Validate p) (log w)) (ok_thrown cwd).
Proof.
  intros w Hw. unfold validateProjectPackageDirectory. run_step.
  fold (safe p). destruct (safe p) eqn:Hs; cbn.
  - split; [now apply ok_validate | now left].
  - right. exists p, (log w). auto.
Qed.

Lemma copySync_ok s d :
  triple ok (copySync s d) (fun _ => ok) (ok_thrown cwd).
Proof.
  intros w Hw. unfold copySync. run_step.
  assert (ok_log cwd (Copy s d :: log w)) by now apply ok_copy.
  repeat (break_match; cbn); unfold ok; cbn;
    try apply ok_thrown_of_ok; assumption.
Qed.

Lemma copyIfExistsSync_ok dep tgt f a :
  triple ok (copyIfExistsSync dep tgt f a) (fun _ => ok) (ok_thrown cwd).
Proof.
  unfold copyIfExistsSync. eapply triple_bind.
  - apply triple_reads; [apply reads_existsSync | intros; now left].
  - intros [|]; [apply copySync_ok | now apply triple_ret].
Qed.

Lemma emptyDirSync_ok p :
  triple (fun w => ok w /\ In (Validate p) (log w)) (emptyDirSync p)
    (fun _ => ok) (ok_thrown cwd).
Proof.
  intros w [Hw Hp]. unfold emptyDirSync. run_step.
  assert (ok_log cwd (EmptyDir p :: log w))
    by (eapply ok_directory; [reflexivity | assumption | assumption]).
  repeat (break_match; cbn); unfold ok; cbn;
    try apply ok_thrown_of_ok; assumption.
Qed.

Lemma installPackage_ok dep tgt :
  triple (fun w => ok w /\ In (Validate tgt) (log w)) (installPackage dep tgt)
    (fun _ => ok) (ok_thrown cwd).
Proof.
  unfold installPackage. eapply triple_bind; [apply emptyDirSync_ok|].
  intros ?. eapply triple_bind; [apply copyIfExistsSync_ok|].
  intros ?. apply triple_forEach_from. intros; apply copyIfExistsSync_ok.
Qed.

Lemma phase1_step_ok name :
  triple ok (phase1_step cwd name) (fun _ => ok) (ok_thrown cwd).
Proof.
  unfold phase1_step. eapply triple_bind.
  - apply triple_reads; [apply reads_readJsonSync | intros; now left].
  - intros cfg. destruct (negb _); [now apply triple_ret|].
    eapply triple_bind; [apply validate_ok|]. intros ?.
    eapply triple_bind.
    + apply triple_reads; [apply reads_existsSync | intros ? ? [? ?]; now left].
    + intros ex.
      eapply (triple_bind _ _ _
                (fun _ w => ok w /\ In (Validate (Path.resolve cwd
                   [projectPackagesDir cwd; name])) (log w))).
      * destruct ex.
        -- eapply triple_bind.
           ++ apply triple_reads;
                [apply reads_readJsonSync | intros ? ? [? ?]; now left].
           ++ intros tcfg. apply triple_ret. intros ? H. exact H.
        -- apply triple_ret. intros ? H. exact H.
      * intros [|]; [apply triple_ret; now intros ? [? ?]|].
        apply installPackage_ok.
Qed.

Lemma removeSync_ok p :
  triple (fun w => ok w /\ In (Validate p) (log w)) (removeSync p)
    (fun _ w => ok w /\ In (Validate p) (log w)) (ok_thrown cwd).
Proof.
  intros w [Hw Hp]. unfold removeSync, bind, record, set_tree. cbn.
  assert (ok_log cwd (Remove p :: log w))
    by (eapply ok_directory; [reflexivity | assumption | assumption]).
  destruct (Path.components p); cbn.
  - now left.
  - split; [assumption | now right].
Qed.

Lemma isEmptySync_ok p :
  triple (fun w => ok w /\ In (Validate p) (log w)) (isEmptySync p)
    (fun _ w => ok w /\ In (Validate p) (log w)) (ok_thrown cwd).
Proof.
  intros w [Hw Hp]. unfold isEmptySync, bind, record. cbn. split.
  - eapply ok_directory; [reflexivity | assumption | assumption].
  - now right.
Qed.

Lemma unlinkSync_ok name :
  triple (fun w => ok w /\ In (Validate (Path.resolve cwd
                                [projectPackagesDir cwd; name])) (log w))
    (unlinkSync (Path.resolve cwd [projectPackagesDir cwd; name ++ ".meta"]))
    (fun _ => ok) (ok_thrown cwd).
Proof.
  intros w [Hw Hp]. unfold unlinkSync, bind, record, set_tree. cbn.
  assert (ok_log cwd (Unlink (Path.resolve cwd
            [projectPackagesDir cwd; name ++ ".meta"]) :: log w))
    by now apply ok_unlink.
  destruct (at_path _ _) as [[d|es]|]; cbn; try (now left); assumption.
Qed.

Lemma unlink_sidecar_ok name :
  triple (fun w => ok w /\ In (Validate (Path.resolve cwd
                                [projectPackagesDir cwd; name])) (log w))
    (ex <- existsSync (Path.resolve cwd [projectPackagesDir cwd; name ++ ".meta"]) ;;
     if ex
     then unlinkSync (Path.resolve cwd [projectPackagesDir cwd; name ++ ".meta"])
     else ret tt)
    (fun _ => ok) (ok_thrown cwd).
Proof.
  eapply triple_bind.
  - apply triple_reads; [apply reads_existsSync | intros ? ? [? ?]; now left].
  - intros [|]; [apply unlinkSync_ok | apply triple_ret; now intros ? [? ?]].
Qed.

Lemma phase2_step_ok name :
  triple ok (phase2_step cwd name) (fun _ => ok) (ok_thrown cwd).
Proof.
  unfold phase2_step.
  eapply triple_bind; [apply validate_ok|]. intros ?.
  eapply triple_bind.
  { apply triple_reads; [apply reads_existsSync | intros ? ? [? ?]; now left]. }
  intros ex.
  eapply (triple_bind _ _ _
            (fun _ w => ok w /\ In (Validate (Path.resolve cwd
               [projectPackagesDir cwd; name])) (log w))).
  { destruct ex; [apply removeSync_ok | apply triple_ret; auto]. }
  intros ?. apply unlink_sidecar_ok.
Qed.

Lemma phase3_step_ok name :
  triple ok (phase3_step cwd name) (fun _ => ok) (ok_thrown cwd).
Proof.
  unfold phase3_step.
  eapply triple_bind; [apply validate_ok|]. intros ?.
  eapply triple_bind; [apply isEmptySync_ok|].
  intros [|]; [|apply triple_ret; now intros ? [? ?]].
  eapply triple_bind; [apply removeSync_ok|].
  intros ?. apply unlink_sidecar_ok.
Qed.

Lemma sync_ok : triple ok (sync cwd) (fun _ => ok) (ok_thrown cwd).
Proof.
  unfold sync. eapply triple_bind.
  - apply triple_reads; [apply reads_readJsonSync | intros; now left].
  - intros cfg. eapply triple_bind.
    { apply triple_for_of. intros; apply phase1_step_ok. }
    intros ?. eapply triple_bind.
    { unfold phase2. eapply triple_bind.
      - apply triple_reads;
          [apply reads_getProjectPackageListing | intros; now left].
      - intros l. apply triple_for_of. intros; apply phase2_step_ok. }
    intros ?. unfold phase3. eapply triple_bind.
    + apply triple_reads;
        [apply reads_getProjectPackageScopes | intros; now left].
    + intros l. apply triple_for_of. intros; apply phase3_step_ok.
Qed.

Lemma run_ok t : ok_outcome cwd (run cwd t).
Proof.
  unfold run. pose proof (sync_ok (mkWorld t []) (ok_nil cwd)) as H.
  destruct (sync cwd _); exact H.
Qed.

(** ** From well-formed records to the statements about them *)

Lemma happened_cons x l e older :
  happened (x :: l) e older -> (x = e /\ older = l) \/ happened l e older.
Proof.
  intros [[|y newer] H]; simpl in H; injection H as -> ->.
  - now left.
  - right. now exists newer.
Qed.

Lemma ok_log_tail x l : ok_log cwd (x :: l) -> ok_log cwd l.
Proof. inversion 1; assumption. Qed.

Lemma ok_log_guard_precedes l :
  ok_log cwd l -> guard_precedes directory_operation l.
Proof.
  intros Hl e older p Hh He. revert Hl.
  induction l as [|x l IH]; intros Hl.
  - destruct Hh as [[|? ?] H]; discriminate.
  - apply happened_cons in Hh as [[-> ->]|Hh].
    + inversion Hl; subst; try discriminate.
      * match goal with
        | H : directory_operation e = Some ?q |- _ =>
            rewrite He in H; injection H as <-
        end.
        split; [assumption | eapply ok_log_validate_safe; eassumption].
    + apply IH; [assumption | eapply ok_log_tail; eassumption].
Qed.

Lemma ok_log_sidecar l : ok_log cwd l -> sidecar_follows_guard cwd l.
Proof.
  intros Hl older p Hh. revert Hl.
  induction l as [|x l IH]; intros Hl.
  - destruct Hh as [[|? ?] H]; discriminate.
  - apply happened_cons in Hh as [[-> ->]|Hh].
    + inversion Hl; subst; try discriminate.
      exists name. repeat split; [assumption|].
      eapply ok_log_validate_safe; eassumption.
    + apply IH; [assumption | eapply ok_log_tail; eassumption].
Qed.

Lemma ok_log_no_unsafe l older p :
  ok_log cwd l -> happened l (Validate p) older -> safe p = true.
Proof.
  intros Hl [newer ->]. eapply ok_log_validate_safe; [eassumption|].
  apply in_or_app. right. now left.
Qed.

Lemma ok_outcome_guard_aborts o : ok_outcome cwd o -> guard_aborts o.
Proof.
  intros Ho older p Hh Hs. destruct o as [a w|e l]; simpl in *.
  - rewrite (ok_log_no_unsafe _ _ _ Ho Hh) in Hs. discriminate.
  - destruct Ho as [Ho|(q & l' & -> & Hq & -> & Hl')].
    + rewrite (ok_log_no_unsafe _ _ _ Ho Hh) in Hs. discriminate.
    + apply happened_cons in Hh as [[[= ->] ->]|Hh]; [reflexivity|].
      rewrite (ok_log_no_unsafe _ _ _ Hl' Hh) in Hs. discriminate.
Qed.

Lemma ok_outcome_guard_precedes o :
  ok_outcome cwd o -> guard_precedes directory_operation (log_of o).
Proof.
  destruct o as [a w|e l]; simpl; [apply ok_log_guard_precedes|].
  intros [Ho|(q & l' & -> & Hq & -> & Hl')]; [now apply ok_log_guard_precedes|].
  intros e older p Hh He.
  apply happened_cons in Hh as [[<- ->]|Hh]; [discriminate|].
  eapply ok_log_guard_precedes; eassumption.
Qed.

Lemma ok_outcome_sidecar o :
  ok_outcome cwd o -> sidecar_follows_guard cwd (log_of o).
Proof.
  destruct o as [a w|e l]; simpl; [apply ok_log_sidecar|].
  intros [Ho|(q & l' & -> & Hq & -> & Hl')]; [now apply ok_log_sidecar|].
  intros older p Hh.
  apply happened_cons in Hh as [[[=] ->]|Hh].
  eapply ok_log_sidecar; eassumption.
Qed.

End Guard.

(* ================================================================== *)
(** * C1: the guard and the operations it protects *)
(* ================================================================== *)

(** What the stale project of the examples makes the script do. *)
Lemma stale_B_log :
  log_of (run "/proj" Examples.stale_B)
  = [Unlink "/proj/Assets/Plugins/Packages/B.meta";
     Remove "/proj/Assets/Plugins/Packages/B";
     Validate "/proj/Assets/Plugins/Packages/B"].
Proof. vm_compute. reflexivity. Qed.

(** C1, as stated, fails: the sidecar of a removed package is unlinked
    although the guard was never called on the path of the sidecar. *)
Lemma C1_guard_not_called_on_sidecar :
  ~ guard_precedes deletion_or_emptiness
      (log_of (run "/proj" Examples.stale_B)).
Proof.
  intros H. rewrite stale_B_log in H.
  destruct (H (Unlink "/proj/Assets/Plugins/Packages/B.meta")
              [Remove "/proj/Assets/Plugins/Packages/B";
               Validate "/proj/Assets/Plugins/Packages/B"]
              "/proj/Assets/Plugins/Packages/B.meta") as [Hin _].
  - now exists [].
  - reflexivity.
  - simpl in Hin. destruct Hin as [E|[E|[]]]; discriminate.
Qed.

(** C1, amended: every path handed to a directory operation (clearing a
    directory, removing one, testing one for emptiness) was handed to
    the guard before and contains the packages path; a path that fails
    the guard makes the run throw at once, so nothing is done to it;
    sidecar files are unlinked without a call of the guard on their own
    path, but only after the guard passed on the directory they
    accompany. This holds for every working directory and every tree,
    whether the run returns or throws. *)
Theorem C1_guard_before_directory_operations (cwd : string) (t : node) :
  guard_precedes directory_operation (log_of (run cwd t))
  /\ guard_aborts (run cwd t)
  /\ sidecar_follows_guard cwd (log_of (run cwd t)).
Proof.
  pose proof (run_ok cwd t) as H. split; [|split].
  - now apply ok_outcome_guard_precedes with (cwd := cwd).
  - now apply ok_outcome_guard_aborts with (cwd := cwd).
  - now apply ok_outcome_sidecar.
Qed.

(* ================================================================== *)
(** * Phase 1: the marker, the version gate, the installation *)
(* ================================================================== *)

Section Phase1.

Variable cwd : string.

Lemma option_eqb_eq (a b : option string) : option_eqb a b = true <-> a = b.
Proof.
  destruct a as [x|], b as [y|]; simpl; try (split; congruence).
  rewrite String.eqb_eq. split; congruence.
Qed.

Lemma option_eqb_neq (a b : option string) : option_eqb a b = false <-> a <> b.
Proof.
  rewrite <- option_eqb_eq. destruct (option_eqb a b); split; congruence.
Qed.

(** The round for a package without the marker. *)
Lemma phase1_step_unmarked name w cfg :
  at_path w (metadataPath (dependencyDir cwd name)) = Some (File (Json cfg)) ->
  has_marker cfg = false ->
  phase1_step cwd name w = Done tt w.
Proof.
  intros Hc Hm. unfold phase1_step, bind, readJsonSync.
  fold (dependencyDir cwd name). fold (metadataPath (dependencyDir cwd name)).
  rewrite Hc. fold (has_marker cfg). rewrite Hm. reflexivity.
Qed.

(** The round for a package with the marker, up to the version gate. *)
Lemma phase1_step_marked name w cfg :
  at_path w (metadataPath (dependencyDir cwd name)) = Some (File (Json cfg)) ->
  has_marker cfg = true ->
  phase1_step cwd name w
  = (validateProjectPackageDirectory (assetsTargetPath cwd name) ;;
     ex <- existsSync (metadataPath (assetsTargetPath cwd name)) ;;
     same <- (if ex then
                assetsTargetConfig <-
                  readJsonSync (metadataPath (assetsTargetPath cwd name)) ;;
                ret (option_eqb (version cfg) (version assetsTargetConfig))
              else ret false) ;;
     if same then ret tt
     else installPackage (dependencyDir cwd name) (assetsTargetPath cwd name)) w.
Proof.
  intros Hc Hm. unfold phase1_step at 1, bind at 1, readJsonSync at 1.
  fold (dependencyDir cwd name). fold (metadataPath (dependencyDir cwd name)).
  rewrite Hc. fold (has_marker cfg). rewrite Hm. reflexivity.
Qed.

Lemma validate_run p w :
  validateProjectPackageDirectory p w
  = if safe p then Done tt (validated p w)
    else Thrown (UnsafePath p) (Validate p :: log w).
Proof.
  unfold validateProjectPackageDirectory, bind, record, throw, ret, safe.
  destruct (Js.includes _ _); reflexivity.
Qed.

Lemma at_path_validated p w q : at_path (validated p w) q = at_path w q.
Proof. reflexivity. Qed.

Lemma phase1_step_same_version name w cfg tcfg :
  at_path w (metadataPath (dependencyDir cwd name)) = Some (File (Json cfg)) ->
  has_marker cfg = true ->
  at_path w (metadataPath (assetsTargetPath cwd name)) = Some (File (Json tcfg)) ->
  version tcfg = version cfg ->
  phase1_step cwd name w
  = if safe (assetsTargetPath cwd name)
    then Done tt (validated (assetsTargetPath cwd name) w)
    else Thrown (UnsafePath (assetsTargetPath cwd name))
                (Validate (assetsTargetPath cwd name) :: log w).
Proof.
  intros Hc Hm Ht Hv. rewrite (phase1_step_marked _ _ _ Hc Hm).
  unfold bind at 1. rewrite validate_run.
  destruct (safe _); [|reflexivity].
  assert (E : option_eqb (version cfg) (version tcfg) = true)
    by now apply option_eqb_eq.
  unfold bind, existsSync, readJsonSync, ret.
  rewrite !at_path_validated, Ht. cbn.
  rewrite !at_path_validated, Ht. cbn. rewrite E. reflexivity.
Qed.

Lemma phase1_step_bad_metadata name w cfg x :
  at_path w (metadataPath (dependencyDir cwd name)) = Some (File (Json cfg)) ->
  has_marker cfg = true ->
  at_path w (metadataPath (assetsTargetPath cwd name)) = Some x ->
  (forall c, x <> File (Json c)) ->
  exists e l, phase1_step cwd name w = Thrown e l.
Proof.
  intros Hc Hm Ht Hx. rewrite (phase1_step_marked _ _ _ Hc Hm).
  unfold bind at 1. rewrite validate_run.
  destruct (safe _); [|eauto].
  unfold bind, existsSync, readJsonSync, ret.
  rewrite !at_path_validated, Ht. cbn.
  rewrite !at_path_validated, Ht.
  destruct x as [[c|s]|es]; eauto. exfalso. now apply (Hx c).
Qed.

Lemma phase1_step_replace name w cfg :
  at_path w (metadataPath (dependencyDir cwd name)) = Some (File (Json cfg)) ->
  has_marker cfg = true ->
  safe (assetsTargetPath cwd name) = true ->
  at_path w (metadataPath (assetsTargetPath cwd name)) = None
  \/ (exists tcfg,
        at_path w (metadataPath (assetsTargetPath cwd name))
        = Some (File (Json tcfg))
        /\ version tcfg <> version cfg) ->
  phase1_step cwd name w
  = installPackage (dependencyDir cwd name) (assetsTargetPath cwd name)
      (validated (assetsTargetPath cwd name) w).
Proof.
  intros Hc Hm Hs Ht. rewrite (phase1_step_marked _ _ _ Hc Hm).
  unfold bind at 1. rewrite validate_run, Hs.
  unfold bind, existsSync, readJsonSync, ret.
  destruct Ht as [Ht|(tcfg & Ht & Hv)];
    rewrite !at_path_validated, Ht; cbn; [reflexivity|].
  assert (E : option_eqb (version cfg) (version tcfg) = false)
    by (apply option_eqb_neq; congruence).
  rewrite !at_path_validated, Ht. cbn. rewrite E. reflexivity.
Qed.

(** ** The record only grows *)

Lemma grows_ret {A} (a : A) : grows (ret a).
Proof. intros w. now exists []. Qed.

Lemma grows_bind {A B} (m : M A) (k : A -> M B) :
  grows m -> (forall a, grows (k a)) -> grows (bind m k).
Proof.
  intros Hm Hk w. unfold bind. destruct (Hm w) as [n1 H1].
  destruct (m w) as [a w'|e l]; simpl in H1.
  - destruct (Hk a w') as [n2 H2]. exists (n2 ++ n1)%list.
    now rewrite H2, H1, app_assoc.
  - now exists n1.
Qed.

Lemma grows_reads {A} (m : M A) : reads m -> grows m.
Proof.
  intros H w. specialize (H w). exists [].
  destruct (m w); simpl; now subst.
Qed.

Lemma copySync_log s d w : log_of (copySync s d w) = Copy s d :: log w.
Proof.
  unfold copySync, bind, record, set_tree. cbn.
  repeat (break_match; cbn); reflexivity.
Qed.

Lemma emptyDirSync_log p w : log_of (emptyDirSync p w) = EmptyDir p :: log w.
Proof.
  unfold emptyDirSync, bind, record, set_tree. cbn.
  repeat (break_match; cbn); reflexivity.
Qed.

Lemma grows_copyIfExistsSync dep tgt f a : grows (copyIfExistsSync dep tgt f a).
Proof.
  unfold copyIfExistsSync. apply grows_bind.
  - apply grows_reads, reads_existsSync.
  - intros [|]; [|apply grows_ret].
    intros w. eexists [_]. apply copySync_log.
Qed.

Lemma grows_forEach_from {A} i (xs : list A) f :
  (forall x j, grows (f x j)) -> grows (forEach_from i xs f).
Proof.
  intros H. revert i. induction xs as [|x xs IH]; intros i; simpl.
  - apply grows_ret.
  - apply grows_bind; [apply H | intros; apply IH].
Qed.

Lemma grows_copyPackageFiles dep tgt : grows (copyPackageFiles dep tgt).
Proof.
  unfold copyPackageFiles. apply grows_bind.
  - apply grows_copyIfExistsSync.
  - intros _. apply grows_forEach_from. intros; apply grows_copyIfExistsSync.
Qed.

Lemma installPackage_unfold dep tgt :
  installPackage dep tgt = (emptyDirSync tgt ;; copyPackageFiles dep tgt).
Proof. reflexivity. Qed.

(** Installation starts by clearing the destination. *)
Lemma installPackage_clears_first dep tgt w :
  happened (log_of (installPackage dep tgt w)) (EmptyDir tgt) (log w).
Proof.
  rewrite installPackage_unfold. unfold bind.
  pose proof (emptyDirSync_log tgt w) as H.
  destruct (emptyDirSync tgt w) as [a w'|e l]; simpl in H.
  - destruct (grows_copyPackageFiles dep tgt w') as [newer Hn].
    exists newer. now rewrite Hn, H.
  - exists []. now rewrite H.
Qed.

(** ** Clearing a directory that is not there *)

Lemma no_file_on_way_empty p : no_file_on_way (Dir []) p = true.
Proof. destruct p; reflexivity. Qed.

Lemma write_without_file_on_way p v n :
  no_file_on_way n p = true -> exists n', Fs.write p v n = Some n'.
Proof.
  revert n. induction p as [|k p IH]; intros n H; simpl; [eauto|].
  destruct n as [d|es]; [discriminate|]. simpl in H.
  destruct (Fs.entry k es) as [c|].
  - destruct (IH _ H) as [n' ->]. eauto.
  - destruct (IH _ (no_file_on_way_empty p)) as [n' ->]. eauto.
Qed.

Lemma prefixes_are_directories n p x q :
  Fs.lookup n p = Some (Dir x) -> Fs.is_prefix q p = true ->
  exists es, Fs.lookup n q = Some (Dir es).
Proof.
  intros H Hq. apply is_prefix_spec in Hq as [r ->].
  destruct r as [|k r].
  - rewrite app_nil_r in H. eauto.
  - destruct (lookup_through_dir _ _ _ _ _ H) as (es & E & _). eauto.
Qed.

Lemma emptyDirSync_absent p w :
  at_path w p = None ->
  no_file_on_way (tree w) (Path.components p) = true ->
  exists t',
    Fs.write (Path.components p) (Dir []) (tree w) = Some t'
    /\ emptyDirSync p w = Done tt (mkWorld t' (EmptyDir p :: log w)).
Proof.
  intros Ha Hn.
  destruct (write_without_file_on_way _ (Dir []) _ Hn) as [t' Ht].
  exists t'. split; [assumption|].
  unfold emptyDirSync, bind, record, set_tree. simpl.
  unfold at_path in *. simpl. now rewrite Ha, Ht.
Qed.

End Phase1.

(* ================================================================== *)
(** * C2: the version gate *)
(* ================================================================== *)

(** A declared package whose name leads out of the packages directory
    is not installed, whatever is at its destination: the guard throws. *)
Lemma escaping_step :
  phase1_step "/proj" "../outside" (mkWorld (Examples.escaping []) [])
  = Thrown (UnsafePath "/proj/Assets/Plugins/outside")
           [Validate "/proj/Assets/Plugins/outside"].
Proof. vm_compute. reflexivity. Qed.

(** C2, as stated, fails: a declared package with the marker and no
    metadata file at its destination, for which nothing is cleared and
    nothing is copied. *)
Lemma C2_no_replace_outside_packages :
  exists cfg,
    at_path (mkWorld (Examples.escaping []) [])
      (metadataPath (dependencyDir "/proj" "../outside"))
    = Some (File (Json cfg))
    /\ has_marker cfg = true
    /\ at_path (mkWorld (Examples.escaping []) [])
         (metadataPath (assetsTargetPath "/proj" "../outside")) = None
    /\ ~ happened (log_of (phase1_step "/proj" "../outside"
                            (mkWorld (Examples.escaping []) [])))
                  (EmptyDir (assetsTargetPath "/proj" "../outside"))
                  [Validate (assetsTargetPath "/proj" "../outside")].
Proof.
  exists (mkConfig (Some "1.0.0") (Some ["unity3d"; "unity3d-package"]) None).
  split; [vm_compute; reflexivity|].
  split; [vm_compute; reflexivity|]. split; [vm_compute; reflexivity|].
  rewrite escaping_step. intros [newer H]. simpl in H.
  destruct newer as [|e [|e' newer]]; discriminate.
Qed.

(** C2, amended: for a declared package that carries the marker, when
    the metadata file at the destination has the very same version
    string as the source, the round records the call of the guard and
    nothing else - no clear, no copy - and, the guard passing, returns
    with the tree untouched; when the guard passes and the metadata file
    at the destination is absent or its version differs in any way, the
    round is the full replacement, which starts by clearing the
    destination right after the guard. *)
Theorem C2_version_gate (cwd name : string) (w : world) (cfg : config) :
  at_path w (metadataPath (dependencyDir cwd name)) = Some (File (Json cfg)) ->
  has_marker cfg = true ->
  let tgt := assetsTargetPath cwd name in
  (forall tcfg,
      at_path w (metadataPath tgt) = Some (File (Json tcfg)) ->
      version tcfg = version cfg ->
      log_of (phase1_step cwd name w) = Validate tgt :: log w
      /\ (safe tgt = true ->
          phase1_step cwd name w = Done tt (validated tgt w)))
  /\ (safe tgt = true ->
      at_path w (metadataPath tgt) = None
      \/ (exists tcfg,
            at_path w (metadataPath tgt) = Some (File (Json tcfg))
            /\ version tcfg <> version cfg) ->
      phase1_step cwd name w
      = installPackage (dependencyDir cwd name) tgt (validated tgt w)
      /\ happened (log_of (phase1_step cwd name w))
                  (EmptyDir tgt) (Validate tgt :: log w)).
Proof.
  intros Hc Hm tgt. split.
  - intros tcfg Ht Hv.
    rewrite (phase1_step_same_version cwd name w cfg tcfg Hc Hm Ht Hv).
    fold tgt. destruct (safe tgt); split; try reflexivity; discriminate.
  - intros Hs Ht.
    rewrite (phase1_step_replace cwd name w cfg Hc Hm Hs Ht). split.
    + reflexivity.
    + apply installPackage_clears_first.
Qed.

(** The gate at work: [alpha] is at 1.0.0 in [node_modules]; installed
    at 1.0.0 it is left alone, installed at 1.0 it is replaced. *)
Lemma C2_version_gate_witness :
  (log_of (phase1_step "/proj" "alpha"
             (mkWorld (Examples.alpha_project (Examples.alpha_installed "1.0.0")) []))
   = Validate (assetsTargetPath "/proj" "alpha") :: []
   /\ (safe (assetsTargetPath "/proj" "alpha") = true ->
       phase1_step "/proj" "alpha"
         (mkWorld (Examples.alpha_project (Examples.alpha_installed "1.0.0")) [])
       = Done tt
           (validated (assetsTargetPath "/proj" "alpha")
              (mkWorld (Examples.alpha_project (Examples.alpha_installed "1.0.0")) []))))
  /\ happened
       (log_of (phase1_step "/proj" "alpha"
                  (mkWorld (Examples.alpha_project (Examples.alpha_installed "1.0")) [])))
       (EmptyDir (assetsTargetPath "/proj" "alpha"))
       (Validate (assetsTargetPath "/proj" "alpha") :: []).
Proof.
  split.
  - apply (C2_version_gate "/proj" "alpha"
             (mkWorld (Examples.alpha_project (Examples.alpha_installed "1.0.0")) [])
             (mkConfig (Some "1.0.0") (Some ["unity3d"; "unity3d-package"]) None))
      with (tcfg := mkConfig (Some "1.0.0") (Some ["unity3d"; "unity3d-package"]) None).
    + vm_compute. reflexivity.
    + vm_compute. reflexivity.
    + vm_compute. reflexivity.
    + reflexivity.
  - apply (C2_version_gate "/proj" "alpha"
             (mkWorld (Examples.alpha_project (Examples.alpha_installed "1.0")) [])
             (mkConfig (Some "1.0.0") (Some ["unity3d"; "unity3d-package"]) None)).
    + vm_compute. reflexivity.
    + vm_compute. reflexivity.
    + vm_compute. reflexivity.
    + right. exists (mkConfig (Some "1.0") (Some ["unity3d"; "unity3d-package"]) None).
      split; [vm_compute; reflexivity | discriminate].
Defined.

(* ================================================================== *)
(** * The layout of a project *)
(* ================================================================== *)

Section Layout.

Variable cs : list string.
Hypothesis cs_valid : valid_names cs.

Let cwd := Path.absolute cs.

Lemma packages_relpath :
  relpath PROJECT_RELATIVE_PACKAGES_PATH ["Assets"; "Plugins"; "Packages"].
Proof. repeat split; [discriminate | repeat constructor]. Qed.

Lemma packagesPath_valid : valid_names (packagesPath cs).
Proof. apply Forall_app. split; [assumption | repeat constructor]. Qed.

Lemma projectPackagesDir_absolute :
  projectPackagesDir cwd = Path.absolute (packagesPath cs).
Proof.
  unfold projectPackagesDir, projectRootDir, cwd.
  now apply join_absolute; [|apply packages_relpath].
Qed.

Lemma projectConfigPath_absolute :
  projectConfigPath cwd = Path.absolute (cs ++ ["package.json"]).
Proof.
  unfold projectConfigPath, projectRootDir, cwd.
  apply join_absolute; [assumption | now apply relpath_name].
Qed.

Lemma join3_absolute l a b al bl :
  valid_names l -> relpath a al -> relpath b bl ->
  Path.join [Path.absolute l; a; b] = Path.absolute (l ++ al ++ bl).
Proof.
  intros Hl Ha Hb.
  rewrite <- (join_absolute l (a ++ "/" ++ b) (al ++ bl) Hl)
    by now apply relpath_app.
  destruct (relpath_facts _ _ Ha) as (Hna & _).
  destruct (relpath_facts _ _ Hb) as (Hnb & _).
  destruct (relpath_facts _ _ (relpath_app _ _ _ _ Ha Hb)) as (Hnab & _).
  unfold Path.join. cbn [filter].
  change (Js.nonempty (Path.absolute l)) with true. cbn iota.
  rewrite Hna, Hnb, Hnab. reflexivity.
Qed.

Lemma dependencyDir_absolute name ns :
  relpath name ns ->
  dependencyDir cwd name = Path.absolute (modulePath cs ns).
Proof.
  intros Hn. unfold dependencyDir, projectRootDir, cwd, modulePath.
  rewrite (join3_absolute cs "node_modules" name ["node_modules"] ns);
    [reflexivity | assumption | now apply relpath_name | assumption].
Qed.

Lemma assetsTargetPath_absolute name ns :
  relpath name ns ->
  assetsTargetPath cwd name = Path.absolute (packagesPath cs ++ ns).
Proof.
  intros Hn. unfold assetsTargetPath. rewrite projectPackagesDir_absolute.
  apply resolve_absolute; [apply packagesPath_valid | assumption].
Qed.

Lemma modulePath_valid ns : valid_names ns -> valid_names (modulePath cs ns).
Proof.
  intros H. apply Forall_app. split; [assumption|].
  constructor; [reflexivity | assumption].
Qed.

Lemma absolute_app (l r : list string) :
  r <> [] ->
  Path.absolute (l ++ r)
  = match l with [] => "" | _ => Path.absolute l end
    ++ "/" ++ String.concat "/" r.
Proof.
  intros Hr. unfold Path.absolute. destruct l as [|x l]; [reflexivity|].
  rewrite concat_app by (assumption || discriminate). reflexivity.
Qed.

(** Everything below the packages directory passes the guard. *)
Lemma safe_below_packages rest :
  safe (Path.absolute (packagesPath cs ++ rest)) = true.
Proof.
  unfold safe, packagesPath. rewrite <- app_assoc.
  rewrite absolute_app by discriminate.
  change (["Assets"; "Plugins"; "Packages"] ++ rest)%list
    with (["Assets"; "Plugins"] ++ "Packages" :: rest)%list.
  assert (E : String.concat "/" (["Assets"; "Plugins"] ++ "Packages" :: rest)
              = PROJECT_RELATIVE_PACKAGES_PATH
                ++ match rest with
                   | [] => ""
                   | _ => "/" ++ String.concat "/" rest
                   end).
  { destruct rest; reflexivity. }
  rewrite E.
  rewrite <- (string_app_assoc _ "/").
  apply includes_app.
Qed.

(** The modules and the packages are kept in separate places. *)
Lemma module_apart_packages ns rest :
  apart (modulePath cs ns) (packagesPath cs ++ rest).
Proof.
  unfold modulePath, packagesPath. rewrite <- app_assoc.
  apply apart_app_same. apply apart_heads. discriminate.
Qed.

Lemma manifest_apart_packages rest :
  apart (cs ++ ["package.json"]) (packagesPath cs ++ rest).
Proof.
  unfold packagesPath. rewrite <- app_assoc.
  apply apart_app_same. apply apart_heads. discriminate.
Qed.

(** ** Names *)

Lemma string_length_app (a b : string) :
  String.length (a ++ b) = String.length a + String.length b.
Proof. induction a; simpl; congruence. Qed.

Lemma no_slash_app (a b : string) :
  Path.no_slash (a ++ b) = Path.no_slash a && Path.no_slash b.
Proof.
  induction a as [|c a IH].
  - simpl. destruct (Path.no_slash b); reflexivity.
  - change (String c a ++ b) with (String c (a ++ b)).
    rewrite !no_slash_cons, IH. now rewrite andb_assoc.
Qed.

Lemma valid_name_meta x :
  Path.valid_name x = true -> Path.valid_name (x ++ ".meta") = true.
Proof.
  intros H. destruct (valid_name_inv _ H) as (_ & _ & _ & Hs).
  unfold Path.valid_name, Js.nonempty.
  rewrite no_slash_app, Hs.
  assert (L : String.length (x ++ ".meta") >= 5)
    by (rewrite string_length_app; simpl; lia).
  destruct (String.eqb_spec (x ++ ".meta") "") as [E|_];
    [rewrite E in L; simpl in L; lia|].
  destruct (String.eqb_spec (x ++ ".meta") ".") as [E|_];
    [rewrite E in L; simpl in L; lia|].
  destruct (String.eqb_spec (x ++ ".meta") "..") as [E|_];
    [rewrite E in L; simpl in L; lia|].
  reflexivity.
Qed.

Lemma app_meta_inj (a b : string) : a ++ ".meta" = b ++ ".meta" -> a = b.
Proof.
  revert b. induction a as [|c a IH]; intros [|c' b]; simpl; intros H.
  - reflexivity.
  - exfalso. injection H as _ H. apply (f_equal String.length) in H.
    rewrite string_length_app in H. simpl in H. lia.
  - exfalso. injection H as _ H. apply (f_equal String.length) in H.
    rewrite string_length_app in H. simpl in H. lia.
  - injection H as -> H. f_equal. auto.
Qed.

Lemma startsWith_app_l (a b pre : string) :
  a <> "" -> Js.startsWith (a ++ b) "@" = Js.startsWith a "@".
Proof. destruct a; [contradiction | reflexivity]. Qed.

Lemma package_name_relpath name ns ms :
  package_name name ns ms ->
  relpath name ns /\ relpath (name ++ ".meta") ms.
Proof.
  destruct 1 as [x Hx Hs|s c Hs Hat Hc].
  - split; apply relpath_name; [assumption | now apply valid_name_meta].
  - split.
    + apply (relpath_app s c [s] [c]); now apply relpath_name.
    + rewrite !string_app_assoc.
      apply (relpath_app s (c ++ ".meta") [s] [c ++ ".meta"]);
        apply relpath_name; [assumption | now apply valid_name_meta].
Qed.

Lemma package_name_valid name ns ms :
  package_name name ns ms -> valid_names ns /\ valid_names ms /\ ns <> [].
Proof.
  intros H. destruct (package_name_relpath _ _ _ H) as [(_ & N & V) (_ & _ & V')].
  auto.
Qed.

End Layout.

(* ================================================================== *)
(** * The installation of a package *)
(* ================================================================== *)

Section Primitives.

Lemma emptyDirSync_run p w :
  emptyDirSync p w
  = match at_path w p with
    | Some (File _) => Thrown (IOError "emptyDir" p) (EmptyDir p :: log w)
    | _ =>
        match Fs.write (Path.components p) (Dir []) (tree w) with
        | Some t => Done tt (mkWorld t (EmptyDir p :: log w))
        | None => Thrown (IOError "emptyDir" p) (EmptyDir p :: log w)
        end
    end.
Proof. reflexivity. Qed.

Lemma copySync_run s d w :
  copySync s d w
  = match at_path w s with
    | None => Thrown (IOError "copy" s) (Copy s d :: log w)
    | Some n =>
        if Fs.is_prefix (Path.components s) (Path.components d)
        then Thrown (IOError "copy" d) (Copy s d :: log w)
        else
          match Fs.copy n (at_path w d) with
          | None => Thrown (IOError "copy" d) (Copy s d :: log w)
          | Some n' =>
              match Fs.write (Path.components d) n' (tree w) with
              | Some t => Done tt (mkWorld t (Copy s d :: log w))
              | None => Thrown (IOError "copy" d) (Copy s d :: log w)
              end
          end
    end.
Proof. reflexivity. Qed.

Lemma removeSync_run p w :
  removeSync p w
  = match Path.components p with
    | [] => Thrown (IOError "remove" p) (Remove p :: log w)
    | _ :: _ =>
        Done tt (mkWorld (Fs.remove (Path.components p) (tree w))
                         (Remove p :: log w))
    end.
Proof.
  unfold removeSync, bind, record, set_tree. cbn.
  destruct (Path.components p); reflexivity.
Qed.

Lemma unlinkSync_run p w :
  unlinkSync p w
  = match at_path w p with
    | Some (File _) =>
        Done tt (mkWorld (Fs.remove (Path.components p) (tree w))
                         (Unlink p :: log w))
    | _ => Thrown (IOError "unlink" p) (Unlink p :: log w)
    end.
Proof. reflexivity. Qed.

Lemma isEmptySync_run p w :
  isEmptySync p w
  = Done (match at_path w p with
          | None => true
          | Some (Dir es) => match es with [] => true | _ => false end
          | Some (File (Text s)) => s =? ""
          | Some (File (Json _)) => false
          end)
         (mkWorld (tree w) (IsEmpty p :: log w)).
Proof. reflexivity. Qed.

Lemma existsSync_run p w : existsSync p w = Done (present w p) w.
Proof. reflexivity. Qed.

Lemma at_path_absolute l w :
  valid_names l -> at_path w (Path.absolute l) = Fs.lookup (tree w) l.
Proof. intros H. unfold at_path. now rewrite components_absolute. Qed.

(** What a copy between two absolute paths has done when it returns. *)
Lemma copySync_done sp dp w w' :
  valid_names sp -> valid_names dp ->
  copySync (Path.absolute sp) (Path.absolute dp) w = Done tt w' ->
  exists n n',
    Fs.lookup (tree w) sp = Some n
    /\ Fs.is_prefix sp dp = false
    /\ Fs.copy n (Fs.lookup (tree w) dp) = Some n'
    /\ Fs.write dp n' (tree w) = Some (tree w')
    /\ log w' = Copy (Path.absolute sp) (Path.absolute dp) :: log w.
Proof.
  intros Hs Hd. rewrite copySync_run, !at_path_absolute by assumption.
  rewrite !components_absolute by assumption.
  destruct (Fs.lookup (tree w) sp) as [n|]; [|discriminate].
  destruct (Fs.is_prefix sp dp); [discriminate|].
  destruct (Fs.copy n _) as [n'|] eqn:Ec; [|discriminate].
  destruct (Fs.write dp n' (tree w)) as [t|] eqn:Ew; [|discriminate].
  intros [= <-]. exists n, n'. simpl. auto.
Qed.

End Primitives.

Section Install.

Variables ds ts : list string.
Hypothesis ds_valid : valid_names ds.
Hypothesis ts_valid : valid_names ts.
Hypothesis ds_ts_apart : apart ds ts.

Let dep := Path.absolute ds.
Let tgt := Path.absolute ts.

Lemma source_path f :
  Path.valid_name f = true -> Path.join [dep; f] = Path.absolute (ds ++ [f]).
Proof. intros. apply join_absolute; [assumption | now apply relpath_name]. Qed.

Lemma target_path f :
  Path.valid_name f = true -> Path.join [tgt; f] = Path.absolute (ts ++ [f]).
Proof. intros. apply join_absolute; [assumption | now apply relpath_name]. Qed.

Lemma target_root : Path.join [tgt; ""] = tgt.
Proof. now apply join_absolute_empty. Qed.

Lemma valid_snoc l f :
  valid_names l -> Path.valid_name f = true -> valid_names (l ++ [f]).
Proof. intros. apply Forall_app. split; [assumption | now repeat constructor]. Qed.

Lemma apart_target_source r s : apart (ts ++ r) (ds ++ s).
Proof. apply apart_extend. now apply apart_sym. Qed.

Lemma same_outside_refl p w : same_outside p w w.
Proof. intros q _. reflexivity. Qed.

Lemma same_outside_trans p w1 w2 w3 :
  same_outside p w1 w2 -> same_outside p w2 w3 -> same_outside p w1 w3.
Proof. intros H1 H2 q Hq. now rewrite H2, H1. Qed.

Lemma same_outside_write r v w w' :
  Fs.write (ts ++ r) v (tree w) = Some (tree w') -> same_outside ts w w'.
Proof.
  intros Hw q Hq. eapply lookup_write_apart; [eassumption|].
  rewrite <- (app_nil_r q). now apply apart_extend.
Qed.

Lemma same_outside_source w w' s :
  same_outside ts w w' ->
  Fs.lookup (tree w') (ds ++ s) = Fs.lookup (tree w) (ds ++ s).
Proof.
  intros H. apply H. rewrite <- (app_nil_r ts). apply apart_target_source.
Qed.

(** ** One conditional copy *)

Lemma copyIfExistsSync_extra f i w :
  Path.valid_name f = true ->
  copyIfExistsSync dep tgt f (JsNumber i) w
  = match Fs.lookup (tree w) (ds ++ [f]) with
    | None => Done tt w
    | Some _ => copySync (Path.absolute (ds ++ [f])) (Path.absolute (ts ++ [f])) w
    end.
Proof.
  intros Hf. unfold copyIfExistsSync, bind. rewrite existsSync_run.
  unfold present. rewrite source_path, target_path by assumption.
  rewrite at_path_absolute by now apply valid_snoc.
  destruct (Fs.lookup (tree w) (ds ++ [f])); reflexivity.
Qed.

Lemma copyIfExistsSync_assets w :
  copyIfExistsSync dep tgt "assets" (JsString "") w
  = match Fs.lookup (tree w) (ds ++ ["assets"]) with
    | None => Done tt w
    | Some _ => copySync (Path.absolute (ds ++ ["assets"])) tgt w
    end.
Proof.
  unfold copyIfExistsSync, bind. rewrite existsSync_run.
  unfold present. rewrite source_path, target_root by reflexivity.
  rewrite at_path_absolute by now apply valid_snoc.
  destruct (Fs.lookup (tree w) (ds ++ ["assets"])); reflexivity.
Qed.

Lemma extra_step f i w w' :
  Path.valid_name f = true ->
  copyIfExistsSync dep tgt f (JsNumber i) w = Done tt w' ->
  (Fs.lookup (tree w) (ds ++ [f]) = None /\ w' = w)
  \/ (exists n n',
        Fs.lookup (tree w) (ds ++ [f]) = Some n
        /\ Fs.copy n (Fs.lookup (tree w) (ts ++ [f])) = Some n'
        /\ Fs.write (ts ++ [f]) n' (tree w) = Some (tree w')
        /\ log w' = Copy (Path.absolute (ds ++ [f])) (Path.absolute (ts ++ [f]))
                    :: log w).
Proof.
  intros Hf. rewrite copyIfExistsSync_extra by assumption.
  destruct (Fs.lookup (tree w) (ds ++ [f])) as [n|] eqn:E.
  - intros H. right.
    apply copySync_done in H as (n0 & n' & H1 & _ & H3 & H4 & H5);
      try now apply valid_snoc.
    rewrite E in H1. injection H1 as <-. exists n, n'. auto.
  - intros [= <-]. now left.
Qed.

(** ** The extra files *)

Lemma copy_extras_spec fs :
  NoDup fs -> valid_names fs ->
  forall i w w',
    copy_extras dep tgt fs i w = Done tt w' ->
    same_outside ts w w'
    /\ (Fs.wf (tree w) = true -> Fs.wf (tree w') = true)
    /\ (forall f d, In f fs ->
          Fs.lookup (tree w) (ds ++ [f]) = Some (File d) ->
          Fs.lookup (tree w') (ts ++ [f]) = Some (File d))
    /\ (forall k q,
          ~ In k fs \/ Fs.lookup (tree w) (ds ++ [k]) = None ->
          Fs.lookup (tree w') (ts ++ k :: q) = Fs.lookup (tree w) (ts ++ k :: q)).
Proof.
  induction 1 as [|f fs Hf Hnd IH]; intros Hv i w w'.
  - intros [= <-]. repeat split; auto using same_outside_refl. contradiction.
  - inversion Hv as [|? ? Hvf Hvfs]; subst.
    unfold copy_extras. cbn [forEach_from]. unfold bind at 1.
    destruct (copyIfExistsSync dep tgt f (JsNumber i) w) as [[] w1|] eqn:E1;
      [|discriminate].
    intros E2. fold (copy_extras dep tgt fs (S i)) in E2.
    destruct (IH Hvfs _ _ _ E2) as (O2 & W2 & F2 & K2).
    apply extra_step in E1 as [[En ->]|(n & n' & En & Ec & Ew & _)];
      [| |assumption].
    + (* nothing to copy *)
      repeat split; [assumption | assumption | |].
      * intros g d [<-|Hg] Hd; [congruence | eauto].
      * intros k q [Hk|Hk]; apply K2; [left; intros ?; apply Hk; now right|].
        now right.
    + (* the file was copied *)
      pose proof (same_outside_write _ _ _ _ Ew) as O1.
      assert (S1 : forall s, Fs.lookup (tree w1) (ds ++ s)
                             = Fs.lookup (tree w) (ds ++ s))
        by (intros; now apply same_outside_source).
      repeat split.
      * eapply same_outside_trans; eassumption.
      * intros Hw. apply W2. eapply wf_write; [exact Hw | | | exact Ew].
        -- eapply wf_copy; [| | exact Ec].
           ++ eapply wf_lookup; eassumption.
           ++ intros d Hd. eapply wf_lookup; eassumption.
        -- now apply valid_snoc.
      * intros g d [<-|Hg] Hd.
        -- rewrite (K2 f [] (or_introl Hf)).
           rewrite (lookup_write_same _ _ _ _ Ew).
           rewrite Hd in En. injection En as <-.
           apply copy_file in Ec. now subst.
        -- apply F2; [assumption|]. now rewrite S1.
      * intros k q Hk.
        assert (Hkf : k <> f).
        { destruct Hk as [Hk|Hk]; [intros ->; apply Hk; now left|].
          intros ->. congruence. }
        rewrite K2.
        -- eapply lookup_write_apart; [exact Ew|].
           apply apart_app_same. apply apart_heads. congruence.
        -- destruct Hk as [Hk|Hk]; [left; intros ?; apply Hk; now right|].
           right. now rewrite S1.
Qed.

(** ** The whole installation, when it returns *)

Lemma installPackage_extras :
  installPackage dep tgt
  = (emptyDirSync tgt ;;
     copyIfExistsSync dep tgt "assets" (JsString "") ;;
     copy_extras dep tgt extraFiles 0).
Proof. reflexivity. Qed.

Lemma extraFiles_NoDup : NoDup extraFiles.
Proof.
  repeat constructor; simpl; intros H;
    repeat (destruct H as [H|H]; [discriminate|]); assumption.
Qed.

Lemma extraFiles_valid : valid_names extraFiles.
Proof. repeat constructor. Qed.

Lemma emptyDirSync_done w w' :
  emptyDirSync tgt w = Done tt w' ->
  Fs.write ts (Dir []) (tree w) = Some (tree w')
  /\ log w' = EmptyDir tgt :: log w.
Proof.
  rewrite emptyDirSync_run. unfold tgt.
  rewrite at_path_absolute, components_absolute by assumption.
  destruct (Fs.lookup (tree w) ts) as [[d|es]|]; try discriminate;
    destruct (Fs.write ts (Dir []) (tree w)); try discriminate;
    intros [= <-]; auto.
Qed.

Lemma assets_step w w' :
  Fs.wf (tree w) = true ->
  Fs.lookup (tree w) ts = Some (Dir []) ->
  copyIfExistsSync dep tgt "assets" (JsString "") w = Done tt w' ->
  same_outside ts w w'
  /\ Fs.wf (tree w') = true
  /\ (forall r, Fs.lookup (tree w') (ts ++ r)
                = match r with
                  | [] => Fs.lookup (tree w') ts
                  | _ => Fs.lookup (tree w) (ds ++ "assets" :: r)
                  end)
  /\ (exists es, Fs.lookup (tree w') ts = Some (Dir es)).
Proof.
  intros Hw Ht. rewrite copyIfExistsSync_assets.
  destruct (Fs.lookup (tree w) (ds ++ ["assets"])) as [n|] eqn:E.
  - intros H. apply copySync_done in H as (n0 & n' & H1 & _ & H3 & H4 & _);
      [| now apply valid_snoc | assumption].
    rewrite E in H1. injection H1 as <-. rewrite Ht in H3.
    assert (Hn : Fs.wf n = true) by (eapply wf_lookup; eassumption).
    destruct (copy_into_empty _ _ Hn H3) as [-> Hd].
    split; [|split; [|split]].
    + rewrite <- (app_nil_r ts) in H4. eapply same_outside_write; eassumption.
    + eapply wf_write; [exact Hw | exact Hn | exact ts_valid | exact H4].
    + intros [|k q]; [now rewrite app_nil_r|].
      rewrite (lookup_write_below _ _ _ _ _ H4).
      change (ds ++ "assets" :: k :: q)%list
        with (ds ++ ["assets"] ++ k :: q)%list.
      now rewrite app_assoc, lookup_app, E.
    + rewrite (lookup_write_same _ _ _ _ H4).
      destruct n; [discriminate | eauto].
  - intros [= <-]. split; [apply same_outside_refl|].
    split; [assumption|]. split; [|eauto].
    intros [|k q]; [now rewrite app_nil_r|].
    rewrite lookup_app, Ht.
    change (ds ++ "assets" :: k :: q)%list
      with (ds ++ ["assets"] ++ k :: q)%list.
    now rewrite app_assoc, lookup_app, E.
Qed.

Lemma installPackage_spec w w' :
  Fs.wf (tree w) = true ->
  installPackage dep tgt w = Done tt w' ->
  same_outside ts w w'
  /\ Fs.wf (tree w') = true
  /\ (forall f d, In f extraFiles ->
        Fs.lookup (tree w) (ds ++ [f]) = Some (File d) ->
        Fs.lookup (tree w') (ts ++ [f]) = Some (File d))
  /\ (forall k q,
        ~ In k extraFiles \/ Fs.lookup (tree w) (ds ++ [k]) = None ->
        Fs.lookup (tree w') (ts ++ k :: q)
        = Fs.lookup (tree w) (ds ++ "assets" :: k :: q)).
Proof.
  intros Hw. rewrite installPackage_extras. unfold bind.
  destruct (emptyDirSync tgt w) as [[] w1|] eqn:E1; [|discriminate].
  destruct (copyIfExistsSync dep tgt "assets" (JsString "") w1)
    as [[] w2|] eqn:E2; [|discriminate].
  intros E3.
  apply emptyDirSync_done in E1 as [W1 _].
  assert (O1 : same_outside ts w w1).
  { rewrite <- (app_nil_r ts) in W1. eapply same_outside_write; eassumption. }
  assert (Hw1 : Fs.wf (tree w1) = true)
    by (apply (wf_write ts (Dir []) (tree w) (tree w1) Hw eq_refl ts_valid W1)).
  pose proof (lookup_write_same _ _ _ _ W1) as L1.
  destruct (assets_step _ _ Hw1 L1 E2) as (O2 & Hw2 & A2 & _).
  destruct (copy_extras_spec _ extraFiles_NoDup extraFiles_valid _ _ _ E3)
    as (O3 & W3 & F3 & K3).
  assert (S2 : forall s, Fs.lookup (tree w2) (ds ++ s)
                         = Fs.lookup (tree w) (ds ++ s)).
  { intros s. rewrite (same_outside_source _ _ _ O2).
    now apply same_outside_source. }
  split; [|split; [|split]].
  - eapply same_outside_trans; [|eassumption].
    eapply same_outside_trans; eassumption.
  - auto.
  - intros f d Hf Hd. apply F3; [assumption|]. now rewrite S2.
  - intros k q Hk. rewrite K3.
    + rewrite (A2 (k :: q)).
      rewrite (same_outside_source _ _ ("assets" :: k :: q) O1). reflexivity.
    + destruct Hk as [Hk|Hk]; [now left | right; now rewrite S2].
Qed.

(** ** What an installation records, returning or not *)

Lemma present_source w f :
  Path.valid_name f = true ->
  present w (Path.join [dep; f])
  = match Fs.lookup (tree w) (ds ++ [f]) with Some _ => true | None => false end.
Proof.
  intros Hf. unfold present. rewrite source_path by assumption.
  now rewrite at_path_absolute by now apply valid_snoc.
Qed.

Lemma extras_events_same fs w w' :
  valid_names fs -> same_outside ts w w' ->
  extras_events dep tgt fs w' = extras_events dep tgt fs w.
Proof.
  intros Hv Ho. induction Hv as [|f fs Hf Hfs IH]; [reflexivity|].
  unfold extras_events in *. cbn [flat_map]. rewrite IH.
  rewrite !present_source by assumption.
  now rewrite (same_outside_source _ _ [f] Ho).
Qed.

Lemma copy_extras_log fs :
  valid_names fs ->
  forall i w,
  exists l later,
    log_of (copy_extras dep tgt fs i w) = (l ++ log w)%list
    /\ rev (extras_events dep tgt fs w) = (later ++ l)%list
    /\ (forall w', copy_extras dep tgt fs i w = Done tt w' -> later = []).
Proof.
  induction 1 as [|f fs Hf Hfs IH]; intros i w.
  - exists [], []. repeat split.
  - unfold copy_extras. cbn [forEach_from]. fold (copy_extras dep tgt fs (S i)).
    unfold extras_events. cbn [flat_map]. fold (extras_events dep tgt fs w).
    unfold bind. rewrite present_source by assumption.
    rewrite copyIfExistsSync_extra by assumption.
    rewrite source_path, target_path by assumption.
    destruct (Fs.lookup (tree w) (ds ++ [f])) as [n|] eqn:E.
    + pose proof (copySync_log (Path.absolute (ds ++ [f]))
                    (Path.absolute (ts ++ [f])) w) as Hl.
      destruct (copySync _ _ w) as [[] w1|e l1] eqn:Ec; simpl in Hl.
      * destruct (IH (S i) w1) as (l & later & H1 & H2 & H3).
        apply copySync_done in Ec as (_ & n' & _ & _ & _ & Ew & _);
          try now apply valid_snoc.
        rewrite (extras_events_same fs w w1) in H2;
          [|assumption | eapply same_outside_write; eassumption].
        exists (l ++ [Copy (Path.absolute (ds ++ [f]))
                           (Path.absolute (ts ++ [f]))])%list, later.
        repeat split.
        -- rewrite H1, Hl, <- app_assoc. reflexivity.
        -- cbn [app rev]. rewrite H2, <- app_assoc. reflexivity.
        -- assumption.
      * exists [Copy (Path.absolute (ds ++ [f])) (Path.absolute (ts ++ [f]))],
          (rev (extras_events dep tgt fs w)).
        repeat split; [now rewrite Hl | discriminate].
    + destruct (IH (S i) w) as (l & later & H1 & H2 & H3).
      exists l, later. repeat split; assumption.
Qed.

Lemma installPackage_log w :
  exists l later,
    log_of (installPackage dep tgt w) = (l ++ log w)%list
    /\ rev (installation_events dep tgt w) = (later ++ l)%list
    /\ In (EmptyDir tgt) l
    /\ (forall w', installPackage dep tgt w = Done tt w' -> later = []).
Proof.
  rewrite installPackage_extras. unfold installation_events.
  fold (extras_events dep tgt extraFiles w). unfold bind.
  pose proof (emptyDirSync_log tgt w) as L1.
  rewrite present_source, source_path, target_root by reflexivity.
  cbn [rev]. rewrite rev_app_distr.
  destruct (emptyDirSync tgt w) as [[] w1|e l1] eqn:E1; simpl in L1.
  - apply emptyDirSync_done in E1 as [W1 _].
    assert (O1 : same_outside ts w w1).
    { rewrite <- (app_nil_r ts) in W1. eapply same_outside_write; eassumption. }
    rewrite copyIfExistsSync_assets.
    rewrite (same_outside_source _ _ ["assets"] O1).
    destruct (Fs.lookup (tree w) (ds ++ ["assets"])) as [n|] eqn:E.
    + pose proof (copySync_log (Path.absolute (ds ++ ["assets"])) tgt w1) as L2.
      destruct (copySync _ tgt w1) as [[] w2|e l2] eqn:E2; simpl in L2.
      * apply copySync_done in E2 as (_ & n' & _ & _ & _ & W2 & _);
          [| now apply valid_snoc | assumption].
        assert (O2 : same_outside ts w1 w2).
        { rewrite <- (app_nil_r ts) in W2.
          eapply same_outside_write; eassumption. }
        destruct (copy_extras_log extraFiles extraFiles_valid 0 w2)
          as (l & later & H1 & H2 & H3).
        rewrite (extras_events_same _ w1 w2), (extras_events_same _ w w1) in H2
          by (assumption || apply extraFiles_valid).
        exists (l ++ [Copy (Path.absolute (ds ++ ["assets"])) tgt; EmptyDir tgt])%list,
          later.
        repeat split.
        -- rewrite H1, L2, L1, <- app_assoc. reflexivity.
        -- rewrite H2, <- !app_assoc. reflexivity.
        -- apply in_or_app. right. simpl. auto.
        -- assumption.
      * exists [Copy (Path.absolute (ds ++ ["assets"])) tgt; EmptyDir tgt],
          (rev (extras_events dep tgt extraFiles w)).
        split; [now rewrite L2, L1|]. split; [now rewrite <- app_assoc|].
        split; [simpl; auto | discriminate].
    + destruct (copy_extras_log extraFiles extraFiles_valid 0 w1)
        as (l & later & H1 & H2 & H3).
      rewrite (extras_events_same _ w w1) in H2
        by (assumption || apply extraFiles_valid).
      exists (l ++ [EmptyDir tgt])%list, later.
      repeat split.
      * rewrite H1, L1, <- app_assoc. reflexivity.
      * rewrite H2, <- !app_assoc. reflexivity.
      * apply in_or_app. right. now left.
      * assumption.
  - exists [EmptyDir tgt].
    eexists. split; [now rewrite L1|]. split; [reflexivity|].
    split; [now left | discriminate].
Qed.

End Install.

(* ================================================================== *)
(** * C3: the steps of an installation *)
(* ================================================================== *)

(** C3: an installation from the directory [ds] of a dependency into
    the destination [ts] - two absolute paths neither of which lies
    inside the other, in a well-formed tree - records, in this order,
    the clearing of the destination, the copy of the [assets] directory
    onto the destination itself, and the copies of [package.json],
    [README.md] and [LICENSE] under their own names, each copy only for a
    source that exists: the record of the run is this list up to the
    point where the run stopped, and the whole list when it returned. When
    it returns, every extra file that the source has as a regular file is
    at the destination; any other name at the root of the destination -
    an extra file the source lacks included - leads to what the same name
    leads to inside [assets] at the source, hence to nothing when
    [assets] has no such entry (what was at the destination before is
    gone, and a missing extra file is not created); and nothing outside
    the destination has changed. *)
Theorem C3_installation_steps (ds ts : list string) (w : world) :
  valid_names ds -> valid_names ts -> apart ds ts -> Fs.wf (tree w) = true ->
  let dep := Path.absolute ds in
  let tgt := Path.absolute ts in
  (exists l later,
      log_of (installPackage dep tgt w) = (l ++ log w)%list
      /\ rev (installation_events dep tgt w) = (later ++ l)%list
      /\ In (EmptyDir tgt) l
      /\ (forall w', installPackage dep tgt w = Done tt w' -> later = []))
  /\ (forall w',
        installPackage dep tgt w = Done tt w' ->
        (forall f d, In f extraFiles ->
           Fs.lookup (tree w) (ds ++ [f]) = Some (File d) ->
           Fs.lookup (tree w') (ts ++ [f]) = Some (File d))
        /\ (forall k q,
              ~ In k extraFiles \/ Fs.lookup (tree w) (ds ++ [k]) = None ->
              Fs.lookup (tree w') (ts ++ k :: q)
              = Fs.lookup (tree w) (ds ++ "assets" :: k :: q))
        /\ same_outside ts w w').
Proof.
  intros Hds Hts Hap Hw dep tgt. split.
  - now apply installPackage_log.
  - intros w' Hd.
    destruct (installPackage_spec ds ts Hds Hts Hap w w' Hw Hd)
      as (H1 & _ & H3 & H4).
    auto.
Qed.

(** The installation of [alpha] over a stale copy: the source has no
    licence, and there is none at the destination afterwards; the stale
    file is gone; the readme has arrived. *)
Lemma C3_installation_steps_witness :
  log Examples.alpha_replaced
  = rev (installation_events (Path.absolute Examples.alpha_from)
           (Path.absolute Examples.alpha_to) Examples.alpha_stale)
  /\ Fs.lookup (tree Examples.alpha_replaced) (Examples.alpha_to ++ ["LICENSE"])
     = None
  /\ Fs.lookup (tree Examples.alpha_replaced) (Examples.alpha_to ++ ["stale.cs"])
     = None
  /\ Fs.lookup (tree Examples.alpha_replaced) (Examples.alpha_to ++ ["README.md"])
     = Some (File (Text "read me")).
Proof.
  assert (Hd : installPackage (Path.absolute Examples.alpha_from)
                 (Path.absolute Examples.alpha_to) Examples.alpha_stale
               = Done tt Examples.alpha_replaced)
    by (vm_compute; reflexivity).
  destruct (C3_installation_steps Examples.alpha_from Examples.alpha_to
              Examples.alpha_stale) as [(l & later & H1 & H2 & _ & H4) H5].
  - repeat constructor.
  - repeat constructor.
  - split; reflexivity.
  - vm_compute. reflexivity.
  - specialize (H4 _ Hd). specialize (H5 _ Hd). destruct H5 as (F & K & _).
    subst later. rewrite Hd in H1. cbn [log_of] in H1.
    change (log Examples.alpha_stale) with (@nil event) in H1.
    rewrite app_nil_r in H1. split; [rewrite H1; symmetry; exact H2|].
    split; [|split].
    + rewrite (K "LICENSE" []); [reflexivity | right; reflexivity].
    + rewrite (K "stale.cs" []); [reflexivity|].
      left. simpl. intros [H|[H|[H|[]]]]; discriminate.
    + apply F; [simpl; auto | reflexivity].
Defined.

(* ================================================================== *)
(** * C8: what is skipped without an error *)
(* ================================================================== *)

(** A package already installed at the version of its source, at a
    destination that the guard rejects: the round throws. *)
Lemma C8_same_version_outside_packages :
  exists cfg tcfg,
    at_path (mkWorld (Examples.escaping
                        [("outside", Dir [("package.json", Examples.unity "1.0.0")])]) [])
      (metadataPath (dependencyDir "/proj" "../outside"))
    = Some (File (Json cfg))
    /\ has_marker cfg = true
    /\ at_path (mkWorld (Examples.escaping
                           [("outside", Dir [("package.json", Examples.unity "1.0.0")])]) [])
         (metadataPath (assetsTargetPath "/proj" "../outside"))
       = Some (File (Json tcfg))
    /\ version tcfg = version cfg
    /\ phase1_step "/proj" "../outside"
         (mkWorld (Examples.escaping
                     [("outside", Dir [("package.json", Examples.unity "1.0.0")])]) [])
       = Thrown (UnsafePath "/proj/Assets/Plugins/outside")
                [Validate "/proj/Assets/Plugins/outside"].
Proof.
  exists (mkConfig (Some "1.0.0") (Some ["unity3d"; "unity3d-package"]) None),
         (mkConfig (Some "1.0.0") (Some ["unity3d"; "unity3d-package"]) None).
  repeat split; vm_compute; reflexivity.
Qed.

(** C8, amended: a declared package whose metadata lacks the marker -
    the keywords field missing altogether included - is skipped: the
    round returns in the world it started in. A package that carries the
    marker and is installed at the very version of its source is skipped
    as well, once the guard has passed on its destination: the round
    returns with the tree untouched. An extra file that is absent at the
    source is skipped by [copyIfExistsSync], which returns in the world it
    started in. *)
Theorem C8_soft_skips (cwd name : string) (w : world) (cfg : config) :
  at_path w (metadataPath (dependencyDir cwd name)) = Some (File (Json cfg)) ->
  (keywords cfg = None \/ has_marker cfg = false ->
   phase1_step cwd name w = Done tt w)
  /\ (has_marker cfg = true ->
      safe (assetsTargetPath cwd name) = true ->
      forall tcfg,
        at_path w (metadataPath (assetsTargetPath cwd name))
        = Some (File (Json tcfg)) ->
        version tcfg = version cfg ->
        phase1_step cwd name w
        = Done tt (validated (assetsTargetPath cwd name) w))
  /\ (forall f a w',
        at_path w' (Path.join [dependencyDir cwd name; f]) = None ->
        copyIfExistsSync (dependencyDir cwd name) (assetsTargetPath cwd name) f a w'
        = Done tt w').
Proof.
  intros Hc. split; [|split].
  - intros H. apply phase1_step_unmarked with (cfg := cfg); [assumption|].
    destruct H as [H|H]; [|assumption].
    unfold has_marker. now rewrite H.
  - intros Hm Hs tcfg Ht Hv.
    rewrite (phase1_step_same_version cwd name w cfg tcfg Hc Hm Ht Hv).
    now rewrite Hs.
  - intros f a w' Hf. unfold copyIfExistsSync, bind, existsSync.
    now rewrite Hf.
Qed.

(** The skips at work in the project of [alpha]: a package without
    keywords, [alpha] installed at 1.0.0, and the licence [alpha] does
    not have. *)
Lemma C8_soft_skips_witness :
  phase1_step "/proj" "alpha"
    (mkWorld (Examples.alpha_project (Examples.alpha_installed "1.0.0")) [])
  = Done tt (validated (assetsTargetPath "/proj" "alpha")
               (mkWorld (Examples.alpha_project (Examples.alpha_installed "1.0.0")) []))
  /\ copyIfExistsSync (dependencyDir "/proj" "alpha")
       (assetsTargetPath "/proj" "alpha") "LICENSE" (JsNumber 2)
       (mkWorld (Examples.alpha_project []) [])
     = Done tt (mkWorld (Examples.alpha_project []) []).
Proof.
  pose proof (C8_soft_skips "/proj" "alpha"
                (mkWorld (Examples.alpha_project (Examples.alpha_installed "1.0.0")) [])
                (mkConfig (Some "1.0.0") (Some ["unity3d"; "unity3d-package"]) None))
    as H.
  destruct H as (_ & H2 & H3); [vm_compute; reflexivity|].
  split.
  - apply (H2 eq_refl) with
      (tcfg := mkConfig (Some "1.0.0") (Some ["unity3d"; "unity3d-package"]) None).
    + vm_compute. reflexivity.
    + vm_compute. reflexivity.
    + reflexivity.
  - apply H3. vm_compute. reflexivity.
Defined.

(* ================================================================== *)
(** * C10: a destination that does not exist yet *)
(* ================================================================== *)

(** C10, as stated, fails, in two ways. A declared package with the
    marker whose name leads out of the packages directory: nothing is at
    its destination, and the round throws at the guard. And [alpha],
    never installed, in a project where [Assets] is a regular file: the
    round throws while it clears the destination. *)
Lemma C10_absent_destination_can_fail :
  (exists cfg,
      at_path (mkWorld (Examples.escaping []) [])
        (metadataPath (dependencyDir "/proj" "../outside"))
      = Some (File (Json cfg))
      /\ has_marker cfg = true
      /\ at_path (mkWorld (Examples.escaping []) [])
           (assetsTargetPath "/proj" "../outside") = None
      /\ phase1_step "/proj" "../outside" (mkWorld (Examples.escaping []) [])
         = Thrown (UnsafePath "/proj/Assets/Plugins/outside")
                  [Validate "/proj/Assets/Plugins/outside"])
  /\ (exists cfg,
        at_path (mkWorld Examples.alpha_blocked [])
          (metadataPath (dependencyDir "/proj" "alpha")) = Some (File (Json cfg))
        /\ has_marker cfg = true
        /\ at_path (mkWorld Examples.alpha_blocked [])
             (assetsTargetPath "/proj" "alpha") = None
        /\ at_path (mkWorld Examples.alpha_blocked [])
             (metadataPath (assetsTargetPath "/proj" "alpha")) = None
        /\ phase1_step "/proj" "alpha" (mkWorld Examples.alpha_blocked [])
           = Thrown (IOError "emptyDir" "/proj/Assets/Plugins/Packages/alpha")
                    [EmptyDir "/proj/Assets/Plugins/Packages/alpha";
                     Validate "/proj/Assets/Plugins/Packages/alpha"]).
Proof.
  split;
    exists (mkConfig (Some "1.0.0") (Some ["unity3d"; "unity3d-package"]) None);
    repeat split; vm_compute; reflexivity.
Qed.

Lemma lookup_absent_below n p q :
  Fs.lookup n p = None -> Fs.lookup n (p ++ q) = None.
Proof. intros H. now rewrite lookup_app, H. Qed.

(** C10, amended: for a declared package that carries the marker, whose
    destination passes the guard and does not exist, with no regular
    file on the way to it, the round does not stop at the missing
    directory: clearing the destination creates it, empty, together with
    the directories missing on the way, leaves everything beside that way
    as it was, and the round goes on with the copies exactly as for an
    empty destination. The metadata file of a destination that does not
    exist does not exist either. *)
Theorem C10_absent_destination (cwd name : string) (w : world) (cfg : config) :
  Path.isAbsolute cwd = true ->
  at_path w (metadataPath (dependencyDir cwd name)) = Some (File (Json cfg)) ->
  has_marker cfg = true ->
  let tgt := assetsTargetPath cwd name in
  safe tgt = true ->
  at_path w tgt = None ->
  no_file_on_way (tree w) (Path.components tgt) = true ->
  at_path w (metadataPath tgt) = None
  /\ exists t',
      Fs.write (Path.components tgt) (Dir []) (tree w) = Some t'
      /\ Fs.lookup t' (Path.components tgt) = Some (Dir [])
      /\ (forall q, Fs.is_prefix q (Path.components tgt) = true ->
                    exists es, Fs.lookup t' q = Some (Dir es))
      /\ (forall q, apart (Path.components tgt) q ->
                    Fs.lookup t' q = Fs.lookup (tree w) q)
      /\ phase1_step cwd name w
         = copyPackageFiles (dependencyDir cwd name) tgt
             (mkWorld t' (EmptyDir tgt :: Validate tgt :: log w)).
Proof.
  intros Hcwd Hc Hm tgt Hs Ha Hn.
  assert (Hmeta : at_path w (metadataPath tgt) = None).
  { destruct (resolve_is_absolute cwd [projectPackagesDir cwd; name] Hcwd)
      as (l & Hl & E).
    unfold tgt, assetsTargetPath in *. rewrite E in *.
    unfold metadataPath, at_path in *.
    rewrite (join_absolute l "package.json" ["package.json"] Hl)
      by (apply relpath_name; reflexivity).
    rewrite components_absolute in *
      by (try apply Forall_app; auto; split; auto; repeat constructor).
    now apply lookup_absent_below. }
  split; [assumption|].
  destruct (emptyDirSync_absent tgt (validated tgt w)) as (t' & Hw & He);
    [assumption | assumption |].
  exists t'. simpl in Hw.
  pose proof (lookup_write_same _ _ _ _ Hw) as Hl.
  split; [assumption|]. split; [assumption|]. split; [|split].
  - intros q Hq. eapply prefixes_are_directories; eassumption.
  - intros q Hq. eapply lookup_write_apart; eassumption.
  - rewrite (phase1_step_replace cwd name w cfg Hc Hm Hs (or_introl Hmeta)).
    fold tgt. rewrite installPackage_unfold. unfold bind at 1.
    now rewrite He.
Qed.

(** [alpha] installed into a project that has no [Assets] directory
    yet. *)
Lemma C10_absent_destination_witness :
  at_path (mkWorld Examples.alpha_fresh [])
    (metadataPath (assetsTargetPath "/proj" "alpha")) = None
  /\ exists t',
      Fs.write (Path.components (assetsTargetPath "/proj" "alpha")) (Dir [])
        Examples.alpha_fresh = Some t'
      /\ Fs.lookup t' (Path.components (assetsTargetPath "/proj" "alpha"))
         = Some (Dir [])
      /\ (forall q,
            Fs.is_prefix q (Path.components (assetsTargetPath "/proj" "alpha")) = true ->
            exists es, Fs.lookup t' q = Some (Dir es))
      /\ (forall q,
            apart (Path.components (assetsTargetPath "/proj" "alpha")) q ->
            Fs.lookup t' q = Fs.lookup Examples.alpha_fresh q)
      /\ phase1_step "/proj" "alpha" (mkWorld Examples.alpha_fresh [])
         = copyPackageFiles (dependencyDir "/proj" "alpha")
             (assetsTargetPath "/proj" "alpha")
             (mkWorld t' [EmptyDir (assetsTargetPath "/proj" "alpha");
                          Validate (assetsTargetPath "/proj" "alpha")]).
Proof.
  apply (C10_absent_destination "/proj" "alpha" (mkWorld Examples.alpha_fresh [])
           (mkConfig (Some "1.0.0") (Some ["unity3d"; "unity3d-package"]) None)).
  - reflexivity.
  - vm_compute. reflexivity.
  - vm_compute. reflexivity.
  - vm_compute. reflexivity.
  - vm_compute. reflexivity.
  - vm_compute. reflexivity.
Defined.

(* ================================================================== *)
(** * Listing the packages directory *)
(* ================================================================== *)

Section Listing.

Lemma In_entry k n es :
  NoDup (Fs.names es) -> In (k, n) es -> Fs.entry k es = Some n.
Proof.
  induction es as [|[k' n'] es IH]; simpl; [contradiction|].
  intros Hnd [[= -> ->]|Hin].
  - now rewrite String.eqb_refl.
  - inversion Hnd as [|? ? Hk Hnd']; subst.
    destruct (String.eqb_spec k' k) as [->|N]; [|auto].
    exfalso. apply Hk. apply in_map_iff. now exists (k, n).
Qed.

Lemma mapM_reads {A B} (f : A -> M B) (g : A -> B) xs w :
  (forall x, In x xs -> f x w = Done (g x) w) ->
  mapM f xs w = Done (map g xs) w.
Proof.
  induction xs as [|x xs IH]; intros H; [reflexivity|].
  simpl. unfold bind. rewrite (H x (or_introl eq_refl)).
  rewrite IH by (intros; apply H; now right). reflexivity.
Qed.

Lemma filterM_reads {A} (f : A -> M bool) (g : A -> bool) xs w :
  (forall x, In x xs -> f x w = Done (g x) w) ->
  filterM f xs w = Done (filter g xs) w.
Proof.
  induction xs as [|x xs IH]; intros H; [reflexivity|].
  simpl. unfold bind. rewrite (H x (or_introl eq_refl)).
  rewrite IH by (intros; apply H; now right).
  unfold ret. destruct (g x); reflexivity.
Qed.

Lemma subdirectories_filter es :
  NoDup (Fs.names es) ->
  filter (fun k => match Fs.entry k es with
                   | Some n => Fs.is_dir n
                   | None => false
                   end) (Fs.names es)
  = subdirectories es.
Proof.
  intros Hnd. unfold subdirectories, Fs.names.
  assert (H : forall es', (forall e, In e es' -> In e es) ->
            filter (fun k => match Fs.entry k es with
                             | Some n => Fs.is_dir n
                             | None => false
                             end) (map fst es')
            = map fst (filter (fun e => Fs.is_dir (snd e)) es')).
  { induction es' as [|[k n] es' IH]; intros Hsub; [reflexivity|].
    simpl. rewrite (In_entry k n es Hnd) by (apply Hsub; now left).
    rewrite IH by (intros; apply Hsub; now right).
    destruct (Fs.is_dir n); reflexivity. }
  apply H. auto.
Qed.

(** [getDirectories] on a directory of a well-formed tree. *)
Lemma getDirectories_run l w es :
  valid_names l -> Fs.wf (tree w) = true ->
  Fs.lookup (tree w) l = Some (Dir es) ->
  getDirectories (Path.absolute l) w = Done (subdirectories es) w.
Proof.
  intros Hl Hw He.
  assert (Hes : Fs.wf (Dir es) = true) by (eapply wf_lookup; eassumption).
  apply wf_dir in Hes as (Hnd & Hv & _).
  unfold getDirectories, bind, readdirSync.
  rewrite at_path_absolute, He by assumption.
  rewrite (filterM_reads _ (fun k => match Fs.entry k es with
                                     | Some n => Fs.is_dir n
                                     | None => false
                                     end)).
  - now rewrite subdirectories_filter.
  - intros k Hk. unfold statSync_isDirectory.
    assert (Hvk : Path.valid_name k = true).
    { unfold valid_names in Hv. rewrite Forall_forall in Hv. auto. }
    rewrite (join_absolute l k [k]) by (assumption || now apply relpath_name).
    rewrite at_path_absolute
      by (apply Forall_app; split; [assumption | now repeat constructor]).
    rewrite lookup_app, He. simpl.
    apply entry_in_names in Hk as [n Hn]. now rewrite Hn.
Qed.

Lemma in_subdirectories k es :
  NoDup (Fs.names es) ->
  In k (subdirectories es) <-> exists cs, Fs.entry k es = Some (Dir cs).
Proof.
  intros Hnd. unfold subdirectories. rewrite in_map_iff. split.
  - intros ([k' n] & <- & H). apply filter_In in H as [Hin Hd].
    simpl in *. destruct n as [|cs]; [discriminate|].
    exists cs. now apply In_entry.
  - intros [cs H]. exists (k, Dir cs). split; [reflexivity|].
    apply filter_In. split; [now apply entry_In | reflexivity].
Qed.

Lemma installed_entries_subdirectories es :
  NoDup (Fs.names es) ->
  installed_entries es
  = List.concat
      (map (fun d =>
              if Js.startsWith d "@"
              then map (fun c => d ++ "/" ++ c)
                       (subdirectories
                          match Fs.entry d es with
                          | Some (Dir cs) => cs
                          | _ => []
                          end)
              else [d]) (subdirectories es)).
Proof.
  intros Hnd. unfold installed_entries, subdirectories at 2.
  assert (H : forall es', (forall e, In e es' -> In e es) ->
            flat_map (fun e =>
                        match snd e with
                        | File _ => []
                        | Dir cs =>
                            if Js.startsWith (fst e) "@"
                            then map (fun c => fst e ++ "/" ++ c) (subdirectories cs)
                            else [fst e]
                        end) es'
            = List.concat
                (map (fun d =>
                        if Js.startsWith d "@"
                        then map (fun c => d ++ "/" ++ c)
                                 (subdirectories
                                    match Fs.entry d es with
                                    | Some (Dir cs) => cs
                                    | _ => []
                                    end)
                        else [d])
                     (map fst (filter (fun e => Fs.is_dir (snd e)) es')))).
  { induction es' as [|[k n] es' IH]; intros Hsub; [reflexivity|].
    cbn [flat_map snd fst filter]. rewrite IH by (intros; apply Hsub; now right).
    destruct n as [d|cs]; [reflexivity|].
    cbn [Fs.is_dir map List.concat fst].
    now rewrite (In_entry k (Dir cs) es Hnd) by (apply Hsub; now left). }
  apply H. auto.
Qed.

Variable cs : list string.
Hypothesis cs_valid : valid_names cs.

Lemma getProjectPackageListing_run w es :
  Fs.wf (tree w) = true ->
  Fs.lookup (tree w) (packagesPath cs) = Some (Dir es) ->
  getProjectPackageListing (Path.absolute cs) w = Done (installed_entries es) w.
Proof.
  intros Hw He.
  assert (Hes : Fs.wf (Dir es) = true) by (eapply wf_lookup; eassumption).
  pose proof Hes as Hes'. apply wf_dir in Hes' as (Hnd & Hv & _).
  unfold getProjectPackageListing, bind.
  rewrite projectPackagesDir_absolute by assumption.
  rewrite (getDirectories_run _ _ es) by (auto using packagesPath_valid).
  rewrite (mapM_reads _
             (fun d =>
                if Js.startsWith d "@"
                then map (fun c => d ++ "/" ++ c)
                         (subdirectories
                            match Fs.entry d es with
                            | Some (Dir cs) => cs
                            | _ => []
                            end)
                else [d])).
  - unfold ret. now rewrite installed_entries_subdirectories.
  - intros d Hd. destruct (Js.startsWith d "@"); [|reflexivity].
    apply in_subdirectories in Hd as [ds Hds]; [|assumption].
    destruct (wf_entry _ _ _ Hes Hds) as [_ Hvd].
    rewrite (join_absolute (packagesPath cs) d [d])
      by (auto using packagesPath_valid, relpath_name).
    rewrite (getDirectories_run _ _ ds).
    + now rewrite Hds.
    + apply Forall_app. split; [now apply packagesPath_valid|].
      now repeat constructor.
    + assumption.
    + rewrite lookup_app, He. simpl. now rewrite Hds.
Qed.

Lemma getProjectPackageScopes_run w es :
  Fs.wf (tree w) = true ->
  Fs.lookup (tree w) (packagesPath cs) = Some (Dir es) ->
  getProjectPackageScopes (Path.absolute cs) w = Done (scope_directories es) w.
Proof.
  intros Hw He. unfold getProjectPackageScopes, bind.
  rewrite projectPackagesDir_absolute by assumption.
  rewrite (getDirectories_run _ _ es) by (auto using packagesPath_valid).
  reflexivity.
Qed.

End Listing.

(** Phase 2 is the loop over the listed names that are not declared. *)
Lemma phase2_listing (cs : list string) (w : world)
    (es : list (string * node)) (declared : list string) :
  valid_names cs -> Fs.wf (tree w) = true ->
  Fs.lookup (tree w) (packagesPath cs) = Some (Dir es) ->
  phase2 (Path.absolute cs) declared w
  = for_of (redundant declared (installed_entries es))
           (phase2_step (Path.absolute cs)) w.
Proof.
  intros Hcs Hw He. unfold phase2, bind.
  now rewrite (getProjectPackageListing_run cs Hcs w es Hw He).
Qed.

(* ================================================================== *)
(** * C4: the installed packages *)
(* ================================================================== *)

(** C4: in a well-formed tree, for a project whose root is the absolute
    path of components [cs] and whose packages directory has the entries
    [es], the listing phase 2 starts from is [installed_entries es]: the
    names of the subdirectories that do not start with ["@"], each
    subdirectory of a subdirectory that starts with ["@"] under the name
    scope/child, and nothing for what is not a directory. The listing
    changes nothing, and phase 2 goes through those of the listed names
    that are not declared. *)
Theorem C4_installed_entries (cs : list string) (w : world)
    (es : list (string * node)) (declared : list string) :
  valid_names cs -> Fs.wf (tree w) = true ->
  Fs.lookup (tree w) (packagesPath cs) = Some (Dir es) ->
  getProjectPackageListing (Path.absolute cs) w = Done (installed_entries es) w
  /\ phase2 (Path.absolute cs) declared w
     = for_of (redundant declared (installed_entries es))
              (phase2_step (Path.absolute cs)) w.
Proof.
  intros Hcs Hw He. split.
  - now apply getProjectPackageListing_run.
  - now apply phase2_listing.
Qed.

(* ================================================================== *)
(** * Removing packages and scopes *)
(* ================================================================== *)

Section Removal.

Lemma del_entry_absent k es : Fs.entry k es = None -> Fs.del_entry k es = es.
Proof.
  induction es as [|[k' n] es IH]; simpl; [reflexivity|].
  destruct (String.eqb_spec k' k) as [->|N]; [discriminate|].
  intros H. simpl. now rewrite IH.
Qed.

Lemma set_entry_same k c es :
  Fs.entry k es = Some c -> Fs.set_entry k c es = es.
Proof.
  induction es as [|[k' n] es IH]; simpl; [discriminate|].
  destruct (String.eqb_spec k' k) as [->|N].
  - now intros [= ->].
  - intros H. now rewrite IH.
Qed.

(** Removing what is not there changes nothing. *)
Lemma remove_absent p n : Fs.lookup n p = None -> Fs.remove p n = n.
Proof.
  revert n. induction p as [|k p IH]; intros n; [reflexivity|].
  destruct n as [d|es]; [reflexivity|].
  destruct p as [|k' p].
  - simpl. destruct (Fs.entry k es) as [c|] eqn:E; [discriminate|].
    intros _. now rewrite del_entry_absent.
  - change (Fs.lookup (Dir es) (k :: k' :: p))
      with (match Fs.entry k es with
            | Some c => Fs.lookup c (k' :: p)
            | None => None
            end).
    change (Fs.remove (k :: k' :: p) (Dir es))
      with (match Fs.entry k es with
            | Some c => Dir (Fs.set_entry k (Fs.remove (k' :: p) c) es)
            | None => Dir es
            end).
    destruct (Fs.entry k es) as [c|] eqn:E; [|reflexivity].
    intros H. now rewrite (IH _ H), set_entry_same.
Qed.

(** Once removed, never back. *)
Lemma lookup_remove_none p q n :
  Fs.lookup n q = None -> Fs.lookup (Fs.remove p n) q = None.
Proof.
  intros H. destruct (Fs.lookup (Fs.remove p n) q) as [x|] eqn:E; [|reflexivity].
  apply lookup_remove_kind in E as (y & Hy & _). congruence.
Qed.

(** A regular file has nothing below it, so removing it leaves every
    other existing path where it was. *)
Lemma lookup_remove_file p q n d :
  Fs.lookup n p = Some (File d) -> p <> q ->
  Fs.is_prefix q p = false ->
  Fs.lookup (Fs.remove p n) q = Fs.lookup n q.
Proof.
  intros Hp Hne Hq.
  destruct p as [|k0 p0]; [reflexivity|].
  destruct (Fs.is_prefix (k0 :: p0) q) eqn:Epq.
  - apply is_prefix_spec in Epq as [r ->].
    destruct r as [|k r]; [now rewrite app_nil_r in Hne|].
    rewrite lookup_remove_below by discriminate.
    now rewrite lookup_app, Hp.
  - apply lookup_remove_apart. now split.
Qed.

Variable cs : list string.
Hypothesis cs_valid : valid_names cs.

Let cwd := Path.absolute cs.
Let pcs := packagesPath cs.

Lemma packages_not_nil r : (pcs ++ r)%list <> [].
Proof. unfold pcs, packagesPath. destruct cs; discriminate. Qed.

(** ** One round of phase 2 *)

Lemma remove_directory_run l w :
  valid_names l -> l <> [] ->
  (ex <- existsSync (Path.absolute l) ;;
   if ex then removeSync (Path.absolute l) else ret tt) w
  = Done tt (mkWorld (Fs.remove l (tree w))
               (if present w (Path.absolute l)
                then Remove (Path.absolute l) :: log w else log w)).
Proof.
  intros Hl Hne. unfold bind. rewrite existsSync_run.
  unfold present. rewrite at_path_absolute by assumption.
  destruct (Fs.lookup (tree w) l) eqn:E.
  - rewrite removeSync_run, components_absolute by assumption.
    destruct l; [contradiction | reflexivity].
  - rewrite remove_absent by assumption. destruct w; reflexivity.
Qed.

Lemma unlink_sidecar_run l w :
  valid_names l ->
  (ex <- existsSync (Path.absolute l) ;;
   if ex then unlinkSync (Path.absolute l) else ret tt) w
  = match Fs.lookup (tree w) l with
    | Some (Dir _) =>
        Thrown (IOError "unlink" (Path.absolute l))
               (Unlink (Path.absolute l) :: log w)
    | Some (File _) =>
        Done tt (mkWorld (Fs.remove l (tree w))
                         (Unlink (Path.absolute l) :: log w))
    | None => Done tt (mkWorld (Fs.remove l (tree w)) (log w))
    end.
Proof.
  intros Hl. unfold bind. rewrite existsSync_run.
  unfold present. rewrite at_path_absolute by assumption.
  destruct (Fs.lookup (tree w) l) as [[d|es]|] eqn:E.
  - rewrite unlinkSync_run, at_path_absolute, E, components_absolute
      by assumption. reflexivity.
  - rewrite unlinkSync_run, at_path_absolute, E by assumption. reflexivity.
  - rewrite remove_absent by assumption. destruct w; reflexivity.
Qed.

Lemma package_name_apart name ns ms : package_name name ns ms -> apart ns ms.
Proof.
  assert (H : forall x, x <> x ++ ".meta").
  { intros x E. apply (f_equal String.length) in E.
    rewrite string_length_app in E. simpl in E. lia. }
  destruct 1 as [x Hx Hs|s c Hs Hat Hc].
  - apply apart_heads. apply H.
  - apply (apart_app_same [s]). apply apart_heads. apply H.
Qed.

Lemma phase2_step_shape name w :
  phase2_step cwd name w
  = (validateProjectPackageDirectory (assetsTargetPath cwd name) ;;
     ((ex <- existsSync (assetsTargetPath cwd name) ;;
       if ex then removeSync (assetsTargetPath cwd name) else ret tt) ;;
      (ex <- existsSync (assetsTargetPath cwd (name ++ ".meta")) ;;
       if ex then unlinkSync (assetsTargetPath cwd (name ++ ".meta"))
       else ret tt))) w.
Proof.
  unfold phase2_step, bind. fold (assetsTargetPath cwd name).
  destruct (validateProjectPackageDirectory _ w); reflexivity.
Qed.

Lemma phase2_step_run name ns ms w :
  package_name name ns ms ->
  phase2_step cwd name w
  = match Fs.lookup (tree w) (pcs ++ ms) with
    | Some (Dir _) =>
        Thrown (IOError "unlink" (Path.absolute (pcs ++ ms)))
          (Unlink (Path.absolute (pcs ++ ms))
           :: (if present w (Path.absolute (pcs ++ ns))
               then [Remove (Path.absolute (pcs ++ ns))] else [])
           ++ Validate (Path.absolute (pcs ++ ns)) :: log w)
    | x =>
        Done tt
          (mkWorld (dropped cs ns ms (tree w))
             (match x with
              | Some _ => [Unlink (Path.absolute (pcs ++ ms))]
              | None => []
              end
              ++ (if present w (Path.absolute (pcs ++ ns))
                  then [Remove (Path.absolute (pcs ++ ns))] else [])
              ++ Validate (Path.absolute (pcs ++ ns)) :: log w))
    end.
Proof.
  intros Hn.
  destruct (package_name_relpath _ _ _ Hn) as [Hr Hm].
  destruct (package_name_valid _ _ _ Hn) as (Vn & Vm & _).
  assert (Vpn : valid_names (pcs ++ ns))
    by (apply Forall_app; split; [now apply packagesPath_valid | assumption]).
  assert (Vpm : valid_names (pcs ++ ms))
    by (apply Forall_app; split; [now apply packagesPath_valid | assumption]).
  rewrite phase2_step_shape. unfold cwd.
  rewrite (assetsTargetPath_absolute cs cs_valid _ _ Hr).
  rewrite (assetsTargetPath_absolute cs cs_valid _ _ Hm).
  fold pcs. unfold bind at 1. rewrite validate_run.
  unfold pcs at 1. rewrite safe_below_packages. fold pcs.
  unfold bind at 1.
  rewrite (remove_directory_run (pcs ++ ns) _ Vpn (packages_not_nil ns)).
  rewrite (unlink_sidecar_run (pcs ++ ms) _ Vpm). cbn [tree log validated].
  assert (A : Fs.lookup (Fs.remove (pcs ++ ns) (tree w)) (pcs ++ ms)
              = Fs.lookup (tree w) (pcs ++ ms)).
  { apply lookup_remove_apart. apply apart_app_same.
    eapply package_name_apart; eassumption. }
  rewrite A.
  change (present (validated (Path.absolute (pcs ++ ns)) w))
    with (present w).
  destruct (Fs.lookup (tree w) (pcs ++ ms)) as [[d|es]|];
    unfold dropped;
    destruct (present w (Path.absolute (pcs ++ ns))); reflexivity.
Qed.

(** ** Names and the places they stand for *)

Lemma is_prefix_app_same r a b :
  Fs.is_prefix (r ++ a) (r ++ b) = Fs.is_prefix a b.
Proof.
  induction r as [|k r IH]; [reflexivity|].
  simpl. now rewrite String.eqb_refl.
Qed.

Lemma package_name_unique name ns ms ns' ms' :
  package_name name ns ms -> package_name name ns' ms' ->
  ns = ns' /\ ms = ms'.
Proof.
  intros H H'.
  destruct (package_name_relpath _ _ _ H) as [R1 R2].
  destruct (package_name_relpath _ _ _ H') as [R1' R2'].
  destruct (relpath_facts _ _ R1) as (_ & _ & <- & _).
  destruct (relpath_facts _ _ R2) as (_ & _ & <- & _).
  destruct (relpath_facts _ _ R1') as (_ & _ & <- & _).
  destruct (relpath_facts _ _ R2') as (_ & _ & <- & _).
  now split.
Qed.

Lemma startsWith_meta x :
  x <> "" -> Js.startsWith (x ++ ".meta") "@" = Js.startsWith x "@".
Proof. destruct x; [contradiction | reflexivity]. Qed.

Lemma valid_name_nonempty x : Path.valid_name x = true -> x <> "".
Proof. intros H. now destruct (valid_name_inv _ H). Qed.

Lemma slash_name_inj s c s' c' :
  Path.valid_name s = true -> Path.valid_name s' = true ->
  s ++ "/" ++ c = s' ++ "/" ++ c' -> s = s' /\ c = c'.
Proof.
  intros Hs Hs'.
  destruct (valid_name_inv _ Hs) as (_ & _ & _ & Ns).
  destruct (valid_name_inv _ Hs') as (_ & _ & _ & Ns').
  clear Hs Hs'. revert s' Ns'.
  induction s as [|a s IH]; intros [|a' s'] Ns'; simpl; intros E.
  - injection E as <-. now split.
  - injection E as <- _. rewrite no_slash_cons in Ns'. discriminate.
  - injection E as -> _. rewrite no_slash_cons in Ns. discriminate.
  - injection E as -> E. rewrite no_slash_cons in Ns, Ns'.
    apply andb_prop in Ns as [_ Ns]. apply andb_prop in Ns' as [_ Ns'].
    destruct (IH Ns _ Ns' E) as [-> ->]. now split.
Qed.

(** Two different names stand for directories neither of which lies
    inside the other. *)
Lemma package_names_apart name ns ms name' ns' ms' :
  package_name name ns ms -> package_name name' ns' ms' ->
  name <> name' -> apart ns ns'.
Proof.
  intros H H' Hne.
  destruct H as [x Hx Hs|s c Hs Hat Hc];
    destruct H' as [x' Hx' Hs'|s' c' Hs' Hat' Hc'].
  - now apply apart_heads.
  - apply apart_heads. intros ->. congruence.
  - apply apart_heads. intros ->. congruence.
  - destruct (String.eqb_spec s s') as [->|N]; [|now apply apart_heads].
    apply (apart_app_same [s']). apply apart_heads. intros ->. now apply Hne.
Qed.

(** The directory of a package is never on the way to the sidecar of
    another, unless it sits right where the sidecar should be. *)
Lemma package_not_above_sidecar name ns ms name' ns' ms' :
  package_name name ns ms -> package_name name' ns' ms' ->
  Fs.is_prefix ns' ms = true -> ns' = ms.
Proof.
  intros H H'.
  destruct H as [x Hx Hs|s c Hs Hat Hc];
    destruct H' as [x' Hx' Hs'|s' c' Hs' Hat' Hc']; simpl.
  - destruct (String.eqb_spec x' (x ++ ".meta")); [congruence | discriminate].
  - destruct (s' =? _); discriminate.
  - destruct (String.eqb_spec x' s) as [->|]; [congruence | discriminate].
  - destruct (String.eqb_spec s' s) as [->|]; [|discriminate].
    destruct (String.eqb_spec c' (c ++ ".meta")); [congruence | discriminate].
Qed.

(** ** What is listed *)

Lemma listed_package_name es name :
  Fs.wf (Dir es) = true -> In name (installed_entries es) ->
  exists ns ms d,
    package_name name ns ms /\ Fs.lookup (Dir es) ns = Some (Dir d).
Proof.
  intros Hw. pose proof Hw as Hw'. apply wf_dir in Hw' as (Hnd & _ & _).
  unfold installed_entries. rewrite in_flat_map.
  intros ([k n] & Hin & Hx). cbn [snd fst] in Hx.
  destruct n as [|ks]; [contradiction|].
  apply In_entry in Hin; [|assumption].
  destruct (wf_entry _ _ _ Hw Hin) as [Hwk Hvk].
  destruct (Js.startsWith k "@") eqn:Hat.
  - apply in_map_iff in Hx as (c & <- & Hc).
    pose proof Hwk as Hwk'. apply wf_dir in Hwk' as (Hndk & _ & _).
    apply in_subdirectories in Hc as [d Hd]; [|assumption].
    destruct (wf_entry _ _ _ Hwk Hd) as [_ Hvc].
    exists [k; c], [k; c ++ ".meta"], d. split; [now constructor|].
    simpl. now rewrite Hin, Hd.
  - destruct Hx as [<-|[]].
    exists [k], [k ++ ".meta"], ks. split; [now constructor|].
    simpl. now rewrite Hin.
Qed.

Lemma package_name_listed es name ns ms d :
  package_name name ns ms -> Fs.lookup (Dir es) ns = Some (Dir d) ->
  In name (installed_entries es).
Proof.
  intros H Hl. unfold installed_entries. rewrite in_flat_map.
  destruct H as [x Hx Hs|s c Hs Hat Hc]; simpl in Hl.
  - destruct (Fs.entry x es) as [n|] eqn:E; [|discriminate].
    injection Hl as ->. exists (x, Dir d). split; [now apply entry_In|].
    cbn [snd fst]. rewrite Hs. now left.
  - destruct (Fs.entry s es) as [[|ks]|] eqn:E; try discriminate.
    destruct (Fs.entry c ks) as [n|] eqn:E'; [|discriminate].
    injection Hl as ->. exists (s, Dir ks). split; [now apply entry_In|].
    cbn [snd fst]. rewrite Hat.
    apply (in_map (fun c0 => s ++ "/" ++ c0)).
    unfold subdirectories. apply in_map_iff. exists (c, Dir d).
    split; [reflexivity|]. apply filter_In. split; [now apply entry_In|reflexivity].
Qed.

(** ** The loop of phase 2 *)

Lemma is_prefix_refl p : Fs.is_prefix p p = true.
Proof. rewrite <- (app_nil_r p) at 2. apply is_prefix_app. Qed.

Lemma dropped_frame ns ms t q :
  apart ns ms ->
  not_a_directory t (pcs ++ ms) -> untouched_by cs ns ms q ->
  Fs.lookup (dropped cs ns ms t) q = Fs.lookup t q.
Proof.
  intros Hn Hd [Ha Hp]. unfold dropped.
  assert (A : Fs.lookup (Fs.remove (pcs ++ ns) t) (pcs ++ ms)
              = Fs.lookup t (pcs ++ ms)).
  { apply lookup_remove_apart. now apply apart_app_same. }
  destruct (Fs.lookup t (pcs ++ ms)) as [[d|es]|] eqn:E.
  - rewrite (lookup_remove_file _ q _ d); [now apply lookup_remove_apart | | |].
    + assumption.
    + intros <-. now rewrite is_prefix_refl in Hp.
    + assumption.
  - exfalso. exact (Hd es E).
  - rewrite remove_absent by assumption. now apply lookup_remove_apart.
Qed.

Lemma dropped_kind ns ms t q x :
  Fs.lookup (dropped cs ns ms t) q = Some x ->
  exists y, Fs.lookup t q = Some y /\ Fs.is_dir y = Fs.is_dir x.
Proof.
  unfold dropped. intros H.
  apply lookup_remove_kind in H as (y & Hy & Ey).
  apply lookup_remove_kind in Hy as (z & Hz & Ez).
  exists z. split; [assumption | congruence].
Qed.

Lemma dropped_gone ns ms t :
  Fs.lookup (dropped cs ns ms t) (pcs ++ ns) = None
  /\ Fs.lookup (dropped cs ns ms t) (pcs ++ ms) = None.
Proof.
  unfold dropped. split.
  - apply lookup_remove_none. apply lookup_remove_same. apply packages_not_nil.
  - apply lookup_remove_same. apply packages_not_nil.
Qed.

Lemma phase2_loop names :
  forall w,
    (forall name, In name names ->
       exists ns ms, package_name name ns ms
                     /\ not_a_directory (tree w) (pcs ++ ms)) ->
    exists w',
      for_of names (phase2_step cwd) w = Done tt w'
      /\ (forall name ns ms, In name names -> package_name name ns ms ->
            Fs.lookup (tree w') (pcs ++ ns) = None
            /\ Fs.lookup (tree w') (pcs ++ ms) = None)
      /\ (forall q,
            (forall name ns ms, In name names -> package_name name ns ms ->
               untouched_by cs ns ms q) ->
            Fs.lookup (tree w') q = Fs.lookup (tree w) q)
      /\ (forall q x, Fs.lookup (tree w') q = Some x ->
            exists y, Fs.lookup (tree w) q = Some y /\ Fs.is_dir y = Fs.is_dir x)
      /\ (Fs.wf (tree w) = true -> Fs.wf (tree w') = true)
      /\ (forall e, In e (log w') -> In e (log w) \/
            match e with Copy _ _ | EmptyDir _ => False | _ => True end).
Proof.
  induction names as [|name names IH]; intros w H.
  - exists w. split; [reflexivity|].
    split; [intros ? ? ? []|]. split; [reflexivity|].
    split; [eauto|]. split; [auto|]. intros e He. now left.
  - destruct (H name (or_introl eq_refl)) as (ns & ms & Hn & Hd).
    pose proof (phase2_step_run name ns ms w Hn) as R.
    assert (exists l1, phase2_step cwd name w
              = Done tt (mkWorld (dropped cs ns ms (tree w)) l1)
              /\ forall e, In e l1 -> In e (log w) \/
                    match e with Copy _ _ | EmptyDir _ => False | _ => True end)
      as (l1 & R1 & L1).
    { destruct (Fs.lookup (tree w) (pcs ++ ms)) as [[d|es]|] eqn:E;
        [| exfalso; exact (Hd es E) |];
        (eexists; split; [exact R|]);
        intros e He; cbn [app] in He;
        destruct (present w (Path.absolute (pcs ++ ns))); cbn [app] in He;
        repeat (destruct He as [<-|He]; [now right|]); now left. }
    clear R.
    destruct (IH (mkWorld (dropped cs ns ms (tree w)) l1)) as
      (w' & Hrun & Hgone & Hframe & Hkind & Hwf & Hlog).
    { intros name' Hin. destruct (H name' (or_intror Hin)) as (ns' & ms' & Hn' & Hd').
      exists ns', ms'. split; [assumption|]. intros es E. cbn [tree] in E.
      apply dropped_kind in E as (y & Hy & Ey).
      destruct y as [|es']; [discriminate|]. exact (Hd' es' Hy). }
    exists w'. cbn [for_of]. unfold bind. rewrite R1. split; [assumption|].
    cbn [tree log] in *. split; [|split; [|split; [|split]]].
    + intros name' ns' ms' [<-|Hin] Hn'.
      * destruct (package_name_unique _ _ _ _ _ Hn Hn') as [<- <-].
        destruct (dropped_gone ns ms (tree w)) as [G1 G2].
        split.
        -- destruct (Fs.lookup (tree w') (pcs ++ ns)) eqn:E; [|reflexivity].
           apply Hkind in E as (y & Hy & _). congruence.
        -- destruct (Fs.lookup (tree w') (pcs ++ ms)) eqn:E; [|reflexivity].
           apply Hkind in E as (y & Hy & _). congruence.
      * exact (Hgone name' ns' ms' Hin Hn').
    + intros q Hq.
      rewrite Hframe
        by (intros name' ns' ms' Hin' Hn'; exact (Hq name' ns' ms' (or_intror Hin') Hn')).
      apply dropped_frame;
        [eapply package_name_apart; eassumption | assumption |].
      exact (Hq name ns ms (or_introl eq_refl) Hn).
    + intros q x Hx. apply Hkind in Hx as (y & Hy & Ey).
      apply dropped_kind in Hy as (z & Hz & Ez).
      exists z. split; [assumption | congruence].
    + intros Hw. apply Hwf. unfold dropped. now repeat apply wf_remove.
    + intros e He. destruct (Hlog e He) as [Hl|Hl]; [now apply L1 | now right].
Qed.

(** ** One round of phase 3, and the loop *)

Lemma removeSync_absolute l w :
  valid_names l -> l <> [] ->
  removeSync (Path.absolute l) w
  = Done tt (mkWorld (Fs.remove l (tree w)) (Remove (Path.absolute l) :: log w)).
Proof.
  intros Hl Hne. rewrite removeSync_run, components_absolute by assumption.
  destruct l; [contradiction | reflexivity].
Qed.

Lemma phase3_step_run s d w :
  Path.valid_name s = true ->
  Fs.lookup (tree w) (pcs ++ [s]) = Some (Dir d) ->
  phase3_step cwd s w
  = match d with
    | [] =>
        match Fs.lookup (tree w) (pcs ++ [s ++ ".meta"]) with
        | Some (Dir _) =>
            Thrown (IOError "unlink" (Path.absolute (pcs ++ [s ++ ".meta"])))
              (Unlink (Path.absolute (pcs ++ [s ++ ".meta"]))
               :: Remove (Path.absolute (pcs ++ [s]))
               :: IsEmpty (Path.absolute (pcs ++ [s]))
               :: Validate (Path.absolute (pcs ++ [s])) :: log w)
        | x =>
            Done tt
              (mkWorld (dropped cs [s] [s ++ ".meta"] (tree w))
                 (match x with
                  | Some _ => [Unlink (Path.absolute (pcs ++ [s ++ ".meta"]))]
                  | None => []
                  end
                  ++ Remove (Path.absolute (pcs ++ [s]))
                  :: IsEmpty (Path.absolute (pcs ++ [s]))
                  :: Validate (Path.absolute (pcs ++ [s])) :: log w))
        end
    | _ :: _ =>
        Done tt (mkWorld (tree w)
                   (IsEmpty (Path.absolute (pcs ++ [s]))
                    :: Validate (Path.absolute (pcs ++ [s])) :: log w))
    end.
Proof.
  intros Hs Hd.
  assert (Vs : valid_names (pcs ++ [s]))
    by (apply Forall_app; split;
        [now apply packagesPath_valid | now repeat constructor]).
  assert (Vm : valid_names (pcs ++ [s ++ ".meta"]))
    by (apply Forall_app; split;
        [now apply packagesPath_valid
        | repeat constructor; now apply valid_name_meta]).
  unfold phase3_step.
  fold (assetsTargetPath cwd s). fold (assetsTargetPath cwd (s ++ ".meta")).
  unfold cwd.
  rewrite (assetsTargetPath_absolute cs cs_valid s [s]) by now apply relpath_name.
  rewrite (assetsTargetPath_absolute cs cs_valid (s ++ ".meta") [s ++ ".meta"])
    by (apply relpath_name; now apply valid_name_meta).
  fold pcs. unfold bind at 1. rewrite validate_run.
  unfold pcs at 1. rewrite safe_below_packages. fold pcs.
  unfold bind at 1. rewrite isEmptySync_run.
  rewrite at_path_validated, at_path_absolute, Hd by assumption.
  destruct d as [|e d]; [|reflexivity].
  unfold bind at 1.
  rewrite removeSync_absolute by (assumption || apply packages_not_nil).
  rewrite (unlink_sidecar_run (pcs ++ [s ++ ".meta"]) _ Vm).
  cbn [tree log validated].
  assert (A : Fs.lookup (Fs.remove (pcs ++ [s]) (tree w)) (pcs ++ [s ++ ".meta"])
              = Fs.lookup (tree w) (pcs ++ [s ++ ".meta"])).
  { apply lookup_remove_apart. apply apart_app_same. apply apart_heads.
    intros E. apply (f_equal String.length) in E.
    rewrite string_length_app in E. simpl in E. lia. }
  rewrite A.
  destruct (Fs.lookup (tree w) (pcs ++ [s ++ ".meta"])) as [[f|es]|];
    reflexivity.
Qed.

Lemma scope_apart_sidecar s : apart [s] [s ++ ".meta"].
Proof.
  apply apart_heads. intros E. apply (f_equal String.length) in E.
  rewrite string_length_app in E. simpl in E. lia.
Qed.

Lemma phase3_loop scopes :
  NoDup scopes ->
  forall w,
    (forall s, In s scopes ->
       Path.valid_name s = true
       /\ exists d, Fs.lookup (tree w) (pcs ++ [s]) = Some (Dir d)) ->
    (forall s, In s scopes ->
       Fs.lookup (tree w) (pcs ++ [s]) = Some (Dir []) ->
       not_a_directory (tree w) (pcs ++ [s ++ ".meta"])) ->
    exists w',
      for_of scopes (phase3_step cwd) w = Done tt w'
      /\ (forall s, In s scopes ->
            Fs.lookup (tree w) (pcs ++ [s]) = Some (Dir []) ->
            Fs.lookup (tree w') (pcs ++ [s]) = None
            /\ Fs.lookup (tree w') (pcs ++ [s ++ ".meta"]) = None)
      /\ (forall q,
            (forall s, In s scopes ->
               Fs.lookup (tree w) (pcs ++ [s]) = Some (Dir []) ->
               untouched_by cs [s] [s ++ ".meta"] q) ->
            Fs.lookup (tree w') q = Fs.lookup (tree w) q)
      /\ (forall q x, Fs.lookup (tree w') q = Some x ->
            exists y, Fs.lookup (tree w) q = Some y /\ Fs.is_dir y = Fs.is_dir x)
      /\ (Fs.wf (tree w) = true -> Fs.wf (tree w') = true)
      /\ (forall e, In e (log w') -> In e (log w) \/
            match e with Copy _ _ | EmptyDir _ => False | _ => True end)
      /\ ((forall s, In s scopes ->
             Fs.lookup (tree w) (pcs ++ [s]) <> Some (Dir [])) ->
          tree w' = tree w
          /\ forall e, In e (log w') -> In e (log w) \/
                match e with Validate _ | IsEmpty _ => True | _ => False end).
Proof.
  induction 1 as [|s scopes Hs Hnd IH]; intros w Hdirs Hside.
  - exists w. split; [reflexivity|].
    split; [intros ? []|]. split; [reflexivity|].
    split; [eauto|]. split; [auto|]. split; [now left|].
    intros _. split; [reflexivity | now left].
  - destruct (Hdirs s (or_introl eq_refl)) as (Hv & d & Hd).
    pose proof (phase3_step_run s d w Hv Hd) as R.
    (* the world after the round for [s] *)
    assert (exists w1,
               phase3_step cwd s w = Done tt w1
               /\ tree w1 = match d with
                            | [] => dropped cs [s] [s ++ ".meta"] (tree w)
                            | _ => tree w
                            end
               /\ (forall e, In e (log w1) -> In e (log w) \/
                     match e with Copy _ _ | EmptyDir _ => False | _ => True end)
               /\ (d <> [] -> forall e, In e (log w1) -> In e (log w) \/
                     match e with Validate _ | IsEmpty _ => True | _ => False end))
      as (w1 & R1 & T1 & L1 & L1').
    { destruct d as [|e d].
      - destruct (Fs.lookup (tree w) (pcs ++ [s ++ ".meta"])) as [[f|es]|] eqn:E;
          [| exfalso; exact (Hside s (or_introl eq_refl) Hd es E) |];
          (eexists; split; [exact R|]); (split; [reflexivity|]);
          (split; [|intros C; now contradiction C]);
          intros e He; cbn [app log] in He;
          repeat (destruct He as [<-|He]; [now right|]); now left.
      - eexists. split; [exact R|]. split; [reflexivity|].
        split; [|intros _]; intros e' He; cbn [log] in He;
          repeat (destruct He as [<-|He]; [now right|]); now left. }
    clear R.
    (* the other scopes are where they were *)
    assert (F1 : forall s', In s' scopes ->
               Fs.lookup (tree w1) (pcs ++ [s']) = Fs.lookup (tree w) (pcs ++ [s'])
               /\ (Fs.lookup (tree w) (pcs ++ [s']) = Some (Dir []) ->
                   not_a_directory (tree w1) (pcs ++ [s' ++ ".meta"]))).
    { intros s' Hin. rewrite T1.
      assert (Hne : s <> s') by (intros ->; contradiction).
      destruct (Hdirs s' (or_intror Hin)) as (Hv' & d' & Hd').
      destruct d as [|e d].
      - split.
        + apply dropped_frame;
            [apply scope_apart_sidecar
            | exact (Hside s (or_introl eq_refl) Hd) |].
          split; [apply apart_app_same; now apply apart_heads|].
          rewrite is_prefix_app_same. simpl.
          destruct (String.eqb_spec s' (s ++ ".meta")) as [->|]; [|reflexivity].
          exfalso. exact (Hside s (or_introl eq_refl) Hd d' Hd').
        + intros He' es E. apply dropped_kind in E as (y & Hy & Ey).
          destruct y as [|es']; [discriminate|].
          exact (Hside s' (or_intror Hin) He' es' Hy).
      - split; [reflexivity|]. intros He'.
        exact (Hside s' (or_intror Hin) He'). }
    destruct (IH w1) as (w' & Hrun & Hgone & Hframe & Hkind & Hwf & Hlog & Hquiet).
    { intros s' Hin. destruct (Hdirs s' (or_intror Hin)) as (Hv' & d' & Hd').
      split; [assumption|]. exists d'. now rewrite (proj1 (F1 s' Hin)). }
    { intros s' Hin He'. rewrite (proj1 (F1 s' Hin)) in He'.
      exact (proj2 (F1 s' Hin) He'). }
    exists w'. cbn [for_of]. unfold bind. rewrite R1. split; [assumption|].
    assert (K1 : forall q x, Fs.lookup (tree w1) q = Some x ->
                 exists y, Fs.lookup (tree w) q = Some y
                           /\ Fs.is_dir y = Fs.is_dir x).
    { intros q x. rewrite T1. destruct d; [apply dropped_kind | eauto]. }
    split; [|split; [|split; [|split; [|split]]]].
    + intros s' [<-|Hin] He'.
      * rewrite Hd in He'. injection He' as ->.
        destruct (dropped_gone [s] [s ++ ".meta"] (tree w)) as [G1 G2].
        rewrite <- T1 in G1, G2. split.
        -- destruct (Fs.lookup (tree w') (pcs ++ [s])) eqn:E; [|reflexivity].
           apply Hkind in E as (y & Hy & _). congruence.
        -- destruct (Fs.lookup (tree w') (pcs ++ [s ++ ".meta"])) eqn:E;
             [|reflexivity].
           apply Hkind in E as (y & Hy & _). congruence.
      * apply Hgone; [assumption|]. now rewrite (proj1 (F1 s' Hin)).
    + intros q Hq. rewrite Hframe.
      * rewrite T1. destruct d as [|e d]; [|reflexivity].
        apply dropped_frame;
          [apply scope_apart_sidecar
          | exact (Hside s (or_introl eq_refl) Hd)
          | exact (Hq s (or_introl eq_refl) Hd)].
      * intros s' Hin He'. rewrite (proj1 (F1 s' Hin)) in He'.
        exact (Hq s' (or_intror Hin) He').
    + intros q x Hx. apply Hkind in Hx as (y & Hy & Ey).
      apply K1 in Hy as (z & Hz & Ez). exists z. split; [assumption | congruence].
    + intros Hw. apply Hwf. rewrite T1.
      destruct d; [unfold dropped; now repeat apply wf_remove | assumption].
    + intros e He. destruct (Hlog e He) as [Hl|Hl]; [now apply L1 | now right].
    + intros Hne.
      assert (Hd0 : d <> []) by (intros ->; exact (Hne s (or_introl eq_refl) Hd)).
      destruct Hquiet as [Q1 Q2].
      { intros s' Hin. rewrite (proj1 (F1 s' Hin)). apply Hne. now right. }
      split.
      * rewrite Q1, T1. destruct d; [contradiction | reflexivity].
      * intros e He. destruct (Q2 e He) as [Hl|Hl]; [|now right].
        now apply (L1' Hd0).
Qed.

End Removal.

(* ================================================================== *)
(** * C4, continued: an example *)
(* ================================================================== *)

(** The listing of the mixed project: the plain package, the two
    packages of the scope; neither the stray files nor the scopes
    themselves. *)
Lemma C4_installed_entries_witness :
  getProjectPackageListing (Path.absolute ["proj"])
    (mkWorld (Examples.project_mixed []) [])
  = Done (installed_entries Examples.installed_mixed)
         (mkWorld (Examples.project_mixed []) [])
  /\ phase2 (Path.absolute ["proj"]) ["plain"]
       (mkWorld (Examples.project_mixed []) [])
     = for_of (redundant ["plain"] (installed_entries Examples.installed_mixed))
              (phase2_step (Path.absolute ["proj"]))
              (mkWorld (Examples.project_mixed []) []).
Proof.
  apply (C4_installed_entries ["proj"] (mkWorld (Examples.project_mixed []) [])
           Examples.installed_mixed ["plain"]).
  - repeat constructor.
  - vm_compute. reflexivity.
  - vm_compute. reflexivity.
Defined.

Lemma mixed_entries :
  installed_entries Examples.installed_mixed = ["plain"; "@org/foo"; "@org/bar"].
Proof. vm_compute. reflexivity. Qed.

(* ================================================================== *)
(** * C5: removing what is not declared *)
(* ================================================================== *)

Lemma array_includes_In (a : list string) (x : string) :
  Js.array_includes a x = true <-> In x a.
Proof. apply existsb_eqb_In. Qed.

Lemma in_redundant declared listing name :
  In name (redundant declared listing)
  <-> In name listing /\ ~ In name declared.
Proof.
  unfold redundant. rewrite filter_In, negb_true_iff.
  split; intros [H1 H2]; split; try assumption.
  - intros Hin. apply array_includes_In in Hin. congruence.
  - destruct (Js.array_includes declared name) eqn:E; [|reflexivity].
    apply array_includes_In in E. contradiction.
Qed.

(** C5: in a well-formed tree, with the packages directory in place and
    nothing but regular files where the sidecars of the packages to
    remove are expected, phase 2 returns; afterwards every installed
    package whose name is not among the declared ones (as the very same
    string) is gone together with its sidecar, and every installed
    package whose name is declared is exactly as it was. *)
Theorem C5_redundant_removal (cs : list string) (w : world)
    (es : list (string * node)) (declared : list string) :
  valid_names cs -> Fs.wf (tree w) = true ->
  Fs.lookup (tree w) (packagesPath cs) = Some (Dir es) ->
  (forall name ns ms,
      In name (installed_entries es) -> ~ In name declared ->
      package_name name ns ms ->
      not_a_directory (tree w) (packagesPath cs ++ ms)) ->
  exists w',
    phase2 (Path.absolute cs) declared w = Done tt w'
    /\ forall name ns ms,
        In name (installed_entries es) -> package_name name ns ms ->
        (~ In name declared ->
         Fs.lookup (tree w') (packagesPath cs ++ ns) = None
         /\ Fs.lookup (tree w') (packagesPath cs ++ ms) = None)
        /\ (In name declared ->
            Fs.lookup (tree w') (packagesPath cs ++ ns)
            = Fs.lookup (tree w) (packagesPath cs ++ ns)).
Proof.
  intros Hcs Hw He Hside.
  assert (Hes : Fs.wf (Dir es) = true) by (eapply wf_lookup; eassumption).
  rewrite (phase2_listing cs w es declared Hcs Hw He).
  destruct (phase2_loop cs Hcs (redundant declared (installed_entries es)) w)
    as (w' & Hrun & Hgone & Hframe & _).
  { intros name Hin. apply in_redundant in Hin as [Hin Hnd].
    destruct (listed_package_name es name Hes Hin) as (ns & ms & d & Hn & _).
    exists ns, ms. split; [assumption | eauto]. }
  exists w'. split; [assumption|].
  intros name ns ms Hin Hn. split.
  - intros Hnd. apply (Hgone name); [|assumption].
    apply in_redundant. now split.
  - intros Hd. apply Hframe.
    intros name' ns' ms' Hin' Hn'. apply in_redundant in Hin' as [Hin' Hnd'].
    assert (Hne : name' <> name) by (intros ->; contradiction).
    destruct (listed_package_name es name Hes Hin) as (ns0 & ms0 & d & Hn0 & Hl0).
    destruct (package_name_unique _ _ _ _ _ Hn Hn0) as [<- <-].
    split.
    + apply apart_app_same. eapply package_names_apart; eassumption.
    + rewrite is_prefix_app_same.
      destruct (Fs.is_prefix ns ms') eqn:E; [|reflexivity].
      exfalso.
      pose proof (package_not_above_sidecar _ _ _ _ _ _ Hn' Hn E) as <-.
      apply (Hside name' ns' ns Hin' Hnd' Hn' d).
      now rewrite lookup_app, He.
Qed.

(** Packages A, B and C are installed, A and C are declared: phase 2
    removes B and [B.meta] and leaves A and C as they were. *)
Lemma C5_redundant_removal_witness :
  exists w',
    phase2 (Path.absolute ["proj"]) ["A"; "C"] (mkWorld Examples.project_ABC [])
    = Done tt w'
    /\ Fs.lookup (tree w') (Examples.packages ++ ["B"]) = None
    /\ Fs.lookup (tree w') (Examples.packages ++ ["B.meta"]) = None
    /\ Fs.lookup (tree w') (Examples.packages ++ ["A"])
       = Fs.lookup Examples.project_ABC (Examples.packages ++ ["A"])
    /\ Fs.lookup (tree w') (Examples.packages ++ ["C"])
       = Fs.lookup Examples.project_ABC (Examples.packages ++ ["C"]).
Proof.
  destruct (C5_redundant_removal ["proj"] (mkWorld Examples.project_ABC [])
              Examples.installed_ABC ["A"; "C"]) as (w' & Hrun & H).
  - repeat constructor.
  - vm_compute. reflexivity.
  - vm_compute. reflexivity.
  - intros name ns ms Hin Hnd Hn es.
    assert (name = "B") as ->.
    { vm_compute in Hin. destruct Hin as [<-|[<-|[<-|[]]]];
        [exfalso; apply Hnd; simpl; auto | reflexivity
        | exfalso; apply Hnd; simpl; auto]. }
    destruct (package_name_unique _ _ _ _ _ Hn
                (plain_name "B" eq_refl eq_refl)) as [_ ->].
    vm_compute. discriminate.
  - exists w'. split; [assumption|].
    assert (HA : In "A" (installed_entries Examples.installed_ABC))
      by (vm_compute; auto).
    assert (HB : In "B" (installed_entries Examples.installed_ABC))
      by (vm_compute; auto).
    assert (HC : In "C" (installed_entries Examples.installed_ABC))
      by (vm_compute; auto).
    destruct (H "B" ["B"] ["B.meta"] HB (plain_name "B" eq_refl eq_refl))
      as [[G1 G2] _].
    { simpl. intros [E|[E|[]]]; discriminate. }
    split; [exact G1|]. split; [exact G2|]. split.
    + apply (H "A" ["A"] ["A.meta"] HA (plain_name "A" eq_refl eq_refl)).
      simpl. auto.
    + apply (H "C" ["C"] ["C.meta"] HC (plain_name "C" eq_refl eq_refl)).
      simpl. auto.
Defined.

(* ================================================================== *)
(** * C6: scoped names *)
(* ================================================================== *)

(** C6, as stated, fails: the package installed at [@org/foo] is kept
    when the declared names contain ["@org/foo"] and not ["org/foo"],
    and it is removed when they contain ["org/foo"]. *)
Lemma C6_scope_marker_belongs_to_the_name :
  (exists t',
      Examples.after_phase2 ["@org/foo"] (Examples.project_scoped []) = Some t'
      /\ Fs.lookup t' (Examples.packages ++ ["@org"; "foo"])
         = Some (Dir [("f.cs", Examples.text "f")])
      /\ ~ In "org/foo" ["@org/foo"])
  /\ (exists t',
        Examples.after_phase2 ["org/foo"] (Examples.project_scoped []) = Some t'
        /\ Fs.lookup t' (Examples.packages ++ ["@org"; "foo"]) = None
        /\ In "org/foo" ["org/foo"]).
Proof.
  split; eexists; (split; [vm_compute; reflexivity|]);
    (split; [vm_compute; reflexivity|]).
  - simpl. intros [E|[]]. discriminate.
  - now left.
Qed.

(** C6, amended: in a well-formed tree a directory [c] inside a
    directory [s] of the packages directory whose name starts with ["@"]
    is listed under the name [s/c], marker included, and phase 2 takes it
    for redundant exactly when that very string is not among the declared
    names. The round of phase 2 for a scoped name returns - provided
    nothing but a regular file is where its sidecar is expected - and
    leaves every entry of the packages directory whose name does not
    start with ["@"] as it was; the round for a plain name leaves every
    entry whose name starts with ["@"], with all it contains, as it
    was. *)
Theorem C6_scoped_names (cs : list string) (w : world) (s c : string) :
  valid_names cs ->
  Path.valid_name s = true -> Js.startsWith s "@" = true ->
  Path.valid_name c = true ->
  (forall es d declared,
      Fs.wf (tree w) = true ->
      Fs.lookup (tree w) (packagesPath cs) = Some (Dir es) ->
      Fs.lookup (tree w) (packagesPath cs ++ [s; c]) = Some (Dir d) ->
      In (s ++ "/" ++ c) (installed_entries es)
      /\ (In (s ++ "/" ++ c) (redundant declared (installed_entries es))
          <-> ~ In (s ++ "/" ++ c) declared))
  /\ (not_a_directory (tree w) (packagesPath cs ++ [s; c ++ ".meta"]) ->
      exists w',
        phase2_step (Path.absolute cs) (s ++ "/" ++ c) w = Done tt w'
        /\ forall y,
            Js.startsWith y "@" = false ->
            Fs.lookup (tree w') (packagesPath cs ++ [y])
            = Fs.lookup (tree w) (packagesPath cs ++ [y]))
  /\ (forall x,
        Path.valid_name x = true -> Js.startsWith x "@" = false ->
        not_a_directory (tree w) (packagesPath cs ++ [x ++ ".meta"]) ->
        exists w',
          phase2_step (Path.absolute cs) x w = Done tt w'
          /\ forall s',
              Js.startsWith s' "@" = true ->
              Fs.lookup (tree w') (packagesPath cs ++ [s'])
              = Fs.lookup (tree w) (packagesPath cs ++ [s'])).
Proof.
  intros Hcs Hs Hat Hc.
  pose proof (scoped_name s c Hs Hat Hc) as Hn.
  split; [|split].
  - intros es d declared Hw He Hd.
    assert (Hin : In (s ++ "/" ++ c) (installed_entries es)).
    { eapply package_name_listed; [exact Hn|].
      rewrite lookup_app, He in Hd. exact Hd. }
    split; [assumption|]. rewrite in_redundant. tauto.
  - intros Hside.
    destruct (phase2_loop cs Hcs [s ++ "/" ++ c] w) as (w' & Hrun & _ & Hframe & _).
    { intros name [<-|[]]. eauto. }
    cbn [for_of] in Hrun. unfold bind in Hrun.
    destruct (phase2_step (Path.absolute cs) (s ++ "/" ++ c) w) as [[] w1|] eqn:E;
      [|discriminate].
    injection Hrun as ->. exists w'. split; [reflexivity|].
    intros y Hy. apply Hframe.
    intros name ns ms [<-|[]] Hn'.
    destruct (package_name_unique _ _ _ _ _ Hn Hn') as [<- <-].
    assert (Hne : s <> y) by (intros ->; congruence).
    split.
    + apply apart_app_same. now apply apart_heads.
    + rewrite is_prefix_app_same. simpl.
      destruct (String.eqb_spec y s); [congruence | reflexivity].
  - intros x Hx Hxat Hside.
    pose proof (plain_name x Hx Hxat) as Hnx.
    destruct (phase2_loop cs Hcs [x] w) as (w' & Hrun & _ & Hframe & _).
    { intros name [<-|[]]. eauto. }
    cbn [for_of] in Hrun. unfold bind in Hrun.
    destruct (phase2_step (Path.absolute cs) x w) as [[] w1|] eqn:E;
      [|discriminate].
    injection Hrun as ->. exists w'. split; [reflexivity|].
    intros s' Hs'. apply Hframe.
    intros name ns ms [<-|[]] Hn'.
    destruct (package_name_unique _ _ _ _ _ Hnx Hn') as [<- <-].
    assert (Hne : x <> s') by (intros ->; congruence).
    split.
    + apply apart_app_same. now apply apart_heads.
    + rewrite is_prefix_app_same. simpl.
      destruct (String.eqb_spec s' (x ++ ".meta")) as [->|]; [|reflexivity].
      rewrite startsWith_meta in Hs' by now apply valid_name_nonempty.
      congruence.
Qed.

(** The scoped project: [@org/foo] is redundant unless ["@org/foo"] is
    declared; removing it leaves [plain] alone, and removing [plain]
    leaves [@org] alone. *)
Lemma C6_scoped_names_witness :
  (In "@org/foo" (redundant ["plain"] (installed_entries Examples.installed_scoped))
   <-> ~ In "@org/foo" ["plain"])
  /\ (exists w',
        phase2_step (Path.absolute ["proj"]) ("@org" ++ "/" ++ "foo")
          (mkWorld (Examples.project_scoped []) []) = Done tt w'
        /\ Fs.lookup (tree w') (Examples.packages ++ ["plain"])
           = Fs.lookup (Examples.project_scoped []) (Examples.packages ++ ["plain"]))
  /\ (exists w',
        phase2_step (Path.absolute ["proj"]) "plain"
          (mkWorld (Examples.project_scoped []) []) = Done tt w'
        /\ Fs.lookup (tree w') (Examples.packages ++ ["@org"])
           = Fs.lookup (Examples.project_scoped []) (Examples.packages ++ ["@org"])).
Proof.
  destruct (C6_scoped_names ["proj"] (mkWorld (Examples.project_scoped []) [])
              "@org" "foo") as (H1 & H2 & H3);
    [repeat constructor | reflexivity | reflexivity | reflexivity |].
  split; [|split].
  - apply (H1 Examples.installed_scoped [("f.cs", Examples.text "f")] ["plain"]);
      vm_compute; reflexivity.
  - destruct H2 as (w' & Hrun & Hf).
    + intros es. vm_compute. discriminate.
    + exists w'. split; [exact Hrun|]. apply Hf. reflexivity.
  - destruct (H3 "plain") as (w' & Hrun & Hf).
    + reflexivity.
    + reflexivity.
    + intros es. vm_compute. discriminate.
    + exists w'. split; [exact Hrun|]. apply Hf. reflexivity.
Defined.

(* ================================================================== *)
(** * C7: pruning empty scopes *)
(* ================================================================== *)

Lemma NoDup_map_fst_filter (f : string * node -> bool) es :
  NoDup (map fst es) -> NoDup (map fst (filter f es)).
Proof.
  induction es as [|e es IH]; simpl; [constructor|].
  inversion 1 as [|? ? Hn Hnd]; subst.
  destruct (f e); [|auto]. simpl. constructor; [|auto].
  intros Hin. apply Hn. apply in_map_iff in Hin as (e' & E & Hin).
  apply filter_In in Hin as [Hin _]. apply in_map_iff. eauto.
Qed.

Lemma scope_directories_NoDup es :
  NoDup (Fs.names es) -> NoDup (scope_directories es).
Proof.
  intros H. unfold scope_directories, subdirectories.
  apply NoDup_filter. now apply NoDup_map_fst_filter.
Qed.

Lemma in_scope_directories es s :
  NoDup (Fs.names es) ->
  In s (scope_directories es)
  <-> Js.startsWith s "@" = true /\ exists d, Fs.entry s es = Some (Dir d).
Proof.
  intros H. unfold scope_directories.
  rewrite filter_In, (in_subdirectories s es H). tauto.
Qed.

(** C7: in a well-formed tree, with the packages directory in place and
    nothing but a regular file where the sidecar of an empty scope is
    expected, phase 3 goes through exactly the directories of the
    packages directory whose names start with ["@"], and returns;
    afterwards every such directory that was empty is gone together with
    its sidecar, every such directory that was not empty is exactly as it
    was and so is its sidecar, and the entries whose names do not start
    with ["@"] are as they were. *)
Theorem C7_empty_scope_pruning (cs : list string) (w : world)
    (es : list (string * node)) :
  valid_names cs -> Fs.wf (tree w) = true ->
  Fs.lookup (tree w) (packagesPath cs) = Some (Dir es) ->
  (forall s,
      In s (scope_directories es) ->
      Fs.lookup (tree w) (packagesPath cs ++ [s]) = Some (Dir []) ->
      not_a_directory (tree w) (packagesPath cs ++ [s ++ ".meta"])) ->
  (forall s,
      In s (scope_directories es)
      <-> Js.startsWith s "@" = true
          /\ exists d, Fs.lookup (tree w) (packagesPath cs ++ [s]) = Some (Dir d))
  /\ phase3 (Path.absolute cs) w
     = for_of (scope_directories es) (phase3_step (Path.absolute cs)) w
  /\ exists w',
      phase3 (Path.absolute cs) w = Done tt w'
      /\ (forall s,
            In s (scope_directories es) ->
            Fs.lookup (tree w) (packagesPath cs ++ [s]) = Some (Dir []) ->
            Fs.lookup (tree w') (packagesPath cs ++ [s]) = None
            /\ Fs.lookup (tree w') (packagesPath cs ++ [s ++ ".meta"]) = None)
      /\ (forall s e d,
            In s (scope_directories es) ->
            Fs.lookup (tree w) (packagesPath cs ++ [s]) = Some (Dir (e :: d)) ->
            Fs.lookup (tree w') (packagesPath cs ++ [s]) = Some (Dir (e :: d))
            /\ (not_a_directory (tree w) (packagesPath cs ++ [s ++ ".meta"]) ->
                Fs.lookup (tree w') (packagesPath cs ++ [s ++ ".meta"])
                = Fs.lookup (tree w) (packagesPath cs ++ [s ++ ".meta"])))
      /\ (forall k,
            Js.startsWith k "@" = false ->
            Fs.lookup (tree w') (packagesPath cs ++ [k])
            = Fs.lookup (tree w) (packagesPath cs ++ [k])).
Proof.
  intros Hcs Hw He Hside.
  assert (Hes : Fs.wf (Dir es) = true) by (eapply wf_lookup; eassumption).
  pose proof Hes as Hes'. apply wf_dir in Hes' as (Hnd & Hv & _).
  assert (Hchar : forall s,
             In s (scope_directories es)
             <-> Js.startsWith s "@" = true
                 /\ exists d, Fs.lookup (tree w) (packagesPath cs ++ [s])
                              = Some (Dir d)).
  { intros s. rewrite (in_scope_directories es s Hnd), lookup_app, He. simpl.
    split; intros [Hat [d Hd]]; (split; [assumption|]); exists d.
    - now rewrite Hd.
    - destruct (Fs.entry s es); [congruence | discriminate]. }
  assert (Hrun : phase3 (Path.absolute cs) w
                 = for_of (scope_directories es) (phase3_step (Path.absolute cs)) w).
  { unfold phase3, bind. now rewrite (getProjectPackageScopes_run cs Hcs w es Hw He). }
  split; [exact Hchar|]. split; [exact Hrun|]. rewrite Hrun.
  destruct (phase3_loop cs Hcs (scope_directories es)
              (scope_directories_NoDup es Hnd) w)
    as (w' & Hfor & Hgone & Hframe & _).
  { intros s Hs. apply Hchar in Hs as Hs'. destruct Hs' as [_ [d Hd]].
    split; [|eauto].
    apply (in_scope_directories es s Hnd) in Hs as [_ [d' Hd']].
    now destruct (wf_entry _ _ _ Hes Hd'). }
  { exact Hside. }
  exists w'. split; [exact Hfor|]. split; [exact Hgone|]. split.
  - intros s e d Hs Hd. split.
    + rewrite <- Hd. apply Hframe. intros s' Hs' He'.
      assert (Hne : s' <> s) by (intros ->; congruence).
      split; [apply apart_app_same; now apply apart_heads|].
      rewrite is_prefix_app_same. simpl.
      destruct (String.eqb_spec s (s' ++ ".meta")) as [->|]; [|reflexivity].
      exfalso. exact (Hside s' Hs' He' _ Hd).
    + intros Hnd'. apply Hframe. intros s' Hs' He'. split.
      * apply apart_app_same. apply apart_heads. intros ->.
        exact (Hnd' _ He').
      * rewrite is_prefix_app_same. simpl.
        destruct (String.eqb_spec (s ++ ".meta") (s' ++ ".meta")) as [E|];
          [|reflexivity].
        apply app_meta_inj in E. subst s'. congruence.
  - intros k Hk. apply Hframe. intros s' Hs' He'.
    apply Hchar in Hs' as [Hat' _]. split.
    + apply apart_app_same. apply apart_heads. intros ->. congruence.
    + rewrite is_prefix_app_same. simpl.
      destruct (String.eqb_spec k (s' ++ ".meta")) as [->|]; [|reflexivity].
      rewrite startsWith_meta in Hk; [congruence|].
      intros ->. discriminate.
Qed.

(** The mixed project: the scope [@empty] goes, with its sidecar; the
    scope [@org], which holds packages, stays, and so do its sidecar and
    the plain package. *)
Lemma C7_empty_scope_pruning_witness :
  exists w',
    phase3 (Path.absolute ["proj"]) (mkWorld (Examples.project_mixed []) [])
    = Done tt w'
    /\ Fs.lookup (tree w') (Examples.packages ++ ["@empty"]) = None
    /\ Fs.lookup (tree w') (Examples.packages ++ ["@empty" ++ ".meta"]) = None
    /\ Fs.lookup (tree w') (Examples.packages ++ ["@org"])
       = Fs.lookup (Examples.project_mixed []) (Examples.packages ++ ["@org"])
    /\ Fs.lookup (tree w') (Examples.packages ++ ["@org" ++ ".meta"])
       = Fs.lookup (Examples.project_mixed []) (Examples.packages ++ ["@org" ++ ".meta"])
    /\ Fs.lookup (tree w') (Examples.packages ++ ["plain"])
       = Fs.lookup (Examples.project_mixed []) (Examples.packages ++ ["plain"]).
Proof.
  destruct (C7_empty_scope_pruning ["proj"] (mkWorld (Examples.project_mixed []) [])
              Examples.installed_mixed)
    as (_ & _ & w' & Hrun & Hgone & Hkept & Hplain).
  - repeat constructor.
  - vm_compute. reflexivity.
  - vm_compute. reflexivity.
  - intros s Hs He es.
    assert (s = "@empty") as ->.
    { vm_compute in Hs. destruct Hs as [<-|[<-|[]]]; [|reflexivity].
      vm_compute in He. discriminate. }
    vm_compute. discriminate.
  - assert (H1 : In "@empty" (scope_directories Examples.installed_mixed))
      by (vm_compute; auto).
    assert (H2 : In "@org" (scope_directories Examples.installed_mixed))
      by (vm_compute; auto).
    exists w'. split; [exact Hrun|].
    destruct (Hgone "@empty" H1) as [G1 G2]; [vm_compute; reflexivity|].
    split; [exact G1|]. split; [exact G2|].
    destruct (Hkept "@org" ("foo", Dir [("f.cs", Examples.text "f")])
                [("foo.meta", Examples.text "meta"); ("bar", Dir []);
                 ("notes.txt", Examples.text "notes")] H2) as [K1 K2];
      [vm_compute; reflexivity|].
    split; [unfold Examples.packages; rewrite K1; vm_compute; reflexivity|].
    split; [apply K2; intros es; vm_compute; discriminate|].
    apply Hplain. reflexivity.
Defined.

(* ================================================================== *)
(** * Running twice *)
(* ================================================================== *)

(** Removing [p] leaves the directories that are not inside [p]
    directories. *)
Lemma remove_keeps_dir q :
  forall p t es,
    Fs.lookup t q = Some (Dir es) -> Fs.is_prefix p q = false ->
    exists es', Fs.lookup (Fs.remove p t) q = Some (Dir es').
Proof.
  induction q as [|k q IH]; intros p t es Hq Hp.
  - simpl in Hq. injection Hq as ->.
    destruct p as [|k p]; [discriminate|].
    simpl. destruct p; [eauto|]. destruct (Fs.entry k es); eauto.
  - destruct t as [d|es0]; [discriminate|]. simpl in Hq.
    destruct (Fs.entry k es0) as [c|] eqn:E; [|discriminate].
    destruct p as [|k' p]; [discriminate|]. simpl in Hp.
    destruct (String.eqb_spec k' k) as [->|N].
    + simpl in Hp. destruct p as [|k2 p]; [discriminate|].
      change (Fs.remove (k :: k2 :: p) (Dir es0))
        with (match Fs.entry k es0 with
              | Some c => Dir (Fs.set_entry k (Fs.remove (k2 :: p) c) es0)
              | None => Dir es0
              end).
      rewrite E.
      change (Fs.lookup (Dir (Fs.set_entry k (Fs.remove (k2 :: p) c) es0)) (k :: q))
        with (match Fs.entry k (Fs.set_entry k (Fs.remove (k2 :: p) c) es0) with
              | Some c => Fs.lookup c q
              | None => None
              end).
      rewrite entry_set_same. now apply (IH _ _ es).
    + rewrite lookup_remove_apart by now apply apart_heads.
      simpl. rewrite E. eauto.
Qed.

(** Removing [p] leaves the regular files in place, unless [p] is
    the file itself or a directory it is in. *)
Lemma remove_keeps_file p q t d :
  Fs.lookup t q = Some (File d) -> p <> q ->
  (Fs.is_prefix p q = true -> forall e es, Fs.lookup t p <> Some (Dir (e :: es))) ->
  Fs.lookup (Fs.remove p t) q = Some (File d).
Proof.
  intros Hq Hne Hp.
  destruct (Fs.is_prefix p q) eqn:Epq.
  - exfalso. apply is_prefix_spec in Epq as [r ->].
    destruct r as [|k r]; [now rewrite app_nil_r in Hne|].
    destruct (lookup_through_dir _ _ _ _ _ Hq) as (es & Hes & Hin).
    destruct es as [|e es]; [destruct Hin|]. exact (Hp eq_refl e es Hes).
  - destruct (Fs.is_prefix q p) eqn:Eqp.
    + apply is_prefix_spec in Eqp as [r ->].
      destruct r as [|k r]; [now rewrite app_nil_r in Hne|].
      rewrite remove_absent; [assumption|]. now rewrite lookup_app, Hq.
    + rewrite lookup_remove_apart; [assumption | now split].
Qed.

Section FirstRun.

Variable cs : list string.
Hypothesis cs_valid : valid_names cs.

Let cwd := Path.absolute cs.
Let pcs := packagesPath cs.

Lemma source_metadata_path name ns :
  relpath name ns ->
  metadataPath (dependencyDir cwd name)
  = Path.absolute (modulePath cs ns ++ ["package.json"]).
Proof.
  intros Hr. unfold metadataPath, cwd.
  rewrite (dependencyDir_absolute cs cs_valid name ns Hr).
  apply join_absolute; [|now apply relpath_name].
  apply modulePath_valid; [assumption | apply Hr].
Qed.

Lemma target_metadata_path name ns :
  relpath name ns ->
  metadataPath (assetsTargetPath cwd name)
  = Path.absolute (pcs ++ ns ++ ["package.json"]).
Proof.
  intros Hr. unfold metadataPath, cwd.
  rewrite (assetsTargetPath_absolute cs cs_valid name ns Hr).
  rewrite app_assoc. apply join_absolute; [|now apply relpath_name].
  apply Forall_app. split; [now apply packagesPath_valid | apply Hr].
Qed.

Lemma valid_source_metadata ns :
  valid_names ns -> valid_names (modulePath cs ns ++ ["package.json"]).
Proof.
  intros H. apply Forall_app. split; [now apply modulePath_valid|].
  now repeat constructor.
Qed.

Lemma valid_target ns : valid_names ns -> valid_names (pcs ++ ns).
Proof.
  intros H. apply Forall_app. split; [now apply packagesPath_valid | assumption].
Qed.

Lemma valid_target_metadata ns :
  valid_names ns -> valid_names (pcs ++ ns ++ ["package.json"]).
Proof.
  intros H. apply Forall_app. split; [now apply packagesPath_valid|].
  apply Forall_app. split; [assumption | now repeat constructor].
Qed.

Lemma phase1_step_unreadable name w :
  (forall cfg, at_path w (metadataPath (dependencyDir cwd name))
               <> Some (File (Json cfg))) ->
  exists e l, phase1_step cwd name w = Thrown e l.
Proof.
  intros H. unfold phase1_step, bind, readJsonSync.
  fold (dependencyDir cwd name). fold (metadataPath (dependencyDir cwd name)).
  destruct (at_path w (metadataPath (dependencyDir cwd name)))
    as [[[cfg|s]|es]|]; eauto.
  exfalso. now apply (H cfg).
Qed.

(** ** One round of phase 1 that returned *)

Lemma phase1_step_done name ns ms w w1 :
  package_name name ns ms -> Fs.wf (tree w) = true ->
  phase1_step cwd name w = Done tt w1 ->
  (exists cfg, Fs.lookup (tree w) (modulePath cs ns ++ ["package.json"])
               = Some (File (Json cfg)))
  /\ Fs.wf (tree w1) = true
  /\ same_outside (pcs ++ ns) w w1
  /\ up_to_date cs (tree w1) ns.
Proof.
  intros Hn Hw Hrun.
  destruct (package_name_relpath _ _ _ Hn) as [Hr _].
  destruct (package_name_valid _ _ _ Hn) as (Vn & _ & _).
  pose proof (source_metadata_path name ns Hr) as Ps.
  pose proof (target_metadata_path name ns Hr) as Pt.
  pose proof (assetsTargetPath_absolute cs cs_valid name ns Hr) as Pa.
  fold cwd pcs in Pa.
  destruct (at_path w (metadataPath (dependencyDir cwd name)))
    as [[[cfg|s]|es]|] eqn:Ec;
    try (destruct (phase1_step_unreadable name w) as (e & l & E);
         [intros cfg'; rewrite Ec; discriminate | congruence]).
  assert (Hsrc : Fs.lookup (tree w) (modulePath cs ns ++ ["package.json"])
                 = Some (File (Json cfg))).
  { rewrite Ps, at_path_absolute in Ec by now apply valid_source_metadata.
    exact Ec. }
  split; [eauto|].
  destruct (has_marker cfg) eqn:Hm.
  - (* a package with the marker *)
    assert (Hs : safe (assetsTargetPath cwd name) = true)
      by (rewrite Pa; apply safe_below_packages).
    destruct (at_path w (metadataPath (assetsTargetPath cwd name)))
      as [[[tcfg|s]|es]|] eqn:Et.
    + destruct (option_eqb (version cfg) (version tcfg)) eqn:Ev.
      * (* same version: skipped *)
        apply option_eqb_eq in Ev.
        rewrite (phase1_step_same_version cwd name w cfg tcfg Ec Hm Et
                   (eq_sym Ev)), Hs in Hrun.
        injection Hrun as <-. split; [assumption|].
        split; [intros q _; reflexivity|].
        intros cfg' Hc' _. cbn [tree validated] in *.
        rewrite Hsrc in Hc'. injection Hc' as <-.
        exists tcfg. split; [|now symmetry].
        rewrite Pt, at_path_absolute in Et by now apply valid_target_metadata.
        exact Et.
      * (* another version: replaced *)
        apply option_eqb_neq in Ev.
        rewrite (phase1_step_replace cwd name w cfg Ec Hm Hs) in Hrun
          by (right; exists tcfg; split; [assumption | congruence]).
        revert Hrun. unfold cwd.
        rewrite (dependencyDir_absolute cs cs_valid name ns Hr).
        fold cwd. rewrite Pa. intros Hrun.
        destruct (installPackage_spec (modulePath cs ns) (pcs ++ ns)
                    (modulePath_valid cs cs_valid ns Vn) (valid_target ns Vn)
                    (module_apart_packages cs ns ns)
                    (validated (Path.absolute (pcs ++ ns)) w) w1 Hw Hrun)
          as (O & W & F & _).
        split; [assumption|]. split; [exact O|].
        intros cfg' Hc' _.
        rewrite (O (modulePath cs ns ++ ["package.json"])%list) in Hc'
          by (rewrite <- (app_nil_r (pcs ++ ns));
              apply apart_sym;
              apply apart_extend, module_apart_packages).
        cbn [tree validated] in Hc'. rewrite Hsrc in Hc'. injection Hc' as <-.
        exists cfg. split; [|reflexivity].
        rewrite app_assoc. apply F; [now left | exact Hsrc].
    + exfalso.
      destruct (phase1_step_bad_metadata cwd name w cfg _ Ec Hm Et) as (e & l & E);
        [intros c; discriminate | congruence].
    + exfalso.
      destruct (phase1_step_bad_metadata cwd name w cfg _ Ec Hm Et) as (e & l & E);
        [intros c; discriminate | congruence].
    + (* nothing installed: replaced *)
      rewrite (phase1_step_replace cwd name w cfg Ec Hm Hs (or_introl Et)) in Hrun.
      revert Hrun. unfold cwd.
      rewrite (dependencyDir_absolute cs cs_valid name ns Hr).
      fold cwd. rewrite Pa. intros Hrun.
      destruct (installPackage_spec (modulePath cs ns) (pcs ++ ns)
                  (modulePath_valid cs cs_valid ns Vn) (valid_target ns Vn)
                  (module_apart_packages cs ns ns)
                  (validated (Path.absolute (pcs ++ ns)) w) w1 Hw Hrun)
        as (O & W & F & _).
      split; [assumption|]. split; [exact O|].
      intros cfg' Hc' _.
      rewrite (O (modulePath cs ns ++ ["package.json"])%list) in Hc'
        by (rewrite <- (app_nil_r (pcs ++ ns));
              apply apart_sym;
            apply apart_extend, module_apart_packages).
      cbn [tree validated] in Hc'. rewrite Hsrc in Hc'. injection Hc' as <-.
      exists cfg. split; [|reflexivity].
      rewrite app_assoc. apply F; [now left | exact Hsrc].
  - (* no marker: skipped *)
    rewrite (phase1_step_unmarked cwd name w cfg Ec Hm) in Hrun.
    injection Hrun as <-. split; [assumption|].
    split; [intros q _; reflexivity|].
    intros cfg' Hc' Hm'. rewrite Hsrc in Hc'. injection Hc' as <-. congruence.
Qed.

(** ** The loop of phase 1 *)

Lemma apart_packages_source ns r :
  apart pcs (modulePath cs ns ++ r).
Proof.
  apply apart_sym.
  generalize (apart_extend _ _ r [] (module_apart_packages cs ns [])).
  now rewrite !app_nil_r.
Qed.

Lemma same_outside_packages ns w w' :
  same_outside (pcs ++ ns) w w' -> same_outside pcs w w'.
Proof.
  intros H q Hq. apply H. rewrite <- (app_nil_r q). now apply apart_extend.
Qed.

Lemma up_to_date_frame t t' ns :
  Fs.lookup t' (modulePath cs ns ++ ["package.json"])
  = Fs.lookup t (modulePath cs ns ++ ["package.json"]) ->
  Fs.lookup t' (pcs ++ ns ++ ["package.json"])
  = Fs.lookup t (pcs ++ ns ++ ["package.json"]) ->
  up_to_date cs t ns -> up_to_date cs t' ns.
Proof.
  intros Hs Ht H cfg Hc Hm. rewrite Hs in Hc.
  destruct (H cfg Hc Hm) as (tcfg & H1 & H2).
  exists tcfg. split; [|assumption]. fold pcs. now rewrite Ht.
Qed.

Lemma phase1_loop_done names :
  forall w w',
    (forall name, In name names -> exists ns ms, package_name name ns ms) ->
    Fs.wf (tree w) = true ->
    for_of names (phase1_step cwd) w = Done tt w' ->
    Fs.wf (tree w') = true
    /\ same_outside pcs w w'
    /\ (forall name ns ms, In name names -> package_name name ns ms ->
          up_to_date cs (tree w') ns
          /\ exists cfg, Fs.lookup (tree w) (modulePath cs ns ++ ["package.json"])
                         = Some (File (Json cfg)))
    /\ (forall name ns ms, package_name name ns ms ->
          up_to_date cs (tree w) ns -> up_to_date cs (tree w') ns).
Proof.
  induction names as [|name names IH]; intros w w' Hnames Hw Hrun.
  - injection Hrun as <-. split; [assumption|].
    split; [intros q _; reflexivity|]. split; [intros ? ? ? []|]. auto.
  - cbn [for_of] in Hrun. unfold bind in Hrun.
    destruct (phase1_step cwd name w) as [[] w1|] eqn:E1; [|discriminate].
    destruct (Hnames name (or_introl eq_refl)) as (ns & ms & Hn).
    destruct (phase1_step_done name ns ms w w1 Hn Hw E1) as (Hsrc & Hw1 & O1 & U1).
    destruct (IH w1 w') as (Hw' & O' & U' & P');
      [intros; apply Hnames; now right | assumption | assumption |].
    assert (O1p : same_outside pcs w w1) by (eapply same_outside_packages; eauto).
    (* what a round keeps up to date *)
    assert (K1 : forall name0 ns0 ms0, package_name name0 ns0 ms0 ->
                 up_to_date cs (tree w) ns0 -> up_to_date cs (tree w1) ns0).
    { intros name0 ns0 ms0 Hn0 H0.
      destruct (String.eqb_spec name name0) as [<-|Hne].
      - destruct (package_name_unique _ _ _ _ _ Hn Hn0) as [<- _]. exact U1.
      - eapply up_to_date_frame; [| |exact H0].
        + apply O1p. apply apart_packages_source.
        + apply O1. apply apart_app_same.
          rewrite <- (app_nil_r ns). apply apart_extend.
          eapply package_names_apart; eassumption. }
    split; [assumption|]. split; [|split].
    + intros q Hq. now rewrite O', O1p.
    + intros name0 ns0 ms0 [<-|Hin] Hn0.
      * destruct (package_name_unique _ _ _ _ _ Hn Hn0) as [<- _].
        split; [|assumption]. eapply P'; eassumption.
      * destruct (U' name0 ns0 ms0 Hin Hn0) as [U0 (cfg & Hc)].
        split; [assumption|]. exists cfg.
        rewrite <- Hc. symmetry. apply O1p. apply apart_packages_source.
    + intros name0 ns0 ms0 Hn0 H0. eapply P'; [eassumption|]. eapply K1; eauto.
Qed.

(** ** What the removals of phases 2 and 3 keep *)

Lemma keeps_refl t : keeps cs t t.
Proof. unfold keeps. eauto 10. Qed.

Lemma keeps_trans t1 t2 t3 : keeps cs t1 t2 -> keeps cs t2 t3 -> keeps cs t1 t3.
Proof.
  intros (W1 & K1 & F1 & D1) (W2 & K2 & F2 & D2).
  split; [auto|]. split; [|split].
  - intros q x H. destruct (K2 _ _ H) as (y & Hy & Ey).
    destruct (K1 _ _ Hy) as (z & Hz & Ez). exists z. split; [assumption|congruence].
  - intros q Hq. now rewrite F2, F1.
  - intros es H. destruct (D1 _ H) as [es' H']. eauto.
Qed.

Lemma keeps_remove r t : r <> [] -> keeps cs t (Fs.remove (pcs ++ r) t).
Proof.
  intros Hr. split; [|split; [|split]].
  - intros Hw. now apply wf_remove.
  - intros q x. apply lookup_remove_kind.
  - intros q Hq. apply lookup_remove_apart.
    rewrite <- (app_nil_r q). now apply apart_extend.
  - intros es H. apply (remove_keeps_dir _ _ _ es H).
    unfold pcs. rewrite <- (app_nil_r (packagesPath cs)) at 2.
    rewrite is_prefix_app_same.
    destruct r; [contradiction | reflexivity].
Qed.

Lemma keeps_dropped ns ms t :
  ns <> [] -> ms <> [] -> keeps cs t (dropped cs ns ms t).
Proof.
  intros Hn Hm. unfold dropped.
  eapply keeps_trans; [apply (keeps_remove ns) | apply (keeps_remove ms)];
    assumption.
Qed.

Lemma keeps_none t t' q :
  keeps cs t t' -> Fs.lookup t q = None -> Fs.lookup t' q = None.
Proof.
  intros (_ & K & _) H. destruct (Fs.lookup t' q) as [x|] eqn:E; [|reflexivity].
  destruct (K _ _ E) as (y & Hy & _). congruence.
Qed.

Lemma keeps_dir t t' q es :
  keeps cs t t' -> Fs.lookup t' q = Some (Dir es) ->
  exists es0, Fs.lookup t q = Some (Dir es0).
Proof.
  intros (_ & K & _) H. destruct (K _ _ H) as ([d|es0] & Hy & E);
    [discriminate | eauto].
Qed.

Lemma package_name_not_nil name ns ms :
  package_name name ns ms -> ns <> [] /\ ms <> [].
Proof. destruct 1; split; discriminate. Qed.

Lemma sidecar_not_metadata name ns ms name0 ns0 ms0 :
  package_name name ns ms -> package_name name0 ns0 ms0 ->
  (pcs ++ ms)%list <> (pcs ++ ns0 ++ ["package.json"])%list.
Proof.
  intros H H0 E. apply app_inv_head in E.
  destruct H as [x Hx Hs|s c Hs Hat Hc], H0 as [x0 Hx0 Hs0|s0 c0 Hs0 Hat0 Hc0];
    try discriminate.
  injection E as -> _. congruence.
Qed.

(** ** Phase 2, when it returned *)

Lemma phase2_step_done name ns ms w w1 :
  package_name name ns ms ->
  phase2_step cwd name w = Done tt w1 ->
  tree w1 = dropped cs ns ms (tree w)
  /\ not_a_directory (tree w) (pcs ++ ms).
Proof.
  intros Hn. unfold cwd. rewrite (phase2_step_run cs cs_valid name ns ms w Hn).
  unfold not_a_directory, pcs.
  destruct (Fs.lookup (tree w) (packagesPath cs ++ ms)) as [[d|es]|];
    intros H; [| discriminate |]; injection H as <-;
    (split; [reflexivity | discriminate]).
Qed.

Lemma dropped_keeps_file ns ms t q d :
  Fs.lookup t q = Some (File d) ->
  (pcs ++ ns)%list <> q -> (pcs ++ ms)%list <> q ->
  (Fs.is_prefix (pcs ++ ns) q = true ->
   forall e es, Fs.lookup t (pcs ++ ns) <> Some (Dir (e :: es))) ->
  not_a_directory t (pcs ++ ms) ->
  Fs.lookup (dropped cs ns ms t) q = Some (File d).
Proof.
  intros Hq Hn Hm Hp Hd. unfold dropped.
  apply remove_keeps_file; [apply remove_keeps_file| |]; try assumption.
  intros _ e es H. apply lookup_remove_kind in H as ([x|es0] & Hy & E);
    [discriminate|]. exact (Hd es0 Hy).
Qed.

Lemma phase2_loop_done names :
  forall w w',
    (forall name, In name names -> exists ns ms, package_name name ns ms) ->
    for_of names (phase2_step cwd) w = Done tt w' ->
    keeps cs (tree w) (tree w')
    /\ (forall name ns ms, In name names -> package_name name ns ms ->
          Fs.lookup (tree w') (pcs ++ ns) = None)
    /\ (forall name ns ms d, package_name name ns ms -> ~ In name names ->
          Fs.lookup (tree w) (pcs ++ ns ++ ["package.json"]) = Some (File d) ->
          Fs.lookup (tree w') (pcs ++ ns ++ ["package.json"]) = Some (File d)).
Proof.
  induction names as [|name names IH]; intros w w' Hnames Hrun.
  - injection Hrun as <-. split; [apply keeps_refl|].
    split; [intros ? ? ? []|auto].
  - cbn [for_of] in Hrun. unfold bind in Hrun.
    destruct (phase2_step cwd name w) as [[] w1|] eqn:E1; [|discriminate].
    destruct (Hnames name (or_introl eq_refl)) as (ns & ms & Hn).
    destruct (phase2_step_done name ns ms w w1 Hn E1) as [T1 Hd].
    destruct (package_name_not_nil _ _ _ Hn) as [Nn Nm].
    destruct (IH w1 w') as (K & G & F);
      [intros; apply Hnames; now right | assumption |].
    split; [|split].
    + eapply keeps_trans; [|exact K]. rewrite T1. now apply keeps_dropped.
    + intros name0 ns0 ms0 [<-|Hin] Hn0; [|eauto].
      destruct (package_name_unique _ _ _ _ _ Hn Hn0) as [<- _].
      apply (keeps_none _ _ _ K). rewrite T1. now apply dropped_gone.
    + intros name0 ns0 ms0 d Hn0 Hnot Hq.
      apply (F name0 ns0 ms0 d Hn0); [intros Hin; apply Hnot; now right|].
      assert (Hne : name <> name0) by (intros ->; apply Hnot; now left).
      assert (P : Fs.is_prefix (pcs ++ ns) (pcs ++ ns0 ++ ["package.json"]) = false).
      { rewrite is_prefix_app_same.
        rewrite <- (app_nil_r ns).
        apply (apart_extend ns ns0 [] ["package.json"]).
        eapply package_names_apart; eassumption. }
      rewrite T1. apply dropped_keeps_file; try assumption.
      * intros E. rewrite E, is_prefix_refl in P. discriminate.
      * eapply sidecar_not_metadata; eassumption.
      * rewrite P. discriminate.
Qed.

(** ** Phase 3, when it returned *)

Lemma phase3_step_done s w w1 :
  Path.valid_name s = true ->
  phase3_step cwd s w = Done tt w1 ->
  (tree w1 = tree w /\ Fs.lookup (tree w) (pcs ++ [s]) <> Some (Dir []))
  \/ (tree w1 = dropped cs [s] [s ++ ".meta"] (tree w)
      /\ (forall e d, Fs.lookup (tree w) (pcs ++ [s]) <> Some (Dir (e :: d)))
      /\ not_a_directory (tree w) (pcs ++ [s ++ ".meta"])).
Proof.
  intros Hs.
  assert (Vs : valid_names (pcs ++ [s]))
    by (apply valid_target; now repeat constructor).
  assert (Vm : valid_names (pcs ++ [s ++ ".meta"]))
    by (apply valid_target; repeat constructor; now apply valid_name_meta).
  assert (A : Fs.lookup (Fs.remove (pcs ++ [s]) (tree w)) (pcs ++ [s ++ ".meta"])
              = Fs.lookup (tree w) (pcs ++ [s ++ ".meta"])).
  { apply lookup_remove_apart. apply apart_app_same. apply scope_apart_sidecar. }
  assert (R : forall w0,
             tree w0 = tree w ->
             (removeSync (Path.absolute (pcs ++ [s])) ;;
              ex <- existsSync (Path.absolute (pcs ++ [s ++ ".meta"])) ;;
              if ex then unlinkSync (Path.absolute (pcs ++ [s ++ ".meta"]))
              else ret tt) w0 = Done tt w1 ->
             tree w1 = dropped cs [s] [s ++ ".meta"] (tree w)
             /\ not_a_directory (tree w) (pcs ++ [s ++ ".meta"])).
  { intros w0 Hw0. unfold bind at 1.
    rewrite removeSync_absolute by (assumption || now apply packages_not_nil).
    rewrite (unlink_sidecar_run (pcs ++ [s ++ ".meta"]) _ Vm).
    cbn [tree log]. rewrite Hw0, A. unfold not_a_directory.
    destruct (Fs.lookup (tree w) (pcs ++ [s ++ ".meta"])) as [[f|es]|];
      intros H; [| discriminate |]; injection H as <-;
      (split; [reflexivity | discriminate]). }
  unfold phase3_step.
  fold (assetsTargetPath cwd s). fold (assetsTargetPath cwd (s ++ ".meta")).
  unfold cwd.
  rewrite (assetsTargetPath_absolute cs cs_valid s [s]) by now apply relpath_name.
  rewrite (assetsTargetPath_absolute cs cs_valid (s ++ ".meta") [s ++ ".meta"])
    by (apply relpath_name; now apply valid_name_meta).
  fold pcs. unfold bind at 1. rewrite validate_run.
  unfold pcs at 1. rewrite safe_below_packages. fold pcs.
  unfold bind at 1. rewrite isEmptySync_run.
  rewrite at_path_validated, at_path_absolute by assumption.
  destruct (Fs.lookup (tree w) (pcs ++ [s])) as [[[c|str]|[|e d]]|] eqn:E.
  - intros [= <-]. left. split; [reflexivity | discriminate].
  - destruct (str =? "")%string.
    + intros H. apply R in H; [|reflexivity]. right.
      destruct H. repeat split; try assumption. discriminate.
    + intros [= <-]. left. split; [reflexivity | discriminate].
  - intros H. apply R in H; [|reflexivity]. right.
    destruct H. repeat split; try assumption. discriminate.
  - intros [= <-]. left. split; [reflexivity | discriminate].
  - intros H. apply R in H; [|reflexivity]. right.
    destruct H. repeat split; try assumption. discriminate.
Qed.

Lemma phase3_loop_done scopes :
  forall w w',
    (forall s, In s scopes -> Path.valid_name s = true) ->
    for_of scopes (phase3_step cwd) w = Done tt w' ->
    keeps cs (tree w) (tree w')
    /\ (forall s e d, Path.valid_name s = true ->
          Fs.lookup (tree w) (pcs ++ [s]) = Some (Dir (e :: d)) ->
          Fs.lookup (tree w') (pcs ++ [s]) = Some (Dir (e :: d)))
    /\ (forall s, In s scopes -> Fs.lookup (tree w') (pcs ++ [s]) <> Some (Dir []))
    /\ (forall q d, Fs.lookup (tree w) q = Some (File d) ->
          (forall s, q <> (pcs ++ [s])%list) ->
          Fs.lookup (tree w') q = Some (File d)).
Proof.
  induction scopes as [|s0 scopes IH]; intros w w' Hv Hrun.
  - injection Hrun as <-. split; [apply keeps_refl|].
    split; [auto|]. split; [intros ? []|auto].
  - cbn [for_of] in Hrun. unfold bind in Hrun.
    destruct (phase3_step cwd s0 w) as [[] w1|] eqn:E1; [|discriminate].
    destruct (IH w1 w') as (K & N & S & F);
      [intros; apply Hv; now right | assumption |].
    destruct (phase3_step_done s0 w w1 (Hv s0 (or_introl eq_refl)) E1)
      as [[T1 H0]|(T1 & H0 & Hd)].
    + rewrite T1 in *. split; [assumption|]. split; [assumption|].
      split; [|assumption].
      intros s [<-|Hin]; [|auto]. intros H.
      destruct (keeps_dir _ _ _ _ K H) as [[|e d] H1]; [contradiction|].
      rewrite (N s0 e d (Hv s0 (or_introl eq_refl)) H1) in H. discriminate.
    + split; [|split; [|split]].
      * eapply keeps_trans; [|exact K]. rewrite T1.
        apply keeps_dropped; discriminate.
      * intros s e d Hs H. apply N; [assumption|]. rewrite T1. unfold dropped.
        assert (Hne : s0 <> s) by (intros ->; exact (H0 e d H)).
        assert (A : Fs.lookup (Fs.remove (pcs ++ [s0]) (tree w)) (pcs ++ [s])
                    = Some (Dir (e :: d))).
        { rewrite lookup_remove_apart; [assumption|].
          apply apart_app_same. now apply apart_heads. }
        destruct (String.eqb_spec (s0 ++ ".meta") s) as [<-|Hm].
        -- exfalso. exact (Hd _ H).
        -- rewrite lookup_remove_apart; [assumption|].
           apply apart_app_same. now apply apart_heads.
      * intros s [<-|Hin]; [|auto]. intros H.
        assert (G : Fs.lookup (tree w1) (pcs ++ [s0]) = None)
          by (rewrite T1; now apply dropped_gone).
        rewrite (keeps_none _ _ _ K G) in H. discriminate.
      * intros q d Hq Hne. apply F; [|assumption]. rewrite T1.
        apply dropped_keeps_file; try assumption.
        -- intros E. exact (Hne s0 (eq_sym E)).
        -- intros E. exact (Hne _ (eq_sym E)).
        -- intros _. exact H0.
Qed.

(** ** The script, phase after phase *)

Lemma sync_unfold w cfg :
  Fs.lookup (tree w) (cs ++ ["package.json"]) = Some (File (Json cfg)) ->
  sync cwd w
  = (for_of (declared_names cfg) (phase1_step cwd) ;;
     phase2 cwd (declared_names cfg) ;;
     phase3 cwd) w.
Proof.
  intros H. unfold sync, bind at 1, readJsonSync, cwd.
  rewrite (projectConfigPath_absolute cs cs_valid).
  rewrite at_path_absolute, H; [reflexivity|].
  apply Forall_app. split; [assumption | now repeat constructor].
Qed.

Lemma sync_done_manifest w w' :
  sync cwd w = Done tt w' ->
  exists cfg, Fs.lookup (tree w) (cs ++ ["package.json"]) = Some (File (Json cfg)).
Proof.
  unfold sync, bind at 1, readJsonSync, cwd.
  rewrite (projectConfigPath_absolute cs cs_valid).
  rewrite at_path_absolute
    by (apply Forall_app; split; [assumption | now repeat constructor]).
  destruct (Fs.lookup (tree w) (cs ++ ["package.json"])) as [[[c|]|]|];
    try discriminate. eauto.
Qed.

Lemma getDirectories_done l w ds w' :
  valid_names l -> Fs.wf (tree w) = true ->
  getDirectories (Path.absolute l) w = Done ds w' ->
  exists es, Fs.lookup (tree w) l = Some (Dir es).
Proof.
  intros Hl Hw. unfold getDirectories, bind at 1, readdirSync.
  rewrite at_path_absolute by assumption.
  destruct (Fs.lookup (tree w) l) as [[d|es]|]; try discriminate. eauto.
Qed.

Lemma getProjectPackageListing_done w L w' :
  Fs.wf (tree w) = true ->
  getProjectPackageListing cwd w = Done L w' ->
  exists es, Fs.lookup (tree w) pcs = Some (Dir es)
             /\ L = installed_entries es /\ w' = w.
Proof.
  intros Hw H.
  assert (exists es, Fs.lookup (tree w) pcs = Some (Dir es)) as [es He].
  { revert H. unfold getProjectPackageListing, bind at 1, cwd.
    rewrite (projectPackagesDir_absolute cs cs_valid).
    destruct (getDirectories _ w) as [ds w0|] eqn:E; [|discriminate].
    intros _. eapply getDirectories_done; [| |exact E]; [|assumption].
    now apply packagesPath_valid. }
  exists es. split; [assumption|].
  unfold cwd in H.
  rewrite (getProjectPackageListing_run cs cs_valid w es Hw He) in H.
  now injection H as <- <-.
Qed.

Lemma getProjectPackageScopes_done w S w' :
  Fs.wf (tree w) = true ->
  getProjectPackageScopes cwd w = Done S w' ->
  exists es, Fs.lookup (tree w) pcs = Some (Dir es)
             /\ S = scope_directories es /\ w' = w.
Proof.
  intros Hw H.
  assert (exists es, Fs.lookup (tree w) pcs = Some (Dir es)) as [es He].
  { revert H. unfold getProjectPackageScopes, bind at 1, cwd.
    rewrite (projectPackagesDir_absolute cs cs_valid).
    destruct (getDirectories _ w) as [ds w0|] eqn:E; [|discriminate].
    intros _. eapply getDirectories_done; [| |exact E]; [|assumption].
    now apply packagesPath_valid. }
  exists es. split; [assumption|].
  unfold cwd in H.
  rewrite (getProjectPackageScopes_run cs cs_valid w es Hw He) in H.
  now injection H as <- <-.
Qed.

Lemma metadata_not_scope ns s :
  ns <> [] -> (pcs ++ ns ++ ["package.json"])%list <> (pcs ++ [s])%list.
Proof.
  intros Hn E. apply app_inv_head in E.
  destruct ns as [|k [|k' ns]]; [contradiction | discriminate | discriminate].
Qed.

(** ** The state a run that returned leaves behind *)

Lemma first_run_settles w w' cfg :
  Fs.wf (tree w) = true ->
  Fs.lookup (tree w) (cs ++ ["package.json"]) = Some (File (Json cfg)) ->
  (forall name, In name (declared_names cfg) ->
     exists ns ms, package_name name ns ms) ->
  sync cwd w = Done tt w' ->
  Fs.wf (tree w') = true
  /\ (forall q, apart pcs q -> Fs.lookup (tree w') q = Fs.lookup (tree w) q)
  /\ (forall name ns ms, In name (declared_names cfg) -> package_name name ns ms ->
        (exists c, Fs.lookup (tree w) (modulePath cs ns ++ ["package.json"])
                   = Some (File (Json c)))
        /\ up_to_date cs (tree w') ns)
  /\ exists es,
       Fs.lookup (tree w') pcs = Some (Dir es)
       /\ (forall name, In name (installed_entries es) ->
             In name (declared_names cfg))
       /\ (forall s, In s (scope_directories es) ->
             Fs.lookup (tree w') (pcs ++ [s]) <> Some (Dir [])).
Proof.
  intros Hw Hcfg Hnames. rewrite (sync_unfold w cfg Hcfg).
  set (D := declared_names cfg) in *.
  unfold bind at 1.
  destruct (for_of D (phase1_step cwd) w) as [[] w1|] eqn:E1; [|discriminate].
  destruct (phase1_loop_done D w w1 Hnames Hw E1) as (Hw1 & O1 & U1 & _).
  unfold bind at 1. unfold phase2 at 1, bind at 1.
  destruct (getProjectPackageListing cwd w1) as [L w1'|] eqn:EL; [|discriminate].
  destruct (getProjectPackageListing_done _ _ _ Hw1 EL) as (es1 & He1 & -> & ->).
  destruct (for_of (redundant D (installed_entries es1)) (phase2_step cwd) w1)
    as [[] w2|] eqn:E2; [|discriminate].
  assert (Hes1 : Fs.wf (Dir es1) = true) by (eapply wf_lookup; eassumption).
  destruct (phase2_loop_done (redundant D (installed_entries es1)) w1 w2) as (K2 & G2 & F2); [|exact E2|].
  { intros name Hin. apply in_redundant in Hin as [Hin _].
    apply listed_package_name in Hin as (ns & ms & d & Hn & _); eauto. }
  assert (Hw2 : Fs.wf (tree w2) = true) by now apply K2.
  unfold phase3, bind at 1.
  destruct (getProjectPackageScopes cwd w2) as [S w2'|] eqn:ES; [|discriminate].
  destruct (getProjectPackageScopes_done _ _ _ Hw2 ES) as (es2 & He2 & -> & ->).
  assert (Hes2 : Fs.wf (Dir es2) = true) by (eapply wf_lookup; eassumption).
  intros E3.
  destruct (phase3_loop_done (scope_directories es2) w2 w') as (K3 & N3 & S3 & F3); [|exact E3|].
  { intros s Hs. apply in_scope_directories in Hs as [_ [d Hd]];
      [|now apply wf_dir in Hes2].
    now apply (wf_entry _ _ _ Hes2 Hd). }
  assert (Hw' : Fs.wf (tree w') = true) by now apply K3.
  split; [assumption|]. split; [|split].
  - intros q Hq. destruct K3 as (_ & _ & F3' & _), K2 as (_ & _ & F2' & _).
    now rewrite F3', F2', O1.
  - intros name ns ms Hin Hn.
    destruct (U1 name ns ms Hin Hn) as [U [c Hc]].
    split; [eauto|]. intros c0 Hc0 Hm.
    assert (Hsrc : Fs.lookup (tree w1) (modulePath cs ns ++ ["package.json"])
                   = Fs.lookup (tree w') (modulePath cs ns ++ ["package.json"])).
    { destruct K3 as (_ & _ & F3' & _), K2 as (_ & _ & F2' & _).
      rewrite F3', F2'; [reflexivity| |]; apply apart_packages_source. }
    rewrite <- Hsrc in Hc0.
    destruct (U c0 Hc0 Hm) as (tcfg & Ht & Hv).
    exists tcfg. split; [|assumption].
    apply F3; [|intros s; apply metadata_not_scope;
                now apply (package_name_not_nil _ _ _ Hn)].
    apply (F2 name ns ms); [assumption| |assumption].
    intros Hr. apply in_redundant in Hr as [_ Hr]. contradiction.
  - destruct K3 as (W3 & K3 & F3' & D3). destruct (D3 _ He2) as [es3 He3].
    fold pcs in He3.
    assert (Hes3 : Fs.wf (Dir es3) = true) by (eapply wf_lookup; eassumption).
    exists es3. split; [assumption|]. split.
    + intros name Hin.
      apply listed_package_name in Hin as (ns & ms & d & Hn & Hd); [|assumption].
      assert (H3 : Fs.lookup (tree w') (pcs ++ ns) = Some (Dir d))
        by now rewrite lookup_app, He3.
      destruct (K3 _ _ H3) as ([|d2] & H2 & E2'); [discriminate|].
      destruct (keeps_dir _ _ _ _ K2 H2) as [d1 H1].
      assert (Hl : In name (installed_entries es1)).
      { apply (package_name_listed es1 name ns ms d1 Hn).
        rewrite lookup_app, He1 in H1. exact H1. }
      destruct (in_dec string_dec name D) as [|Hnot]; [assumption|].
      exfalso.
      assert (Hr : In name (redundant D (installed_entries es1)))
        by (apply in_redundant; now split).
      rewrite (G2 name ns ms Hr Hn) in H2. discriminate.
    + intros s Hs.
      apply in_scope_directories in Hs as [Hat [d Hd]];
        [|now apply wf_dir in Hes3].
      assert (H3 : Fs.lookup (tree w') (pcs ++ [s]) = Some (Dir d)).
      { rewrite lookup_app, He3. simpl. now rewrite Hd. }
      destruct (K3 _ _ H3) as ([|d2] & H2 & E2'); [discriminate|].
      apply S3. apply in_scope_directories; [now apply wf_dir in Hes2|].
      split; [assumption|]. exists d2.
      rewrite lookup_app, He2 in H2. simpl in H2.
      destruct (Fs.entry s es2); [now injection H2 as -> | discriminate].
Qed.

(** ** A run on a settled tree *)

Lemma phase1_loop_quiet t names :
  (forall name, In name names ->
     exists ns ms, package_name name ns ms
       /\ (exists c, Fs.lookup t (modulePath cs ns ++ ["package.json"])
                     = Some (File (Json c)))
       /\ up_to_date cs t ns) ->
  forall w, tree w = t ->
    exists l, for_of names (phase1_step cwd) w = Done tt (mkWorld t l)
              /\ forall e, In e l -> In e (log w) \/ harmless e.
Proof.
  induction names as [|name names IH]; intros H w Hw.
  - exists (log w). split; [destruct w; simpl in *; subst; reflexivity | auto].
  - destruct (H name (or_introl eq_refl)) as (ns & ms & Hn & [c Hc] & U).
    destruct (package_name_relpath _ _ _ Hn) as [Hr _].
    destruct (package_name_valid _ _ _ Hn) as (Vn & _ & _).
    assert (Hsrc : at_path w (metadataPath (dependencyDir cwd name))
                   = Some (File (Json c))).
    { rewrite (source_metadata_path name ns Hr), at_path_absolute, Hw;
        [assumption|]. now apply valid_source_metadata. }
    assert (exists w1, phase1_step cwd name w = Done tt w1 /\ tree w1 = t
              /\ forall e, In e (log w1) -> In e (log w) \/ harmless e)
      as (w1 & R1 & T1 & L1).
    { destruct (has_marker c) eqn:Hm.
      - destruct (U c Hc Hm) as (tcfg & Ht & Hv).
        exists (validated (assetsTargetPath cwd name) w). split; [|split].
        + rewrite (phase1_step_same_version cwd name w c tcfg Hsrc Hm);
            [| |assumption].
          * unfold cwd.
            rewrite (assetsTargetPath_absolute cs cs_valid name ns Hr),
              safe_below_packages.
            reflexivity.
          * rewrite (target_metadata_path name ns Hr), at_path_absolute, Hw;
              [assumption|]. now apply valid_target_metadata.
        + assumption.
        + intros e [<-|He]; [right; exact I | now left].
      - exists w. split; [|split]; [|assumption|auto].
        now apply (phase1_step_unmarked cwd name w c). }
    destruct (IH (fun n Hin => H n (or_intror Hin)) w1 T1) as (l & R & L).
    exists l. split.
    + cbn [for_of]. unfold bind. now rewrite R1.
    + intros e He. destruct (L e He) as [Hl|Hh]; [now apply L1 | now right].
Qed.

Lemma settled_run_quiet w cfg es :
  Fs.wf (tree w) = true ->
  Fs.lookup (tree w) (cs ++ ["package.json"]) = Some (File (Json cfg)) ->
  (forall name, In name (declared_names cfg) ->
     exists ns ms, package_name name ns ms
       /\ (exists c, Fs.lookup (tree w) (modulePath cs ns ++ ["package.json"])
                     = Some (File (Json c)))
       /\ up_to_date cs (tree w) ns) ->
  Fs.lookup (tree w) pcs = Some (Dir es) ->
  (forall name, In name (installed_entries es) -> In name (declared_names cfg)) ->
  (forall s, In s (scope_directories es) ->
     Fs.lookup (tree w) (pcs ++ [s]) <> Some (Dir [])) ->
  exists l, sync cwd w = Done tt (mkWorld (tree w) l)
            /\ forall e, In e l -> In e (log w) \/ harmless e.
Proof.
  intros Hw Hcfg Hd He Hl Hs. rewrite (sync_unfold w cfg Hcfg).
  destruct (phase1_loop_quiet (tree w) _ Hd w eq_refl) as (l1 & R1 & L1).
  assert (Hes : Fs.wf (Dir es) = true) by (eapply wf_lookup; eassumption).
  pose proof Hes as Hes'. apply wf_dir in Hes' as (Hnd & _ & _).
  unfold bind at 1. rewrite R1. unfold bind at 1. unfold phase2, bind at 1.
  unfold cwd at 1.
  rewrite (getProjectPackageListing_run cs cs_valid (mkWorld (tree w) l1) es Hw He).
  assert (E : redundant (declared_names cfg) (installed_entries es) = []).
  { destruct (redundant _ _) as [|x r] eqn:E; [reflexivity|].
    assert (Hx : In x (redundant (declared_names cfg) (installed_entries es)))
      by (rewrite E; now left).
    apply in_redundant in Hx as [H1 H2]. exfalso. auto. }
  rewrite E. cbn [for_of]. unfold ret. unfold phase3, bind at 1.
  unfold cwd at 1.
  rewrite (getProjectPackageScopes_run cs cs_valid (mkWorld (tree w) l1) es Hw He).
  destruct (phase3_loop cs cs_valid (scope_directories es)
              (scope_directories_NoDup es Hnd) (mkWorld (tree w) l1))
    as (w' & R3 & _ & _ & _ & _ & _ & Q).
  { intros s Hin. apply in_scope_directories in Hin as [_ [d Hd']]; [|assumption].
    split; [now apply (wf_entry _ _ _ Hes Hd')|]. exists d.
    cbn [tree]. fold pcs. rewrite lookup_app, He. simpl. now rewrite Hd'. }
  { intros s Hin H0. exfalso. exact (Hs s Hin H0). }
  destruct Q as [T3 L3]; [exact Hs|].
  exists (log w'). split.
  - fold cwd in R3. rewrite R3. destruct w'; simpl in *; subst. reflexivity.
  - intros e He'. destruct (L3 e He') as [Hin|Hh].
    + simpl in Hin. destruct (L1 e Hin); auto.
    + right. destruct e; simpl in *; auto.
Qed.

End FirstRun.

(* ================================================================== *)
(** * C9: a second run changes nothing *)
(* ================================================================== *)

(** A dependency whose name is no package name undoes what the run did
    for another one. The manifest declares [alpha] and then the empty
    name, which is read from [node_modules] itself and has the packages
    directory for its destination. The first run installs [alpha] and
    then clears the packages directory for the second dependency, so it
    returns with no [alpha] installed; the second run, manifest and
    sources unchanged, returns as well, having cleared and copied the
    destination of [alpha] again: its tree is not the tree of the first
    run. *)
Lemma C9_second_run_installs_again :
  Fs.wf Examples.nameless_project = true
  /\ Fs.lookup Examples.nameless_project (["proj"] ++ ["package.json"])
     = Some (File (Json (mkConfig (Some "1.0.0") None
                           (Some [("alpha", "^1.0.0"); ("", "^1.0.0")]))))
  /\ exists t1 l1 t2 l2,
       run (Path.absolute ["proj"]) Examples.nameless_project
       = Done tt (mkWorld t1 l1)
       /\ run (Path.absolute ["proj"]) t1 = Done tt (mkWorld t2 l2)
       /\ Fs.lookup t1 Examples.alpha_to = None
       /\ Fs.lookup t2 Examples.alpha_to <> None
       /\ In (EmptyDir "/proj/Assets/Plugins/Packages/alpha") l2
       /\ In (Copy "/proj/node_modules/alpha/assets"
                   "/proj/Assets/Plugins/Packages/alpha") l2
       /\ ~ (forall e, In e l2 -> harmless e).
Proof.
  split; [vm_compute; reflexivity|]. split; [vm_compute; reflexivity|].
  exists (tree (Examples.after_run Examples.nameless_project)),
         (log (Examples.after_run Examples.nameless_project)),
         (tree (Examples.after_run
                  (tree (Examples.after_run Examples.nameless_project)))),
         (log (Examples.after_run
                 (tree (Examples.after_run Examples.nameless_project)))).
  split; [vm_compute; reflexivity|]. split; [vm_compute; reflexivity|].
  split; [vm_compute; reflexivity|]. split; [vm_compute; discriminate|].
  split; [vm_compute; tauto|]. split; [vm_compute; tauto|].
  intros H.
  apply (H (EmptyDir "/proj/Assets/Plugins/Packages/alpha")).
  vm_compute. tauto.
Qed.

(** C9, amended: take a project rooted at the absolute path of
    components [cs], a well-formed tree whose manifest declares packages
    under plain or scoped names only, and a run of the three phases that
    returned, leaving the tree [t1]. Then [t1] is settled - every
    declared package with the marker passes the version gate, no
    installed package is redundant, no scope directory is empty - and a
    second run on [t1], manifest and sources being as the first run left
    them, returns with the very tree [t1], having recorded guard calls
    and emptiness tests only: no copy, no clearing, no removal. *)
Theorem C9_second_run_changes_nothing
    (cs : list string) (cfg : config) (t t1 : node) (l1 : list event) :
  valid_names cs ->
  Fs.wf t = true ->
  Fs.lookup t (cs ++ ["package.json"]) = Some (File (Json cfg)) ->
  (forall name, In name (declared_names cfg) ->
     exists ns ms, package_name name ns ms) ->
  run (Path.absolute cs) t = Done tt (mkWorld t1 l1) ->
  settled cs cfg t1
  /\ exists l2,
       run (Path.absolute cs) t1 = Done tt (mkWorld t1 l2)
       /\ forall e, In e l2 -> harmless e.
Proof.
  intros Hcs Hw Hcfg Hnames Hrun. unfold run in *.
  destruct (first_run_settles cs Hcs (mkWorld t []) (mkWorld t1 l1) cfg
              Hw Hcfg Hnames Hrun) as (Hw1 & O & U & es & He & Hl & Hs).
  cbn [tree] in *.
  assert (Hcfg1 : Fs.lookup t1 (cs ++ ["package.json"]) = Some (File (Json cfg))).
  { rewrite O; [assumption|]. apply apart_sym.
    generalize (manifest_apart_packages cs []). now rewrite app_nil_r. }
  assert (Hsrc : forall ns r,
             Fs.lookup t1 (modulePath cs ns ++ r) = Fs.lookup t (modulePath cs ns ++ r)).
  { intros ns r. apply O. apply apart_sym.
    generalize (apart_extend _ _ r [] (module_apart_packages cs ns [])).
    now rewrite !app_nil_r. }
  split.
  - split; [assumption|]. split; [intros name ns ms Hin Hn; now apply (U name ns ms)|].
    exists es. split; [assumption|]. split; [|assumption].
    destruct (redundant _ _) as [|x r] eqn:E; [reflexivity|].
    assert (Hx : In x (redundant (declared_names cfg) (installed_entries es)))
      by (rewrite E; now left).
    apply in_redundant in Hx as [H1 H2]. exfalso. auto.
  - destruct (settled_run_quiet cs Hcs (mkWorld t1 []) cfg es Hw1 Hcfg1)
      as (l2 & R & L); try assumption.
    { intros name Hin. destruct (Hnames name Hin) as (ns & ms & Hn).
      exists ns, ms. split; [assumption|].
      destruct (U name ns ms Hin Hn) as [[c Hc] Hu].
      split; [|assumption]. exists c. cbn [tree]. now rewrite Hsrc. }
    exists l2. split; [exact R|].
    intros e He'. destruct (L e He') as [[]|]; assumption.
Qed.

Lemma C9_second_run_changes_nothing_witness :
  settled ["proj"] Examples.busy_manifest
    (tree (Examples.after_run Examples.busy_project))
  /\ exists l2,
       run (Path.absolute ["proj"]) (tree (Examples.after_run Examples.busy_project))
       = Done tt (mkWorld (tree (Examples.after_run Examples.busy_project)) l2)
       /\ forall e, In e l2 -> harmless e.
Proof.
  apply (C9_second_run_changes_nothing ["proj"] Examples.busy_manifest
           Examples.busy_project
           (tree (Examples.after_run Examples.busy_project))
           (log (Examples.after_run Examples.busy_project))).
  - repeat constructor.
  - vm_compute. reflexivity.
  - vm_compute. reflexivity.
  - intros name [<-|[<-|[]]].
    + exists ["alpha"], ["alpha" ++ ".meta"]. now apply plain_name.
    + exists ["lodash"], ["lodash" ++ ".meta"]. now apply plain_name.
  - vm_compute. reflexivity.
Defined.

(* ================================================================== *)
(** * Further properties: where a run reaches and where it stops *)
(* ================================================================== *)

Section Further.

Variable cs : list string.
Hypothesis cs_valid : valid_names cs.

Let cwd := Path.absolute cs.
Let pcs := packagesPath cs.

(** Phase 1 over packages none of which carries the marker. *)
Lemma phase1_loop_unmarked names w :
  (forall name, In name names ->
     exists ns ms c,
       package_name name ns ms
       /\ Fs.lookup (tree w) (modulePath cs ns ++ ["package.json"])
          = Some (File (Json c))
       /\ has_marker c = false) ->
  for_of names (phase1_step cwd) w = Done tt w.
Proof.
  induction names as [|name names IH]; intros H; [reflexivity|].
  cbn [for_of]. unfold bind.
  destruct (H name (or_introl eq_refl)) as (ns & ms & c & Hn & Hc & Hm).
  destruct (package_name_relpath _ _ _ Hn) as [Hr _].
  destruct (package_name_valid _ _ _ Hn) as (Vn & _ & _).
  rewrite (phase1_step_unmarked cwd name w c).
  - apply IH. intros; apply H; now right.
  - unfold cwd. rewrite (source_metadata_path cs cs_valid name ns Hr).
    rewrite at_path_absolute; [assumption|].
    now apply valid_source_metadata.
  - assumption.
Qed.

Lemma getDirectories_not_directory l w :
  valid_names l -> not_a_directory (tree w) l ->
  getDirectories (Path.absolute l) w
  = Thrown (IOError "readdir" (Path.absolute l)) (log w).
Proof.
  intros Hl Hd. unfold getDirectories, bind at 1, readdirSync.
  rewrite at_path_absolute by assumption.
  destruct (Fs.lookup (tree w) l) as [[d|es]|] eqn:E; try reflexivity.
  exfalso. exact (Hd es E).
Qed.

Lemma phase2_not_directory declared w :
  not_a_directory (tree w) pcs ->
  phase2 cwd declared w
  = Thrown (IOError "readdir" (Path.absolute pcs)) (log w).
Proof.
  intros Hd. unfold phase2, bind at 1, getProjectPackageListing, bind at 1.
  unfold cwd. rewrite (projectPackagesDir_absolute cs cs_valid).
  rewrite getDirectories_not_directory;
    [reflexivity | now apply packagesPath_valid | assumption].
Qed.

End Further.

(** X1: a run that returns has touched nothing but the packages
    directory. For a project rooted at the absolute path of components
    [cs], a well-formed tree and a manifest whose dependencies go by plain
    or scoped names, the tree a returning run leaves is well formed, and
    every path that neither lies inside the packages directory nor leads
    to it - the manifest, [node_modules], the rest of the project - leads
    to what it led to before. *)
Theorem X1_run_stays_inside_packages
    (cs : list string) (cfg : config) (t t1 : node) (l1 : list event) :
  valid_names cs ->
  Fs.wf t = true ->
  Fs.lookup t (cs ++ ["package.json"]) = Some (File (Json cfg)) ->
  (forall name, In name (declared_names cfg) ->
     exists ns ms, package_name name ns ms) ->
  run (Path.absolute cs) t = Done tt (mkWorld t1 l1) ->
  Fs.wf t1 = true
  /\ (forall q, apart (packagesPath cs) q -> Fs.lookup t1 q = Fs.lookup t q)
  /\ (forall ns r, Fs.lookup t1 (modulePath cs ns ++ r)
                   = Fs.lookup t (modulePath cs ns ++ r)).
Proof.
  intros Hcs Hw Hcfg Hnames Hrun. unfold run in Hrun.
  destruct (first_run_settles cs Hcs (mkWorld t []) (mkWorld t1 l1) cfg
              Hw Hcfg Hnames Hrun) as (Hw1 & O & _).
  cbn [tree] in *. split; [assumption|]. split; [assumption|].
  intros ns r. apply O. now apply apart_packages_source.
Qed.

Lemma X1_run_stays_inside_packages_witness :
  Fs.wf (tree (Examples.after_run Examples.busy_project)) = true
  /\ (forall q, apart (packagesPath ["proj"]) q ->
        Fs.lookup (tree (Examples.after_run Examples.busy_project)) q
        = Fs.lookup Examples.busy_project q)
  /\ (forall ns r,
        Fs.lookup (tree (Examples.after_run Examples.busy_project))
          (modulePath ["proj"] ns ++ r)
        = Fs.lookup Examples.busy_project (modulePath ["proj"] ns ++ r)).
Proof.
  apply (X1_run_stays_inside_packages ["proj"] Examples.busy_manifest
           Examples.busy_project
           (tree (Examples.after_run Examples.busy_project))
           (log (Examples.after_run Examples.busy_project))).
  - repeat constructor.
  - vm_compute. reflexivity.
  - vm_compute. reflexivity.
  - intros name [<-|[<-|[]]].
    + exists ["alpha"], ["alpha" ++ ".meta"]. now apply plain_name.
    + exists ["lodash"], ["lodash" ++ ".meta"]. now apply plain_name.
  - vm_compute. reflexivity.
Defined.

(** X2: every declared dependency has to be installed in
    [node_modules], marker or not. Take a project rooted at the absolute
    path of components [cs], a well-formed tree and a manifest whose
    dependencies go by plain or scoped names only. When the metadata
    file of one declared dependency cannot be read in [node_modules] as
    the run starts - it is missing, a directory, or no JSON - the run
    throws: it never returns. *)
Theorem X2_declared_dependency_must_be_readable
    (cs : list string) (cfg : config) (t : node)
    (name : string) (ns ms : list string) :
  valid_names cs ->
  Fs.wf t = true ->
  Fs.lookup t (cs ++ ["package.json"]) = Some (File (Json cfg)) ->
  (forall name, In name (declared_names cfg) ->
     exists ns ms, package_name name ns ms) ->
  In name (declared_names cfg) -> package_name name ns ms ->
  (forall c, Fs.lookup t (modulePath cs ns ++ ["package.json"])
             <> Some (File (Json c))) ->
  exists e l, run (Path.absolute cs) t = Thrown e l.
Proof.
  intros Hcs Hw Hcfg Hnames Hin Hn Hno. unfold run.
  destruct (sync (Path.absolute cs) (mkWorld t [])) as [[] w'|e l] eqn:E;
    [exfalso | eauto].
  destruct (first_run_settles cs Hcs (mkWorld t []) w' cfg Hw Hcfg Hnames E)
    as (_ & _ & U & _).
  destruct (U name ns ms Hin Hn) as [[c Hc] _]. exact (Hno c Hc).
Qed.

Lemma X2_declared_dependency_must_be_readable_witness :
  exists e l,
    run (Path.absolute ["proj"])
      (Examples.project (Examples.manifest [("alpha", "^1.0.0"); ("lodash", "^4.0.0")])
         [("alpha", Examples.alpha_source)] [])
    = Thrown e l.
Proof.
  apply (X2_declared_dependency_must_be_readable ["proj"] Examples.busy_manifest
           _ "lodash" ["lodash"] ["lodash" ++ ".meta"]).
  - repeat constructor.
  - vm_compute. reflexivity.
  - vm_compute. reflexivity.
  - intros name [<-|[<-|[]]].
    + exists ["alpha"], ["alpha" ++ ".meta"]. now apply plain_name.
    + exists ["lodash"], ["lodash" ++ ".meta"]. now apply plain_name.
  - vm_compute. auto.
  - now apply plain_name.
  - intros c. vm_compute. discriminate.
Defined.

(** X3: phase 2 lists the packages directory whether or not anything
    was installed. In a project none of whose declared dependencies
    carries the marker and whose packages directory is not there (or is
    no directory), the run throws the error of [readdirSync] on the
    packages directory, having recorded nothing. *)
Theorem X3_run_needs_packages_directory
    (cs : list string) (cfg : config) (t : node) :
  valid_names cs ->
  Fs.lookup t (cs ++ ["package.json"]) = Some (File (Json cfg)) ->
  (forall name, In name (declared_names cfg) ->
     exists ns ms c,
       package_name name ns ms
       /\ Fs.lookup t (modulePath cs ns ++ ["package.json"]) = Some (File (Json c))
       /\ has_marker c = false) ->
  not_a_directory t (packagesPath cs) ->
  run (Path.absolute cs) t
  = Thrown (IOError "readdir" (Path.absolute (packagesPath cs))) [].
Proof.
  intros Hcs Hcfg Hnames Hd. unfold run.
  rewrite (sync_unfold cs Hcs (mkWorld t []) cfg Hcfg).
  unfold bind at 1.
  rewrite (phase1_loop_unmarked cs Hcs (declared_names cfg) (mkWorld t []) Hnames).
  unfold bind at 1.
  now rewrite (phase2_not_directory cs Hcs (declared_names cfg) (mkWorld t []) Hd).
Qed.

Lemma X3_run_needs_packages_directory_witness :
  run (Path.absolute ["proj"])
    (Dir [("proj",
           Dir [("package.json", Examples.manifest [("lodash", "^4.0.0")]);
                ("node_modules",
                 Dir [("lodash",
                       Dir [("package.json", Examples.package "4.0.0" None)])])])])
  = Thrown (IOError "readdir" (Path.absolute (packagesPath ["proj"]))) [].
Proof.
  apply (X3_run_needs_packages_directory ["proj"]
           (mkConfig (Some "1.0.0") None (Some [("lodash", "^4.0.0")]))).
  - repeat constructor.
  - vm_compute. reflexivity.
  - intros name [<-|[]].
    exists ["lodash"], ["lodash" ++ ".meta"], (mkConfig (Some "4.0.0") None None).
    split; [now apply plain_name|]. split; vm_compute; reflexivity.
  - intros es. vm_compute. discriminate.
Defined.

(* ================================================================== *)
(** * Further properties: single rounds and helpers *)
(* ================================================================== *)

(** X4: installed metadata that cannot be read stops the round. For a
    declared package with the marker whose destination passes the guard:
    when something is at the path of the installed [package.json] that is
    not a regular file holding JSON - a directory, or a file with other
    contents - the round throws the error of [readJsonSync] right after
    the guard; nothing is cleared and nothing is copied, the package is
    not installed again. *)
Theorem X4_unreadable_installed_metadata
    (cwd name : string) (w : world) (cfg : config) (x : node) :
  at_path w (metadataPath (dependencyDir cwd name)) = Some (File (Json cfg)) ->
  has_marker cfg = true ->
  safe (assetsTargetPath cwd name) = true ->
  at_path w (metadataPath (assetsTargetPath cwd name)) = Some x ->
  (forall c, x <> File (Json c)) ->
  phase1_step cwd name w
  = Thrown (IOError "readJson" (metadataPath (assetsTargetPath cwd name)))
           (Validate (assetsTargetPath cwd name) :: log w).
Proof.
  intros Hc Hm Hs Ht Hx. rewrite (phase1_step_marked _ _ _ _ Hc Hm).
  unfold bind at 1. rewrite validate_run, Hs.
  unfold bind, existsSync, readJsonSync, ret.
  rewrite !at_path_validated, Ht. cbn.
  rewrite !at_path_validated, Ht.
  destruct x as [[c|s]|es]; try reflexivity. exfalso. now apply (Hx c).
Qed.

Lemma X4_unreadable_installed_metadata_witness :
  phase1_step "/proj" "alpha"
    (mkWorld (Examples.alpha_project
                [("alpha", Dir [("package.json", Examples.text "{ broken")])]) [])
  = Thrown (IOError "readJson" (metadataPath (assetsTargetPath "/proj" "alpha")))
           (Validate (assetsTargetPath "/proj" "alpha") :: []).
Proof.
  apply (X4_unreadable_installed_metadata "/proj" "alpha"
           (mkWorld (Examples.alpha_project
                       [("alpha", Dir [("package.json", Examples.text "{ broken")])]) [])
           (mkConfig (Some "1.0.0") (Some ["unity3d"; "unity3d-package"]) None)
           (Examples.text "{ broken")).
  - vm_compute. reflexivity.
  - vm_compute. reflexivity.
  - vm_compute. reflexivity.
  - vm_compute. reflexivity.
  - intros c. discriminate.
Defined.

(** X5: a directory in the place of a sidecar file. The round of phase 2
    for a package whose sidecar path holds a directory throws the error
    of [unlinkSync] - and it throws after the guard has passed and the
    directory of the package, if there was one, has been removed. *)
Theorem X5_sidecar_directory_stops_phase2
    (cs : list string) (name : string) (ns ms : list string) (w : world)
    (es : list (string * node)) :
  valid_names cs -> package_name name ns ms ->
  Fs.lookup (tree w) (packagesPath cs ++ ms) = Some (Dir es) ->
  phase2_step (Path.absolute cs) name w
  = Thrown (IOError "unlink" (Path.absolute (packagesPath cs ++ ms)))
      (Unlink (Path.absolute (packagesPath cs ++ ms))
       :: (if present w (Path.absolute (packagesPath cs ++ ns))
           then [Remove (Path.absolute (packagesPath cs ++ ns))] else [])
       ++ Validate (Path.absolute (packagesPath cs ++ ns)) :: log w).
Proof.
  intros Hcs Hn He. rewrite (phase2_step_run cs Hcs name ns ms w Hn).
  now rewrite He.
Qed.

Lemma X5_sidecar_directory_stops_phase2_witness :
  phase2_step (Path.absolute ["proj"]) "B"
    (mkWorld (Examples.project (Examples.manifest []) []
                [("B", Dir []); ("B.meta", Dir [])]) [])
  = Thrown (IOError "unlink" (Path.absolute (packagesPath ["proj"] ++ ["B" ++ ".meta"])))
      (Unlink (Path.absolute (packagesPath ["proj"] ++ ["B" ++ ".meta"]))
       :: (if present (mkWorld (Examples.project (Examples.manifest []) []
                                  [("B", Dir []); ("B.meta", Dir [])]) [])
                (Path.absolute (packagesPath ["proj"] ++ ["B"]))
           then [Remove (Path.absolute (packagesPath ["proj"] ++ ["B"]))] else [])
       ++ Validate (Path.absolute (packagesPath ["proj"] ++ ["B"])) :: []).
Proof.
  apply (X5_sidecar_directory_stops_phase2 ["proj"] "B" ["B"] ["B" ++ ".meta"]
           (mkWorld (Examples.project (Examples.manifest []) []
                       [("B", Dir []); ("B.meta", Dir [])]) []) []).
  - repeat constructor.
  - now apply plain_name.
  - vm_compute. reflexivity.
Defined.

(** X6: [getDirectories] on an absolute path in a well-formed tree. On a
    directory it returns the names of the entries that are directories
    themselves, in the order of the listing, and leaves the world as it
    found it; on anything else - a regular file, nothing at all - it
    throws the error of [readdirSync], the record unchanged. *)
Theorem X6_getDirectories (l : list string) (w : world) :
  valid_names l -> Fs.wf (tree w) = true ->
  getDirectories (Path.absolute l) w
  = match Fs.lookup (tree w) l with
    | Some (Dir es) => Done (subdirectories es) w
    | _ => Thrown (IOError "readdir" (Path.absolute l)) (log w)
    end.
Proof.
  intros Hl Hw.
  destruct (Fs.lookup (tree w) l) as [[d|es]|] eqn:E.
  - apply getDirectories_not_directory; [assumption|]. intros es. congruence.
  - now apply getDirectories_run.
  - apply getDirectories_not_directory; [assumption|]. intros es. congruence.
Qed.

Lemma X6_getDirectories_witness :
  getDirectories (Path.absolute Examples.packages)
    (mkWorld (Examples.project_mixed []) [])
  = match Fs.lookup (Examples.project_mixed []) Examples.packages with
    | Some (Dir es) => Done (subdirectories es) (mkWorld (Examples.project_mixed []) [])
    | _ => Thrown (IOError "readdir" (Path.absolute Examples.packages)) []
    end.
Proof.
  apply (X6_getDirectories Examples.packages (mkWorld (Examples.project_mixed []) [])).
  - repeat constructor.
  - vm_compute. reflexivity.
Defined.

Lemma concat_snoc_app (sep : string) (l : list string) (x y : string) :
  String.concat sep (l ++ [x ++ y]) = String.concat sep (l ++ [x]) ++ y.
Proof.
  induction l as [|a l IH]; [reflexivity|].
  cbn [app]. destruct l as [|b l].
  - cbn. now rewrite !string_app_assoc.
  - cbn [app String.concat] in *. rewrite IH. now rewrite !string_app_assoc.
Qed.

(** X7: where the packages go. For a project rooted at the absolute
    path of components [cs] and a package under a plain or scoped name,
    the source is the directory of that name in [node_modules], the
    destination is the directory of that name in the packages directory,
    the sidecar path is the destination with [.meta] appended - and the
    guard passes on the destination: it never stops a package for its
    name when the name is plain or scoped. *)
Theorem X7_package_paths
    (cs : list string) (name : string) (ns ms : list string) (w : world) :
  valid_names cs -> package_name name ns ms ->
  dependencyDir (Path.absolute cs) name = Path.absolute (modulePath cs ns)
  /\ assetsTargetPath (Path.absolute cs) name
     = Path.absolute (packagesPath cs ++ ns)
  /\ assetsTargetPath (Path.absolute cs) (name ++ ".meta")
     = Path.absolute (packagesPath cs ++ ms)
  /\ assetsTargetPath (Path.absolute cs) (name ++ ".meta")
     = assetsTargetPath (Path.absolute cs) name ++ ".meta"
  /\ validateProjectPackageDirectory (assetsTargetPath (Path.absolute cs) name) w
     = Done tt (validated (assetsTargetPath (Path.absolute cs) name) w).
Proof.
  intros Hcs Hn. destruct (package_name_relpath _ _ _ Hn) as [Hr Hm].
  rewrite (dependencyDir_absolute cs Hcs name ns Hr).
  rewrite (assetsTargetPath_absolute cs Hcs name ns Hr).
  rewrite (assetsTargetPath_absolute cs Hcs (name ++ ".meta") ms Hm).
  split; [reflexivity|]. split; [reflexivity|]. split; [reflexivity|]. split.
  - unfold Path.absolute. rewrite string_app_assoc. f_equal.
    destruct Hn as [x Hx Hs|s c Hs Hat Hc].
    + apply concat_snoc_app.
    + change [s; c ++ ".meta"] with (app [s] [c ++ ".meta"]).
      change [s; c] with (app [s] [c]).
      rewrite !app_assoc. apply concat_snoc_app.
  - rewrite validate_run, safe_below_packages. reflexivity.
Qed.

Lemma X7_package_paths_witness :
  dependencyDir (Path.absolute ["proj"]) ("@org" ++ "/" ++ "foo")
  = Path.absolute (modulePath ["proj"] ["@org"; "foo"])
  /\ assetsTargetPath (Path.absolute ["proj"]) ("@org" ++ "/" ++ "foo")
     = Path.absolute (packagesPath ["proj"] ++ ["@org"; "foo"])
  /\ assetsTargetPath (Path.absolute ["proj"]) (("@org" ++ "/" ++ "foo") ++ ".meta")
     = Path.absolute (packagesPath ["proj"] ++ ["@org"; "foo" ++ ".meta"])
  /\ assetsTargetPath (Path.absolute ["proj"]) (("@org" ++ "/" ++ "foo") ++ ".meta")
     = assetsTargetPath (Path.absolute ["proj"]) ("@org" ++ "/" ++ "foo") ++ ".meta"
  /\ validateProjectPackageDirectory
       (assetsTargetPath (Path.absolute ["proj"]) ("@org" ++ "/" ++ "foo"))
       (mkWorld (Dir []) [])
     = Done tt (validated
                  (assetsTargetPath (Path.absolute ["proj"]) ("@org" ++ "/" ++ "foo"))
                  (mkWorld (Dir []) [])).
Proof.
  apply (X7_package_paths ["proj"] ("@org" ++ "/" ++ "foo")
           ["@org"; "foo"] ["@org"; "foo" ++ ".meta"] (mkWorld (Dir []) [])).
  - repeat constructor.
  - now apply scoped_name.
Defined.

(** X8: a manifest without dependencies uninstalls everything. When the
    manifest has no [dependencies] field, or an empty one, and the run
    returns, the packages directory is still a directory and no package
    is left in it: there is no directory any more where a package with a
    plain or a scoped name would be. *)
Theorem X8_nothing_declared_nothing_installed
    (cs : list string) (cfg : config) (t t1 : node) (l1 : list event) :
  valid_names cs ->
  Fs.wf t = true ->
  Fs.lookup t (cs ++ ["package.json"]) = Some (File (Json cfg)) ->
  dependencies cfg = None \/ dependencies cfg = Some [] ->
  run (Path.absolute cs) t = Done tt (mkWorld t1 l1) ->
  exists es,
    Fs.lookup t1 (packagesPath cs) = Some (Dir es)
    /\ installed_entries es = []
    /\ forall name ns ms d,
         package_name name ns ms ->
         Fs.lookup t1 (packagesPath cs ++ ns) <> Some (Dir d).
Proof.
  intros Hcs Hw Hcfg Hdeps Hrun. unfold run in Hrun.
  assert (Hnone : declared_names cfg = [])
    by (unfold declared_names; destruct Hdeps as [-> | ->]; reflexivity).
  destruct (first_run_settles cs Hcs (mkWorld t []) (mkWorld t1 l1) cfg
              Hw Hcfg) as (_ & _ & _ & es & He & Hl & _);
    [rewrite Hnone; intros ? [] | assumption |].
  cbn [tree] in *. rewrite Hnone in Hl.
  exists es. split; [assumption|].
  assert (Hnil : installed_entries es = []).
  { destruct (installed_entries es) as [|x r]; [reflexivity|].
    exfalso. exact (Hl x (or_introl eq_refl)). }
  split; [assumption|].
  intros name ns ms d Hn Hd. rewrite lookup_app, He in Hd.
  pose proof (package_name_listed es name ns ms d Hn Hd) as Hin.
  now rewrite Hnil in Hin.
Qed.

Lemma X8_nothing_declared_nothing_installed_witness :
  exists es,
    Fs.lookup (tree (Examples.after_run (Examples.project_scoped [])))
      (packagesPath ["proj"]) = Some (Dir es)
    /\ installed_entries es = []
    /\ forall name ns ms d,
         package_name name ns ms ->
         Fs.lookup (tree (Examples.after_run (Examples.project_scoped [])))
           (packagesPath ["proj"] ++ ns) <> Some (Dir d).
Proof.
  apply (X8_nothing_declared_nothing_installed ["proj"]
           (mkConfig (Some "1.0.0") None (Some []))
           (Examples.project_scoped [])
           (tree (Examples.after_run (Examples.project_scoped [])))
           (log (Examples.after_run (Examples.project_scoped [])))).
  - repeat constructor.
  - vm_compute. reflexivity.
  - vm_compute. reflexivity.
  - now right.
  - vm_compute. reflexivity.
Defined.

(* ================================================================== *)
(** * Further properties: the listing of the installed packages *)
(* ================================================================== *)

Lemma string_app_inv_head (a b c : string) : a ++ b = a ++ c -> b = c.
Proof.
  induction a as [|x a IH]; simpl; [auto|]. intros [= E]. auto.
Qed.

Lemma NoDup_map_injective {A B} (f : A -> B) (l : list A) :
  (forall x y, f x = f y -> x = y) -> NoDup l -> NoDup (map f l).
Proof.
  intros Hf. induction 1 as [|x l Hx Hl IH]; simpl; constructor; [|assumption].
  intros Hin. apply in_map_iff in Hin as (y & E & Hy).
  apply Hf in E. now subst.
Qed.

Lemma installed_entries_cons k n es :
  installed_entries ((k, n) :: es)
  = (installed_entries [(k, n)] ++ installed_entries es)%list.
Proof.
  unfold installed_entries. cbn [flat_map]. now rewrite app_nil_r.
Qed.

Lemma installed_entries_single_NoDup k n :
  Fs.wf n = true -> NoDup (installed_entries [(k, n)]).
Proof.
  intros Hn. unfold installed_entries. cbn [flat_map snd fst].
  rewrite app_nil_r. destruct n as [d|ks]; [constructor|].
  destruct (Js.startsWith k "@").
  - apply NoDup_map_injective.
    + intros x y E. apply string_app_inv_head in E.
      now apply string_app_inv_head in E.
    + apply wf_dir in Hn as (Hnd & _ & _). unfold subdirectories.
      now apply NoDup_map_fst_filter.
  - repeat constructor. intros [].
Qed.

(** A listed name leads, by its first component, to the entry it was
    read from. *)
Lemma listed_origin es name :
  Fs.wf (Dir es) = true -> In name (installed_entries es) ->
  exists ns ms, package_name name ns ms /\ In (hd "" ns) (Fs.names es).
Proof.
  intros Hw Hin.
  destruct (listed_package_name es name Hw Hin) as (ns & ms & d & Hn & Hd).
  exists ns, ms. split; [assumption|].
  destruct (package_name_valid _ _ _ Hn) as (_ & _ & Hne).
  destruct ns as [|k ns]; [contradiction|]. cbn [hd].
  simpl in Hd. destruct (Fs.entry k es) as [c|] eqn:E; [|discriminate].
  apply entry_in_names. eauto.
Qed.

Lemma installed_entries_NoDup es :
  Fs.wf (Dir es) = true -> NoDup (installed_entries es).
Proof.
  induction es as [|[k n] es IH]; intros Hw; [constructor|].
  pose proof Hw as Hw'. apply wf_dir in Hw' as (Hnd & Hv & Hc).
  cbn [Fs.names map fst] in Hnd, Hv.
  inversion Hnd as [|? ? Hk Hnd']; subst.
  inversion Hv as [|? ? Hvk Hv']; subst.
  inversion Hc as [|? ? Hwn Hc']; subst. cbn [snd] in Hwn.
  assert (Hes : Fs.wf (Dir es) = true) by (apply wf_dir; auto).
  assert (H1 : Fs.wf (Dir [(k, n)]) = true).
  { apply wf_dir. cbn [Fs.names map fst]. split; [|split].
    - repeat constructor. intros [].
    - now repeat constructor.
    - now repeat constructor. }
  rewrite installed_entries_cons. apply NoDup_app.
  - now apply installed_entries_single_NoDup.
  - now apply IH.
  - intros x Hx Hx'.
    destruct (listed_origin _ _ H1 Hx) as (ns & ms & Hn & Ho).
    destruct (listed_origin _ _ Hes Hx') as (ns' & ms' & Hn' & Ho').
    destruct (package_name_unique _ _ _ _ _ Hn Hn') as [<- _].
    cbn [Fs.names map fst] in Ho. destruct Ho as [Ho|[]].
    apply Hk. now rewrite Ho.
Qed.

(** X9: what [getProjectPackageListing] returns for a well-formed tree
    whose packages directory is there: a list without duplicates that
    holds a name exactly when it is a plain or a scoped name and a
    directory is at the place of that name in the packages directory -
    so phase 2 meets every installed package, and meets it once. *)
Theorem X9_listing_is_exact (cs : list string) (w : world)
    (es : list (string * node)) :
  valid_names cs -> Fs.wf (tree w) = true ->
  Fs.lookup (tree w) (packagesPath cs) = Some (Dir es) ->
  exists listing,
    getProjectPackageListing (Path.absolute cs) w = Done listing w
    /\ NoDup listing
    /\ forall name,
         In name listing
         <-> exists ns ms d,
               package_name name ns ms
               /\ Fs.lookup (tree w) (packagesPath cs ++ ns) = Some (Dir d).
Proof.
  intros Hcs Hw He.
  assert (Hes : Fs.wf (Dir es) = true) by (eapply wf_lookup; eassumption).
  exists (installed_entries es). split; [|split].
  - now apply getProjectPackageListing_run.
  - now apply installed_entries_NoDup.
  - intros name. split.
    + intros Hin.
      destruct (listed_package_name es name Hes Hin) as (ns & ms & d & Hn & Hd).
      exists ns, ms, d. split; [assumption|]. now rewrite lookup_app, He.
    + intros (ns & ms & d & Hn & Hd). rewrite lookup_app, He in Hd.
      eapply package_name_listed; eassumption.
Qed.

Lemma X9_listing_is_exact_witness :
  exists listing,
    getProjectPackageListing (Path.absolute ["proj"])
      (mkWorld (Examples.project_mixed []) []) = Done listing (mkWorld (Examples.project_mixed []) [])
    /\ NoDup listing
    /\ forall name,
         In name listing
         <-> exists ns ms d,
               package_name name ns ms
               /\ Fs.lookup (Examples.project_mixed []) (packagesPath ["proj"] ++ ns)
                  = Some (Dir d).
Proof.
  apply (X9_listing_is_exact ["proj"] (mkWorld (Examples.project_mixed []) [])
           Examples.installed_mixed).
  - repeat constructor.
  - vm_compute. reflexivity.
  - vm_compute. reflexivity.
Defined.

(* ================================================================== *)
(** * Further properties: the guard after phase 1 *)
(* ================================================================== *)

Section GuardAfterPhase1.

Variable cs : list string.
Hypothesis cs_valid : valid_names cs.

Let cwd := Path.absolute cs.
Let pcs := packagesPath cs.

Let sound (w : world) : Prop := Fs.wf (tree w) = true.
Let io (e : error) (l : list event) : Prop := io_failure e.

Lemma phase2_step_io name ns ms :
  package_name name ns ms ->
  triple sound (phase2_step cwd name) (fun _ => sound) io.
Proof.
  intros Hn w Hw. unfold cwd.
  rewrite (phase2_step_run cs cs_valid name ns ms w Hn).
  destruct (Fs.lookup (tree w) (packagesPath cs ++ ms)) as [[d|es]|];
    try exact I; unfold sound, dropped; cbn [tree];
    now repeat apply wf_remove.
Qed.

Lemma phase2_io declared :
  triple sound (phase2 cwd declared) (fun _ => sound) io.
Proof.
  intros w Hw. unfold cwd.
  destruct (Fs.lookup (tree w) pcs) as [[d|es]|] eqn:E.
  - rewrite phase2_not_directory; [exact I | assumption |].
    intros es. unfold pcs in E. congruence.
  - rewrite (phase2_listing cs w es declared cs_valid Hw E).
    assert (Hes : Fs.wf (Dir es) = true) by (eapply wf_lookup; eassumption).
    apply (triple_for_of sound); [|assumption].
    intros name Hin. apply in_redundant in Hin as [Hin _].
    destruct (listed_package_name es name Hes Hin) as (ns & ms & d & Hn & _).
    now apply (phase2_step_io name ns ms).
  - rewrite phase2_not_directory; [exact I | assumption |].
    intros es. unfold pcs in E. congruence.
Qed.

Lemma phase3_step_io s :
  Path.valid_name s = true ->
  triple sound (phase3_step cwd s) (fun _ => sound) io.
Proof.
  intros Hs w Hw.
  assert (Vs : valid_names (pcs ++ [s]))
    by (apply valid_target; [assumption | now repeat constructor]).
  assert (Vm : valid_names (pcs ++ [s ++ ".meta"]))
    by (apply valid_target; [assumption|];
        repeat constructor; now apply valid_name_meta).
  assert (R : forall w0,
             Fs.wf (tree w0) = true ->
             match (removeSync (Path.absolute (pcs ++ [s])) ;;
                    ex <- existsSync (Path.absolute (pcs ++ [s ++ ".meta"])) ;;
                    if ex then unlinkSync (Path.absolute (pcs ++ [s ++ ".meta"]))
                    else ret tt) w0 with
             | Done _ w1 => sound w1
             | Thrown e l => io e l
             end).
  { intros w0 Hw0. unfold bind at 1.
    rewrite removeSync_absolute by (assumption || now apply packages_not_nil).
    rewrite (unlink_sidecar_run (pcs ++ [s ++ ".meta"]) _ Vm).
    cbn [tree log].
    destruct (Fs.lookup (Fs.remove (pcs ++ [s]) (tree w0)) (pcs ++ [s ++ ".meta"]))
      as [[f|es]|]; try exact I; unfold sound; cbn [tree];
      now repeat apply wf_remove. }
  unfold phase3_step.
  fold (assetsTargetPath cwd s). fold (assetsTargetPath cwd (s ++ ".meta")).
  unfold cwd.
  rewrite (assetsTargetPath_absolute cs cs_valid s [s]) by now apply relpath_name.
  rewrite (assetsTargetPath_absolute cs cs_valid (s ++ ".meta") [s ++ ".meta"])
    by (apply relpath_name; now apply valid_name_meta).
  fold pcs. unfold bind at 1. rewrite validate_run.
  unfold pcs at 1. rewrite safe_below_packages. fold pcs.
  unfold bind at 1. rewrite isEmptySync_run.
  match goal with
  | |- context [if ?b then _ else _] => destruct b
  end; [apply R; exact Hw | exact Hw].
Qed.

Lemma getProjectPackageScopes_not_directory w :
  not_a_directory (tree w) pcs ->
  getProjectPackageScopes cwd w
  = Thrown (IOError "readdir" (Path.absolute pcs)) (log w).
Proof.
  intros Hd. unfold getProjectPackageScopes, bind at 1.
  unfold cwd. rewrite (projectPackagesDir_absolute cs cs_valid).
  rewrite getDirectories_not_directory;
    [reflexivity | now apply packagesPath_valid | assumption].
Qed.

Lemma phase3_io : triple sound (phase3 cwd) (fun _ => sound) io.
Proof.
  intros w Hw. unfold phase3, bind at 1. unfold cwd at 1.
  destruct (Fs.lookup (tree w) pcs) as [[d|es]|] eqn:E.
  - fold cwd. rewrite getProjectPackageScopes_not_directory; [exact I|].
    intros es. congruence.
  - rewrite (getProjectPackageScopes_run cs cs_valid w es Hw E).
    assert (Hes : Fs.wf (Dir es) = true) by (eapply wf_lookup; eassumption).
    apply (triple_for_of sound); [|assumption].
    intros s Hin.
    apply in_scope_directories in Hin as [_ [d Hd]];
      [|now apply wf_dir in Hes].
    apply phase3_step_io. now apply (wf_entry _ _ _ Hes Hd).
  - fold cwd. rewrite getProjectPackageScopes_not_directory; [exact I|].
    intros es. congruence.
Qed.

Lemma phases23_io declared :
  triple sound (phase2 cwd declared ;; phase3 cwd) (fun _ => sound) io.
Proof.
  eapply triple_bind; [apply phase2_io|]. intros ?. apply phase3_io.
Qed.

End GuardAfterPhase1.

(** X10: the guard cannot fire after phase 1. Phases 2 and 3 take the
    names they work on from listings of the packages directory, so in a
    well-formed tree every path they hand to the guard passes it: started
    one after the other in any well-formed world, whatever is declared,
    they either return, in a well-formed tree, or throw the error of a
    file-system primitive - never the error of the guard. *)
Theorem X10_guard_cannot_fire_after_phase1
    (cs : list string) (declared : list string) (w : world) :
  valid_names cs -> Fs.wf (tree w) = true ->
  match (phase2 (Path.absolute cs) declared ;; phase3 (Path.absolute cs)) w with
  | Done _ w' => Fs.wf (tree w') = true
  | Thrown e _ => io_failure e
  end.
Proof.
  intros Hcs Hw. exact (phases23_io cs Hcs declared w Hw).
Qed.

Lemma X10_guard_cannot_fire_after_phase1_witness :
  match (phase2 (Path.absolute ["proj"]) ["plain"] ;; phase3 (Path.absolute ["proj"]))
          (mkWorld (Examples.project_mixed []) []) with
  | Done _ w' => Fs.wf (tree w') = true
  | Thrown e _ => io_failure e
  end.
Proof.
  apply (X10_guard_cannot_fire_after_phase1 ["proj"] ["plain"]
           (mkWorld (Examples.project_mixed []) [])).
  - repeat constructor.
  - vm_compute. reflexivity.
Defined.

(* ================================================================== *)
(** * Further properties: where the copies go *)
(* ================================================================== *)

Lemma startsWith_extend (sub a b : string) :
  Js.startsWith a sub = true -> Js.startsWith (a ++ b) sub = true.
Proof.
  revert a. induction sub as [|c sub IH]; intros a; [reflexivity|].
  destruct a as [|x a]; simpl; [discriminate|].
  intros H. apply andb_prop in H as [H1 H2].
  apply andb_true_intro. split; [assumption | now apply IH].
Qed.

Lemma includes_cons (x : ascii) (a sub : string) :
  Js.includes (String x a) sub
  = Js.startsWith (String x a) sub || Js.includes a sub.
Proof. reflexivity. Qed.

Lemma includes_extend (a b sub : string) :
  Js.includes a sub = true -> Js.includes (a ++ b) sub = true.
Proof.
  induction a as [|x a IH].
  - intros H. destruct sub as [|c sub]; [|vm_compute in H; discriminate].
    destruct b; reflexivity.
  - change (String x a ++ b) with (String x (a ++ b)).
    rewrite !includes_cons. intros H. apply orb_prop in H as [H|H].
    + change (String x (a ++ b)) with (String x a ++ b).
      now rewrite startsWith_extend.
    + rewrite (IH H). apply orb_true_r.
Qed.

(** What is joined to a guarded absolute path passes the test of the
    guard as well. *)
Lemma safe_join (ls : list string) (f : string) :
  valid_names ls -> safe (Path.absolute ls) = true ->
  In f ("" :: extraFiles) ->
  safe (Path.join [Path.absolute ls; f]) = true.
Proof.
  intros Hls Hs Hf.
  destruct Hf as [<-|Hf]; [now rewrite join_absolute_empty|].
  assert (Hv : Path.valid_name f = true).
  { destruct Hf as [<-|[<-|[<-|[]]]]; reflexivity. }
  rewrite (join_absolute ls f [f]) by (assumption || now apply relpath_name).
  destruct ls as [|k ls]; [discriminate|].
  rewrite absolute_app by discriminate.
  unfold safe in *. now apply includes_extend.
Qed.

Section Copies.

Variable cwd : string.
Hypothesis cwd_absolute : Path.isAbsolute cwd = true.

Let G (w : world) : Prop := copy_guarded (log w).
Let E (e : error) (l : list event) : Prop := copy_guarded l.

Ltac run_step :=
  unfold bind, record, throw, ret, set_tree, existsSync; cbn.

Lemma cg_reads {A} (m : M A) (P : world -> Prop) :
  reads m -> (forall w, P w -> G w) -> triple P m (fun _ => P) E.
Proof. intros Hm HP. apply triple_reads; [assumption|]. intros; now apply HP. Qed.

Lemma validate_cg p :
  triple G (validateProjectPackageDirectory p)
    (fun _ w => G w /\ In (Validate p) (log w) /\ safe p = true) E.
Proof.
  intros w Hw. unfold validateProjectPackageDirectory. run_step.
  fold (safe p).
  assert (H : copy_guarded (Validate p :: log w))
    by (apply cg_other; [discriminate | assumption]).
  destruct (safe p) eqn:Hs; cbn.
  - split; [assumption|]. split; [now left | reflexivity].
  - assumption.
Qed.

Section Destination.

Variable ls : list string.
Hypothesis ls_valid : valid_names ls.
Hypothesis ls_safe : safe (Path.absolute ls) = true.

Let V (w : world) : Prop :=
  G w /\ In (Validate (Path.absolute ls)) (log w).

Lemma emptyDirSync_cg p : triple V (emptyDirSync p) (fun _ => V) E.
Proof.
  intros w [Hw Hp]. unfold emptyDirSync. run_step.
  assert (H : copy_guarded (EmptyDir p :: log w))
    by (apply cg_other; [discriminate | assumption]).
  repeat (break_match; cbn); unfold V, G, E; cbn;
    try assumption; split; try assumption; now right.
Qed.

Lemma copySync_cg s f :
  In f ("" :: extraFiles) ->
  triple V (copySync s (Path.join [Path.absolute ls; f])) (fun _ => V) E.
Proof.
  intros Hf w [Hw Hp]. unfold copySync. run_step.
  assert (H : copy_guarded (Copy s (Path.join [Path.absolute ls; f]) :: log w))
    by now apply cg_copy.
  repeat (break_match; cbn); unfold V, G, E; cbn;
    try assumption; split; try assumption; now right.
Qed.

Lemma copy_assets_cg dep :
  triple V (copyIfExistsSync dep (Path.absolute ls) "assets" (JsString ""))
    (fun _ => V) E.
Proof.
  unfold copyIfExistsSync. eapply triple_bind.
  - apply cg_reads; [apply reads_existsSync | now intros ? [? ?]].
  - intros [|]; [apply copySync_cg; now left | now apply triple_ret].
Qed.

Lemma copy_extra_cg dep f i :
  In f extraFiles ->
  triple V (copyIfExistsSync dep (Path.absolute ls) f (JsNumber i))
    (fun _ => V) E.
Proof.
  intros Hf. unfold copyIfExistsSync. eapply triple_bind.
  - apply cg_reads; [apply reads_existsSync | now intros ? [? ?]].
  - intros [|]; [apply copySync_cg; now right | now apply triple_ret].
Qed.

Lemma installPackage_cg dep :
  triple V (installPackage dep (Path.absolute ls)) (fun _ => G) E.
Proof.
  unfold installPackage. eapply triple_bind; [apply emptyDirSync_cg|].
  intros ?. eapply triple_bind; [apply copy_assets_cg|].
  intros ?. eapply triple_weaken with (P' := V) (Q' := fun _ => V) (E' := E);
    [| auto | now intros ? ? [? ?] | auto].
  apply triple_forEach_from. intros; now apply copy_extra_cg.
Qed.

End Destination.

Lemma phase1_step_cg name :
  triple G (phase1_step cwd name) (fun _ => G) E.
Proof.
  unfold phase1_step.
  destruct (resolve_is_absolute cwd [projectPackagesDir cwd; name] cwd_absolute)
    as (ls & Hls & ->).
  eapply triple_bind.
  - apply cg_reads; [apply reads_readJsonSync | auto].
  - intros cfg. destruct (negb _); [now apply triple_ret|].
    eapply triple_bind; [apply validate_cg|]. intros ?.
    eapply triple_bind.
    + apply cg_reads; [apply reads_existsSync | now intros ? [? ?]].
    + intros ex.
      eapply (triple_bind _ _ _
                (fun _ w => G w /\ In (Validate (Path.absolute ls)) (log w)
                            /\ safe (Path.absolute ls) = true)).
      * destruct ex.
        -- eapply triple_bind.
           ++ apply cg_reads; [apply reads_readJsonSync | now intros ? [? ?]].
           ++ intros tcfg. apply triple_ret. intros ? H. exact H.
        -- apply triple_ret. intros ? H. exact H.
      * intros [|]; [apply triple_ret; now intros ? [? ?]|].
        intros w (Hw & Hin & Hs).
        now apply (installPackage_cg ls Hls Hs).
Qed.

Lemma removeSync_cg p : triple G (removeSync p) (fun _ => G) E.
Proof.
  intros w Hw. unfold removeSync, bind, record, set_tree. cbn.
  assert (H : copy_guarded (Remove p :: log w))
    by (apply cg_other; [discriminate | assumption]).
  destruct (Path.components p); cbn; assumption.
Qed.

Lemma isEmptySync_cg p : triple G (isEmptySync p) (fun _ => G) E.
Proof.
  intros w Hw. unfold isEmptySync, bind, record. cbn.
  apply cg_other; [discriminate | assumption].
Qed.

Lemma unlinkSync_cg p : triple G (unlinkSync p) (fun _ => G) E.
Proof.
  intros w Hw. unfold unlinkSync, bind, record, set_tree. cbn.
  assert (H : copy_guarded (Unlink p :: log w))
    by (apply cg_other; [discriminate | assumption]).
  destruct (at_path _ _) as [[d|es]|]; cbn; assumption.
Qed.

Lemma validate_only_cg p :
  triple G (validateProjectPackageDirectory p) (fun _ => G) E.
Proof.
  eapply triple_weaken; [apply validate_cg | auto | now intros ? ? [? ?] | auto].
Qed.

Lemma unlink_if_exists_cg p :
  triple G (ex <- existsSync p ;; if ex then unlinkSync p else ret tt)
    (fun _ => G) E.
Proof.
  eapply triple_bind.
  - apply cg_reads; [apply reads_existsSync | auto].
  - intros [|]; [apply unlinkSync_cg | now apply triple_ret].
Qed.

Lemma phase2_step_cg name :
  triple G (phase2_step cwd name) (fun _ => G) E.
Proof.
  unfold phase2_step.
  eapply triple_bind; [apply validate_only_cg|]. intros ?.
  eapply triple_bind.
  { apply cg_reads; [apply reads_existsSync | auto]. }
  intros ex. eapply triple_bind.
  { destruct ex; [apply removeSync_cg | now apply triple_ret]. }
  intros ?. apply unlink_if_exists_cg.
Qed.

Lemma phase3_step_cg name :
  triple G (phase3_step cwd name) (fun _ => G) E.
Proof.
  unfold phase3_step.
  eapply triple_bind; [apply validate_only_cg|]. intros ?.
  eapply triple_bind; [apply isEmptySync_cg|].
  intros [|]; [|now apply triple_ret].
  eapply triple_bind; [apply removeSync_cg|].
  intros ?. apply unlink_if_exists_cg.
Qed.

Lemma sync_cg : triple G (sync cwd) (fun _ => G) E.
Proof.
  unfold sync. eapply triple_bind.
  - apply cg_reads; [apply reads_readJsonSync | auto].
  - intros cfg. eapply triple_bind.
    { apply triple_for_of. intros; apply phase1_step_cg. }
    intros ?. eapply triple_bind.
    { unfold phase2. eapply triple_bind.
      - apply cg_reads; [apply reads_getProjectPackageListing | auto].
      - intros l. apply triple_for_of. intros; apply phase2_step_cg. }
    intros ?. unfold phase3. eapply triple_bind.
    + apply cg_reads; [apply reads_getProjectPackageScopes | auto].
    + intros l. apply triple_for_of. intros; apply phase3_step_cg.
Qed.

Lemma run_cg t : copy_guarded (log_of (run cwd t)).
Proof.
  unfold run. pose proof (sync_cg (mkWorld t []) cg_nil) as H.
  destruct (sync cwd _); exact H.
Qed.

End Copies.

Lemma copy_guarded_tail x l : copy_guarded (x :: l) -> copy_guarded l.
Proof. inversion 1; assumption. Qed.

Lemma copy_guarded_spec l s d older :
  copy_guarded l -> happened l (Copy s d) older ->
  safe d = true
  /\ exists p f,
       In f ("" :: extraFiles) /\ d = Path.join [p; f]
       /\ In (Validate p) older /\ safe p = true.
Proof.
  intros Hl Hh. revert Hl. induction l as [|x l IH]; intros Hl.
  - destruct Hh as [[|? ?] H]; discriminate.
  - apply happened_cons in Hh as [[-> ->]|Hh].
    + inversion Hl as [|s' ls f l' Hls Hs Hin Hf Hl'|e l' He Hl']; subst.
      * split; [now apply safe_join|].
        exists (Path.absolute ls), f. auto.
      * exfalso. now apply (He s d).
    + apply IH; [assumption | eapply copy_guarded_tail; eassumption].
Qed.

(** X11: the copies stay inside guarded destinations. In a run started
    in an absolute working directory, whatever the tree and the manifest,
    and whether the run returns or throws: every copy that was invoked
    went to [path.join] of a path on which the guard had passed before
    and of the empty string or the name of an extra file, and the
    destination of the copy contains the packages path itself. *)
Theorem X11_copies_stay_guarded (cwd : string) (t : node)
    (s d : string) (older : list event) :
  Path.isAbsolute cwd = true ->
  happened (log_of (run cwd t)) (Copy s d) older ->
  safe d = true
  /\ exists p f,
       In f ("" :: extraFiles) /\ d = Path.join [p; f]
       /\ In (Validate p) older /\ safe p = true.
Proof.
  intros Hc Hh. eapply copy_guarded_spec; [|exact Hh]. now apply run_cg.
Qed.

Lemma X11_copies_stay_guarded_witness :
  safe "/proj/Assets/Plugins/Packages/alpha/package.json" = true
  /\ exists p f,
       In f ("" :: extraFiles)
       /\ "/proj/Assets/Plugins/Packages/alpha/package.json" = Path.join [p; f]
       /\ In (Validate p)
            [Copy "/proj/node_modules/alpha/assets"
               "/proj/Assets/Plugins/Packages/alpha";
             EmptyDir "/proj/Assets/Plugins/Packages/alpha";
             Validate "/proj/Assets/Plugins/Packages/alpha"]
       /\ safe p = true.
Proof.
  apply (X11_copies_stay_guarded "/proj"
           (Examples.alpha_project (Examples.alpha_installed "0.9.0"))
           "/proj/node_modules/alpha/package.json").
  - reflexivity.
  - exists [Copy "/proj/node_modules/alpha/README.md"
              "/proj/Assets/Plugins/Packages/alpha/README.md"].
    vm_compute. reflexivity.
Defined.

(* ================================================================== *)
(** * Further properties: what a run leaves alone *)
(* ================================================================== *)

Section Skipped.

Variable cs : list string.
Hypothesis cs_valid : valid_names cs.

Let cwd := Path.absolute cs.
Let pcs := packagesPath cs.

Lemma sidecar_not_above_package name ns ms name' ns' ms' :
  package_name name ns ms -> package_name name' ns' ms' ->
  Fs.is_prefix ms ns' = true -> ms = ns'.
Proof.
  intros H H'.
  destruct H as [x Hx Hs|s c Hs Hat Hc];
    destruct H' as [x' Hx' Hs'|s' c' Hs' Hat' Hc']; simpl.
  - destruct (String.eqb_spec (x ++ ".meta") x'); [congruence | discriminate].
  - destruct (String.eqb_spec (x ++ ".meta") s') as [<-|]; [|discriminate].
    rewrite startsWith_meta in Hat' by now apply valid_name_nonempty.
    congruence.
  - destruct (s =? x'); discriminate.
  - destruct (String.eqb_spec s s') as [->|]; [|discriminate].
    destruct (String.eqb_spec (c ++ ".meta") c'); [congruence | discriminate].
Qed.

(** The directory of a package and the sidecar of another: the same
    place, or places apart. *)
Lemma package_sidecar_apart name ns ms name' ns' ms' :
  package_name name ns ms -> package_name name' ns' ms' ->
  ns = ms' \/ apart ns ms'.
Proof.
  intros H H'.
  destruct (Fs.is_prefix ns ms') eqn:A.
  - left. eapply package_not_above_sidecar; eassumption.
  - destruct (Fs.is_prefix ms' ns) eqn:B.
    + left. symmetry. eapply sidecar_not_above_package; eassumption.
    + right. now split.
Qed.

Lemma source_at name ns w :
  relpath name ns -> valid_names ns ->
  at_path w (metadataPath (dependencyDir cwd name))
  = Fs.lookup (tree w) (modulePath cs ns ++ ["package.json"]).
Proof.
  intros Hr Vn. unfold cwd.
  rewrite (source_metadata_path cs cs_valid name ns Hr).
  apply at_path_absolute. now apply valid_source_metadata.
Qed.

(** ** Phase 1 *)

Lemma phase1_step_skips name ns ms w w1 :
  package_name name ns ms -> up_to_date cs (tree w) ns ->
  phase1_step cwd name w = Done tt w1 -> tree w1 = tree w.
Proof.
  intros Hn U.
  destruct (package_name_relpath _ _ _ Hn) as [Hr _].
  destruct (package_name_valid _ _ _ Hn) as (Vn & _ & _).
  pose proof (source_at name ns w Hr Vn) as Hat.
  destruct (Fs.lookup (tree w) (modulePath cs ns ++ ["package.json"]))
    as [[[c|s]|es]|] eqn:Hc.
  - destruct (has_marker c) eqn:Hm.
    + destruct (U c Hc Hm) as (tcfg & Ht & Hv).
      rewrite (phase1_step_same_version cwd name w c tcfg Hat Hm);
        [| |assumption].
      * unfold cwd.
        rewrite (assetsTargetPath_absolute cs cs_valid name ns Hr),
          safe_below_packages.
        now intros [= <-].
      * unfold cwd. rewrite (target_metadata_path cs cs_valid name ns Hr).
        rewrite at_path_absolute; [assumption|].
        now apply valid_target_metadata.
    + rewrite (phase1_step_unmarked cwd name w c Hat Hm). now intros [= <-].
  - intros E. destruct (phase1_step_unreadable cs name w) as (e & l & T);
      [intros cfg; fold cwd; rewrite Hat; discriminate|].
    fold cwd in T. congruence.
  - intros E. destruct (phase1_step_unreadable cs name w) as (e & l & T);
      [intros cfg; fold cwd; rewrite Hat; discriminate|].
    fold cwd in T. congruence.
  - intros E. destruct (phase1_step_unreadable cs name w) as (e & l & T);
      [intros cfg; fold cwd; rewrite Hat; discriminate|].
    fold cwd in T. congruence.
Qed.

Lemma phase1_loop_keeps names :
  forall w w',
    (forall name, In name names -> exists ns ms, package_name name ns ms) ->
    Fs.wf (tree w) = true ->
    for_of names (phase1_step cwd) w = Done tt w' ->
    forall name ns ms,
      package_name name ns ms -> up_to_date cs (tree w) ns ->
      Fs.lookup (tree w') (pcs ++ ns) = Fs.lookup (tree w) (pcs ++ ns).
Proof.
  induction names as [|name0 names IH]; intros w w' Hnames Hw Hrun name ns ms Hn U.
  - now injection Hrun as <-.
  - cbn [for_of] in Hrun. unfold bind in Hrun.
    destruct (phase1_step cwd name0 w) as [[] w1|] eqn:E1; [|discriminate].
    destruct (Hnames name0 (or_introl eq_refl)) as (ns0 & ms0 & Hn0).
    destruct (phase1_step_done cs cs_valid name0 ns0 ms0 w w1 Hn0 Hw E1)
      as (_ & Hw1 & O1 & _).
    assert (Hnames' : forall n, In n names -> exists ns ms, package_name n ns ms)
      by (intros; apply Hnames; now right).
    destruct (String.eqb_spec name0 name) as [->|Hne].
    + assert (T : tree w1 = tree w)
        by exact (phase1_step_skips name ns ms w w1 Hn U E1).
      rewrite <- T in U. rewrite (IH w1 w' Hnames' Hw1 Hrun name ns ms Hn U).
      now rewrite T.
    + assert (A : apart ns0 ns) by (eapply package_names_apart; eassumption).
      assert (U1 : up_to_date cs (tree w1) ns).
      { eapply up_to_date_frame; [| |exact U].
        - apply (same_outside_packages cs ns0 w w1 O1).
          apply apart_packages_source.
        - apply O1. apply apart_app_same.
          rewrite <- (app_nil_r ns0). now apply apart_extend. }
      rewrite (IH w1 w' Hnames' Hw1 Hrun name ns ms Hn U1).
      apply O1. now apply apart_app_same.
Qed.

(** ** Phase 2 *)

Lemma phase2_loop_keeps names :
  forall w w',
    (forall name, In name names -> exists ns ms, package_name name ns ms) ->
    for_of names (phase2_step cwd) w = Done tt w' ->
    forall name ns ms d,
      package_name name ns ms -> ~ In name names ->
      Fs.lookup (tree w) (pcs ++ ns) = Some (Dir d) ->
      Fs.lookup (tree w') (pcs ++ ns) = Some (Dir d).
Proof.
  induction names as [|name0 names IH]; intros w w' Hnames Hrun name ns ms d Hn Hnot Hd.
  - now injection Hrun as <-.
  - cbn [for_of] in Hrun. unfold bind in Hrun.
    destruct (phase2_step cwd name0 w) as [[] w1|] eqn:E1; [|discriminate].
    destruct (Hnames name0 (or_introl eq_refl)) as (ns0 & ms0 & Hn0).
    destruct (phase2_step_done cs cs_valid name0 ns0 ms0 w w1 Hn0 E1) as [T1 Hs].
    apply (IH w1 w' (fun n Hin => Hnames n (or_intror Hin)) Hrun name ns ms d Hn);
      [intros Hin; apply Hnot; now right|].
    assert (Hne : name0 <> name) by (intros ->; apply Hnot; now left).
    assert (A : Fs.lookup (Fs.remove (pcs ++ ns0) (tree w)) (pcs ++ ns)
                = Some (Dir d)).
    { rewrite lookup_remove_apart; [assumption|]. apply apart_app_same.
      eapply package_names_apart; eassumption. }
    rewrite T1. unfold dropped. fold pcs.
    destruct (package_sidecar_apart name ns ms name0 ns0 ms0 Hn Hn0) as [->|B].
    + exfalso. exact (Hs d Hd).
    + rewrite lookup_remove_apart; [assumption|].
      apply apart_app_same. now apply apart_sym.
Qed.

(** ** Phase 3 *)

Lemma scope_not_package s name ns ms t x :
  Path.valid_name s = true -> Js.startsWith s "@" = true ->
  package_name name ns ms ->
  Fs.lookup t (pcs ++ ns) = Some x ->
  (forall e d, Fs.lookup t (pcs ++ [s]) <> Some (Dir (e :: d))) ->
  apart [s] ns.
Proof.
  intros Hs Hat Hn Hx H0.
  destruct Hn as [y Hy Hsy|s' c Hs' Hat' Hc].
  - apply apart_heads. intros ->. congruence.
  - destruct (String.eqb_spec s s') as [<-|N]; [|now apply apart_heads].
    exfalso. change [s; c] with (app [s] [c]) in Hx.
    rewrite app_assoc in Hx.
    destruct (lookup_through_dir _ _ _ _ _ Hx) as (es & He & Hin).
    destruct es as [|e es]; [destruct Hin|]. exact (H0 e es He).
Qed.

Lemma scope_sidecar_not_package s name ns ms t d :
  Path.valid_name s = true -> Js.startsWith s "@" = true ->
  package_name name ns ms ->
  Fs.lookup t (pcs ++ ns) = Some (Dir d) ->
  not_a_directory t (pcs ++ [s ++ ".meta"]) ->
  apart [s ++ ".meta"] ns.
Proof.
  intros Hs Hat Hn Hx H0.
  assert (Hm : Js.startsWith (s ++ ".meta") "@" = true)
    by (rewrite startsWith_meta; [assumption | now apply valid_name_nonempty]).
  destruct Hn as [y Hy Hsy|s' c Hs' Hat' Hc].
  - apply apart_heads. intros E. rewrite E in Hm. congruence.
  - destruct (String.eqb_spec (s ++ ".meta") s') as [<-|N];
      [|now apply apart_heads].
    exfalso. change [s ++ ".meta"; c] with (app [s ++ ".meta"] [c]) in Hx.
    rewrite app_assoc in Hx.
    destruct (lookup_through_dir _ _ _ _ _ Hx) as (es & He & _).
    exact (H0 es He).
Qed.

Lemma phase3_loop_keeps scopes :
  forall w w',
    (forall s, In s scopes ->
       Path.valid_name s = true /\ Js.startsWith s "@" = true) ->
    for_of scopes (phase3_step cwd) w = Done tt w' ->
    forall name ns ms d,
      package_name name ns ms ->
      Fs.lookup (tree w) (pcs ++ ns) = Some (Dir d) ->
      Fs.lookup (tree w') (pcs ++ ns) = Some (Dir d).
Proof.
  induction scopes as [|s0 scopes IH]; intros w w' Hv Hrun name ns ms d Hn Hd.
  - now injection Hrun as <-.
  - cbn [for_of] in Hrun. unfold bind in Hrun.
    destruct (phase3_step cwd s0 w) as [[] w1|] eqn:E1; [|discriminate].
    destruct (Hv s0 (or_introl eq_refl)) as [Hs0 Hat0].
    apply (IH w1 w' (fun s Hin => Hv s (or_intror Hin)) Hrun name ns ms d Hn).
    destruct (phase3_step_done cs cs_valid s0 w w1 Hs0 E1)
      as [[T1 _]|(T1 & H0 & Hs)]; [now rewrite T1|].
    rewrite T1. unfold dropped. fold pcs.
    assert (A : Fs.lookup (Fs.remove (pcs ++ [s0]) (tree w)) (pcs ++ ns)
                = Some (Dir d)).
    { rewrite lookup_remove_apart; [assumption|]. apply apart_app_same.
      eapply scope_not_package; eassumption. }
    rewrite lookup_remove_apart; [assumption|]. apply apart_app_same.
    apply (scope_sidecar_not_package s0 name ns ms
             (Fs.remove (pcs ++ [s0]) (tree w)) d); try assumption.
    intros es He. apply lookup_remove_kind in He as ([x|es0] & Hy & Ek);
      [discriminate|]. exact (Hs es0 Hy).
Qed.

(** ** The whole run *)

Lemma run_keeps_skipped w w' cfg name ns ms d :
  Fs.wf (tree w) = true ->
  Fs.lookup (tree w) (cs ++ ["package.json"]) = Some (File (Json cfg)) ->
  (forall name, In name (declared_names cfg) ->
     exists ns ms, package_name name ns ms) ->
  In name (declared_names cfg) -> package_name name ns ms ->
  up_to_date cs (tree w) ns ->
  Fs.lookup (tree w) (pcs ++ ns) = Some (Dir d) ->
  sync cwd w = Done tt w' ->
  Fs.lookup (tree w') (pcs ++ ns) = Some (Dir d).
Proof.
  intros Hw Hcfg Hnames Hin Hn U Hd. unfold cwd.
  rewrite (sync_unfold cs cs_valid w cfg Hcfg). fold cwd.
  set (D := declared_names cfg) in *.
  unfold bind at 1.
  destruct (for_of D (phase1_step cwd) w) as [[] w1|] eqn:E1; [|discriminate].
  destruct (phase1_loop_done cs cs_valid D w w1 Hnames Hw E1) as (Hw1 & _).
  pose proof (phase1_loop_keeps D w w1 Hnames Hw E1 name ns ms Hn U) as K1.
  rewrite Hd in K1.
  unfold bind at 1. unfold phase2 at 1, bind at 1.
  destruct (getProjectPackageListing cwd w1) as [L w1'|] eqn:EL; [|discriminate].
  destruct (getProjectPackageListing_done cs cs_valid _ _ _ Hw1 EL)
    as (es1 & He1 & -> & ->).
  destruct (for_of (redundant D (installed_entries es1)) (phase2_step cwd) w1)
    as [[] w2|] eqn:E2; [|discriminate].
  assert (Hes1 : Fs.wf (Dir es1) = true) by (eapply wf_lookup; eassumption).
  assert (HR : forall n, In n (redundant D (installed_entries es1)) ->
               exists ns ms, package_name n ns ms).
  { intros n Hn'. apply in_redundant in Hn' as [Hn' _].
    apply listed_package_name in Hn' as (ns' & ms' & d' & Hp & _); eauto. }
  destruct (phase2_loop_done cs cs_valid _ w1 w2 HR E2) as (K2 & _).
  assert (Hw2 : Fs.wf (tree w2) = true) by now apply K2.
  assert (K2' : Fs.lookup (tree w2) (pcs ++ ns) = Some (Dir d)).
  { apply (phase2_loop_keeps _ w1 w2 HR E2 name ns ms d Hn); [|assumption].
    intros Hr. apply in_redundant in Hr as [_ Hr]. contradiction. }
  unfold phase3, bind at 1.
  destruct (getProjectPackageScopes cwd w2) as [S w2'|] eqn:ES; [|discriminate].
  destruct (getProjectPackageScopes_done cs cs_valid _ _ _ Hw2 ES)
    as (es2 & He2 & -> & ->).
  assert (Hes2 : Fs.wf (Dir es2) = true) by (eapply wf_lookup; eassumption).
  intros E3.
  assert (HS : forall s, In s (scope_directories es2) ->
               Path.valid_name s = true /\ Js.startsWith s "@" = true).
  { intros s Hs. apply in_scope_directories in Hs as [Hat [d' Hd']];
      [|now apply wf_dir in Hes2].
    split; [now apply (wf_entry _ _ _ Hes2 Hd') | assumption]. }
  exact (phase3_loop_keeps (scope_directories es2) w2 w' HS E3 name ns ms d Hn K2').
Qed.

End Skipped.

(** X13: a run leaves alone what it has no reason to touch. Take a
    project rooted at the absolute path of components [cs], a well-formed
    tree, a manifest whose dependencies go by plain or scoped names, and
    a declared package that is installed - a directory is at its
    destination - and that the version gate lets pass (it has no marker,
    or its installed metadata shows the version of the source). When the
    run returns, that directory is there exactly as it was, with all it
    contains: neither the installation of the other packages nor the
    removal of the redundant ones nor the pruning of the scopes has
    touched it. *)
Theorem X13_skipped_package_survives
    (cs : list string) (cfg : config) (t t1 : node) (l1 : list event)
    (name : string) (ns ms : list string) (d : list (string * node)) :
  valid_names cs ->
  Fs.wf t = true ->
  Fs.lookup t (cs ++ ["package.json"]) = Some (File (Json cfg)) ->
  (forall name, In name (declared_names cfg) ->
     exists ns ms, package_name name ns ms) ->
  In name (declared_names cfg) -> package_name name ns ms ->
  up_to_date cs t ns ->
  Fs.lookup t (packagesPath cs ++ ns) = Some (Dir d) ->
  run (Path.absolute cs) t = Done tt (mkWorld t1 l1) ->
  Fs.lookup t1 (packagesPath cs ++ ns) = Some (Dir d).
Proof.
  intros Hcs Hw Hcfg Hnames Hin Hn U Hd Hrun.
  exact (run_keeps_skipped cs Hcs (mkWorld t []) (mkWorld t1 l1) cfg name ns ms d
           Hw Hcfg Hnames Hin Hn U Hd Hrun).
Qed.

Lemma X13_skipped_package_survives_witness :
  Fs.lookup (tree (Examples.after_run Examples.current_project))
    (packagesPath ["proj"] ++ ["alpha"])
  = Some (Dir [("package.json", Examples.unity "1.0.0");
               ("stale.cs", Examples.text "old")]).
Proof.
  apply (X13_skipped_package_survives ["proj"] Examples.busy_manifest
           Examples.current_project
           (tree (Examples.after_run Examples.current_project))
           (log (Examples.after_run Examples.current_project))
           "alpha" ["alpha"] ["alpha" ++ ".meta"]).
  - repeat constructor.
  - vm_compute. reflexivity.
  - vm_compute. reflexivity.
  - intros name [<-|[<-|[]]].
    + exists ["alpha"], ["alpha" ++ ".meta"]. now apply plain_name.
    + exists ["lodash"], ["lodash" ++ ".meta"]. now apply plain_name.
  - vm_compute. auto.
  - now apply plain_name.
  - intros c Hc Hm. vm_compute in Hc. injection Hc as <-.
    exists (mkConfig (Some "1.0.0") (Some ["unity3d"; "unity3d-package"]) None).
    split; vm_compute; reflexivity.
  - vm_compute. reflexivity.
  - vm_compute. reflexivity.
Defined.

(* ================================================================== *)
(** * Further properties: phase 2 and phase 3 together *)
(* ================================================================== *)

Section ScopeGone.

Variable cs : list string.
Hypothesis cs_valid : valid_names cs.

Let cwd := Path.absolute cs.
Let pcs := packagesPath cs.

(** Neither a package nor its sidecar is a scope directory or lies
    above one. *)
Lemma scope_not_below name ns ms s :
  package_name name ns ms -> Js.startsWith s "@" = true ->
  Fs.is_prefix ns [s] = false /\ Fs.is_prefix ms [s] = false.
Proof.
  intros Hn Hat. destruct Hn as [x Hx Hs|s' c Hs' Hat' Hc]; simpl.
  - split.
    + destruct (String.eqb_spec x s) as [->|]; [congruence | reflexivity].
    + destruct (String.eqb_spec (x ++ ".meta") s) as [<-|]; [|reflexivity].
      rewrite startsWith_meta in Hat by now apply valid_name_nonempty.
      congruence.
  - split; destruct (s' =? s); reflexivity.
Qed.

Lemma phase2_loop_gone names :
  forall w w',
    (forall name, In name names -> exists ns ms, package_name name ns ms) ->
    for_of names (phase2_step cwd) w = Done tt w' ->
    forall name ns ms,
      In name names -> package_name name ns ms ->
      Fs.lookup (tree w') (pcs ++ ns) = None
      /\ Fs.lookup (tree w') (pcs ++ ms) = None.
Proof.
  induction names as [|name0 names IH]; intros w w' Hnames Hrun name ns ms Hin Hn.
  - destruct Hin.
  - cbn [for_of] in Hrun. unfold bind in Hrun.
    destruct (phase2_step cwd name0 w) as [[] w1|] eqn:E1; [|discriminate].
    assert (Hnames' : forall n, In n names -> exists ns ms, package_name n ns ms)
      by (intros; apply Hnames; now right).
    destruct Hin as [->|Hin]; [|now apply (IH w1 w' Hnames' Hrun name)].
    destruct (phase2_step_done cs cs_valid name ns ms w w1 Hn E1) as [T1 _].
    destruct (phase2_loop_done cs cs_valid names w1 w' Hnames' Hrun) as (K & _).
    destruct (dropped_gone cs cs_valid ns ms (tree w)) as [G1 G2].
    rewrite <- T1 in G1, G2.
    split; apply (keeps_none cs _ _ _ K); assumption.
Qed.

Lemma phase2_loop_keeps_scope names :
  forall w w',
    (forall name, In name names -> exists ns ms, package_name name ns ms) ->
    for_of names (phase2_step cwd) w = Done tt w' ->
    forall s es,
      Js.startsWith s "@" = true ->
      Fs.lookup (tree w) (pcs ++ [s]) = Some (Dir es) ->
      exists es', Fs.lookup (tree w') (pcs ++ [s]) = Some (Dir es').
Proof.
  induction names as [|name0 names IH]; intros w w' Hnames Hrun s es Hat He.
  - injection Hrun as <-. eauto.
  - cbn [for_of] in Hrun. unfold bind in Hrun.
    destruct (phase2_step cwd name0 w) as [[] w1|] eqn:E1; [|discriminate].
    destruct (Hnames name0 (or_introl eq_refl)) as (ns0 & ms0 & Hn0).
    destruct (phase2_step_done cs cs_valid name0 ns0 ms0 w w1 Hn0 E1) as [T1 _].
    destruct (scope_not_below name0 ns0 ms0 s Hn0 Hat) as [P1 P2].
    destruct (remove_keeps_dir (pcs ++ [s]) (pcs ++ ns0) (tree w) es He)
      as [es1 H1]; [now rewrite is_prefix_app_same|].
    destruct (remove_keeps_dir (pcs ++ [s]) (pcs ++ ms0) _ es1 H1)
      as [es2 H2]; [now rewrite is_prefix_app_same|].
    apply (IH w1 w' (fun n Hin => Hnames n (or_intror Hin)) Hrun s es2 Hat).
    rewrite T1. exact H2.
Qed.

Lemma phase3_loop_prunes scopes :
  forall w w',
    (forall s, In s scopes -> Path.valid_name s = true) ->
    for_of scopes (phase3_step cwd) w = Done tt w' ->
    forall s,
      In s scopes ->
      Fs.lookup (tree w) (pcs ++ [s]) = Some (Dir []) ->
      Fs.lookup (tree w') (pcs ++ [s]) = None
      /\ Fs.lookup (tree w') (pcs ++ [s ++ ".meta"]) = None.
Proof.
  induction scopes as [|s0 scopes IH]; intros w w' Hv Hrun s Hin He.
  - destruct Hin.
  - cbn [for_of] in Hrun. unfold bind in Hrun.
    destruct (phase3_step cwd s0 w) as [[] w1|] eqn:E1; [|discriminate].
    assert (Hv' : forall x, In x scopes -> Path.valid_name x = true)
      by (intros; apply Hv; now right).
    destruct (phase3_loop_done cs cs_valid scopes w1 w' Hv' Hrun) as (K & _).
    destruct (phase3_step_done cs cs_valid s0 w w1 (Hv s0 (or_introl eq_refl)) E1)
      as [[T1 H0]|(T1 & H0 & Hs)].
    + destruct Hin as [->|Hin]; [contradiction|].
      apply (IH w1 w' Hv' Hrun s Hin). now rewrite T1.
    + destruct (String.eqb_spec s0 s) as [->|Hne].
      * destruct (dropped_gone cs cs_valid [s] [s ++ ".meta"] (tree w)) as [G1 G2].
        rewrite <- T1 in G1, G2.
        split; apply (keeps_none cs _ _ _ K); assumption.
      * destruct Hin as [E|Hin]; [contradiction|].
        apply (IH w1 w' Hv' Hrun s Hin). rewrite T1. unfold dropped. fold pcs.
        assert (A : Fs.lookup (Fs.remove (pcs ++ [s0]) (tree w)) (pcs ++ [s])
                    = Some (Dir [])).
        { rewrite lookup_remove_apart; [assumption|].
          apply apart_app_same. now apply apart_heads. }
        destruct (String.eqb_spec (s0 ++ ".meta") s) as [<-|Hm].
        -- exfalso. exact (Hs _ He).
        -- rewrite lookup_remove_apart; [assumption|].
           apply apart_app_same. now apply apart_heads.
Qed.

(** A scope all of whose entries are redundant packages and their
    sidecars is gone after phases 2 and 3. *)
Lemma redundant_scope_gone declared w w' es s ss :
  Fs.wf (tree w) = true ->
  Fs.lookup (tree w) pcs = Some (Dir es) ->
  Path.valid_name s = true -> Js.startsWith s "@" = true ->
  Fs.lookup (tree w) (pcs ++ [s]) = Some (Dir ss) ->
  (forall k n, In (k, n) ss ->
     (Fs.is_dir n = true /\ ~ In (s ++ "/" ++ k) declared)
     \/ (exists c d, k = c ++ ".meta" /\ In (c, Dir d) ss
                     /\ ~ In (s ++ "/" ++ c) declared)) ->
  (phase2 cwd declared ;; phase3 cwd) w = Done tt w' ->
  Fs.lookup (tree w') (pcs ++ [s]) = None
  /\ Fs.lookup (tree w') (pcs ++ [s ++ ".meta"]) = None.
Proof.
  intros Hw He Hs Hat Hss Hall.
  assert (Hes : Fs.wf (Dir es) = true) by exact (wf_lookup _ _ _ Hw He).
  assert (Hwss : Fs.wf (Dir ss) = true) by exact (wf_lookup _ _ _ Hw Hss).
  pose proof Hwss as Hwss'. apply wf_dir in Hwss' as (Hnd & _ & _).
  unfold bind at 1. unfold cwd at 1.
  rewrite (phase2_listing cs w es declared cs_valid Hw He). fold cwd.
  destruct (for_of (redundant declared (installed_entries es)) (phase2_step cwd) w)
    as [[] w2|] eqn:E2; [|discriminate].
  assert (HR : forall n, In n (redundant declared (installed_entries es)) ->
               exists ns ms, package_name n ns ms).
  { intros n Hn'. apply in_redundant in Hn' as [Hn' _].
    apply listed_package_name in Hn' as (ns' & ms' & d' & Hp & _); eauto. }
  destruct (phase2_loop_done cs cs_valid _ w w2 HR E2) as (K2 & _).
  assert (Hw2 : Fs.wf (tree w2) = true) by now apply K2.
  (* every sub-directory of the scope is a redundant package *)
  assert (Hred : forall c d, In (c, Dir d) ss -> ~ In (s ++ "/" ++ c) declared ->
            Fs.lookup (tree w2) (pcs ++ [s; c]) = None
            /\ Fs.lookup (tree w2) (pcs ++ [s; c ++ ".meta"]) = None).
  { intros c d Hc Hnot.
    assert (Ec : Fs.entry c ss = Some (Dir d)) by now apply In_entry.
    destruct (wf_entry _ _ _ Hwss Ec) as [_ Hvc].
    assert (Hn : package_name (s ++ "/" ++ c) [s; c] [s; c ++ ".meta"])
      by now apply scoped_name.
    apply (phase2_loop_gone _ w w2 HR E2 (s ++ "/" ++ c)); [|assumption].
    apply in_redundant. split; [|assumption].
    apply (package_name_listed es _ [s; c] [s; c ++ ".meta"] d Hn).
    change [s; c] with (app [s] [c]).
    rewrite lookup_app in Hss. rewrite He in Hss.
    rewrite lookup_app, Hss. simpl. now rewrite Ec. }
  (* so the scope is empty after phase 2 *)
  destruct (phase2_loop_keeps_scope _ w w2 HR E2 s ss Hat Hss) as [ss2 Hss2].
  assert (Hempty : ss2 = []).
  { destruct ss2 as [|[k n] ss2]; [reflexivity|]. exfalso.
    assert (Hk : Fs.lookup (tree w2) (pcs ++ [s; k]) = Some n).
    { change [s; k] with (app [s] [k]). rewrite app_assoc, lookup_app, Hss2.
      simpl. now rewrite String.eqb_refl. }
    destruct K2 as (_ & Kind & _).
    destruct (Kind _ _ Hk) as (y & Hy & _).
    change [s; k] with (app [s] [k]) in Hy.
    rewrite app_assoc, lookup_app, Hss in Hy. simpl in Hy.
    destruct (Fs.entry k ss) as [y'|] eqn:Ek; [|discriminate].
    injection Hy as ->. apply entry_In in Ek.
    destruct (Hall k y Ek) as [[Hd Hnot]|(c & d & -> & Hc & Hnot)].
    - destruct y as [f|d]; [discriminate|].
      destruct (Hred k d Ek Hnot) as [G _]. congruence.
    - destruct (Hred c d Hc Hnot) as [_ G]. congruence. }
  subst ss2.
  (* and phase 3 prunes it *)
  unfold phase3, bind at 1.
  destruct (getProjectPackageScopes cwd w2) as [S w2'|] eqn:ES; [|discriminate].
  destruct (getProjectPackageScopes_done cs cs_valid _ _ _ Hw2 ES)
    as (es2 & He2 & -> & ->).
  assert (Hes2 : Fs.wf (Dir es2) = true) by (eapply wf_lookup; eassumption).
  intros E3.
  apply (phase3_loop_prunes (scope_directories es2) w2 w'); try assumption.
  - intros x Hx. apply in_scope_directories in Hx as [_ [d' Hd']];
      [|now apply wf_dir in Hes2].
    now apply (wf_entry _ _ _ Hes2 Hd').
  - apply in_scope_directories; [now apply wf_dir in Hes2|].
    split; [assumption|]. exists [].
    rewrite lookup_app in Hss2. fold pcs in He2. rewrite He2 in Hss2.
    simpl in Hss2. destruct (Fs.entry s es2); [now injection Hss2 as -> | discriminate].
Qed.

End ScopeGone.

(** X12: phases 2 and 3 together remove a scope that holds nothing but
    redundant packages. In a well-formed tree, for a scope directory
    every entry of which is either a directory whose scoped name is not
    declared or the sidecar (the name plus [.meta]) of such a directory:
    when phase 2 followed by phase 3 returns, the scope directory is gone
    and so is the sidecar of the scope. *)
Theorem X12_redundant_scope_is_removed
    (cs : list string) (declared : list string) (w w' : world)
    (es : list (string * node)) (s : string) (ss : list (string * node)) :
  valid_names cs ->
  Fs.wf (tree w) = true ->
  Fs.lookup (tree w) (packagesPath cs) = Some (Dir es) ->
  Path.valid_name s = true -> Js.startsWith s "@" = true ->
  Fs.lookup (tree w) (packagesPath cs ++ [s]) = Some (Dir ss) ->
  (forall k n, In (k, n) ss ->
     (Fs.is_dir n = true /\ ~ In (s ++ "/" ++ k) declared)
     \/ (exists c d, k = c ++ ".meta" /\ In (c, Dir d) ss
                     /\ ~ In (s ++ "/" ++ c) declared)) ->
  (phase2 (Path.absolute cs) declared ;; phase3 (Path.absolute cs)) w = Done tt w' ->
  Fs.lookup (tree w') (packagesPath cs ++ [s]) = None
  /\ Fs.lookup (tree w') (packagesPath cs ++ [s ++ ".meta"]) = None.
Proof.
  intros Hcs Hw He Hs Hat Hss Hall Hrun.
  exact (redundant_scope_gone cs Hcs declared w w' es s ss
           Hw He Hs Hat Hss Hall Hrun).
Qed.

Lemma X12_redundant_scope_is_removed_witness :
  Fs.lookup (tree (Examples.after_removal ["plain"] (Examples.project_scoped [])))
    (packagesPath ["proj"] ++ ["@org"]) = None
  /\ Fs.lookup (tree (Examples.after_removal ["plain"] (Examples.project_scoped [])))
       (packagesPath ["proj"] ++ ["@org" ++ ".meta"]) = None.
Proof.
  apply (X12_redundant_scope_is_removed ["proj"] ["plain"]
           (mkWorld (Examples.project_scoped []) [])
           (Examples.after_removal ["plain"] (Examples.project_scoped []))
           Examples.installed_scoped "@org"
           [("foo", Dir [("f.cs", Examples.text "f")]);
            ("foo.meta", Examples.text "meta")]).
  - repeat constructor.
  - vm_compute. reflexivity.
  - vm_compute. reflexivity.
  - reflexivity.
  - reflexivity.
  - vm_compute. reflexivity.
  - intros k n [[= <- <-]|[[= <- <-]|[]]].
    + left. split; [reflexivity|]. intros [E|[]]. discriminate.
    + right. exists "foo", [("f.cs", Examples.text "f")].
      split; [reflexivity|]. split; [now left|]. intros [E|[]]. discriminate.
  - vm_compute. reflexivity.
Defined.

(* ================================================================== *)
(** * Further properties: what a run installs *)
(* ================================================================== *)

Section Installed.

Variable cs : list string.
Hypothesis cs_valid : valid_names cs.

Let cwd := Path.absolute cs.
Let pcs := packagesPath cs.

Lemma mirrors_destination t t' t'' ns :
  Fs.lookup t'' (pcs ++ ns) = Fs.lookup t' (pcs ++ ns) ->
  mirrors cs t t' ns -> mirrors cs t t'' ns.
Proof.
  intros E [F A].
  assert (B : forall r, Fs.lookup t'' (pcs ++ ns ++ r) = Fs.lookup t' (pcs ++ ns ++ r)).
  { intros r. rewrite !app_assoc.
    rewrite (lookup_app t'' (pcs ++ ns) r), (lookup_app t' (pcs ++ ns) r).
    now rewrite E. }
  split.
  - intros f d Hf Hd. fold pcs. rewrite B. now apply F.
  - intros k q Hk. fold pcs. rewrite B. now apply A.
Qed.

Lemma mirrors_source t0 t t' ns :
  (forall r, Fs.lookup t0 (modulePath cs ns ++ r)
             = Fs.lookup t (modulePath cs ns ++ r)) ->
  mirrors cs t0 t' ns -> mirrors cs t t' ns.
Proof.
  intros E [F A]. split.
  - intros f d Hf Hd. apply F; [assumption|]. now rewrite E.
  - intros k q Hk. rewrite <- E. apply A.
    destruct Hk as [Hk|Hk]; [now left | right; now rewrite E].
Qed.

Lemma target_at name ns w :
  relpath name ns -> valid_names ns ->
  at_path w (metadataPath (assetsTargetPath cwd name))
  = Fs.lookup (tree w) (pcs ++ ns ++ ["package.json"]).
Proof.
  intros Hr Vn. unfold cwd.
  rewrite (target_metadata_path cs cs_valid name ns Hr).
  apply at_path_absolute. now apply valid_target_metadata.
Qed.

(** The round of phase 1 for a stale package. *)
Lemma phase1_step_installs name ns ms w w1 c :
  package_name name ns ms -> Fs.wf (tree w) = true ->
  Fs.lookup (tree w) (modulePath cs ns ++ ["package.json"]) = Some (File (Json c)) ->
  has_marker c = true -> stale cs (tree w) ns c ->
  phase1_step cwd name w = Done tt w1 ->
  mirrors cs (tree w) (tree w1) ns.
Proof.
  intros Hn Hw Hc Hm Hst.
  destruct (package_name_relpath _ _ _ Hn) as [Hr _].
  destruct (package_name_valid _ _ _ Hn) as (Vn & _ & _).
  pose proof (source_at cs cs_valid name ns w Hr Vn) as Ps. fold cwd in Ps.
  pose proof (target_at name ns w Hr Vn) as Pt.
  pose proof (assetsTargetPath_absolute cs cs_valid name ns Hr) as Pa.
  fold cwd pcs in Pa.
  rewrite Hc in Ps.
  rewrite (phase1_step_replace cwd name w c Ps Hm).
  - unfold cwd at 1. rewrite (dependencyDir_absolute cs cs_valid name ns Hr).
    rewrite Pa. intros Hrun.
    destruct (installPackage_spec (modulePath cs ns) (pcs ++ ns)
                (modulePath_valid cs cs_valid ns Vn) (valid_target cs cs_valid ns Vn)
                (module_apart_packages cs ns ns)
                (validated (Path.absolute (pcs ++ ns)) w) w1 Hw Hrun)
      as (_ & _ & F & A).
    cbn [tree validated] in F, A. split.
    + intros f d Hf Hd. fold pcs. rewrite app_assoc. now apply F.
    + intros k q Hk. fold pcs. rewrite app_assoc. now apply A.
  - rewrite Pa. apply safe_below_packages.
  - rewrite Pt. exact Hst.
Qed.

Lemma phase1_loop_installs names :
  forall w w',
    (forall name, In name names -> exists ns ms, package_name name ns ms) ->
    Fs.wf (tree w) = true ->
    for_of names (phase1_step cwd) w = Done tt w' ->
    forall name ns ms c,
      In name names -> package_name name ns ms ->
      Fs.lookup (tree w) (modulePath cs ns ++ ["package.json"])
      = Some (File (Json c)) ->
      has_marker c = true -> stale cs (tree w) ns c ->
      mirrors cs (tree w) (tree w') ns.
Proof.
  induction names as [|name0 names IH];
    intros w w' Hnames Hw Hrun name ns ms c Hin Hn Hc Hm Hst.
  - destruct Hin.
  - cbn [for_of] in Hrun. unfold bind in Hrun.
    destruct (phase1_step cwd name0 w) as [[] w1|] eqn:E1; [|discriminate].
    destruct (Hnames name0 (or_introl eq_refl)) as (ns0 & ms0 & Hn0).
    destruct (phase1_step_done cs cs_valid name0 ns0 ms0 w w1 Hn0 Hw E1)
      as (_ & Hw1 & O1 & U1).
    assert (Hnames' : forall n, In n names -> exists ns ms, package_name n ns ms)
      by (intros; apply Hnames; now right).
    destruct (String.eqb_spec name0 name) as [->|Hne].
    + destruct (package_name_unique _ _ _ _ _ Hn0 Hn) as [-> _].
      pose proof (phase1_step_installs name ns ms w w1 c Hn Hw Hc Hm Hst E1) as M.
      apply (mirrors_destination _ (tree w1)); [|assumption].
      exact (phase1_loop_keeps cs cs_valid names w1 w' Hnames' Hw1 Hrun
               name ns ms Hn U1).
    + destruct Hin as [E|Hin]; [contradiction|].
      assert (A : apart ns0 ns) by (eapply package_names_apart; eassumption).
      assert (S1 : forall r, Fs.lookup (tree w1) (modulePath cs ns ++ r)
                             = Fs.lookup (tree w) (modulePath cs ns ++ r)).
      { intros r. apply (same_outside_packages cs ns0 w w1 O1).
        apply apart_packages_source. }
      assert (T1 : Fs.lookup (tree w1) (pcs ++ ns ++ ["package.json"])
                   = Fs.lookup (tree w) (pcs ++ ns ++ ["package.json"])).
      { apply O1. apply apart_app_same.
        rewrite <- (app_nil_r ns0). now apply apart_extend. }
      apply (mirrors_source (tree w1)); [exact S1|].
      apply (IH w1 w' Hnames' Hw1 Hrun name ns ms c Hin Hn); try assumption.
      * now rewrite S1.
      * unfold stale. fold pcs. rewrite T1. exact Hst.
Qed.

Lemma run_installs w w' cfg name ns ms c :
  Fs.wf (tree w) = true ->
  Fs.lookup (tree w) (cs ++ ["package.json"]) = Some (File (Json cfg)) ->
  (forall name, In name (declared_names cfg) ->
     exists ns ms, package_name name ns ms) ->
  In name (declared_names cfg) -> package_name name ns ms ->
  Fs.lookup (tree w) (modulePath cs ns ++ ["package.json"]) = Some (File (Json c)) ->
  has_marker c = true -> stale cs (tree w) ns c ->
  sync cwd w = Done tt w' ->
  mirrors cs (tree w) (tree w') ns.
Proof.
  intros Hw Hcfg Hnames Hin Hn Hc Hm Hst. unfold cwd.
  rewrite (sync_unfold cs cs_valid w cfg Hcfg). fold cwd.
  set (D := declared_names cfg) in *.
  unfold bind at 1.
  destruct (for_of D (phase1_step cwd) w) as [[] w1|] eqn:E1; [|discriminate].
  destruct (phase1_loop_done cs cs_valid D w w1 Hnames Hw E1) as (Hw1 & _).
  pose proof (phase1_loop_installs D w w1 Hnames Hw E1 name ns ms c
                Hin Hn Hc Hm Hst) as M1.
  (* the destination is a directory now *)
  assert (exists d, Fs.lookup (tree w1) (pcs ++ ns) = Some (Dir d)) as [d Hd].
  { destruct M1 as [F _].
    assert (Hp : Fs.lookup (tree w1) (pcs ++ ns ++ ["package.json"])
                 = Some (File (Json c)))
      by (apply F; [now left | assumption]).
    rewrite app_assoc in Hp.
    destruct (lookup_through_dir _ _ _ _ _ Hp) as (es & He & _). eauto. }
  unfold bind at 1. unfold phase2 at 1, bind at 1.
  destruct (getProjectPackageListing cwd w1) as [L w1'|] eqn:EL; [|discriminate].
  destruct (getProjectPackageListing_done cs cs_valid _ _ _ Hw1 EL)
    as (es1 & He1 & -> & ->).
  destruct (for_of (redundant D (installed_entries es1)) (phase2_step cwd) w1)
    as [[] w2|] eqn:E2; [|discriminate].
  assert (Hes1 : Fs.wf (Dir es1) = true) by exact (wf_lookup _ _ _ Hw1 He1).
  assert (HR : forall n, In n (redundant D (installed_entries es1)) ->
               exists ns ms, package_name n ns ms).
  { intros n Hn'. apply in_redundant in Hn' as [Hn' _].
    apply listed_package_name in Hn' as (ns' & ms' & d' & Hp & _); eauto. }
  destruct (phase2_loop_done cs cs_valid _ w1 w2 HR E2) as (K2 & _).
  assert (Hw2 : Fs.wf (tree w2) = true) by now apply K2.
  assert (K2' : Fs.lookup (tree w2) (pcs ++ ns) = Some (Dir d)).
  { apply (phase2_loop_keeps cs cs_valid _ w1 w2 HR E2 name ns ms d Hn);
      [|assumption].
    intros Hr. apply in_redundant in Hr as [_ Hr]. contradiction. }
  unfold phase3, bind at 1.
  destruct (getProjectPackageScopes cwd w2) as [S w2'|] eqn:ES; [|discriminate].
  destruct (getProjectPackageScopes_done cs cs_valid _ _ _ Hw2 ES)
    as (es2 & He2 & -> & ->).
  assert (Hes2 : Fs.wf (Dir es2) = true) by exact (wf_lookup _ _ _ Hw2 He2).
  intros E3.
  assert (HS : forall s, In s (scope_directories es2) ->
               Path.valid_name s = true /\ Js.startsWith s "@" = true).
  { intros s Hs. apply in_scope_directories in Hs as [Hat [d' Hd']];
      [|now apply wf_dir in Hes2].
    split; [now apply (wf_entry _ _ _ Hes2 Hd') | assumption]. }
  pose proof (phase3_loop_keeps cs cs_valid (scope_directories es2) w2 w' HS E3
                name ns ms d Hn K2') as K3.
  apply (mirrors_destination _ (tree w1)); [|assumption].
  fold pcs in K3. now rewrite K3, Hd.
Qed.

End Installed.

(** X14: what a run installs is what the source provides. Take a project
    rooted at the absolute path of components [cs], a well-formed tree, a
    manifest whose dependencies go by plain or scoped names, and a
    declared package with the marker that is stale: no metadata is
    installed for it, or metadata of another version. When the run
    returns, the destination of the package mirrors its source as the
    run found it: every extra file that the source has is there, and
    under every other name there is what the [assets] directory of the
    source holds under that name - nothing that was installed before is
    left, and nothing that phases 2 and 3 do has touched it. *)
Theorem X14_stale_package_is_mirrored
    (cs : list string) (cfg : config) (t t1 : node) (l1 : list event)
    (name : string) (ns ms : list string) (c : config) :
  valid_names cs ->
  Fs.wf t = true ->
  Fs.lookup t (cs ++ ["package.json"]) = Some (File (Json cfg)) ->
  (forall name, In name (declared_names cfg) ->
     exists ns ms, package_name name ns ms) ->
  In name (declared_names cfg) -> package_name name ns ms ->
  Fs.lookup t (modulePath cs ns ++ ["package.json"]) = Some (File (Json c)) ->
  has_marker c = true ->
  stale cs t ns c ->
  run (Path.absolute cs) t = Done tt (mkWorld t1 l1) ->
  mirrors cs t t1 ns.
Proof.
  intros Hcs Hw Hcfg Hnames Hin Hn Hc Hm Hst Hrun.
  exact (run_installs cs Hcs (mkWorld t []) (mkWorld t1 l1) cfg name ns ms c
           Hw Hcfg Hnames Hin Hn Hc Hm Hst Hrun).
Qed.

Lemma X14_stale_package_is_mirrored_witness :
  mirrors ["proj"] Examples.busy_project
    (tree (Examples.after_run Examples.busy_project)) ["alpha"].
Proof.
  apply (X14_stale_package_is_mirrored ["proj"] Examples.busy_manifest
           Examples.busy_project
           (tree (Examples.after_run Examples.busy_project))
           (log (Examples.after_run Examples.busy_project))
           "alpha" ["alpha"] ["alpha" ++ ".meta"]
           (mkConfig (Some "1.0.0") (Some ["unity3d"; "unity3d-package"]) None)).
  - repeat constructor.
  - vm_compute. reflexivity.
  - vm_compute. reflexivity.
  - intros name [<-|[<-|[]]].
    + exists ["alpha"], ["alpha" ++ ".meta"]. now apply plain_name.
    + exists ["lodash"], ["lodash" ++ ".meta"]. now apply plain_name.
  - vm_compute. auto.
  - now apply plain_name.
  - vm_compute. reflexivity.
  - vm_compute. reflexivity.
  - right. exists (mkConfig (Some "0.9.0") (Some ["unity3d"; "unity3d-package"]) None).
    split; [vm_compute; reflexivity | discriminate].
  - vm_compute. reflexivity.
Defined.

(* ================================================================== *)
(** * Further properties: the sidecars of the declared packages *)
(* ================================================================== *)

Section Sidecars.

Variable cs : list string.
Hypothesis cs_valid : valid_names cs.

Let cwd := Path.absolute cs.
Let pcs := packagesPath cs.

(** The sidecars of two different packages are apart. *)
Lemma sidecars_apart name ns ms name' ns' ms' :
  package_name name ns ms -> package_name name' ns' ms' ->
  name <> name' -> apart ms ms'.
Proof.
  intros H H' Hne.
  destruct H as [x Hx Hs|s c Hs Hat Hc];
    destruct H' as [x' Hx' Hs'|s' c' Hs' Hat' Hc'].
  - apply apart_heads. intros E. apply app_meta_inj in E. contradiction.
  - apply apart_heads. intros E. rewrite <- E in Hat'.
    rewrite startsWith_meta in Hat' by now apply valid_name_nonempty.
    congruence.
  - apply apart_heads. intros E. rewrite E in Hat.
    rewrite startsWith_meta in Hat by now apply valid_name_nonempty.
    congruence.
  - destruct (String.eqb_spec s s') as [->|N]; [|now apply apart_heads].
    apply (apart_app_same [s']). apply apart_heads.
    intros E. apply app_meta_inj in E. subst. now apply Hne.
Qed.

(** ** Phase 1 *)

(** A regular file where a package would go: the round returns only
    when it has nothing to install. *)
Lemma phase1_step_file_in_place name ns ms w w1 f :
  package_name name ns ms ->
  Fs.lookup (tree w) (pcs ++ ns) = Some (File f) ->
  phase1_step cwd name w = Done tt w1 -> tree w1 = tree w.
Proof.
  intros Hn Hf.
  destruct (package_name_relpath _ _ _ Hn) as [Hr _].
  destruct (package_name_valid _ _ _ Hn) as (Vn & _ & _).
  pose proof (source_at cs cs_valid name ns w Hr Vn) as Ps. fold cwd in Ps.
  pose proof (target_at cs cs_valid name ns w Hr Vn) as Pt. fold cwd pcs in Pt.
  pose proof (assetsTargetPath_absolute cs cs_valid name ns Hr) as Pa.
  fold cwd pcs in Pa.
  destruct (Fs.lookup (tree w) (modulePath cs ns ++ ["package.json"]))
    as [[[c|s]|es]|] eqn:Hc.
  - destruct (has_marker c) eqn:Hm.
    + rewrite (phase1_step_replace cwd name w c Ps Hm).
      * unfold cwd at 1. rewrite (dependencyDir_absolute cs cs_valid name ns Hr).
        rewrite Pa, installPackage_unfold. unfold bind at 1.
        rewrite emptyDirSync_run, at_path_validated.
        rewrite at_path_absolute by now apply valid_target.
        fold pcs. rewrite Hf. discriminate.
      * rewrite Pa. apply safe_below_packages.
      * left. rewrite Pt, app_assoc, lookup_app, Hf. reflexivity.
    + rewrite (phase1_step_unmarked cwd name w c Ps Hm). now intros [= <-].
  - intros E. destruct (phase1_step_unreadable cs name w) as (e & l & T);
      [intros cfg; fold cwd; rewrite Ps; discriminate|].
    fold cwd in T. congruence.
  - intros E. destruct (phase1_step_unreadable cs name w) as (e & l & T);
      [intros cfg; fold cwd; rewrite Ps; discriminate|].
    fold cwd in T. congruence.
  - intros E. destruct (phase1_step_unreadable cs name w) as (e & l & T);
      [intros cfg; fold cwd; rewrite Ps; discriminate|].
    fold cwd in T. congruence.
Qed.

Lemma phase1_loop_keeps_sidecar names :
  forall w w',
    (forall name, In name names -> exists ns ms, package_name name ns ms) ->
    Fs.wf (tree w) = true ->
    for_of names (phase1_step cwd) w = Done tt w' ->
    forall name ns ms f,
      package_name name ns ms ->
      Fs.lookup (tree w) (pcs ++ ms) = Some (File f) ->
      Fs.lookup (tree w') (pcs ++ ms) = Some (File f).
Proof.
  induction names as [|name0 names IH];
    intros w w' Hnames Hw Hrun name ns ms f Hn Hf.
  - now injection Hrun as <-.
  - cbn [for_of] in Hrun. unfold bind in Hrun.
    destruct (phase1_step cwd name0 w) as [[] w1|] eqn:E1; [|discriminate].
    destruct (Hnames name0 (or_introl eq_refl)) as (ns0 & ms0 & Hn0).
    destruct (phase1_step_done cs cs_valid name0 ns0 ms0 w w1 Hn0 Hw E1)
      as (_ & Hw1 & O1 & _).
    apply (IH w1 w' (fun n Hin => Hnames n (or_intror Hin)) Hw1 Hrun name ns ms f Hn).
    destruct (package_sidecar_apart name0 ns0 ms0 name ns ms Hn0 Hn) as [E|A].
    + subst ns0.
      now rewrite (phase1_step_file_in_place name0 ms ms0 w w1 f Hn0 Hf E1).
    + rewrite <- Hf. apply O1. now apply apart_app_same.
Qed.

(** ** Phase 2 *)

Lemma phase2_loop_keeps_sidecar names :
  forall w w',
    (forall name, In name names -> exists ns ms, package_name name ns ms) ->
    for_of names (phase2_step cwd) w = Done tt w' ->
    forall name ns ms f,
      package_name name ns ms -> ~ In name names ->
      (forall name0 ns0 ms0, In name0 names -> package_name name0 ns0 ms0 ->
         ns0 <> ms) ->
      Fs.lookup (tree w) (pcs ++ ms) = Some (File f) ->
      Fs.lookup (tree w') (pcs ++ ms) = Some (File f).
Proof.
  induction names as [|name0 names IH];
    intros w w' Hnames Hrun name ns ms f Hn Hnot Hdiff Hf.
  - now injection Hrun as <-.
  - cbn [for_of] in Hrun. unfold bind in Hrun.
    destruct (phase2_step cwd name0 w) as [[] w1|] eqn:E1; [|discriminate].
    destruct (Hnames name0 (or_introl eq_refl)) as (ns0 & ms0 & Hn0).
    destruct (phase2_step_done cs cs_valid name0 ns0 ms0 w w1 Hn0 E1) as [T1 _].
    apply (IH w1 w' (fun n Hin => Hnames n (or_intror Hin)) Hrun name ns ms f Hn);
      [intros Hin; apply Hnot; now right
      |intros n0 a b Hin; apply Hdiff; now right|].
    assert (Hne : name0 <> name) by (intros ->; apply Hnot; now left).
    rewrite T1. unfold dropped. fold pcs.
    rewrite lookup_remove_apart;
      [|apply apart_app_same; eapply sidecars_apart; eassumption].
    rewrite lookup_remove_apart; [assumption|]. apply apart_app_same.
    destruct (package_sidecar_apart name0 ns0 ms0 name ns ms Hn0 Hn) as [E|A];
      [|assumption].
    exfalso. exact (Hdiff name0 ns0 ms0 (or_introl eq_refl) Hn0 E).
Qed.

(** ** Phase 3 *)

Lemma scope_not_sidecar s name ns ms t x :
  Path.valid_name s = true -> Js.startsWith s "@" = true ->
  package_name name ns ms ->
  Fs.lookup t (pcs ++ ms) = Some x ->
  (forall e d, Fs.lookup t (pcs ++ [s]) <> Some (Dir (e :: d))) ->
  apart [s] ms.
Proof.
  intros Hs Hat Hn Hx H0.
  destruct Hn as [y Hy Hsy|s' c Hs' Hat' Hc].
  - apply apart_heads. intros ->.
    rewrite startsWith_meta in Hat by now apply valid_name_nonempty.
    congruence.
  - destruct (String.eqb_spec s s') as [<-|N]; [|now apply apart_heads].
    exfalso. change [s; c ++ ".meta"] with (app [s] [c ++ ".meta"]) in Hx.
    rewrite app_assoc in Hx.
    destruct (lookup_through_dir _ _ _ _ _ Hx) as (es & He & Hin).
    destruct es as [|e es]; [destruct Hin|]. exact (H0 e es He).
Qed.

Lemma scope_sidecar_not_sidecar s name ns ms t x :
  Path.valid_name s = true -> Js.startsWith s "@" = true ->
  package_name name ns ms ->
  Fs.lookup t (pcs ++ ms) = Some x ->
  not_a_directory t (pcs ++ [s ++ ".meta"]) ->
  apart [s ++ ".meta"] ms.
Proof.
  intros Hs Hat Hn Hx H0.
  destruct Hn as [y Hy Hsy|s' c Hs' Hat' Hc].
  - apply apart_heads. intros E. apply app_meta_inj in E. subst. congruence.
  - destruct (String.eqb_spec (s ++ ".meta") s') as [<-|N];
      [|now apply apart_heads].
    exfalso.
    change [s ++ ".meta"; c ++ ".meta"]
      with (app [s ++ ".meta"] [c ++ ".meta"]) in Hx.
    rewrite app_assoc in Hx.
    destruct (lookup_through_dir _ _ _ _ _ Hx) as (es & He & _).
    exact (H0 es He).
Qed.

Lemma phase3_loop_keeps_sidecar scopes :
  forall w w',
    (forall s, In s scopes ->
       Path.valid_name s = true /\ Js.startsWith s "@" = true) ->
    for_of scopes (phase3_step cwd) w = Done tt w' ->
    forall name ns ms f,
      package_name name ns ms ->
      Fs.lookup (tree w) (pcs ++ ms) = Some (File f) ->
      Fs.lookup (tree w') (pcs ++ ms) = Some (File f).
Proof.
  induction scopes as [|s0 scopes IH]; intros w w' Hv Hrun name ns ms f Hn Hf.
  - now injection Hrun as <-.
  - cbn [for_of] in Hrun. unfold bind in Hrun.
    destruct (phase3_step cwd s0 w) as [[] w1|] eqn:E1; [|discriminate].
    destruct (Hv s0 (or_introl eq_refl)) as [Hs0 Hat0].
    apply (IH w1 w' (fun s Hin => Hv s (or_intror Hin)) Hrun name ns ms f Hn).
    destruct (phase3_step_done cs cs_valid s0 w w1 Hs0 E1)
      as [[T1 _]|(T1 & H0 & Hs)]; [now rewrite T1|].
    rewrite T1. unfold dropped. fold pcs.
    assert (A : Fs.lookup (Fs.remove (pcs ++ [s0]) (tree w)) (pcs ++ ms)
                = Some (File f)).
    { rewrite lookup_remove_apart; [assumption|]. apply apart_app_same.
      eapply scope_not_sidecar; eassumption. }
    rewrite lookup_remove_apart; [assumption|]. apply apart_app_same.
    apply (scope_sidecar_not_sidecar s0 name ns ms
             (Fs.remove (pcs ++ [s0]) (tree w)) (File f)); try assumption.
    intros es He. apply lookup_remove_kind in He as ([x|es0] & Hy & Ek);
      [discriminate|]. exact (Hs es0 Hy).
Qed.

(** ** The whole run *)

Lemma run_keeps_sidecar w w' cfg name ns ms f :
  Fs.wf (tree w) = true ->
  Fs.lookup (tree w) (cs ++ ["package.json"]) = Some (File (Json cfg)) ->
  (forall name, In name (declared_names cfg) ->
     exists ns ms, package_name name ns ms) ->
  In name (declared_names cfg) -> package_name name ns ms ->
  Fs.lookup (tree w) (pcs ++ ms) = Some (File f) ->
  sync cwd w = Done tt w' ->
  Fs.lookup (tree w') (pcs ++ ms) = Some (File f).
Proof.
  intros Hw Hcfg Hnames Hin Hn Hf. unfold cwd.
  rewrite (sync_unfold cs cs_valid w cfg Hcfg). fold cwd.
  set (D := declared_names cfg) in *.
  unfold bind at 1.
  destruct (for_of D (phase1_step cwd) w) as [[] w1|] eqn:E1; [|discriminate].
  destruct (phase1_loop_done cs cs_valid D w w1 Hnames Hw E1) as (Hw1 & _).
  pose proof (phase1_loop_keeps_sidecar D w w1 Hnames Hw E1 name ns ms f Hn Hf)
    as K1.
  unfold bind at 1. unfold phase2 at 1, bind at 1.
  destruct (getProjectPackageListing cwd w1) as [L w1'|] eqn:EL; [|discriminate].
  destruct (getProjectPackageListing_done cs cs_valid _ _ _ Hw1 EL)
    as (es1 & He1 & -> & ->).
  destruct (for_of (redundant D (installed_entries es1)) (phase2_step cwd) w1)
    as [[] w2|] eqn:E2; [|discriminate].
  assert (Hes1 : Fs.wf (Dir es1) = true) by exact (wf_lookup _ _ _ Hw1 He1).
  assert (HR : forall n, In n (redundant D (installed_entries es1)) ->
               exists ns ms, package_name n ns ms).
  { intros n Hn'. apply in_redundant in Hn' as [Hn' _].
    apply listed_package_name in Hn' as (ns' & ms' & d' & Hp & _); eauto. }
  destruct (phase2_loop_done cs cs_valid _ w1 w2 HR E2) as (K2 & _).
  assert (Hw2 : Fs.wf (tree w2) = true) by now apply K2.
  assert (K2' : Fs.lookup (tree w2) (pcs ++ ms) = Some (File f)).
  { apply (phase2_loop_keeps_sidecar _ w1 w2 HR E2 name ns ms f Hn);
      [| |assumption].
    - intros Hr. apply in_redundant in Hr as [_ Hr]. contradiction.
    - intros name0 ns0 ms0 Hin0 Hn0 E. subst ns0.
      apply in_redundant in Hin0 as [Hin0 _].
      destruct (listed_package_name es1 name0 Hes1 Hin0)
        as (ns' & ms' & d' & Hp & Hd').
      destruct (package_name_unique _ _ _ _ _ Hn0 Hp) as [<- _].
      fold pcs in He1. rewrite lookup_app, He1, Hd' in K1. discriminate. }
  unfold phase3, bind at 1.
  destruct (getProjectPackageScopes cwd w2) as [S w2'|] eqn:ES; [|discriminate].
  destruct (getProjectPackageScopes_done cs cs_valid _ _ _ Hw2 ES)
    as (es2 & He2 & -> & ->).
  assert (Hes2 : Fs.wf (Dir es2) = true) by exact (wf_lookup _ _ _ Hw2 He2).
  intros E3.
  assert (HS : forall s, In s (scope_directories es2) ->
               Path.valid_name s = true /\ Js.startsWith s "@" = true).
  { intros s Hs. apply in_scope_directories in Hs as [Hat [d' Hd']];
      [|now apply wf_dir in Hes2].
    split; [now apply (wf_entry _ _ _ Hes2 Hd') | assumption]. }
  exact (phase3_loop_keeps_sidecar (scope_directories es2) w2 w' HS E3
           name ns ms f Hn K2').
Qed.

End Sidecars.

(** X15: the sidecar of a declared package outlives the run. Take a
    project rooted at the absolute path of components [cs], a well-formed
    tree and a manifest whose dependencies go by plain or scoped names.
    The [.meta] file that is beside the destination of a declared package
    when the run starts is there, with the same contents, when the run
    returns - whether the package was skipped or installed again, and
    whatever phases 2 and 3 removed. *)
Theorem X15_sidecar_of_declared_package_survives
    (cs : list string) (cfg : config) (t t1 : node) (l1 : list event)
    (name : string) (ns ms : list string) (f : content) :
  valid_names cs ->
  Fs.wf t = true ->
  Fs.lookup t (cs ++ ["package.json"]) = Some (File (Json cfg)) ->
  (forall name, In name (declared_names cfg) ->
     exists ns ms, package_name name ns ms) ->
  In name (declared_names cfg) -> package_name name ns ms ->
  Fs.lookup t (packagesPath cs ++ ms) = Some (File f) ->
  run (Path.absolute cs) t = Done tt (mkWorld t1 l1) ->
  Fs.lookup t1 (packagesPath cs ++ ms) = Some (File f).
Proof.
  intros Hcs Hw Hcfg Hnames Hin Hn Hf Hrun.
  exact (run_keeps_sidecar cs Hcs (mkWorld t []) (mkWorld t1 l1) cfg name ns ms f
           Hw Hcfg Hnames Hin Hn Hf Hrun).
Qed.

Lemma X15_sidecar_of_declared_package_survives_witness :
  Fs.lookup (tree (Examples.after_run Examples.sidecar_project))
    (packagesPath ["proj"] ++ ["alpha" ++ ".meta"])
  = Some (File (Text "guid: 1f")).
Proof.
  apply (X15_sidecar_of_declared_package_survives ["proj"] Examples.busy_manifest
           Examples.sidecar_project
           (tree (Examples.after_run Examples.sidecar_project))
           (log (Examples.after_run Examples.sidecar_project))
           "alpha" ["alpha"] ["alpha" ++ ".meta"]).
  - repeat constructor.
  - vm_compute. reflexivity.
  - vm_compute. reflexivity.
  - intros name [<-|[<-|[]]].
    + exists ["alpha"], ["alpha" ++ ".meta"]. now apply plain_name.
    + exists ["lodash"], ["lodash" ++ ".meta"]. now apply plain_name.
  - vm_compute. auto.
  - now apply plain_name.
  - vm_compute. reflexivity.
  - vm_compute. reflexivity.
Defined.

(* ================================================================== *)
(** * Further properties: what the guard lets pass *)
(* ================================================================== *)

Lemma split_segments_clean (p : string) :
  valid_names (Path.components p) ->
  forall s, In s (Js.split p) -> s = "" \/ Path.valid_name s = true.
Proof.
  intros H s Hs. destruct (String.eqb_spec s "") as [->|Hne]; [now left | right].
  unfold valid_names in H. rewrite Forall_forall in H. apply H.
  unfold Path.components. rewrite filter_In. split; [assumption|].
  unfold Js.nonempty. destruct (String.eqb_spec s ""); [contradiction | reflexivity].
Qed.

(** [path.resolve] of an absolute directory and [../y]: the last
    component is replaced by [y]. *)
Lemma resolve_sibling (cwd : string) (l : list string) (k y : string) :
  valid_names l -> Path.valid_name k = true -> Path.valid_name y = true ->
  Path.resolve cwd [Path.absolute (l ++ [k]); ".." ++ "/" ++ y]
  = Path.absolute (l ++ [y]).
Proof.
  intros Hl Hk Hy.
  assert (Hlk : valid_names (l ++ [k]))
    by (apply Forall_app; split; [assumption | now repeat constructor]).
  destruct (valid_name_inv _ Hk) as (_ & _ & Hk2 & _).
  destruct (valid_name_inv _ Hy) as (_ & _ & _ & Hys).
  assert (R3 : Js.split (".." ++ "/" ++ y) = [".."; y]).
  { rewrite (split_app_slash ".." y), (split_no_slash y Hys). reflexivity. }
  remember (".." ++ "/" ++ y) as r eqn:Er.
  assert (R1 : (r =? "") = false) by (subst r; reflexivity).
  assert (R2 : Path.isAbsolute r = false) by (subst r; reflexivity).
  unfold Path.resolve. simpl rev. unfold Path.resolve_scan. rewrite R1, R2.
  change (Path.absolute (l ++ [k]) =? "") with false. cbv iota.
  change (Path.isAbsolute (Path.absolute (l ++ [k]))) with true. cbv iota.
  simpl negb. unfold Path.normalizeString.
  rewrite split_app_slash, fold_left_app.
  rewrite (fold_step_clean false (Js.split (Path.absolute (l ++ [k]))) [])
    by (apply split_segments_clean; now rewrite components_absolute).
  fold (Path.components (Path.absolute (l ++ [k]))).
  rewrite components_absolute, app_nil_r, rev_app_distr by assumption.
  cbn [rev app].
  rewrite split_app_slash, R3.
  change (Js.split "") with [""].
  cbn [app fold_left].
  assert (S1 : Path.step false (k :: rev l) ".." = rev l).
  { unfold Path.step. cbn.
    destruct (String.eqb_spec k ".."); [contradiction | reflexivity]. }
  rewrite S1, (step_valid false _ y Hy).
  change (Path.step false (y :: rev l) "") with (y :: rev l).
  cbn [rev]. rewrite rev_involutive. reflexivity.
Qed.

(** [path.join] of an absolute directory, a name and [../y]: the name
    is dropped again and [y] takes its place. *)
Lemma join_sibling (l : list string) (k y : string) :
  valid_names l -> Path.valid_name k = true -> Path.valid_name y = true ->
  Path.join [Path.absolute l; k; ".." ++ "/" ++ y] = Path.absolute (l ++ [y])%list.
Proof.
  intros Hl Hk Hy.
  destruct (valid_name_inv _ Hk) as (Hk0 & _ & Hk2 & Hks).
  destruct (valid_name_inv _ Hy) as (Hy0 & _ & _ & Hys).
  assert (R3 : Js.split (".." ++ "/" ++ y) = [".."; y]).
  { rewrite (split_app_slash ".." y), (split_no_slash y Hys). reflexivity. }
  remember (".." ++ "/" ++ y) as r eqn:Er.
  assert (R1 : Js.nonempty r = true) by (subst r; reflexivity).
  assert (K1 : Js.nonempty k = true).
  { unfold Js.nonempty. destruct (String.eqb_spec k ""); [contradiction | reflexivity]. }
  assert (Tr : Path.trailingSeparator (Path.absolute l ++ "/" ++ k ++ "/" ++ r) = false).
  { rewrite trailing_app by discriminate.
    rewrite (trailing_app "/") by (destruct k; [contradiction | discriminate]).
    rewrite trailing_app by discriminate.
    rewrite (trailing_app "/") by (subst r; discriminate).
    subst r. rewrite trailing_app by discriminate.
    rewrite (trailing_app "/") by assumption.
    apply (trailing_concat [y]); [discriminate | now repeat constructor]. }
  assert (Hly : valid_names (l ++ [y])%list) by now apply valid_snoc.
  unfold Path.join. cbn [filter].
  change (Js.nonempty (Path.absolute l)) with true. cbn iota.
  rewrite K1, R1.
  change (String.concat "/" [Path.absolute l; k; r])
    with (Path.absolute l ++ "/" ++ k ++ "/" ++ r).
  unfold Path.normalize.
  change (Path.absolute l ++ "/" ++ k ++ "/" ++ r =? "") with false. cbv iota.
  change (Path.isAbsolute (Path.absolute l ++ "/" ++ k ++ "/" ++ r)) with true.
  cbn [negb]. rewrite Tr.
  assert (N : Path.normalizeString (Path.absolute l ++ "/" ++ k ++ "/" ++ r) false
              = String.concat "/" (l ++ [y])%list).
  { unfold Path.normalizeString.
    rewrite split_app_slash, fold_left_app.
    rewrite (fold_step_clean false (Js.split (Path.absolute l)) [])
      by (apply split_segments_clean; now rewrite components_absolute).
    fold (Path.components (Path.absolute l)).
    rewrite components_absolute, app_nil_r by assumption.
    rewrite split_app_slash, R3, (split_no_slash k Hks).
    cbn [app fold_left].
    rewrite (step_valid false _ k Hk).
    assert (S1 : Path.step false (k :: rev l) ".." = rev l).
    { unfold Path.step. cbn.
      destruct (String.eqb_spec k ".."); [contradiction | reflexivity]. }
    rewrite S1, (step_valid false _ y Hy).
    cbn [rev]. now rewrite rev_involutive. }
  rewrite N.
  destruct (concat_valid_nonempty (l ++ [y])) as (c & s & E & _);
    [now destruct l | assumption |].
  rewrite E. cbn [String.eqb]. rewrite <- E. reflexivity.
Qed.

(** X16: the guard tests for a substring, so it lets a sibling of the
    packages directory pass. For a project rooted at the absolute path of
    components [cs], the dependency name [../Packages] followed by a
    non-empty suffix is read from the directory of that name beside
    [node_modules], not inside it, and has its destination in the
    directory of that name beside the packages directory - a place apart
    from the packages directory - and the guard passes on it. When, in a
    well-formed tree, the metadata found at that source carries the
    marker, no metadata is installed at that destination and the round of
    phase 1 returns, the round has replaced the directory beside the
    packages directory: it holds the extra files of the source, and
    under every other name what the [assets] directory of the source
    holds under that name - whatever was in it before is gone. *)
Theorem X16_guard_passes_sibling_directory
    (cs : list string) (suffix : string) (w : world) :
  valid_names cs ->
  Path.valid_name ("Packages" ++ suffix) = true -> suffix <> "" ->
  let cwd := Path.absolute cs in
  let name := ".." ++ "/" ++ "Packages" ++ suffix in
  let src := app cs ["Packages" ++ suffix] in
  let sib := app cs ["Assets"; "Plugins"; "Packages" ++ suffix] in
  dependencyDir cwd name = Path.absolute src
  /\ assetsTargetPath cwd name = Path.absolute sib
  /\ apart (packagesPath cs) sib
  /\ validateProjectPackageDirectory (assetsTargetPath cwd name) w
     = Done tt (validated (assetsTargetPath cwd name) w)
  /\ (forall cfg w',
        Fs.wf (tree w) = true ->
        Fs.lookup (tree w) (src ++ ["package.json"]) = Some (File (Json cfg)) ->
        has_marker cfg = true ->
        Fs.lookup (tree w) (sib ++ ["package.json"]) = None ->
        phase1_step cwd name w = Done tt w' ->
        (forall f d, In f extraFiles ->
           Fs.lookup (tree w) (src ++ [f]) = Some (File d) ->
           Fs.lookup (tree w') (sib ++ [f]) = Some (File d))
        /\ (forall k q,
              ~ In k extraFiles \/ Fs.lookup (tree w) (src ++ [k]) = None ->
              Fs.lookup (tree w') (sib ++ k :: q)
              = Fs.lookup (tree w) (src ++ "assets" :: k :: q))).
Proof.
  intros Hcs Hv Hne cwd name src sib.
  assert (Vsrc : valid_names src) by now apply valid_snoc.
  assert (Vsib : valid_names sib).
  { apply Forall_app. split; [assumption | now repeat constructor]. }
  assert (Es : dependencyDir cwd name = Path.absolute src).
  { unfold dependencyDir, projectRootDir, cwd, name, src.
    now apply join_sibling. }
  assert (Et : assetsTargetPath cwd name = Path.absolute sib).
  { unfold assetsTargetPath, cwd, name, sib.
    rewrite (projectPackagesDir_absolute cs Hcs). unfold packagesPath.
    change (cs ++ ["Assets"; "Plugins"; "Packages"])%list
      with (cs ++ app ["Assets"; "Plugins"] ["Packages"])%list.
    rewrite app_assoc.
    rewrite (resolve_sibling _ (cs ++ ["Assets"; "Plugins"]) "Packages"
               ("Packages" ++ suffix)); try assumption.
    - now rewrite <- app_assoc.
    - apply Forall_app. split; [assumption | now repeat constructor].
    - reflexivity. }
  assert (Hs : safe (assetsTargetPath cwd name) = true).
  { rewrite Et. unfold safe, sib.
    assert (Ec : String.concat "/" ["Assets"; "Plugins"; "Packages" ++ suffix]
                 = PROJECT_RELATIVE_PACKAGES_PATH ++ suffix) by reflexivity.
    rewrite absolute_app by discriminate. rewrite Ec.
    rewrite <- string_app_assoc. apply includes_app. }
  split; [exact Es|]. split; [exact Et|]. split; [|split].
  - unfold packagesPath, sib. apply apart_app_same.
    apply (apart_app_same ["Assets"; "Plugins"]). apply apart_heads.
    intros E. apply Hne.
    change "Packages" with ("Packages" ++ "") in E at 1.
    apply string_app_inv_head in E. now symmetry.
  - now rewrite validate_run, Hs.
  - intros cfg w' Hw Hc Hm Hn.
    assert (Hap : apart src sib).
    { unfold src, sib. apply apart_app_same. apply apart_heads. discriminate. }
    assert (Pc : at_path w (metadataPath (dependencyDir cwd name))
                 = Some (File (Json cfg))).
    { rewrite Es. unfold metadataPath.
      rewrite (join_absolute src "package.json" ["package.json"] Vsrc)
        by now apply relpath_name.
      rewrite at_path_absolute; [assumption | now apply valid_snoc]. }
    assert (Pn : at_path w (metadataPath (assetsTargetPath cwd name)) = None).
    { rewrite Et. unfold metadataPath.
      rewrite (join_absolute sib "package.json" ["package.json"] Vsib)
        by now apply relpath_name.
      rewrite at_path_absolute; [assumption | now apply valid_snoc]. }
    rewrite (phase1_step_replace cwd name w cfg Pc Hm Hs (or_introl Pn)).
    rewrite Es, Et. intros Hrun.
    destruct (installPackage_spec src sib Vsrc Vsib Hap
                (validated (Path.absolute sib) w) w' Hw Hrun)
      as (_ & _ & F & A).
    cbn [tree validated] in F, A. split; assumption.
Qed.

Lemma X16_guard_passes_sibling_directory_witness :
  let cwd := Path.absolute ["proj"] in
  let name := ".." ++ "/" ++ "Packages" ++ "Old" in
  let src := app ["proj"] ["Packages" ++ "Old"] in
  let sib := app ["proj"] ["Assets"; "Plugins"; "Packages" ++ "Old"] in
  let w := mkWorld Examples.sibling_project [] in
  let w' := Examples.after_round name Examples.sibling_project in
  dependencyDir cwd name = Path.absolute src
  /\ assetsTargetPath cwd name = Path.absolute sib
  /\ apart (packagesPath ["proj"]) sib
  /\ validateProjectPackageDirectory (assetsTargetPath cwd name) w
     = Done tt (validated (assetsTargetPath cwd name) w)
  /\ (forall f d, In f extraFiles ->
        Fs.lookup (tree w) (src ++ [f]) = Some (File d) ->
        Fs.lookup (tree w') (sib ++ [f]) = Some (File d))
  /\ (forall k q,
        ~ In k extraFiles \/ Fs.lookup (tree w) (src ++ [k]) = None ->
        Fs.lookup (tree w') (sib ++ k :: q)
        = Fs.lookup (tree w) (src ++ "assets" :: k :: q)).
Proof.
  intros cwd name src sib w w'.
  destruct (X16_guard_passes_sibling_directory ["proj"] "Old" w)
    as (A & B & C & D & E).
  - repeat constructor.
  - reflexivity.
  - discriminate.
  - split; [exact A|]. split; [exact B|]. split; [exact C|]. split; [exact D|].
    apply (E (mkConfig (Some "1.0.0") (Some ["unity3d"; "unity3d-package"]) None) w').
    + vm_compute. reflexivity.
    + vm_compute. reflexivity.
    + vm_compute. reflexivity.
    + vm_compute. reflexivity.
    + vm_compute. reflexivity.
Defined.
